(* ===== verification/_CoqProject ===== *)
-Q . S2P
Prelude.v
Errors.v
Oids.v
Values.v
Ber.v
BerWriter.v
BerReader.v
BerRoundtrip.v
Pdu.v
Usm.v
V3Message.v
Unencodable.v
Echo.v
FuzzTargets.v
Client.v
Engines.v
Coroutine.v
Strand.v
Exchange.v
Requests.v
Walk.v
System.v
Liveness.v
Operations.v
Examples.v
Runs.v
Agent.v
AgentTheory.v
Composition.v
V3Composition.v
Scenarios.v
Oracle.v
OracleTheory.v
Dialogues.v
