(* ===== verification/Prelude.v ===== *)
(** * A verification of snmpio

    snmpio is an asynchronous SNMP manager library: SNMPv2c and SNMPv3 with the
    User-based Security Model, on Asio coroutines.  This development models its
    implementation, from the octets up to the operations of [Client], and proves
    what a caller of those operations can count on.

    ** The program and the files that model it

    - [Errors]: [include/snmpio/Error.hpp], [src/Error.cpp] and the error category of
      [src/Pdu.cpp]: codes, categories, messages, [classify].
    - [Oids], [Values]: [Oid.hpp]/[Oid.cpp], [Value.hpp]/[Value.cpp].
    - [Ber], [BerWriter], [BerReader], [BerRoundtrip]: [ber/Tag.hpp], [ber/Writer.hpp],
      [ber/Reader.hpp] and their sources.  [Ber] also has the reference encoding both
      sides are proved against; the Reader's reference is the grammar of [p_*] parsers in
      [BerReader]; [BerRoundtrip] inverts one on the other.
    - [Pdu]: [Pdu.hpp]/[Pdu.cpp], the v2c message.  [Usm]: [Usm.hpp]/[Usm.cpp], keys,
      digests, privacy.  [V3Message]: [V3Message.hpp]/[V3Message.cpp].  [Unencodable]: what
      their encoders do with an Oid that has no encoding.
    - [Client], [Engines]: the state of [Client::Impl] in [src/Client.cpp] and what of it
      runs without suspending: [deliverV2c], [deliverV3], [timely], [observeEngineTime],
      [handleReport], the key cache, [nextId].
    - [Coroutine]: coroutines as trees of segments ([Co]), and a rely-guarantee logic for
      them ([wpc]).  [Strand]: the Client's invariant [ginv], what an operation may rely
      on while suspended ([rely]) and promises in its segments ([guar]); [stop],
      [finishStopping], cancellation signals.
    - [Exchange]: [socketFor], [transact], [doRequestV2c].  [Requests]: [ensureEngine],
      [runDiscovery], [discoverEngine], [doRequestV3], [doRequest].  [Walk]: [doWalk],
      [doWalkCollect].
    - [System]: a Client, the operations working on it and everything that can happen to
      it, as a transition system ([step], [reachable]), and a scheduler that runs it
      ([drive]).  [Liveness]: every operation ends.  [Operations]: the interface of
      [include/snmpio/Client.hpp] and the theorems about it.  [Scenarios]: concrete runs.
    - [Examples]: the six programs of [examples/], from their arguments to what they print.
    - [FuzzTargets]: the entry points of [fuzz/FuzzBer*.cpp], [fuzz/FuzzOidText.cpp],
      [fuzz/FuzzV2cMessage.cpp] and [fuzz/FuzzV3Message.cpp], with their assertions.
      [Echo]: what a decoder hands over, and the size of its names sent back.
    - [Agent], [AgentTheory]: [fuzz/HostileAgent.hpp], the Agent the Client is fuzzed
      against, its script, its invariant and what it sends.  [Runs]: one operation of the
      Client run step by step.  [Composition], [V3Composition]: a Client and such an Agent
      in conversation ([converse]), a datagram of the one an arrival at the other.
    - [Oracle], [OracleTheory]: [fuzz/FuzzClient.cpp], the profile of an iteration, the
      Ledger of what the Agent's datagrams entitle each request to, the completion
      handlers and the verdict on each completion.  [Dialogues]: concrete conversations.

    ** How state and effects are modelled

    A C++ member function with state [S] is a function in the monad [M S] below.  Octets
    and integers are [Z]; where the code's width matters, wrap-around is written out
    ([wrap], [swrap]).  A [std::shared_ptr] to a [Pending] or a [Discovery] is a location
    in a heap of the Client, because a coroutine and a table share the object.  An
    operation is a number [op]; the locations it allocates carry it.  A coroutine runs on
    the strand from one suspension to the next without interruption; while it is
    suspended any other handler of the strand may run.  [co_spawn] appends to the queue
    [m_posted], whose head leaves it in a step of its own.  The answers of the system (to
    opening a socket, to a send) and of the caller's batch handlers are arbitrary; a batch
    handler may itself stop the Client or send signals.  The Client keeps, for the theorems
    only, what it received ([m_received], written by [arrive]), and every operation what it
    did ([seen]).  The Agent's sockets are the list of what it sent.  OpenSSL ([OpenSSL] with
    [OpenSSLLaws]) and what Asio says of endpoints and cancellation ([Net]) are parameters;
    [Usm.Toy] and [Scenarios] instantiate them.

    ** What the theorems show

    - [Operations]: end to end, over every reachable state.  A request hands out only what
      a datagram received from its target and answering it carried, signed under the user's
      key for the Engine it names; it sends only its own PDU, at its own level, to its own
      target, a bounded number of times; it is refused early, or fails when told to end,
      with the documented error; every other failure has a reason that is spelt out, of a
      request of either version and of a discovery: all attempts waited out, a reply dropped
      and why, a Report, a name without encoding.
      A Walk ascends strictly inside its Subtree, calls no handler once Stopping has begun
      and succeeds only at the Subtree's end.  A synchronised Engine's clock was signed.
      Nothing reachable is undefined behaviour.  No operation waits in vain, and every
      operation can run to its end by the passing of time alone.
    - [Client], [Engines]: which datagrams are accepted, exactly; what an unsigned Report
      may do; the one-sided Time Window and the expiry of observed pairs; the key cache.
    - [V3Message], [Usm], [Pdu], [BerRoundtrip]: round trips, totality and errors on every
      input, salts, key expansion.  [BerReader], [BerWriter]: memory safety under any
      sequence of calls, and refinement of the reference grammar.  [Oids]: parse and print.
    - [FuzzTargets]: the assertions of the codec fuzzers hold on every input.
    - [Examples]: what the programs print was received from their target, and a program that
      does not complain printed all of it; where they are undefined.
    - [Composition], [V3Composition]: a request and a compliant Agent understand each other,
      at every security level and from a Client that knows nothing: discovery, clock,
      request, and the answer handed out.
    - [AgentTheory]: whatever its script, the Agent runs without undefined behaviour, but
      for one comparison of clocks that overflows.  [OracleTheory]: the Ledger grants what
      the threat model's rules allow, and the oracle finds no rule violated by what a
      request completes with, answer or error, whatever the Agent's script.

    ** Bounds and fuel

    Loops over a buffer run on fuel equal to its length, and are proved never to exhaust
    it.  [doWalk] has no bound of its own: it runs on [walk_fuel], [2 ^ 4097] rounds made
    lazily, more than there are encodable Oids plus halvings of maxRepetitions
    ([walk_terminates]).  A datagram has at most 65535 octets; a request's Varbinds encode
    to less than [2 ^ 20], or have no encoding and less than [2 ^ 30].  A fuzzed input has less than [2 ^ 20] octets: what is decoded
    from [n] octets is encoded again in at most [8 * n], so no length comes near the
    [2 ^ 32] a header can say.  What the Agent sends has less than [2 ^ 26] octets.

    ** Not modelled

    Exceptions ([bad_alloc], and [Discovery::failure] that carries them).  [stop()] called
    from another thread in the middle of a segment: it takes effect between segments.
    The receive loop's own errors: it delivers any datagram while its socket is open.
    Completion tokens and executors.  [Target::retries] is an integer without its width.
    The event loop of [fuzz/FuzzClient.cpp], with its wall clock, between the set-up of an
    iteration and its verdict, and the [io.run()] of the examples: the theorems take any
    reachable state of [System] instead.  What [violated] prints.  The Asio shim
    ([detail/Asio.hpp], [detail/Net.hpp]), which is aliases, and the tests. *)

From Stdlib Require Export ZArith Lia.
From stdpp Require Export base list strings numbers.

#[global] Open Scope Z_scope.

(** ** Notation scope of the development *)

Declare Scope snmp_scope.
Delimit Scope snmp_scope with snmp.
#[global] Open Scope snmp_scope.

(** Octets: [std::vector<std::byte>] or a span of it, each octet a [Z] in [0, 256). *)
Abbreviation Octets := (list Z).
Abbreviation zlen l := (Z.of_nat (length l)).

(** ** The state monad of the stateful C++ classes

    A member function of a class with state [S] that returns [A] is a function
    from the state before the call to an outcome: it returns ([Done]), it reads
    or writes outside an array ([Undef], undefined behaviour in C++), or the
    fuel given to a loop ran out ([OutOfFuel]).  The theorems show that neither
    of the last two is reachable. *)

Inductive outcome (S A : Type) : Type :=
| Done (a : A) (s : S)
| Undef
| OutOfFuel.
Arguments Done {S A} a s.
Arguments Undef {S A}.
Arguments OutOfFuel {S A}.

Definition M (S A : Type) : Type := S -> outcome S A.

Definition ret {S A} (a : A) : M S A := fun s => Done a s.

Definition bind {S A B} (m : M S A) (k : A -> M S B) : M S B := fun s =>
  match m s with
  | Done a s' => k a s'
  | Undef => Undef
  | OutOfFuel => OutOfFuel
  end.

Definition get_st {S} : M S S := fun s => Done s s.
Definition set_st {S} (s : S) : M S unit := fun _ => Done tt s.
Definition modify {S} (f : S -> S) : M S unit := fun s => Done tt (f s).
Definition gets {S A} (f : S -> A) : M S A := fun s => Done (f s) s.
Definition undef {S A} : M S A := fun _ => Undef.
Definition out_of_fuel {S A} : M S A := fun _ => OutOfFuel.

(** [*opt] on a [std::optional] or an array element that is known to exist. *)
Definition deref {S A} (o : option A) : M S A :=
  match o with Some a => ret a | None => undef end.

(** [if (!x) return std::nullopt;] *)
Definition bind_opt {S A B} (m : M S (option A)) (k : A -> M S (option B)) : M S (option B) :=
  bind m (fun o => match o with Some a => k a | None => ret None end).

(** [if (ec) return {};], where a call gives a result or an error. *)
Definition bind_sum {S E A B} (m : M S (E + A)) (k : A -> M S (E + B)) : M S (E + B) :=
  bind m (fun o => match o with inr a => k a | inl e => ret (inl e) end).

(** An object of another class, local to a function of [T]: [m] is run on it, and
    [k] sees the result and the object. *)
Definition run_local {S T A B} (s : S) (m : M S A) (k : A -> S -> M T B) : M T B := fun t =>
  match m s with
  | Done a s' => k a s' t
  | Undef => Undef
  | OutOfFuel => OutOfFuel
  end.

Notation "'let!' x := m 'in' k" := (bind m (fun x => k))
  (at level 10, x binder, m at level 99, k at level 200,
   format "'[v' 'let!'  x  :=  m  'in' '/' k ']'") : snmp_scope.
Notation "'let?' x := m 'in' k" := (bind_opt m (fun x => k))
  (at level 10, x binder, m at level 99, k at level 200,
   format "'[v' 'let?'  x  :=  m  'in' '/' k ']'") : snmp_scope.
Notation "'let+' x := m 'in' k" := (bind_sum m (fun x => k))
  (at level 10, x binder, m at level 99, k at level 200,
   format "'[v' 'let+'  x  :=  m  'in' '/' k ']'") : snmp_scope.
Notation "m1 ;;; m2" := (bind m1 (fun _ => m2))
  (at level 100, m2 at level 200, right associativity,
   format "'[v' m1  ;;; '/' m2 ']'") : snmp_scope.

(** Total correctness of a call: it returns, and the result and the state after
    it satisfy [Q]. *)
Definition wp {S A} (m : M S A) (Q : A -> S -> Prop) (s : S) : Prop :=
  match m s with Done a s' => Q a s' | _ => False end.

Lemma wp_done {S A} (m : M S A) Q s :
  wp m Q s <-> exists a s', m s = Done a s' /\ Q a s'.
Proof.
  unfold wp. destruct (m s) as [a s'| |]; split; [eauto|..]; try done;
    intros (? & ? & [= <- <-] & ?) || intros (? & ? & ? & ?); done.
Qed.

Lemma wp_ret {S A} (a : A) (Q : A -> S -> Prop) s : Q a s -> wp (ret a) Q s.
Proof. done. Qed.

Lemma wp_bind {S A B} (m : M S A) (k : A -> M S B) Q s :
  wp m (fun a s' => wp (k a) Q s') s -> wp (bind m k) Q s.
Proof. unfold wp, bind. by destruct (m s). Qed.

Lemma wp_bind_opt {S A B} (m : M S (option A)) (k : A -> M S (option B)) Q s :
  wp m (fun o s' => match o with
                    | Some a => wp (k a) Q s'
                    | None => Q None s'
                    end) s ->
  wp (bind_opt m k) Q s.
Proof. unfold bind_opt, wp, bind. destruct (m s) as [[a|]| |]; done. Qed.

Lemma wp_mono {S A} (m : M S A) (P Q : A -> S -> Prop) s :
  wp m P s -> (forall a s', P a s' -> Q a s') -> wp m Q s.
Proof. unfold wp. destruct (m s); naive_solver. Qed.

Lemma wp_eq {S A} (m : M S A) Q s a s' : m s = Done a s' -> Q a s' -> wp m Q s.
Proof. unfold wp. by intros ->. Qed.

Lemma bind_done {S A B} (m : M S A) (k : A -> M S B) s a s' :
  m s = Done a s' -> bind m k s = k a s'.
Proof. unfold bind. by intros ->. Qed.

Lemma bind_opt_some {S A B} (m : M S (option A)) (k : A -> M S (option B)) s a s' :
  m s = Done (Some a) s' -> bind_opt m k s = k a s'.
Proof. unfold bind_opt. intros H. by rewrite (bind_done _ _ _ _ _ H). Qed.

Lemma bind_opt_none {S A B} (m : M S (option A)) (k : A -> M S (option B)) s s' :
  m s = Done None s' -> bind_opt m k s = Done None s'.
Proof. unfold bind_opt. intros H. by rewrite (bind_done _ _ _ _ _ H). Qed.

Lemma bind_sum_inr {S E A B} (m : M S (E + A)) (k : A -> M S (E + B)) s a s' :
  m s = Done (inr a) s' -> bind_sum m k s = k a s'.
Proof. unfold bind_sum. intros H. by rewrite (bind_done _ _ _ _ _ H). Qed.

Lemma bind_sum_inl {S E A B} (m : M S (E + A)) (k : A -> M S (E + B)) s e s' :
  m s = Done (inl e) s' -> bind_sum m k s = Done (inl e) s'.
Proof. unfold bind_sum. intros H. by rewrite (bind_done _ _ _ _ _ H). Qed.

Lemma run_local_done {S T A B} s (m : M S A) (k : A -> S -> M T B) a s' t :
  m s = Done a s' -> run_local s m k t = k a s' t.
Proof. unfold run_local. by intros ->. Qed.

(** A function that leaves the state alone. *)
Class Const {S A} (m : M S A) : Prop :=
  const_state : forall s a s', m s = Done a s' -> s' = s.

#[export] Instance ret_const {S A} (a : A) : Const (S := S) (ret a).
Proof. by intros s b s' [= _ <-]. Qed.

#[export] Instance undef_const {S A} : Const (S := S) (A := A) undef.
Proof. by intros s b s'. Qed.

#[export] Instance out_of_fuel_const {S A} : Const (S := S) (A := A) out_of_fuel.
Proof. by intros s b s'. Qed.

#[export] Instance deref_const {S A} (o : option A) : Const (S := S) (deref o).
Proof. destruct o; apply _. Qed.

#[export] Instance bind_const {S A B} (m : M S A) (k : A -> M S B) :
  Const m -> (forall a, Const (k a)) -> Const (bind m k).
Proof.
  intros Hm Hk s b s'. unfold bind. destruct (m s) as [a s1| |] eqn:E; try done.
  intros H. apply Hk in H as ->. by apply Hm in E.
Qed.

#[export] Instance bind_sum_const {S E A B} (m : M S (E + A)) (k : A -> M S (E + B)) :
  Const m -> (forall a, Const (k a)) -> Const (bind_sum m k).
Proof. intros Hm Hk. apply bind_const; [done|]. intros [e|a]; apply _. Qed.

#[export] Instance if_const {S A} (b : bool) (m1 m2 : M S A) : Const m1 -> Const m2 -> Const (if b then m1 else m2).
Proof. by destruct b. Qed.

(** ** Machine integers

    A [w]-bit integer is a [Z]; conversions wrap as C++ defines them. *)

Definition wrap (w z : Z) : Z := z mod 2 ^ w.
Definition swrap (w z : Z) : Z := (z + 2 ^ (w - 1)) mod 2 ^ w - 2 ^ (w - 1).

Definition byte_ok (b : Z) : Prop := 0 <= b < 256.
Definition int32_ok (z : Z) : Prop := -2147483648 <= z < 2147483648.
Definition uint32_ok (z : Z) : Prop := 0 <= z < 4294967296.
Definition uint64_ok (z : Z) : Prop := 0 <= z < 18446744073709551616.
Definition octets_ok (l : Octets) : Prop := Forall byte_ok l.

#[export] Instance byte_ok_dec b : Decision (byte_ok b).
Proof. unfold byte_ok. apply _. Defined.
#[export] Instance int32_ok_dec b : Decision (int32_ok b).
Proof. unfold int32_ok. apply _. Defined.
#[export] Instance uint32_ok_dec b : Decision (uint32_ok b).
Proof. unfold uint32_ok. apply _. Defined.
#[export] Instance uint64_ok_dec b : Decision (uint64_ok b).
Proof. unfold uint64_ok. apply _. Defined.
#[export] Instance octets_ok_dec b : Decision (octets_ok b).
Proof. unfold octets_ok. apply _. Defined.

(** [static_cast<std::byte>(z)] and [static_cast<unsigned char>(z)]. *)
Definition to_byte (z : Z) : Z := wrap 8 z.

(** [(static_cast<unsigned>(b) & 0x80) != 0]. *)
Definition high_bit (b : Z) : bool := negb (Z.land b 128 =? 0).

Create HintDb snmp.

Ltac unfold_ok := unfold octets_ok, byte_ok, int32_ok, uint32_ok, uint64_ok in *.

Lemma wrap_small w z : 0 <= z < 2 ^ w -> wrap w z = z.
Proof. apply Z.mod_small. Qed.

Lemma swrap_small w z : 0 < w -> - 2 ^ (w - 1) <= z < 2 ^ (w - 1) -> swrap w z = z.
Proof.
  intros Hw Hz. unfold swrap. rewrite Z.mod_small; [lia|].
  assert (2 ^ w = 2 * 2 ^ (w - 1)) by (rewrite <- Z.pow_succ_r by lia; f_equal; lia). lia.
Qed.

(** Reinterpreting an unsigned [w]-bit integer as signed. *)
Lemma swrap_unsigned w z : 0 < w -> 0 <= z < 2 ^ w ->
  swrap w z = if z <? 2 ^ (w - 1) then z else z - 2 ^ w.
Proof.
  intros Hw Hz. unfold swrap.
  assert (2 ^ w = 2 * 2 ^ (w - 1)) by (rewrite <- Z.pow_succ_r by lia; f_equal; lia).
  destruct (Z.ltb_spec z (2 ^ (w - 1))).
  - rewrite Z.mod_small; lia.
  - rewrite <- (Z.mod_unique (z + 2 ^ (w - 1)) (2 ^ w) 1 (z - 2 ^ (w - 1))); lia.
Qed.

Lemma to_byte_ok z : byte_ok (to_byte z).
Proof. apply (Z.mod_pos_bound z 256). lia. Qed.

Lemma to_byte_id b : byte_ok b -> to_byte b = b.
Proof. apply Z.mod_small. Qed.

Lemma land_255 z : Z.land z 255 = z mod 256.
Proof. apply (Z.land_ones z 8). lia. Qed.

Lemma land_127 z : Z.land z 127 = z mod 128.
Proof. apply (Z.land_ones z 7). lia. Qed.

(** A decidable fact about every octet, checked on all 256 of them. *)
Lemma byte_check (P : Z -> bool) :
  forallb P (map Z.of_nat (seq 0 256)) = true -> forall b, byte_ok b -> P b = true.
Proof.
  rewrite forallb_forall. intros H b [H1 H2]. apply H, in_map_iff.
  exists (Z.to_nat b). rewrite Z2Nat.id by lia. split; [done|]. apply in_seq. lia.
Qed.

Lemma high_bit_ltb b : byte_ok b -> high_bit b = negb (b <? 128).
Proof.
  intros H. apply eqb_prop.
  by apply (byte_check (fun b => eqb (high_bit b) (negb (b <? 128)))).
Qed.

Lemma lor_shiftl_add n a b : 0 <= n -> 0 <= b < 2 ^ n ->
  Z.lor (Z.shiftl a n) b = a * 2 ^ n + b.
Proof.
  intros Hn Hb. rewrite <- Z.shiftl_mul_pow2 by done. symmetry. apply Z.add_nocarry_lor.
  apply Z.bits_inj'. intros i Hi. rewrite Z.land_spec, Z.bits_0.
  destruct (Z.lt_ge_cases i n) as [?|?].
  - by rewrite Z.shiftl_spec_low.
  - rewrite <- (Z.mod_small b (2 ^ n)) by done. rewrite (Z.mod_pow2_bits_high b n) by lia.
    apply andb_false_r.
Qed.

Lemma lor_shl8 a b : byte_ok b -> Z.lor (Z.shiftl a 8) b = a * 256 + b.
Proof. intros ?. by apply (lor_shiftl_add 8). Qed.

Lemma lor_128 b : 0 <= b < 128 -> Z.lor 128 b = 128 + b.
Proof. intros ?. by apply (lor_shiftl_add 7 1). Qed.

Lemma shiftr_land_byte z k : 0 <= k -> Z.land (Z.shiftr z (8 * k)) 255 = z / 256 ^ k mod 256.
Proof.
  intros ?. rewrite land_255, Z.shiftr_div_pow2 by lia. by rewrite Z.pow_mul_r by lia.
Qed.

#[export] Hint Resolve to_byte_ok : snmp.

(** ** Lists *)

Lemma octets_ok_app l k : octets_ok (l ++ k) <-> octets_ok l /\ octets_ok k.
Proof. apply Forall_app. Qed.

Lemma octets_ok_cons b l : octets_ok (b :: l) <-> byte_ok b /\ octets_ok l.
Proof. apply Forall_cons_iff. Qed.

Lemma octets_ok_take n l : octets_ok l -> octets_ok (take n l).
Proof. apply Forall_take. Qed.

Lemma octets_ok_drop n l : octets_ok l -> octets_ok (drop n l).
Proof. apply Forall_drop. Qed.

Lemma octets_ok_lookup l i b : octets_ok l -> l !! i = Some b -> byte_ok b.
Proof. intros H Hi. by eapply Forall_lookup_1. Qed.

Lemma octets_ok_zeros n : octets_ok (replicate n 0).
Proof. apply Forall_replicate. unfold byte_ok. lia. Qed.

#[export] Hint Resolve octets_ok_take octets_ok_drop octets_ok_lookup octets_ok_zeros : snmp.

Lemma zlen_app {A} (l k : list A) : zlen (l ++ k) = zlen l + zlen k.
Proof. rewrite length_app. lia. Qed.

Lemma zlen_cons {A} (x : A) l : zlen (x :: l) = 1 + zlen l.
Proof. cbn [length]. lia. Qed.

Lemma insert_middle {A} (l1 l2 : list A) x y : <[length l1 := y]> (l1 ++ x :: l2) = l1 ++ y :: l2.
Proof. induction l1 as [|z l1 IH]; [done|]. simpl. f_equal. exact IH. Qed.

Lemma take_length_app {A} (l k : list A) : take (length l) (l ++ k) = l.
Proof. induction l as [|x l IH]; cbn; [done|]. by rewrite IH. Qed.

Lemma drop_length_app {A} (l k : list A) : drop (length l) (l ++ k) = k.
Proof. by induction l. Qed.

(** ** Big-endian numbers

    [be_value] reads a list of octets as an unsigned number, most significant
    octet first; [be_signed] reads it as two's complement; [be_bytes n v] is the
    [n]-octet form of [v]. *)

Definition be_acc (acc : Z) (l : Octets) : Z := fold_left (fun a b => a * 256 + b) l acc.
Definition be_value (l : Octets) : Z := be_acc 0 l.

Definition be_signed (l : Octets) : Z :=
  match l with
  | [] => 0
  | b :: _ => if high_bit b then be_value l - 256 ^ zlen l else be_value l
  end.

Fixpoint be_bytes (n : nat) (v : Z) : Octets :=
  match n with
  | O => []
  | S n' => (v / 256 ^ Z.of_nat n') mod 256 :: be_bytes n' v
  end.

Lemma pow256_pos n : 0 <= n -> 0 < 256 ^ n.
Proof. intros. apply Z.pow_pos_nonneg; lia. Qed.

Lemma pow256_S n : 256 ^ Z.of_nat (S n) = 256 * 256 ^ Z.of_nat n.
Proof. rewrite Nat2Z.inj_succ, Z.pow_succ_r by lia. done. Qed.

Lemma be_acc_value acc l : be_acc acc l = acc * 256 ^ zlen l + be_value l.
Proof.
  unfold be_value. revert acc. induction l as [|b l IH]; intros acc; cbn [be_acc fold_left length].
  - cbn. lia.
  - unfold be_acc in *. cbn [fold_left]. rewrite IH, (IH (0 * 256 + b)), pow256_S. lia.
Qed.

Lemma be_value_cons b l : be_value (b :: l) = b * 256 ^ zlen l + be_value l.
Proof. unfold be_value at 1. apply (be_acc_value b l). Qed.

Lemma be_value_app l k : be_value (l ++ k) = be_value l * 256 ^ zlen k + be_value k.
Proof. unfold be_value, be_acc. rewrite fold_left_app. apply be_acc_value. Qed.

Lemma be_value_bound l : octets_ok l -> 0 <= be_value l < 256 ^ zlen l.
Proof.
  induction 1 as [|b l Hb Hl IH]; [cbn; lia|].
  cbn [length]. rewrite be_value_cons, pow256_S. unfold byte_ok in Hb. nia.
Qed.

Lemma length_be_bytes n v : length (be_bytes n v) = n.
Proof. induction n as [|n IH]; cbn [be_bytes length]; [done|]. by rewrite IH. Qed.

Lemma be_bytes_ok n v : octets_ok (be_bytes n v).
Proof.
  induction n as [|n IH]; constructor; [|done]. apply (Z.mod_pos_bound _ 256). lia.
Qed.

Lemma be_value_be_bytes n v : be_value (be_bytes n v) = v mod 256 ^ Z.of_nat n.
Proof.
  induction n as [|n IH]; [by rewrite Z.mod_1_r|].
  cbn [be_bytes]. rewrite be_value_cons, length_be_bytes, IH, pow256_S.
  pose proof (pow256_pos (Z.of_nat n) ltac:(lia)).
  rewrite (Z.mul_comm 256), Z.rem_mul_r by lia. lia.
Qed.

Lemma be_value_inj l k : octets_ok l -> octets_ok k -> length l = length k ->
  be_value l = be_value k -> l = k.
Proof.
  intros Hl. revert k. induction Hl as [|b l Hb Hl IH]; intros [|c k] Hk Hlen; try done.
  rewrite !be_value_cons. apply octets_ok_cons in Hk as [Hc Hk].
  cbn in Hlen. injection Hlen as Hlen. rewrite Hlen.
  pose proof (be_value_bound l Hl). pose proof (be_value_bound k Hk).
  rewrite Hlen in *. intros Heq.
  assert (b = c) as -> by (unfold byte_ok in *; nia). f_equal. apply IH; [done..|lia].
Qed.

#[export] Hint Resolve be_bytes_ok : snmp.

(** ** Text

    A [std::string] or [std::string_view] is the list of its [char]s as unsigned
    codes, so that the [reinterpret_cast]s between text and octets are the
    identity; [str] turns a literal into one. *)

Abbreviation cstring := (list Z).

Definition str (s : string) : cstring :=
  map (fun a => Z.of_N (Ascii.N_of_ascii a)) (String.list_ascii_of_string s).

Definition chr_0 : Z := 48.
Definition chr_9 : Z := 57.
Definition chr_dot : Z := 46.
Definition chr_minus : Z := 45.

(** The decimal digits of [n], most significant first; [S (log2 n)] rounds are
    enough because every round but the last divides [n] by 10. *)
Fixpoint dec_digits (fuel : nat) (n : Z) (acc : list Z) : list Z :=
  match fuel with
  | O => acc
  | S fuel' =>
      let acc' := n mod 10 :: acc in
      if n <? 10 then acc' else dec_digits fuel' (n / 10) acc'
  end.

Definition dec_fuel (n : Z) : nat := S (Z.to_nat (Z.log2 n)).

(** [std::to_chars] and [std::to_string] on an integer: decimal, no padding. *)
Definition to_chars (n : Z) : cstring :=
  (if n <? 0 then [chr_minus] else [])
    ++ map (Z.add chr_0) (dec_digits (dec_fuel (Z.abs n)) (Z.abs n) []).

Definition dec_value (l : list Z) : Z := fold_left (fun a d => a * 10 + d) l 0.

Definition digit_ok (d : Z) : Prop := 0 <= d < 10.

Lemma dec_value_acc acc l :
  fold_left (fun a d => a * 10 + d) l acc = acc * 10 ^ zlen l + dec_value l.
Proof.
  unfold dec_value. revert acc. induction l as [|d l IH]; intros acc; cbn [fold_left length].
  - cbn. lia.
  - rewrite IH, (IH (0 * 10 + d)), Nat2Z.inj_succ, Z.pow_succ_r by lia. lia.
Qed.

Lemma dec_value_cons d l : dec_value (d :: l) = d * 10 ^ zlen l + dec_value l.
Proof. apply (dec_value_acc d l). Qed.

Lemma dec_digits_spec fuel n acc :
  0 <= n < 2 ^ Z.of_nat fuel -> (0 < fuel)%nat -> Forall digit_ok acc ->
  exists ds, dec_digits fuel n acc = ds ++ acc /\ ds <> [] /\ Forall digit_ok ds /\
             dec_value ds = n.
Proof.
  revert n acc. induction fuel as [|fuel IH]; intros n acc Hn Hf Hacc; [lia|].
  assert (digit_ok (n mod 10)) by (apply (Z.mod_pos_bound n 10); lia).
  pose proof (Z.div_mod n 10 ltac:(lia)) as Hdm. cbn [dec_digits].
  destruct (Z.ltb_spec n 10) as [Hlt|Hge].
  - exists [n mod 10]. repeat split; [done|by apply Forall_singleton|].
    cbn. rewrite Z.mod_small; lia.
  - rewrite Nat2Z.inj_succ, Z.pow_succ_r in Hn by lia.
    destruct (IH (n / 10) (n mod 10 :: acc)) as (ds & -> & Hne & Hok & Hv); [|..].
    + split; [apply Z.div_pos; lia|]. apply Z.div_lt_upper_bound; lia.
    + destruct fuel; [cbn in Hn; lia|lia].
    + by constructor.
    + exists (ds ++ [n mod 10]). repeat split.
      * by rewrite <- app_assoc.
      * by destruct ds.
      * apply Forall_app. split; [done|]. by constructor.
      * unfold dec_value. rewrite fold_left_app. cbn [fold_left].
        change (fold_left _ ds 0) with (dec_value ds). lia.
Qed.

(** The characters of an unsigned number are digits and denote it. *)
Lemma to_chars_spec n : 0 <= n ->
  exists ds, to_chars n = map (Z.add chr_0) ds /\ ds <> [] /\ Forall digit_ok ds /\
             dec_value ds = n.
Proof.
  intros Hn. unfold to_chars. destruct (Z.ltb_spec n 0) as [?|_]; [lia|].
  rewrite Z.abs_eq by done.
  destruct (dec_digits_spec (dec_fuel n) n []) as (ds & -> & ? & ? & ?); [|unfold dec_fuel; lia|done|].
  - split; [done|]. unfold dec_fuel. rewrite Nat2Z.inj_succ, Z2Nat.id by apply Z.log2_nonneg.
    destruct (Z.eq_dec n 0) as [->|]; [done|]. apply Z.log2_spec. lia.
  - exists ds. by rewrite app_nil_r.
Qed.

(** A number below [10 ^ k] takes at most [k] characters. *)
Lemma length_dec_digits fuel n acc k :
  0 <= n < 10 ^ Z.of_nat k -> (0 < k)%nat ->
  (length (dec_digits fuel n acc) <= k + length acc)%nat.
Proof.
  revert n acc k. induction fuel as [|fuel IH]; intros n acc k Hn Hk; cbn [dec_digits]; [lia|].
  destruct (Z.ltb_spec n 10) as [Hlt|Hge]; [cbn; lia|].
  destruct k as [|k]; [lia|]. rewrite Nat2Z.inj_succ, Z.pow_succ_r in Hn by lia.
  destruct k as [|k]; [cbn in Hn; lia|].
  etransitivity; [apply (IH _ _ (S k))|cbn [length]; lia]; [|lia].
  split; [apply Z.div_pos; lia|]. apply Z.div_lt_upper_bound; lia.
Qed.

Lemma length_to_chars n k : 0 <= n < 10 ^ Z.of_nat k -> (0 < k)%nat ->
  (length (to_chars n) <= k)%nat.
Proof.
  intros Hn Hk. unfold to_chars. destruct (Z.ltb_spec n 0) as [?|_]; [lia|].
  cbn [app]. rewrite length_map, Z.abs_eq by lia.
  etransitivity; [by apply length_dec_digits|cbn; lia].
Qed.
