(* ===== verification/Errors.v ===== *)
(** * Errors: error codes, their categories, messages and classes

    Models [include/snmpio/Error.hpp], [src/Error.cpp] and the error half of
    [include/snmpio/Pdu.hpp] and [src/Pdu.cpp].  An [ErrorCode] is what
    [std::error_code] is: a number and the category that reads it; it is false
    exactly when the number is 0.  The standard library's table from system error
    codes to portable conditions, and the platform's errno numbers, are parameters
    of [classify]. *)

From S2P Require Import Prelude.

Inductive Errc : Type :=
  | Ok | Truncated | IndefiniteLength | LengthTooLarge | HighTagNumber | UnexpectedTag
  | TrailingData | ReservedLength | EmptyContent | IntegerTooLarge | BadIpAddress
  | BadNull | OidEmpty | OidTooLong | OidSubidOverflow | OidNonMinimal
  | OidTruncatedSubid | OidNotEncodable | OidBadSyntax | UnknownValueTag | BadVersion
  | UnexpectedPduType | MissingVarbind | Timeout | ClientStopped | NonIncreasingOid
  | WalkIncomplete | UnsupportedAuthProtocol | UnsupportedSecurityLevel
  | UnsupportedPrivProtocol | LegacyProviderUnavailable | UnsupportedSecurityModel
  | BadMessageFlags | EmptyPassword | CryptoFailure | AuthFailed | DecryptionFailed
  | UnknownUserName | UnknownEngineId | NotInTimeWindow | DecryptionError
  | UnexpectedReport.

Definition Errc_list : list Errc :=
  [Ok; Truncated; IndefiniteLength; LengthTooLarge; HighTagNumber; UnexpectedTag;
  TrailingData; ReservedLength; EmptyContent; IntegerTooLarge; BadIpAddress; BadNull;
  OidEmpty; OidTooLong; OidSubidOverflow; OidNonMinimal; OidTruncatedSubid;
  OidNotEncodable; OidBadSyntax; UnknownValueTag; BadVersion; UnexpectedPduType;
  MissingVarbind; Timeout; ClientStopped; NonIncreasingOid; WalkIncomplete;
  UnsupportedAuthProtocol; UnsupportedSecurityLevel; UnsupportedPrivProtocol;
  LegacyProviderUnavailable; UnsupportedSecurityModel; BadMessageFlags; EmptyPassword;
  CryptoFailure; AuthFailed; DecryptionFailed; UnknownUserName; UnknownEngineId;
  NotInTimeWindow; DecryptionError; UnexpectedReport].

(** The underlying [int] of an enumerator: they are numbered from 0 in order. *)
Definition Errc_value (e : Errc) : Z :=
  match e with
  | Ok => 0 | Truncated => 1 | IndefiniteLength => 2 | LengthTooLarge => 3
  | HighTagNumber => 4 | UnexpectedTag => 5 | TrailingData => 6 | ReservedLength => 7
  | EmptyContent => 8 | IntegerTooLarge => 9 | BadIpAddress => 10 | BadNull => 11
  | OidEmpty => 12 | OidTooLong => 13 | OidSubidOverflow => 14 | OidNonMinimal => 15
  | OidTruncatedSubid => 16 | OidNotEncodable => 17 | OidBadSyntax => 18
  | UnknownValueTag => 19 | BadVersion => 20 | UnexpectedPduType => 21
  | MissingVarbind => 22 | Timeout => 23 | ClientStopped => 24 | NonIncreasingOid => 25
  | WalkIncomplete => 26 | UnsupportedAuthProtocol => 27 | UnsupportedSecurityLevel => 28
  | UnsupportedPrivProtocol => 29 | LegacyProviderUnavailable => 30
  | UnsupportedSecurityModel => 31 | BadMessageFlags => 32 | EmptyPassword => 33
  | CryptoFailure => 34 | AuthFailed => 35 | DecryptionFailed => 36
  | UnknownUserName => 37 | UnknownEngineId => 38 | NotInTimeWindow => 39
  | DecryptionError => 40 | UnexpectedReport => 41
  end.

(** The enumerator [static_cast<Errc>(ev)] names, if it names one. *)
Definition Errc_of_value (ev : Z) : option Errc :=
  if ev <? 0 then None else Errc_list !! Z.to_nat ev.

Inductive ErrorStatus : Type :=
  | NoError | TooBig | NoSuchName | BadValue | ReadOnly | GenErr | NoAccess | WrongType
  | WrongLength | WrongEncoding | WrongValue | NoCreation | InconsistentValue
  | ResourceUnavailable | CommitFailed | UndoFailed | AuthorizationError | NotWritable
  | InconsistentName.

Definition ErrorStatus_list : list ErrorStatus :=
  [NoError; TooBig; NoSuchName; BadValue; ReadOnly; GenErr; NoAccess; WrongType;
  WrongLength; WrongEncoding; WrongValue; NoCreation; InconsistentValue;
  ResourceUnavailable; CommitFailed; UndoFailed; AuthorizationError; NotWritable;
  InconsistentName].

Definition ErrorStatus_value (e : ErrorStatus) : Z :=
  match e with
  | NoError => 0 | TooBig => 1 | NoSuchName => 2 | BadValue => 3 | ReadOnly => 4
  | GenErr => 5 | NoAccess => 6 | WrongType => 7 | WrongLength => 8 | WrongEncoding => 9
  | WrongValue => 10 | NoCreation => 11 | InconsistentValue => 12
  | ResourceUnavailable => 13 | CommitFailed => 14 | UndoFailed => 15
  | AuthorizationError => 16 | NotWritable => 17 | InconsistentName => 18
  end.

Definition ErrorStatus_of_value (ev : Z) : option ErrorStatus :=
  if ev <? 0 then None else ErrorStatus_list !! Z.to_nat ev.

#[export] Instance Errc_eq_dec : EqDecision Errc.
Proof. solve_decision. Defined.
#[export] Instance ErrorStatus_eq_dec : EqDecision ErrorStatus.
Proof. solve_decision. Defined.

(** The singletons [errorCategory()], [agentErrorCategory()], the system's two,
    and any other category an application may register. *)
Inductive ErrorCategory : Type :=
| errorCategory | agentErrorCategory | systemCategory | genericCategory
| otherCategory (id : Z).
#[export] Instance ErrorCategory_eq_dec : EqDecision ErrorCategory.
Proof. solve_decision. Defined.

Record ErrorCode : Type := mkErrorCode { ec_value : Z; ec_category : ErrorCategory }.
#[export] Instance ErrorCode_eq_dec : EqDecision ErrorCode.
Proof. solve_decision. Defined.

(** [net::ErrorCode{}]: value 0 of the system category. *)
Definition no_error : ErrorCode := mkErrorCode 0 systemCategory.

(** [explicit operator bool]. *)
Definition is_error (ec : ErrorCode) : bool := negb (ec_value ec =? 0).

Definition make_error_code (e : Errc) : ErrorCode := mkErrorCode (Errc_value e) errorCategory.

(** [make_error_code(ErrorStatus)], whose argument may be any [int32] cast to the
    enumeration: an Agent chooses the number. *)
Definition make_agent_error (status : Z) : ErrorCode := mkErrorCode status agentErrorCategory.

Module SnmpioCategory.

Definition name : cstring := str "snmpio".

Definition message_of (e : Errc) : cstring :=
  match e with
  | Ok => str "success"
  | Truncated => str "input ended inside a BER element"
  | IndefiniteLength => str "indefinite-length encoding is not permitted in SNMP"
  | LengthTooLarge => str "length field is wider than supported or exceeds the remaining input"
  | HighTagNumber => str "high-tag-number form is not permitted in SNMP"
  | UnexpectedTag => str "BER tag does not match the expected type"
  | TrailingData => str "unconsumed bytes remain inside a BER element"
  | ReservedLength => str "length octet 0xFF is reserved"
  | EmptyContent => str "primitive has no content Octets"
  | IntegerTooLarge => str "integer does not fit the target width"
  | BadIpAddress => str "IpAddress content is not exactly four Octets"
  | BadNull => str "NULL has non-empty content"
  | OidEmpty => str "object identifier has no content Octets"
  | OidTooLong => str "object identifier has more than 128 sub-identifiers"
  | OidSubidOverflow => str "object identifier sub-identifier exceeds 32 bits"
  | OidNonMinimal => str "object identifier sub-identifier is not minimally encoded"
  | OidTruncatedSubid => str "object identifier ended inside a sub-identifier"
  | OidNotEncodable => str "object identifier cannot be represented in BER"
  | OidBadSyntax => str "object identifier string is malformed"
  | UnknownValueTag => str "unrecognised Varbind Value tag"
  | BadVersion => str "SNMP message version is not one this library speaks"
  | UnexpectedPduType => str "PDU is not of a type valid in this position"
  | MissingVarbind => str "Response carried no Varbind where one was required"
  | Timeout => str "no Response from the Target within the timeout"
  | ClientStopped => str "the Client stopped with the request outstanding"
  | NonIncreasingOid => str "Agent returned a non-increasing object identifier during a Walk"
  | WalkIncomplete => str "Walk stopped before the end of the Subtree"
  | UnsupportedAuthProtocol => str "authentication protocol is unavailable or unset"
  | UnsupportedSecurityLevel => str "security level is not one this build can produce"
  | UnsupportedPrivProtocol => str "privacy protocol is unset where the security level requires one"
  | LegacyProviderUnavailable => str "OpenSSL's legacy provider, which DES lives in, could not be loaded"
  | UnsupportedSecurityModel => str "message security model is not USM"
  | BadMessageFlags => str "message flags are not a single Octet, or claim privacy without authentication"
  | EmptyPassword => str "authentication password is empty"
  | CryptoFailure => str "cryptographic operation failed"
  | AuthFailed => str "message authentication digest did not match"
  | DecryptionFailed => str "encryptedPDU did not decrypt into a ScopedPDU with this key"
  | UnknownUserName => str "the Authoritative Engine does not know this user name"
  | UnknownEngineId => str "the Authoritative Engine rejected its own engineID after re-discovery"
  | NotInTimeWindow => str "the Authoritative Engine rejected the message as untimely after resynchronising"
  | DecryptionError => str "the Authoritative Engine could not decrypt the message"
  | UnexpectedReport => str "Report carried a usmStats counter this library does not recognise"
  end.

(** [message(int ev)]; [to_chars] renders an [int] in decimal. *)
Definition message (ev : Z) : cstring :=
  match Errc_of_value ev with
  | Some e => message_of e
  | None => str "unknown snmpio error " ++ to_chars ev
  end.

End SnmpioCategory.

Module AgentCategory.

Definition name : cstring := str "snmp-agent".

Definition message_of (e : ErrorStatus) : cstring :=
  match e with
  | NoError => str "success"
  | TooBig => str "tooBig: the Response would not fit in one message"
  | NoSuchName => str "noSuchName"
  | BadValue => str "badValue"
  | ReadOnly => str "readOnly"
  | GenErr => str "genErr"
  | NoAccess => str "noAccess"
  | WrongType => str "wrongType"
  | WrongLength => str "wrongLength"
  | WrongEncoding => str "wrongEncoding"
  | WrongValue => str "wrongValue"
  | NoCreation => str "noCreation"
  | InconsistentValue => str "inconsistentValue"
  | ResourceUnavailable => str "resourceUnavailable"
  | CommitFailed => str "commitFailed"
  | UndoFailed => str "undoFailed"
  | AuthorizationError => str "authorizationError"
  | NotWritable => str "notWritable"
  | InconsistentName => str "inconsistentName"
  end.

Definition message (ev : Z) : cstring :=
  match ErrorStatus_of_value ev with
  | Some e => message_of e
  | None => str "unknown SNMP error-status " ++ to_chars ev
  end.

End AgentCategory.

(** ** What a caller can do about a failure *)

Inductive ErrorClass : Type :=
| ClassOk | Retriable | Configuration | Fatal | Unclassified.
#[export] Instance ErrorClass_eq_dec : EqDecision ErrorClass.
Proof. solve_decision. Defined.

Definition classifyErrc (e : Errc) : ErrorClass :=
  match e with
  | Ok =>
      ClassOk
  | Timeout | UnknownEngineId | NotInTimeWindow =>
      Retriable
  | OidNotEncodable | OidBadSyntax | UnsupportedAuthProtocol | UnsupportedSecurityLevel
  | UnsupportedPrivProtocol | LegacyProviderUnavailable | EmptyPassword | AuthFailed
  | DecryptionFailed | UnknownUserName | DecryptionError =>
      Configuration
  | Truncated | IndefiniteLength | LengthTooLarge | HighTagNumber | UnexpectedTag
  | TrailingData | ReservedLength | EmptyContent | IntegerTooLarge | BadIpAddress
  | BadNull | OidEmpty | OidTooLong | OidSubidOverflow | OidNonMinimal
  | OidTruncatedSubid | UnknownValueTag | BadVersion | UnexpectedPduType | MissingVarbind
  | ClientStopped | NonIncreasingOid | WalkIncomplete | UnsupportedSecurityModel
  | BadMessageFlags | CryptoFailure | UnexpectedReport =>
      Fatal
  end.

Definition classifyErrorStatus (e : ErrorStatus) : ErrorClass :=
  match e with
  | NoError =>
      ClassOk
  | GenErr | ResourceUnavailable =>
      Retriable
  | TooBig | NoSuchName | BadValue | ReadOnly | NoAccess | WrongType | WrongLength
  | WrongEncoding | WrongValue | NoCreation | InconsistentValue | AuthorizationError
  | NotWritable | InconsistentName =>
      Configuration
  | CommitFailed | UndoFailed =>
      Fatal
  end.

(** The [std::errc] names [classifySystem] lists. *)
Inductive errc : Type :=
  | timed_out | interrupted | network_down | network_unreachable | network_reset
  | host_unreachable | connection_refused | connection_reset | no_buffer_space.

Definition retriable_errcs : list errc :=
  [timed_out; interrupted; network_down; network_unreachable; network_reset;
  host_unreachable; connection_refused; connection_reset; no_buffer_space].

Section Classify.

(** [ec.default_error_condition()] of the standard library or Boost.System, and
    the platform's numbers for the [std::errc] names. *)
Context (default_error_condition : ErrorCode -> ErrorCode).
Context (errc_value : errc -> Z).

Definition classifySystem (ec : ErrorCode) : ErrorClass :=
  let cond := default_error_condition ec in
  if decide (ec_category cond <> genericCategory) then Fatal
  else if existsb (fun e => ec_value cond =? errc_value e) retriable_errcs then Retriable
  else Fatal.

Definition classify (ec : ErrorCode) : ErrorClass :=
  if negb (is_error ec) then ClassOk
  else match ec_category ec with
  | errorCategory =>
      match Errc_of_value (ec_value ec) with
      | Some e => classifyErrc e
      | None => Unclassified
      end
  | agentErrorCategory =>
      match ErrorStatus_of_value (ec_value ec) with
      | Some e => classifyErrorStatus e
      | None => Unclassified
      end
  | systemCategory | genericCategory => classifySystem ec
  | otherCategory _ => Unclassified
  end.

End Classify.

(** ** Facts about the enumerations *)

Lemma Errc_of_value_value e : Errc_of_value (Errc_value e) = Some e.
Proof. by destruct e. Qed.

Lemma Errc_value_nonneg e : 0 <= Errc_value e < 42.
Proof. by destruct e. Qed.

Lemma is_error_make_error_code e : is_error (make_error_code e) = true <-> e <> Ok.
Proof. by destruct e. Qed.

Lemma Errc_of_value_inv ev e : Errc_of_value ev = Some e -> ev = Errc_value e.
Proof.
  unfold Errc_of_value. destruct (Z.ltb_spec ev 0) as [|Hge]; [done|]. intros H.
  assert (Z.to_nat ev < 42)%nat as Hlt by (by apply lookup_lt_Some in H).
  rewrite <- (Z2Nat.id ev) by done. revert Hlt H. generalize (Z.to_nat ev). intros n.
  do 42 (destruct n as [|n]; [cbn; by intros _ [= <-]|]). lia.
Qed.

Lemma ErrorStatus_of_value_inv ev e : ErrorStatus_of_value ev = Some e -> ev = ErrorStatus_value e.
Proof.
  unfold ErrorStatus_of_value. destruct (Z.ltb_spec ev 0) as [|Hge]; [done|]. intros H.
  assert (Z.to_nat ev < 19)%nat as Hlt by (by apply lookup_lt_Some in H).
  rewrite <- (Z2Nat.id ev) by done. revert Hlt H. generalize (Z.to_nat ev). intros n.
  do 19 (destruct n as [|n]; [cbn; by intros _ [= <-]|]). lia.
Qed.

Lemma ErrorStatus_of_value_None ev : ErrorStatus_of_value ev = None <-> ~ (0 <= ev <= 18).
Proof.
  unfold ErrorStatus_of_value. destruct (Z.ltb_spec ev 0); [naive_solver lia|].
  rewrite lookup_ge_None. cbn [length ErrorStatus_list]. lia.
Qed.

Lemma Errc_of_value_None ev : Errc_of_value ev = None <-> ~ (0 <= ev <= 41).
Proof.
  unfold Errc_of_value. destruct (Z.ltb_spec ev 0); [naive_solver lia|].
  rewrite lookup_ge_None. cbn [length Errc_list]. lia.
Qed.

(** ** Properties of the classification *)

Section ClassifyFacts.

Context (default_error_condition : ErrorCode -> ErrorCode).
Context (errc_value : errc -> Z).

Lemma classifySystem_cases ec :
  classifySystem default_error_condition errc_value ec = Retriable \/
  classifySystem default_error_condition errc_value ec = Fatal.
Proof. unfold classifySystem. repeat case_match; auto. Qed.

(** [Unclassified] is never an enumerator of this library: it means a number no
    enumerator has, in one of the two categories, or a category of someone else's.
    An Agent's error-status is any 32-bit number, so the second case is one the
    network can produce. *)
Lemma classify_unclassified ec :
  classify default_error_condition errc_value ec = Unclassified <->
  is_error ec = true /\
  match ec_category ec with
  | errorCategory => ~ (0 <= ec_value ec <= 41)
  | agentErrorCategory => ~ (0 <= ec_value ec <= 18)
  | systemCategory | genericCategory => False
  | otherCategory _ => True
  end.
Proof.
  unfold classify. destruct (is_error ec); cbn [negb]; [|naive_solver].
  destruct (ec_category ec).
  - rewrite <- Errc_of_value_None. destruct (Errc_of_value _) as [[]|]; naive_solver.
  - rewrite <- ErrorStatus_of_value_None. destruct (ErrorStatus_of_value _) as [[]|]; naive_solver.
  - destruct (classifySystem_cases ec) as [-> | ->]; naive_solver.
  - destruct (classifySystem_cases ec) as [-> | ->]; naive_solver.
  - naive_solver.
Qed.

End ClassifyFacts.

(** [classify] reports success exactly for the success codes: no code that is
    a failure, of any category and with any number, is classified [Ok]. *)
Theorem classify_ok_iff dec errno ec :
  classify dec errno ec = ClassOk <-> is_error ec = false.
Proof.
  unfold classify. destruct (is_error ec) eqn:He; cbn [negb]; [|done].
  unfold is_error in He. split; [|done].
  destruct (ec_category ec).
  - destruct (Errc_of_value _) as [e|] eqn:E; [|done]. apply Errc_of_value_inv in E.
    rewrite E in He. by destruct e.
  - destruct (ErrorStatus_of_value _) as [e|] eqn:E; [|done]. apply ErrorStatus_of_value_inv in E.
    rewrite E in He. by destruct e.
  - by destruct (classifySystem_cases dec errno ec) as [-> | ->].
  - by destruct (classifySystem_cases dec errno ec) as [-> | ->].
  - done.
Qed.

(** An Agent's error-status is classified [Unclassified] exactly when it is
    outside RFC 3416's 0..18, and none of this library's own faults ever is. *)
Theorem classify_agent_status dec errno status :
  (classify dec errno (make_agent_error status) = Unclassified <-> ~ (0 <= status <= 18)) /\
  (forall e, classify dec errno (make_error_code e) <> Unclassified).
Proof.
  split.
  - rewrite classify_unclassified. unfold is_error. cbn.
    destruct (Z.eqb_spec status 0); cbn; naive_solver lia.
  - intros e. rewrite classify_unclassified. cbn. pose proof (Errc_value_nonneg e). lia.
Qed.

(** The message of every fault is distinct from every other's, so a log line
    identifies the enumerator that produced it. *)
Theorem message_injective e1 e2 :
  SnmpioCategory.message (Errc_value e1) = SnmpioCategory.message (Errc_value e2) -> e1 = e2.
Proof.
  unfold SnmpioCategory.message. rewrite !Errc_of_value_value.
  assert (NoDup (map SnmpioCategory.message_of Errc_list)) as Hnd
    by (apply (bool_decide_unpack _); vm_compute; exact I).
  assert (forall e, Errc_list !! Z.to_nat (Errc_value e) = Some e) as Hl by (by intros []).
  intros Heq.
  assert (Z.to_nat (Errc_value e1) = Z.to_nat (Errc_value e2)) as Hn.
  { eapply (NoDup_lookup _ _ _ (SnmpioCategory.message_of e1)); [exact Hnd|..].
    - by rewrite list_lookup_fmap, Hl.
    - by rewrite list_lookup_fmap, Hl, Heq. }
  pose proof (Hl e1) as H1. rewrite Hn, Hl in H1. congruence.
Qed.

Lemma message_injective_witness :
  SnmpioCategory.message (Errc_value Timeout) = SnmpioCategory.message 23 /\ Timeout = Timeout.
Proof. split; [vm_compute; reflexivity|]. apply (message_injective Timeout Timeout). reflexivity. Defined.
