(* ===== verification/Oids.v ===== *)
(** * Oids: object identifiers, their text form and their order

    Models [include/snmpio/Oid.hpp] and [src/Oid.cpp].  An [Oid] is the vector of
    its 32-bit sub-identifiers.  [parse] and [toString] are the dotted-decimal
    form, [oid_ltb] is [operator<], [isPrefixOf] is Subtree membership. *)

From S2P Require Import Prelude.

(** [class Oid]: the [m_subids] container. *)
Abbreviation Oid := (list Z).

Module Oids.

Definition maxSubids : nat := 128.

Definition oid_ok (o : Oid) : Prop := Forall uint32_ok o.

#[global] Instance oid_ok_dec o : Decision (oid_ok o).
Proof. unfold oid_ok. apply _. Defined.

(** [m_subids[i]], used by the source only below [size()]. *)
Definition subid (o : Oid) (i : nat) : Z := default 0 (o !! i).

Definition pushBack (o : Oid) (s : Z) : Oid := o ++ [s].

(** ** Text *)

(** [text.find(c, start)]. *)
Definition find (text : cstring) (c : Z) (start : nat) : option nat :=
  (fun p => (start + p.1)%nat) <$> list_find (c =.) (drop start text).

(** [text.substr(start, n)], [n] absent for [npos]. *)
Definition substr (text : cstring) (start : nat) (n : option nat) : cstring :=
  match n with
  | None => drop start text
  | Some n => take n (drop start text)
  end.

Definition is_digit (c : Z) : bool := (chr_0 <=? c) && (c <=? chr_9).

(** [std::from_chars] on a [std::uint64_t]: the longest run of digits is read;
    [None] is [std::errc::invalid_argument] (no digit) or
    [result_out_of_range]; the number is where reading stopped. *)
Fixpoint digit_run (s : cstring) : list Z :=
  match s with
  | c :: s' => if is_digit c then (c - chr_0) :: digit_run s' else []
  | [] => []
  end.

Definition from_chars (s : cstring) : nat * option Z :=
  let ds := digit_run s in
  (length ds,
   match ds with
   | [] => None
   | _ => if dec_value ds <? 2 ^ 64 then Some (dec_value ds) else None
   end).

(** The [while (true)] of [Oid::parse].  [None] is "out of fuel"; [Some None] is
    [std::nullopt]. *)
Fixpoint parse_loop (fuel : nat) (text : cstring) (start : nat) (result : Oid)
  : option (option Oid) :=
  match fuel with
  | O => None
  | S fuel' =>
      let dot := find text chr_dot start in
      let part := substr text start ((fun d => d - start)%nat <$> dot) in
      match part with
      | [] => Some None
      | front :: _ =>
          if (front <? chr_0) || (chr_9 <? front) then Some None
          else match from_chars part with
               | (_, None) => Some None
               | (ptr, Some wide) =>
                   if negb (ptr =? length part)%nat then Some None
                   else if 4294967295 <? wide then Some None
                   else if (length result =? maxSubids)%nat then Some None
                   else
                     let result := pushBack result (wrap 32 wide) in
                     match dot with
                     | None => Some (Some result)
                     | Some d => parse_loop fuel' text (S d) result
                     end
               end
      end
  end.

Definition parse (text : cstring) : option (option Oid) :=
  let text := match text with
              | c :: rest => if c =? chr_dot then rest else text
              | [] => text
              end in
  match text with
  | [] => Some None
  | _ => parse_loop (S (length text)) text 0 []
  end.

Fixpoint toString_loop (i : nat) (subids : Oid) (out : cstring) : cstring :=
  match subids with
  | [] => out
  | s :: rest =>
      let out := if (i =? 0)%nat then out else out ++ [chr_dot] in
      toString_loop (S i) rest (out ++ to_chars s)
  end.

Definition toString (o : Oid) : cstring := toString_loop 0 o [].

(** ** Encodability, Subtree membership and order *)

Definition isEncodable (o : Oid) : bool :=
  if (length o <? 2)%nat then false
  else if (maxSubids <? length o)%nat then false
  else if 2 <? subid o 0 then false
  else if (subid o 0 <? 2) && (39 <? subid o 1) then false
  else if (subid o 0 =? 2) && (4294967295 - 80 <? subid o 1) then false
  else true.

Definition isPrefixOf (o other : Oid) : bool :=
  if (length other <? length o)%nat then false
  else forallb (fun i => subid o i =? subid other i) (seq 0 (length o)).

Definition child (o : Oid) (s : Z) : Oid := pushBack o s.

(** [operator<=>]: lexicographic on the sub-identifiers. *)
Fixpoint oid_compare (a b : Oid) : comparison :=
  match a, b with
  | [], [] => Eq
  | [], _ :: _ => Lt
  | _ :: _, [] => Gt
  | x :: a', y :: b' =>
      match x ?= y with Eq => oid_compare a' b' | c => c end
  end.

Definition oid_ltb (a b : Oid) : bool :=
  match oid_compare a b with Lt => true | _ => false end.

Definition oid_lt (a b : Oid) : Prop := oid_ltb a b = true.

(** ** The text form as a split on dots *)

(** Reference definition: cut the text at its dots, read each part. *)
Fixpoint split_dot (s : cstring) : list cstring :=
  match s with
  | [] => [[]]
  | c :: s' =>
      if c =? chr_dot then [] :: split_dot s'
      else match split_dot s' with
           | p :: ps => (c :: p) :: ps
           | [] => [[c]]
           end
  end.

Definition read_subid (part : cstring) : option Z :=
  if decide (part <> [] /\ Forall (fun c => is_digit c = true) part) then
    let v := dec_value (map (fun c => c - chr_0) part) in
    if v <=? 4294967295 then Some v else None
  else None.

Fixpoint read_parts (parts : list cstring) (acc : Oid) : option Oid :=
  match parts with
  | [] => Some acc
  | p :: ps =>
      v ← read_subid p;
      if (length acc =? maxSubids)%nat then None else read_parts ps (acc ++ [v])
  end.

Lemma split_dot_cons s : exists p ps, split_dot s = p :: ps.
Proof.
  induction s as [|c s [p [ps IH]]]; [by do 2 eexists|]. cbn [split_dot].
  destruct (c =? chr_dot); [by do 2 eexists|]. rewrite IH. by do 2 eexists.
Qed.

Lemma split_dot_find s :
  split_dot s = match list_find (chr_dot =.) s with
                | Some (i, _) => take i s :: split_dot (drop (S i) s)
                | None => [s]
                end.
Proof.
  induction s as [|c s IH]; [done|]. cbn [split_dot list_find].
  destruct (Z.eqb_spec c chr_dot) as [->|Hne]; case_decide; try congruence; [done|].
  rewrite IH. destruct (list_find (chr_dot =.) s) as [[i x]|]; done.
Qed.

Lemma digit_run_all s : Forall (fun c => is_digit c = true) s ->
  digit_run s = map (fun c => c - chr_0) s.
Proof. induction 1 as [|c s Hc Hs IH]; [done|]. cbn. by rewrite Hc, IH. Qed.

Lemma digit_run_full s : length (digit_run s) = length s ->
  Forall (fun c => is_digit c = true) s.
Proof.
  induction s as [|c s IH]; [constructor|]. cbn.
  destruct (is_digit c) eqn:Hc; [|done]. cbn. intros [= H]. constructor; auto.
Qed.

Lemma digit_run_nonneg s : Forall (fun d => 0 <= d) (digit_run s).
Proof.
  induction s as [|c s IH]; [constructor|]. cbn. unfold is_digit.
  destruct (chr_0 <=? c) eqn:?; cbn; [|constructor].
  destruct (c <=? chr_9); constructor; [lia|done].
Qed.

Lemma dec_value_nonneg l : Forall (fun d => 0 <= d) l -> 0 <= dec_value l.
Proof.
  induction 1 as [|d l Hd Hl IH]; [done|]. rewrite dec_value_cons.
  pose proof (Z.pow_nonneg 10 (zlen l) ltac:(lia)). nia.
Qed.

(** What one round of the loop does with a part. *)
Definition part_check (part : cstring) (result : Oid) : option Oid :=
  match part with
  | [] => None
  | front :: _ =>
      if (front <? chr_0) || (chr_9 <? front) then None
      else match from_chars part with
           | (_, None) => None
           | (ptr, Some wide) =>
               if negb (ptr =? length part)%nat then None
               else if 4294967295 <? wide then None
               else if (length result =? maxSubids)%nat then None
               else Some (pushBack result (wrap 32 wide))
           end
  end.

Lemma part_check_spec part result :
  part_check part result =
    (v ← read_subid part;
     if (length result =? maxSubids)%nat then None else Some (result ++ [v])).
Proof.
  unfold part_check, read_subid. destruct part as [|c s].
  { case_decide as H; [destruct H; done|done]. }
  destruct ((c <? chr_0) || (chr_9 <? c)) eqn:Hc.
  { case_decide as H; [|done]. destruct H as [_ H]. apply Forall_cons_1 in H as [H _].
    unfold is_digit in H. lia. }
  unfold from_chars. destruct (digit_run (c :: s)) as [|d ds] eqn:Hds.
  { case_decide as H; [|done]. destruct H as [_ H]. by rewrite (digit_run_all _ H) in Hds. }
  cbv iota zeta. rewrite <- Hds. case_decide as H.
  - destruct H as [_ H]. rewrite (digit_run_all _ H), length_map, Nat.eqb_refl. cbn [negb].
    set (v := dec_value _).
    assert (0 <= v) by (unfold v; rewrite <- (digit_run_all _ H); apply dec_value_nonneg, digit_run_nonneg).
    destruct (Z.leb_spec v 4294967295) as [Hle|Hgt].
    + destruct (Z.ltb_spec v (2 ^ 64)) as [_|?]; [|lia]. cbn [mbind option_bind].
      destruct (Z.ltb_spec 4294967295 v) as [?|_]; [lia|].
      by rewrite (wrap_small 32) by lia.
    + cbn [mbind option_bind]. destruct (v <? 2 ^ 64); [|done].
      destruct (Z.ltb_spec 4294967295 v) as [_|?]; [done|lia].
  - cbn [mbind option_bind]. destruct (dec_value _ <? _); [|done].
    destruct (Nat.eqb_spec (length (digit_run (c :: s))) (length (c :: s))) as [Heq|]; [|done].
    destruct H. split; [done|]. by apply digit_run_full.
Qed.

Lemma parse_loop_round fuel text start result :
  parse_loop (S fuel) text start result =
    match part_check (substr text start ((fun d => d - start)%nat <$> find text chr_dot start)) result with
    | None => Some None
    | Some result' =>
        match find text chr_dot start with
        | None => Some (Some result')
        | Some d => parse_loop fuel text (S d) result'
        end
    end.
Proof.
  cbn [parse_loop]. unfold part_check. destruct (substr _ _ _) as [|c s]; [done|].
  destruct (_ || _); [done|]. destruct (from_chars (c :: s)) as [ptr [wide|]]; [|done].
  destruct (negb _); [done|]. destruct (4294967295 <? wide); [done|].
  by destruct (length result =? maxSubids)%nat.
Qed.

(** The index-driven loop computes the reference reading of the rest of the text. *)
Lemma parse_loop_spec fuel text start result :
  (length (drop start text) < fuel)%nat ->
  parse_loop fuel text start result = Some (read_parts (split_dot (drop start text)) result).
Proof.
  revert start result. induction fuel as [|fuel IH]; intros start result Hf; [lia|].
  rewrite parse_loop_round, split_dot_find. unfold find.
  destruct (list_find (chr_dot =.) (drop start text)) as [[i x]|] eqn:Hfind;
    cbn [fmap option_fmap option_map fst].
  - replace (start + i - start)%nat with i by lia. unfold substr.
    rewrite part_check_spec. cbn [read_parts].
    destruct (read_subid _) as [v|]; cbn [mbind option_bind]; [|done].
    destruct (length result =? maxSubids)%nat; [done|].
    apply list_find_Some in Hfind as (Hi & _ & _). apply lookup_lt_Some in Hi.
    rewrite IH by (rewrite length_drop in *; lia). rewrite drop_drop. repeat f_equal. lia.
  - unfold substr. rewrite part_check_spec. cbn [read_parts].
    destruct (read_subid _) as [v|]; cbn [mbind option_bind]; [|done].
    by destruct (length result =? maxSubids)%nat.
Qed.

Definition strip_dot (text : cstring) : cstring :=
  match text with c :: rest => if c =? chr_dot then rest else text | [] => text end.

(** [parse] as the reference: an optional leading dot, then the parts. *)
Lemma parse_spec text :
  parse text = Some (read_parts (split_dot (strip_dot text)) []).
Proof.
  unfold parse. fold (strip_dot text). destruct (strip_dot text) as [|c s] eqn:E; [done|].
  rewrite parse_loop_spec; [done|]. cbn. lia.
Qed.

Lemma read_parts_Some ps acc o : read_parts ps acc = Some o ->
  (length acc <= maxSubids)%nat ->
  (length o <= maxSubids)%nat /\
  exists vs, o = acc ++ vs /\ Forall2 (fun p v => read_subid p = Some v) ps vs.
Proof.
  revert acc. induction ps as [|p ps IH]; intros acc; cbn [read_parts].
  - intros [= <-] Hl. split; [done|]. exists []. rewrite app_nil_r. by split; [|constructor].
  - destruct (read_subid p) as [v|] eqn:Hv; cbn [mbind option_bind]; [|done].
    destruct (Nat.eqb_spec (length acc) maxSubids) as [|Hne]; [done|]. intros H Hl.
    apply IH in H as (Hlen & vs & -> & Hall); [|rewrite length_app; cbn; lia].
    split; [done|]. exists (v :: vs). rewrite <- app_assoc. by split; [|constructor].
Qed.

Lemma read_parts_Forall2 ps vs acc :
  Forall2 (fun p v => read_subid p = Some v) ps vs ->
  (length acc + length vs <= maxSubids)%nat ->
  read_parts ps acc = Some (acc ++ vs).
Proof.
  intros H. revert acc. induction H as [|p v ps vs Hp Hps IH]; intros acc Hl; cbn [read_parts].
  - by rewrite app_nil_r.
  - rewrite Hp. cbn [mbind option_bind]. cbn [length] in Hl.
    destruct (Nat.eqb_spec (length acc) maxSubids) as [|_]; [lia|].
    rewrite IH by (rewrite length_app; cbn; lia). by rewrite <- app_assoc.
Qed.

Lemma read_subid_ok p v : read_subid p = Some v -> uint32_ok v.
Proof.
  unfold read_subid. case_decide as H; [|done]. destruct (Z.leb_spec (dec_value (map (fun c => c - chr_0) p)) 4294967295); [|done].
  intros [= <-]. destruct H as [_ H]. unfold uint32_ok. split; [|lia].
  rewrite <- digit_run_all by done. apply dec_value_nonneg, digit_run_nonneg.
Qed.

(** A sub-identifier's own text reads back as itself. *)
Lemma read_subid_to_chars v : uint32_ok v -> read_subid (to_chars v) = Some v.
Proof.
  intros [H0 H1]. destruct (to_chars_spec v H0) as (ds & -> & Hne & Hok & Hv).
  unfold read_subid. case_decide as H.
  - rewrite map_map. replace (map _ ds) with ds.
    + rewrite Hv. destruct (Z.leb_spec v 4294967295); [done|lia].
    + symmetry. rewrite <- (map_id ds) at 2. apply map_ext. intros. unfold chr_0. lia.
  - destruct H. split; [by destruct ds|]. apply Forall_map. eapply Forall_impl; [|exact Hok].
    intros d Hd. unfold is_digit, digit_ok, chr_0, chr_9 in *. cbn. lia.
Qed.

Lemma to_chars_no_dot v : 0 <= v -> Forall (fun c => c <> chr_dot) (to_chars v).
Proof.
  intros H0. destruct (to_chars_spec v H0) as (ds & -> & Hne & Hok & Hv).
  apply Forall_map. eapply Forall_impl; [|exact Hok]. intros d Hd.
  unfold digit_ok, chr_0, chr_dot in *. cbn. lia.
Qed.

Fixpoint join_dot (parts : list cstring) : cstring :=
  match parts with
  | [] => []
  | [p] => p
  | p :: ps => p ++ chr_dot :: join_dot ps
  end.

Lemma split_dot_app_dot p s : Forall (fun c => c <> chr_dot) p ->
  split_dot (p ++ chr_dot :: s) = p :: split_dot s.
Proof.
  induction 1 as [|c p Hc Hp IH]; [done|]. cbn [app split_dot]. rewrite IH.
  by destruct (Z.eqb_spec c chr_dot).
Qed.

Lemma split_dot_single p : Forall (fun c => c <> chr_dot) p -> split_dot p = [p].
Proof.
  induction 1 as [|c p Hc Hp IH]; [done|]. cbn [split_dot]. rewrite IH.
  by destruct (Z.eqb_spec c chr_dot).
Qed.

Lemma split_dot_join ps : ps <> [] -> Forall (Forall (fun c => c <> chr_dot)) ps ->
  split_dot (join_dot ps) = ps.
Proof.
  intros Hne H. induction H as [|p ps Hp Hps IH]; [done|]. destruct ps as [|q ps].
  - by apply split_dot_single.
  - change (join_dot (p :: q :: ps)) with (p ++ chr_dot :: join_dot (q :: ps)).
    rewrite split_dot_app_dot by done. by rewrite IH.
Qed.

Lemma toString_loop_spec i subids out : (0 < i)%nat ->
  toString_loop i subids out = out ++ mjoin (map (fun s => chr_dot :: to_chars s) subids).
Proof.
  revert i out. induction subids as [|s rest IH]; intros i out Hi; cbn [toString_loop map mjoin list_join].
  - by rewrite app_nil_r.
  - destruct (Nat.eqb_spec i 0); [lia|]. rewrite IH by lia. by rewrite <- !app_assoc.
Qed.

Lemma toString_join o : toString o = join_dot (map to_chars o).
Proof.
  unfold toString. destruct o as [|s o]; [done|]. cbn [toString_loop app Nat.eqb].
  rewrite toString_loop_spec by lia. revert s.
  induction o as [|t o IH]; intros s; cbn [map mjoin list_join].
  - by rewrite app_nil_r.
  - change (join_dot (to_chars s :: to_chars t :: map to_chars o))
      with (to_chars s ++ chr_dot :: join_dot (map to_chars (t :: o))).
    rewrite <- IH. by rewrite <- app_comm_cons.
Qed.

Lemma strip_dot_toString o : o <> [] -> oid_ok o -> strip_dot (toString o) = toString o.
Proof.
  intros Hne Hok. rewrite toString_join. destruct o as [|s o]; [done|].
  apply Forall_cons_1 in Hok as [[Hs _] _].
  destruct (to_chars_spec s Hs) as (ds & E & Hds & _).
  pose proof (to_chars_no_dot s Hs) as Hnd.
  assert (exists c t, join_dot (map to_chars (s :: o)) = c :: t /\ c <> chr_dot) as (c & t & -> & Hc).
  { rewrite E in Hnd. destruct ds as [|d ds]; [done|]. apply Forall_cons_1 in Hnd as [Hnd _].
    cbn [map join_dot]. rewrite E. destruct (map to_chars o); cbn; eauto. }
  cbn. by destruct (Z.eqb_spec c chr_dot).
Qed.

(** ** Order and prefix *)

Lemma oid_compare_eq a b : oid_compare a b = Eq <-> a = b.
Proof.
  revert b. induction a as [|x a IH]; intros [|y b]; cbn; try done.
  destruct (Z.compare_spec x y) as [->| |]; [rewrite IH; naive_solver|naive_solver lia..].
Qed.

Lemma oid_compare_antisym a b : oid_compare b a = CompOpp (oid_compare a b).
Proof.
  revert b. induction a as [|x a IH]; intros [|y b]; cbn; try done.
  rewrite (Z.compare_antisym x y). destruct (x ?= y); cbn; auto.
Qed.

Lemma oid_lt_cons x a y b : oid_lt (x :: a) (y :: b) <-> x < y \/ (x = y /\ oid_lt a b).
Proof.
  unfold oid_lt, oid_ltb. cbn. destruct (Z.compare_spec x y); split; intros; try done; naive_solver lia.
Qed.

Lemma oid_lt_nil_r a : ~ oid_lt a [].
Proof. by destruct a. Qed.

Lemma oid_lt_irrefl a : ~ oid_lt a a.
Proof. induction a as [|x a IH]; [done|]. rewrite oid_lt_cons. naive_solver lia. Qed.

Lemma oid_lt_trans a b c : oid_lt a b -> oid_lt b c -> oid_lt a c.
Proof.
  revert b c. induction a as [|x a IH]; intros [|y b] [|z c]; try done.
  rewrite !oid_lt_cons. naive_solver lia.
Qed.

Lemma oid_trichotomy a b : oid_lt a b \/ a = b \/ oid_lt b a.
Proof.
  unfold oid_lt, oid_ltb. rewrite (oid_compare_antisym a b).
  destruct (oid_compare a b) eqn:E; cbn; auto. right. left. by apply oid_compare_eq.
Qed.

#[global] Instance oid_lt_strict : StrictOrder oid_lt.
Proof. split; [intros a; apply oid_lt_irrefl|intros a b c; apply oid_lt_trans]. Qed.

Lemma isPrefixOf_spec o other : isPrefixOf o other = true <-> o `prefix_of` other.
Proof.
  unfold isPrefixOf. destruct (Nat.ltb_spec (length other) (length o)) as [Hlt|Hge].
  - split; [done|]. intros H%prefix_length. lia.
  - rewrite forallb_forall. split.
    + intros H. exists (drop (length o) other). rewrite <- (take_drop (length o) other) at 1. f_equal.
      apply list_eq. intros i. destruct (Nat.lt_ge_cases i (length o)) as [Hi|Hi].
      * rewrite lookup_take_lt by done. specialize (H i ltac:(apply in_seq; lia)).
        destruct (lookup_lt_is_Some_2 o i Hi) as [x Hx].
        destruct (lookup_lt_is_Some_2 other i) as [y Hy]; [lia|].
        unfold subid in H. rewrite Hx, Hy in *. cbn in H. f_equal. lia.
      * rewrite (lookup_ge_None_2 o) by done. apply lookup_take_ge. lia.
    + intros [k ->] i Hi%in_seq. unfold subid. rewrite lookup_app_l by lia. lia.
Qed.

Lemma prefix_le o p : o `prefix_of` p -> o = p \/ oid_lt o p.
Proof.
  intros [k ->]. induction o as [|x o IH]; cbn [app].
  - destruct k; [by left|by right].
  - destruct IH as [IH|IH]; [left; congruence|right]. apply oid_lt_cons. auto.
Qed.

(** A Subtree is an interval of the order. *)
Lemma prefix_interval base a x b : base `prefix_of` a -> base `prefix_of` b ->
  oid_lt a x -> oid_lt x b -> base `prefix_of` x.
Proof.
  revert a x b. induction base as [|s base IH]; intros a x b; [intros; apply prefix_nil|].
  intros [ka ->] [kb ->]. destruct x as [|y x]; [by intros ?%oid_lt_nil_r|].
  cbn [app]. rewrite !oid_lt_cons. intros Ha Hb.
  assert (s = y) as <- by naive_solver lia. apply prefix_cons.
  apply (IH (base ++ ka) x (base ++ kb)); [by apply prefix_app_r|by apply prefix_app_r|..]; naive_solver lia.
Qed.

Lemma isEncodable_spec o : isEncodable o = true <->
  exists a b rest, o = a :: b :: rest /\ (length rest <= 126)%nat /\
    a <= 2 /\ (a < 2 -> b <= 39) /\ (a = 2 -> b <= 4294967215).
Proof.
  unfold isEncodable, maxSubids. destruct o as [|a [|b rest]]; cbn [length].
  1-2: split; [done|intros (? & ? & ? & ? & _); done].
  destruct (Nat.ltb_spec (S (S (length rest))) 2); [lia|]. unfold subid. cbn [lookup list_lookup default].
  destruct (Nat.ltb_spec 128 (S (S (length rest)))).
  { split; [done|]. intros (? & ? & ? & [= <- <- <-] & ? & _). lia. }
  transitivity (a <= 2 /\ (a < 2 -> b <= 39) /\ (a = 2 -> b <= 4294967215)).
  - change (4294967295 - 80) with 4294967215. cbn.
    destruct (Z.ltb_spec 2 a), (Z.ltb_spec a 2), (Z.ltb_spec 39 b), (Z.eqb_spec a 2),
      (Z.ltb_spec 4294967215 b); cbn; split; intros; try done; lia.
  - split; [intros ?; exists a, b, rest; repeat split; try lia; tauto|].
    intros (? & ? & ? & [= <- <- <-] & _ & ?). done.
Qed.

(** ** Properties *)

(** Dotted-decimal text round-trips: parsing what [toString] prints, with or
    without the optional leading dot, gives the Oid back. *)
Theorem parse_toString o :
  o <> [] -> (length o <= maxSubids)%nat -> oid_ok o ->
  parse (toString o) = Some (Some o) /\ parse (chr_dot :: toString o) = Some (Some o).
Proof.
  intros Hne Hlen Hok.
  assert (read_parts (split_dot (toString o)) [] = Some o) as H.
  { rewrite toString_join, split_dot_join.
    - apply (read_parts_Forall2 _ _ []); [|done]. apply Forall2_fmap_l, Forall_Forall2_diag.
      eapply Forall_impl; [|exact Hok]. apply read_subid_to_chars.
    - by destruct o.
    - apply Forall_map. eapply Forall_impl; [|exact Hok]. intros v [Hv _]. by apply to_chars_no_dot. }
  split; rewrite parse_spec; [by rewrite strip_dot_toString, H|]. cbn [strip_dot].
  by rewrite Z.eqb_refl, H.
Qed.

Lemma parse_toString_witness : parse (str "1.3.6.1.4294967295") = Some (Some [1; 3; 6; 1; 4294967295]).
Proof.
  destruct (parse_toString [1; 3; 6; 1; 4294967295]) as [H _];
    [discriminate|cbn; unfold maxSubids; lia|apply (bool_decide_unpack _); vm_compute; exact I|exact H].
Defined.

(** [parse] always returns, and only ever an Oid of 1 to 128 32-bit
    sub-identifiers, each read from its own dot-separated run of digits. *)
Theorem parse_sound text :
  exists r, parse text = Some r /\
    forall o, r = Some o ->
      (1 <= length o <= maxSubids)%nat /\ oid_ok o /\
      Forall2 (fun p v => read_subid p = Some v) (split_dot (strip_dot text)) o.
Proof.
  eexists. split; [apply parse_spec|]. intros o H.
  apply read_parts_Some in H as (Hlen & vs & -> & Hall); [|cbn; unfold maxSubids; lia].
  cbn [app] in *. destruct (split_dot_cons (strip_dot text)) as (p & ps & E). rewrite E in *.
  split; [|split; [|done]].
  - apply Forall2_length in Hall. cbn in Hall. lia.
  - apply Forall2_length in Hall as Hl. unfold oid_ok. apply Forall_lookup. intros i v Hv.
    destruct (lookup_lt_is_Some_2 (p :: ps) i) as [q Hq]; [rewrite Hl; by eapply lookup_lt_Some|].
    eapply read_subid_ok. by eapply Forall2_lookup_lr in Hall.
Qed.

End Oids.
