(* ===== verification/Values.v ===== *)
(** * Values: what a Varbind carries, and its rendering

    Models [include/snmpio/Value.hpp] and [src/Value.cpp].  [Value] is the
    [std::variant]; [value_ok] is the range of its C++ types. *)

From S2P Require Import Prelude Oids.

Inductive ValueException : Type := NoSuchObject | NoSuchInstance | EndOfMibView.

Inductive Value : Type :=
| ValNull
| ValInt32 (v : Z)
| ValOctets (v : Octets)
| ValOid (v : Oid)
| ValIpAddress (v : Octets)
| ValCounter32 (v : Z)
| ValGauge32 (v : Z)
| ValTimeTicks (v : Z)
| ValOpaque (v : Octets)
| ValCounter64 (v : Z)
| ValException (e : ValueException).

Record Varbind : Type := mkVarbind { vb_name : Oid; vb_val : Value }.

#[global] Instance ValueException_eq_dec : EqDecision ValueException.
Proof. solve_decision. Defined.
#[global] Instance Value_eq_dec : EqDecision Value.
Proof. solve_decision. Defined.
#[global] Instance Varbind_eq_dec : EqDecision Varbind.
Proof. solve_decision. Defined.

(** The ranges of the alternatives' C++ types. *)
Definition value_ok (v : Value) : Prop :=
  match v with
  | ValNull | ValException _ => True
  | ValInt32 v => int32_ok v
  | ValOctets v | ValOpaque v => octets_ok v
  | ValOid v => Oids.oid_ok v
  | ValIpAddress v => octets_ok v /\ length v = 4%nat
  | ValCounter32 v | ValGauge32 v | ValTimeTicks v => uint32_ok v
  | ValCounter64 v => uint64_ok v
  end.

Definition varbind_ok (vb : Varbind) : Prop :=
  Oids.oid_ok (vb_name vb) /\ value_ok (vb_val vb).

Definition isException (v : Value) : bool :=
  match v with ValException _ => true | _ => false end.

Module Values.

Definition allPrintable (b : Octets) : bool :=
  negb (bool_decide (b = [])) && forallb (fun u => (32 <=? u) && (u <? 127)) b.

(** [digits[n]]. *)
Definition hex_digit (n : Z) : Z := nth (Z.to_nat n) (str "0123456789abcdef") 0.

Fixpoint hex_loop (i : nat) (b : Octets) (out : cstring) : cstring :=
  match b with
  | [] => out
  | u :: rest =>
      let out := if (i =? 0)%nat then out else out ++ [32] in
      hex_loop (S i) rest (out ++ [hex_digit (Z.shiftr u 4)] ++ [hex_digit (Z.land u 15)])
  end.

Definition hex (b : Octets) : cstring := hex_loop 0 b [].

(** [num(v)]: [to_chars] into a 24-character scratch buffer. *)
Definition num (v : Z) : cstring := to_chars v.

Definition exceptionToString (e : ValueException) : cstring :=
  match e with
  | NoSuchObject => str "noSuchObject"
  | NoSuchInstance => str "noSuchInstance"
  | EndOfMibView => str "endOfMibView"
  end.

Definition chr_quote : Z := 34.

Fixpoint ip_loop (i : nat) (b : Octets) (out : cstring) : cstring :=
  match b with
  | [] => out
  | u :: rest =>
      let out := if (i =? 0)%nat then out else out ++ [chr_dot] in
      ip_loop (S i) rest (out ++ num u)
  end.

Definition toString (v : Value) : cstring :=
  match v with
  | ValNull => str "NULL"
  | ValInt32 v => num v
  | ValOctets held =>
      if bool_decide (held = []) then [chr_quote; chr_quote]
      else if allPrintable held then [chr_quote] ++ held ++ [chr_quote]
      else hex held
  | ValOid o => Oids.toString o
  | ValIpAddress b => ip_loop 0 b []
  | ValCounter32 v | ValGauge32 v | ValTimeTicks v | ValCounter64 v => num v
  | ValOpaque b => hex b
  | ValException e => exceptionToString e
  end.

(** ** Lemmas *)

Lemma hex_loop_app i b out : hex_loop i b out = out ++ hex_loop i b [].
Proof.
  revert i out. induction b as [|u b IH]; intros i out; cbn [hex_loop].
  - by rewrite app_nil_r.
  - rewrite IH, (IH _ ((if (i =? 0)%nat then [] else [] ++ [32]) ++ _)).
    destruct (i =? 0)%nat; cbn; by rewrite <- ?app_assoc.
Qed.

Definition unhex_digit (c : Z) : Z := if c <? 58 then c - 48 else c - 87.

Lemma hex_digits_byte u : byte_ok u ->
  16 * unhex_digit (hex_digit (Z.shiftr u 4)) + unhex_digit (hex_digit (Z.land u 15)) = u /\
  hex_digit (Z.shiftr u 4) <> chr_quote.
Proof.
  intros H. split.
  - apply Z.eqb_eq. apply (byte_check (fun u => 16 * unhex_digit (hex_digit (Z.shiftr u 4))
      + unhex_digit (hex_digit (Z.land u 15)) =? u)); [vm_compute; reflexivity|done].
  - apply Z.eqb_neq, negb_true_iff.
    apply (byte_check (fun u => negb (hex_digit (Z.shiftr u 4) =? chr_quote)));
      [vm_compute; reflexivity|done].
Qed.

Lemma hex_loop_S i u b : hex_loop (S i) (u :: b) [] =
  [32; hex_digit (Z.shiftr u 4); hex_digit (Z.land u 15)] ++ hex_loop (S (S i)) b [].
Proof. cbn [hex_loop]. by rewrite hex_loop_app. Qed.

Lemma hex_loop_inj i b c : octets_ok b -> octets_ok c ->
  hex_loop (S i) b [] = hex_loop (S i) c [] -> b = c.
Proof.
  intros Hb. revert i c. induction Hb as [|u b Hu Hb IH]; intros i [|v c] Hc; try done.
  - by rewrite hex_loop_S.
  - by rewrite hex_loop_S.
  - apply octets_ok_cons in Hc as [Hv Hc]. rewrite !hex_loop_S. intros [= H1 H2 H3].
    destruct (hex_digits_byte u Hu) as [<- _]. destruct (hex_digits_byte v Hv) as [<- _].
    rewrite H1, H2. f_equal. by eapply IH.
Qed.

Lemma hex_inj b c : octets_ok b -> octets_ok c -> hex b = hex c -> b = c.
Proof.
  intros Hb Hc. unfold hex. destruct Hb as [|u b Hu Hb], Hc as [|v c Hv Hc]; try done.
  - cbn [hex_loop Nat.eqb]. by rewrite hex_loop_app.
  - cbn [hex_loop Nat.eqb]. by rewrite hex_loop_app.
  - cbn [hex_loop Nat.eqb]. rewrite (hex_loop_app _ b), (hex_loop_app _ c). intros [= H1 H2 H3].
    destruct (hex_digits_byte u Hu) as [<- _]. destruct (hex_digits_byte v Hv) as [<- _].
    rewrite H1, H2. f_equal. by eapply hex_loop_inj.
Qed.

Lemma hex_head b c out : octets_ok b -> hex b = c :: out -> c <> chr_quote.
Proof.
  destruct 1 as [|u b Hu Hb]; [done|]. unfold hex. cbn [hex_loop Nat.eqb].
  rewrite hex_loop_app. intros [= <- _]. by apply hex_digits_byte.
Qed.

(** How an OCTET STRING is rendered: quoted or in hex. *)
Lemma toString_octets_cases b :
  (toString (ValOctets b) = [chr_quote] ++ b ++ [chr_quote]) \/
  (toString (ValOctets b) = hex b /\ b <> []).
Proof.
  cbn [toString]. case_bool_decide as H; [subst; by left|].
  destruct (allPrintable b); [by left|]. by right.
Qed.

(** The rendering of an OCTET STRING is faithful: two different octet strings
    never render alike, so a quoted string cannot be mistaken for a hex dump. *)
Theorem toString_octets_inj a b :
  octets_ok a -> octets_ok b ->
  toString (ValOctets a) = toString (ValOctets b) -> a = b.
Proof.
  intros Ha Hb.
  destruct (toString_octets_cases a) as [-> | [-> Hna]], (toString_octets_cases b) as [-> | [-> Hnb]].
  - intros [= H]. by apply app_inj_tail in H as [-> _].
  - intros H. symmetry in H. by apply hex_head in H.
  - intros H. by apply hex_head in H.
  - by apply hex_inj.
Qed.

Lemma toString_octets_inj_witness :
  toString (ValOctets [104; 105]) = toString (ValOctets [104; 105]) /\ [104; 105] = [104; 105].
Proof.
  split; [reflexivity|].
  apply (toString_octets_inj [104; 105] [104; 105]);
    [apply (bool_decide_unpack _); vm_compute; exact I..|reflexivity].
Defined.

(** The scratch buffers of [num] (24 characters) and [Oid::toString] (12) hold
    every number they are given, so [to_chars] never stops short. *)
Theorem scratch_large_enough v n :
  (int32_ok n \/ uint64_ok n) -> uint32_ok v ->
  (length (num n) <= 24)%nat /\ (length (to_chars v) <= 12)%nat.
Proof.
  intros Hn [Hv0 Hv1]. split.
  - assert (-2147483648 <= n < 10 ^ 20) as Hb by (unfold_ok; destruct Hn; lia).
    unfold num, to_chars. rewrite length_app, length_map.
    assert (length (dec_digits (dec_fuel (Z.abs n)) (Z.abs n) []) <= 20 + 0)%nat as Hl
      by (apply length_dec_digits; [change (10 ^ Z.of_nat 20) with (10 ^ 20)|]; lia).
    destruct (n <? 0); cbn [length]; lia.
  - etransitivity; [apply (length_to_chars v 12)|]; cbn; lia.
Qed.

Lemma scratch_large_enough_witness :
  (length (num (-2147483648)) <= 24)%nat /\ (length (to_chars 4294967295) <= 12)%nat.
Proof.
  apply (scratch_large_enough 4294967295 (-2147483648)); [left|];
    apply (bool_decide_unpack _); vm_compute; exact I.
Defined.

End Values.
