(* ===== verification/Ber.v ===== *)
(** * Ber: identifier octets and the reference encoding

    The first half models [include/snmpio/ber/Tag.hpp] and the two counting loops
    at the top of [src/BerWriter.cpp].  The second half is the specification the
    Reader and the Writer are proved against: the BER encoding of each thing SNMP
    sends, as a plain function to octets, with no buffer, cursor or patching. *)

From S2P Require Import Prelude Errors Oids Values.

(** [TagType]: one identifier octet. *)
Definition constructedBit : Z := 0x20.
Definition numberMask : Z := 0x1F.
Definition highTagNumberEscape : Z := 0x1F.

Module tag.

Definition integer : Z := 0x02.
Definition octetString : Z := 0x04.
Definition null : Z := 0x05.
Definition objectIdentifier : Z := 0x06.
Definition sequence : Z := 0x30.
Definition ipAddress : Z := 0x40.
Definition counter32 : Z := 0x41.
Definition gauge32 : Z := 0x42.
Definition timeticks : Z := 0x43.
Definition opaque : Z := 0x44.
Definition counter64 : Z := 0x46.
Definition noSuchObject : Z := 0x80.
Definition noSuchInstance : Z := 0x81.
Definition endOfMibView : Z := 0x82.
Definition getRequest : Z := 0xA0.
Definition getNextRequest : Z := 0xA1.
Definition response : Z := 0xA2.
Definition setRequest : Z := 0xA3.
Definition getBulkRequest : Z := 0xA5.
Definition report : Z := 0xA8.

End tag.

Definition isConstructed (t : Z) : bool := negb (Z.land t constructedBit =? 0).

(** [for (v = n; v != 0; v >>= 8) ++significant], on a 64-bit [std::size_t]. *)
Fixpoint significant_octets (fuel : nat) (v : Z) : Z :=
  match fuel with
  | O => 0
  | S fuel' => if v =? 0 then 0 else 1 + significant_octets fuel' (Z.shiftr v 8)
  end.

Definition lengthOctets (n : Z) : Z :=
  if n <? 0x80 then 1 else 1 + significant_octets 8 n.

(** [while (v >= 0x80) { v >>= 7; ++n; }], on a 64-bit integer. *)
Fixpoint subid_groups (fuel : nat) (v : Z) : Z :=
  match fuel with
  | O => 1
  | S fuel' => if v >=? 0x80 then 1 + subid_groups fuel' (Z.shiftr v 7) else 1
  end.

Definition subidOctets (v : Z) : Z := subid_groups 9 v.

(** [content[i]], used by the source only in range. *)
Definition octet_at (l : Octets) (i : nat) : Z := default 0 (l !! i).

(** The loop that both codecs skip sign padding with:
    [while (i + 1 < n && c[i] == pad && ((c[i+1] & 0x80) != 0) == negative) ++i;] *)
Fixpoint skip_padding (fuel : nat) (c : Octets) (pad : Z) (negative : bool) (i : nat) : nat :=
  match fuel with
  | O => i
  | S fuel' =>
      if (S i <? length c)%nat && (octet_at c i =? pad)
           && eqb (high_bit (octet_at c (S i))) negative
      then skip_padding fuel' c pad negative (S i)
      else i
  end.

(** ** The reference encoding *)

(** The octets of an unsigned number, without leading zeros. *)
Definition be_min (n : Z) : Octets := be_bytes (Z.to_nat (significant_octets 8 n)) n.

(** A definite length: short form below 128, else a count and the octets. *)
Definition enc_len (n : Z) : Octets :=
  if n <? 128 then [n] else (128 + zlen (be_min n)) :: be_min n.

Definition enc_tlv (t : Z) (content : Octets) : Octets := t :: enc_len (zlen content) ++ content.

(** Redundant sign octets removed. *)
Fixpoint strip_padding (pad : Z) (negative : bool) (l : Octets) : Octets :=
  match l with
  | b :: ((c :: _) as l') =>
      if (b =? pad) && eqb (high_bit c) negative then strip_padding pad negative l' else l
  | _ => l
  end.

Definition enc_int32 (v : Z) : Octets :=
  strip_padding (if v <? 0 then 255 else 0) (v <? 0) (be_bytes 4 v).

Definition enc_uint (v : Z) : Octets := strip_padding 0 false (be_bytes 9 v).

(** Base 128, [n] groups, the continuation bit on all but the last. *)
Fixpoint enc_groups (n : nat) (v : Z) : Octets :=
  match n with
  | O => []
  | S n' =>
      let group := v / 128 ^ Z.of_nat n' mod 128 in
      (if (n' =? 0)%nat then group else group + 128) :: enc_groups n' v
  end.

Definition enc_subid (v : Z) : Octets := enc_groups (Z.to_nat (subidOctets v)) v.

Definition enc_oid_content (o : Oid) : Octets :=
  match o with
  | a :: b :: rest => enc_subid (a * 40 + b) ++ concat (map enc_subid rest)
  | _ => []
  end.

(** [None] for an Oid BER cannot express. *)
Definition enc_oid (o : Oid) : option Octets :=
  if Oids.isEncodable o then Some (enc_tlv tag.objectIdentifier (enc_oid_content o)) else None.

Definition exception_tag (e : ValueException) : Z :=
  match e with
  | NoSuchObject => tag.noSuchObject
  | NoSuchInstance => tag.noSuchInstance
  | EndOfMibView => tag.endOfMibView
  end.

Definition enc_value (v : Value) : option Octets :=
  match v with
  | ValNull => Some (enc_tlv tag.null [])
  | ValInt32 v => Some (enc_tlv tag.integer (enc_int32 v))
  | ValOctets v => Some (enc_tlv tag.octetString v)
  | ValOid o => enc_oid o
  | ValIpAddress v => Some (enc_tlv tag.ipAddress v)
  | ValCounter32 v => Some (enc_tlv tag.counter32 (enc_uint v))
  | ValGauge32 v => Some (enc_tlv tag.gauge32 (enc_uint v))
  | ValTimeTicks v => Some (enc_tlv tag.timeticks (enc_uint v))
  | ValOpaque v => Some (enc_tlv tag.opaque v)
  | ValCounter64 v => Some (enc_tlv tag.counter64 (enc_uint v))
  | ValException e => Some (enc_tlv (exception_tag e) [])
  end.

Definition enc_varbind (vb : Varbind) : option Octets :=
  name ← enc_oid (vb_name vb);
  val ← enc_value (vb_val vb);
  Some (enc_tlv tag.sequence (name ++ val)).

Definition enc_varbinds (vbs : list Varbind) : option Octets :=
  content ← mapM enc_varbind vbs;
  Some (enc_tlv tag.sequence (concat content)).

Lemma octet_at_Some l i b : l !! i = Some b -> octet_at l i = b.
Proof. unfold octet_at. by intros ->. Qed.

(** ** Lengths *)

Lemma significant_octets_spec fuel v : 0 <= v < 256 ^ Z.of_nat fuel ->
  0 <= significant_octets fuel v <= Z.of_nat fuel /\
  v < 256 ^ significant_octets fuel v /\
  (0 < v -> 256 ^ (significant_octets fuel v - 1) <= v).
Proof.
  revert v. induction fuel as [|fuel IH]; intros v Hv; cbn [significant_octets].
  { cbn in *. lia. }
  destruct (Z.eqb_spec v 0) as [->|Hne]; [cbn; lia|].
  rewrite Z.shiftr_div_pow2 by lia. change (2 ^ 8) with 256.
  rewrite pow256_S in Hv. pose proof (Z.div_mod v 256 ltac:(lia)) as Hdm.
  pose proof (Z.mod_pos_bound v 256 ltac:(lia)).
  destruct (IH (v / 256)) as (Hk & Hup & Hlo).
  { split; [apply Z.div_pos; lia|apply Z.div_lt_upper_bound; lia]. }
  set (k := significant_octets fuel (v / 256)) in *.
  split; [lia|]. rewrite Z.pow_add_r by lia. split; [lia|]. intros _.
  replace (1 + k - 1) with k by lia. destruct (Z.eq_dec (v / 256) 0) as [E|E].
  - destruct (Z.eq_dec k 0) as [->|]; [lia|].
    assert (256 ^ (k - 1) <= v / 256 \/ v / 256 <= 0) as [?|?] by lia; [|].
    + pose proof (pow256_pos (k - 1) ltac:(lia)). lia.
    + assert (k = 0); [|lia]. subst k. rewrite E. by destruct fuel.
  - specialize (Hlo ltac:(lia)). assert (0 < k).
    { destruct (Z.eq_dec k 0) as [Hk0|]; [|lia]. rewrite Hk0 in Hup. cbn in Hup. lia. }
    replace k with (1 + (k - 1)) by lia. rewrite Z.pow_add_r by lia. lia.
Qed.

Lemma significant_octets_nonneg fuel v : 0 <= significant_octets fuel v.
Proof.
  revert v. induction fuel as [|fuel IH]; intros v; cbn [significant_octets]; [lia|].
  destruct (v =? 0); [lia|]. specialize (IH (Z.shiftr v 8)). lia.
Qed.

Lemma be_min_value n : 0 <= n < 2 ^ 64 -> be_value (be_min n) = n.
Proof.
  intros H. unfold be_min. rewrite be_value_be_bytes.
  destruct (significant_octets_spec 8 n) as (Hk & Hup & _); [done|].
  rewrite Z2Nat.id by lia. apply Z.mod_small. lia.
Qed.

Lemma be_min_length n k : 0 <= n < 256 ^ k -> 0 <= k <= 8 -> zlen (be_min n) <= k.
Proof.
  intros H Hk. unfold be_min. rewrite length_be_bytes.
  assert (256 ^ k <= 256 ^ 8) by (apply Z.pow_le_mono_r; lia).
  destruct (significant_octets_spec 8 n) as (Hs & Hup & Hlo); [cbn; lia|].
  rewrite Z2Nat.id by lia. destruct (Z.eq_dec n 0) as [->|]; [cbn; lia|].
  specialize (Hlo ltac:(lia)). apply Z.nlt_ge. intros Hlt.
  assert (256 ^ k <= 256 ^ (significant_octets 8 n - 1)) by (apply Z.pow_le_mono_r; lia). lia.
Qed.

Lemma significant_octets_S fuel v : v <> 0 ->
  significant_octets (S fuel) v = 1 + significant_octets fuel (Z.shiftr v 8).
Proof. cbn. by destruct (Z.eqb_spec v 0). Qed.

Lemma be_min_nonempty n : 0 < n -> 0 < zlen (be_min n).
Proof.
  intros H. unfold be_min. rewrite length_be_bytes, significant_octets_S by lia.
  pose proof (significant_octets_nonneg 7 (Z.shiftr n 8)). lia.
Qed.

Lemma lengthOctets_enc_len n : 0 <= n < 2 ^ 64 -> lengthOctets n = zlen (enc_len n).
Proof.
  intros H. unfold lengthOctets, enc_len. destruct (n <? 128); [done|].
  cbn [length]. unfold be_min. rewrite length_be_bytes.
  destruct (significant_octets_spec 8 n) as (Hk & _); [done|]. lia.
Qed.

Lemma enc_len_ok n : 0 <= n < 2 ^ 64 -> octets_ok (enc_len n).
Proof.
  intros H. unfold enc_len. destruct (Z.ltb_spec n 128).
  - constructor; [unfold byte_ok; lia|constructor].
  - constructor; [|apply be_bytes_ok]. pose proof (be_min_length n 8 ltac:(done) ltac:(lia)).
    unfold byte_ok. lia.
Qed.

Lemma enc_len_pos n : 0 < zlen (enc_len n).
Proof. unfold enc_len. destruct (n <? 128); cbn [length]; lia. Qed.

Lemma enc_tlv_ok t c : byte_ok t -> octets_ok c -> zlen c < 2 ^ 64 -> octets_ok (enc_tlv t c).
Proof.
  intros Ht Hc Hl. constructor; [done|]. apply octets_ok_app. split; [|done]. apply enc_len_ok. lia.
Qed.

Lemma length_enc_tlv t c : zlen (enc_tlv t c) = 1 + zlen (enc_len (zlen c)) + zlen c.
Proof. unfold enc_tlv. cbn [length]. rewrite length_app. lia. Qed.

(** ** Sign padding *)

Lemma strip_padding_cons pad neg b d l :
  strip_padding pad neg (b :: d :: l) =
    if (b =? pad) && eqb (high_bit d) neg then strip_padding pad neg (d :: l) else b :: d :: l.
Proof. done. Qed.

Lemma skip_padding_strip fuel c pad neg i : (length c <= i + fuel)%nat -> (i <= length c)%nat ->
  drop (skip_padding fuel c pad neg i) c = strip_padding pad neg (drop i c) /\
  (i <= skip_padding fuel c pad neg i <= length c)%nat.
Proof.
  revert i. induction fuel as [|fuel IH]; intros i Hf Hi; cbn [skip_padding].
  { rewrite (drop_ge c i) by lia. split; [done|lia]. }
  destruct (Nat.ltb_spec (S i) (length c)) as [Hlt|Hge]; cbn [andb].
  - destruct (lookup_lt_is_Some_2 c i) as [b Hb]; [lia|].
    destruct (lookup_lt_is_Some_2 c (S i)) as [d Hd]; [lia|].
    rewrite (octet_at_Some _ _ _ Hb), (octet_at_Some _ _ _ Hd).
    rewrite (drop_S c b i Hb), (drop_S c d (S i) Hd), strip_padding_cons.
    destruct ((b =? pad) && eqb (high_bit d) neg).
    + destruct (IH (S i)) as [E ?]; [lia..|]. rewrite (drop_S c d (S i) Hd) in E. split; [done|lia].
    + rewrite (drop_S c b i Hb), (drop_S c d (S i) Hd). split; [done|lia].
  - split; [|lia]. destruct (Nat.eq_dec i (length c)) as [->|].
    + by rewrite drop_ge.
    + destruct (lookup_lt_is_Some_2 c i) as [b Hb]; [lia|].
      rewrite (drop_S c b i Hb), (drop_ge c (S i)) by lia. done.
Qed.

Lemma strip_padding_ok pad neg l : octets_ok l -> octets_ok (strip_padding pad neg l).
Proof.
  induction 1 as [|b l Hb Hl IH]; [constructor|]. destruct l as [|c l]; [by apply Forall_singleton|].
  rewrite strip_padding_cons.
  destruct (_ && _); [done|]. by constructor.
Qed.

Lemma strip_padding_length pad neg l : (length (strip_padding pad neg l) <= length l)%nat.
Proof.
  induction l as [|b l IH]; [done|]. destruct l as [|c l]; [done|]. rewrite strip_padding_cons.
  destruct (_ && _); [cbn in *; lia|done].
Qed.

Lemma strip_padding_nonempty pad neg l : l <> [] -> strip_padding pad neg l <> [].
Proof.
  induction l as [|b l IH]; [done|]. intros _. destruct l as [|c l]; [done|]. rewrite strip_padding_cons.
  destruct (_ && _); [by apply IH|done].
Qed.

(** Sign padding carries no value: dropping it keeps the two's complement number. *)
Lemma strip_padding_signed l neg : octets_ok l ->
  match l with [] => True | b :: _ => high_bit b = neg end ->
  be_signed (strip_padding (if neg then 255 else 0) neg l) = be_signed l /\
  match strip_padding (if neg then 255 else 0) neg l with
  | [] => l = [] | b :: _ => high_bit b = neg end.
Proof.
  induction 1 as [|b l Hb Hl IH]; intros Hhd; [done|]. destruct l as [|c l]; [done|].
  rewrite strip_padding_cons.
  destruct (Z.eqb_spec b (if neg then 255 else 0)) as [Eb|]; cbn [andb]; [|done].
  destruct (eqb (high_bit c) neg) eqn:Ec; [|done]. apply eqb_prop in Ec.
  destruct (IH Ec) as [E Hh]. rewrite E. split.
  - unfold be_signed. rewrite Hhd, Ec, (be_value_cons b). cbn [length]. rewrite (pow256_S (S _)).
    destruct neg; subst b; lia.
  - by destruct (strip_padding _ _ (c :: l)).
Qed.

(** What is left needs every octet it has: [n] octets hold nothing a signed number
    of [n - 1] octets could. *)
Lemma strip_padding_minimal l neg : octets_ok l ->
  match l with [] => True | b :: _ => high_bit b = neg end ->
  let s := strip_padding (if neg then 255 else 0) neg l in
  (1 < length s)%nat -> forall k, (0 < k < length s)%nat ->
  ~ (- (256 ^ Z.of_nat k) <= 2 * be_signed s < 256 ^ Z.of_nat k).
Proof.
  intros Hl Hhd s. revert s. induction Hl as [|b l Hb Hl IH]; [cbn; lia|]. destruct l as [|c l]; [cbn; lia|].
  rewrite strip_padding_cons. cbn zeta in *.
  destruct ((b =? _) && _) eqn:Hc.
  { apply IH. apply andb_prop in Hc as [_ Hc]. by apply eqb_prop in Hc. }
  intros _ k Hk. apply octets_ok_cons in Hl as Hcl. destruct Hcl as [Hcb Hl'].
  rewrite (high_bit_ltb b Hb) in Hhd. rewrite (high_bit_ltb c Hcb) in Hc.
  pose proof (be_value_bound l Hl') as Hbv. unfold be_signed. rewrite (high_bit_ltb b Hb), Hhd.
  rewrite !be_value_cons. cbn [length] in *. rewrite !pow256_S in *.
  set (P := 256 ^ zlen l) in *. assert (256 ^ Z.of_nat k <= 256 * P) as Hpk.
  { unfold P. rewrite <- pow256_S. apply Z.pow_le_mono_r; lia. }
  pose proof (pow256_pos (Z.of_nat k) ltac:(lia)).
  unfold byte_ok in *. destruct neg.
  - destruct (Z.ltb_spec b 128); [done|].
    destruct (Z.eqb_spec b 255), (Z.ltb_spec c 128); cbn in Hc; try done; nia.
  - destruct (Z.ltb_spec b 128); [|done].
    destruct (Z.eqb_spec b 0), (Z.ltb_spec c 128); cbn in Hc; try done; nia.
Qed.

(** ** Sub-identifiers *)

Lemma subid_groups_spec fuel v : 0 <= v < 128 ^ Z.of_nat (S fuel) ->
  1 <= subid_groups fuel v <= Z.of_nat (S fuel) /\ v < 128 ^ subid_groups fuel v /\
  (subid_groups fuel v = 1 \/ 128 ^ (subid_groups fuel v - 1) <= v).
Proof.
  revert v. induction fuel as [|fuel IH]; intros v Hv; cbn [subid_groups]; [cbn in *; lia|].
  rewrite Z.geb_leb. destruct (Z.leb_spec 128 v) as [Hge|Hlt]; [|cbn; lia].
  rewrite Z.shiftr_div_pow2 by lia. change (2 ^ 7) with 128.
  rewrite Nat2Z.inj_succ, Z.pow_succ_r in Hv by lia.
  pose proof (Z.div_mod v 128 ltac:(lia)). pose proof (Z.mod_pos_bound v 128 ltac:(lia)).
  destruct (IH (v / 128)) as (Hk & Hup & Hlo).
  { split; [apply Z.div_pos; lia|apply Z.div_lt_upper_bound; lia]. }
  set (k := subid_groups fuel (v / 128)) in *. split; [lia|]. rewrite Z.pow_add_r by lia.
  split; [lia|]. right. replace (1 + k - 1) with k by lia. destruct Hlo as [->|Hlo]; [lia|].
  replace k with (1 + (k - 1)) by lia. rewrite Z.pow_add_r by lia. lia.
Qed.

Lemma subidOctets_spec v : 0 <= v < 2 ^ 64 ->
  1 <= subidOctets v <= 10 /\ v < 128 ^ subidOctets v /\
  (subidOctets v = 1 \/ 128 ^ (subidOctets v - 1) <= v).
Proof. intros H. apply (subid_groups_spec 9). cbn. lia. Qed.

Lemma length_enc_groups n v : length (enc_groups n v) = n.
Proof. induction n as [|n IH]; cbn [enc_groups length]; [done|]. by rewrite IH. Qed.

Lemma enc_groups_ok n v : octets_ok (enc_groups n v).
Proof.
  induction n as [|n IH]; constructor; [|done].
  pose proof (Z.mod_pos_bound (v / 128 ^ Z.of_nat n) 128 ltac:(lia)). unfold byte_ok.
  destruct (n =? 0)%nat; lia.
Qed.

Lemma length_enc_subid v : 0 <= v < 2 ^ 64 -> zlen (enc_subid v) = subidOctets v.
Proof.
  intros H. unfold enc_subid. rewrite length_enc_groups. apply subidOctets_spec in H. lia.
Qed.

(** The packed first sub-identifier of an encodable Oid fits 32 bits. *)
Lemma isEncodable_packed o : Oids.isEncodable o = true -> Oids.oid_ok o ->
  exists a b rest, o = a :: b :: rest /\ uint32_ok (a * 40 + b) /\ Oids.oid_ok rest /\
    (length rest <= 126)%nat /\ uint32_ok a /\ uint32_ok b /\ a <= 2 /\ (a < 2 -> b < 40).
Proof.
  intros (a & b & rest & -> & Hl & Ha & Hb & Hb')%Oids.isEncodable_spec H.
  apply Forall_cons_1 in H as [Ha' H]. apply Forall_cons_1 in H as [Hb'' H].
  exists a, b, rest. unfold uint32_ok in *. repeat split; try done; lia.
Qed.

Lemma enc_oid_content_ok o : octets_ok (enc_oid_content o).
Proof.
  destruct o as [|a [|b rest]]; [constructor..|]. cbn [enc_oid_content].
  apply octets_ok_app. split; [apply enc_groups_ok|].
  induction rest as [|s rest IH]; [constructor|]. cbn [map concat].
  apply octets_ok_app. split; [apply enc_groups_ok|done].
Qed.

Lemma length_join_subids rest : Oids.oid_ok rest -> 
  zlen (concat (map enc_subid rest)) = fold_right (fun s n => subidOctets s + n) 0 rest.
Proof.
  induction 1 as [|s rest Hs Hr IH]; [done|]. cbn [map concat fold_right].
  rewrite zlen_app, length_enc_subid by (unfold uint32_ok in Hs; lia). lia.
Qed.

Lemma length_enc_oid_content o : Oids.isEncodable o = true -> Oids.oid_ok o ->
  zlen (enc_oid_content o) <= 1270.
Proof.
  intros He Ho. destruct (isEncodable_packed o He Ho) as (a & b & rest & -> & Hp & Hr & Hl & _).
  cbn [enc_oid_content]. rewrite zlen_app, length_enc_subid by (unfold uint32_ok in Hp; lia).
  rewrite length_join_subids by done.
  assert (fold_right (fun s n => subidOctets s + n) 0 rest <= 10 * zlen rest) as H.
  { clear -Hr. induction Hr as [|s rest Hs Hr IH]; [done|]. cbn [fold_right]. rewrite zlen_cons.
    destruct (subidOctets_spec s) as [? _]; [unfold uint32_ok in Hs; lia|]. lia. }
  destruct (subidOctets_spec (a * 40 + b)) as [? _]; [unfold uint32_ok in Hp; lia|]. lia.
Qed.
