(* ===== verification/BerWriter.v ===== *)
(** * BerWriter: the encoder that patches its lengths in place

    Models [include/snmpio/ber/Writer.hpp] and [src/BerWriter.cpp].  The state is
    the buffer and the sticky error; a [Scope] guard is the position of its length
    octet, and [in_scope] is the block it lives in, its destructor included.
    [refines] states what an encoder promises the layers above: it appends exactly
    the reference encoding of [Ber], or records [OidNotEncodable]. *)

From S2P Require Import Prelude Errors Oids Values Ber.

Record Writer : Type := mkWriter { w_buf : Octets; w_ec : ErrorCode }.

Module Writer.

(** [Writer()] and [Writer(reserveBytes)]: reserving is not observable. *)
Definition new : Writer := mkWriter [] no_error.

Definition fail (e : Errc) : M Writer unit :=
  modify (fun w => if is_error (w_ec w) then w else mkWriter (w_buf w) (make_error_code e)).

(** [m_buf.insert(m_buf.end(), v.begin(), v.end())]. *)
Definition append (v : Octets) : M Writer unit :=
  modify (fun w => mkWriter (w_buf w ++ v) (w_ec w)).

Definition put (b : Z) : M Writer unit := append [b].

Definition putTag (t : Z) : M Writer unit := append [t].

(** [for (unsigned i = significant; i-- > 0;) put((n >> (i * 8)) & 0xFF)]. *)
Fixpoint putLength_loop (i : nat) (n : Z) : M Writer unit :=
  match i with
  | O => ret tt
  | S i' => put (to_byte (Z.land (Z.shiftr n (8 * Z.of_nat i')) 255)) ;;; putLength_loop i' n
  end.

Definition putLength (n : Z) : M Writer unit :=
  if n <? 0x80 then put (to_byte n)
  else
    let significant := lengthOctets n - 1 in
    put (to_byte (Z.lor 0x80 significant)) ;;;
    putLength_loop (Z.to_nat significant) n.

(** [w.m_buf[i] = b], undefined outside the vector. *)
Definition write_at (i : nat) (b : Z) : M Writer unit :=
  let! w := get_st in
  if (i <? length (w_buf w))%nat then set_st (mkWriter (<[i := b]> (w_buf w)) (w_ec w))
  else undef.

(** [w.m_buf.insert(w.m_buf.begin() + i, n, std::byte{0})], undefined past the end. *)
Definition insert_zeros (i n : nat) : M Writer unit :=
  let! w := get_st in
  if (i <=? length (w_buf w))%nat
  then set_st (mkWriter (take i (w_buf w) ++ replicate n 0 ++ drop i (w_buf w)) (w_ec w))
  else undef.

(** [for (i = 0; i < needed - 1; ++i)] of the destructor, [count = needed - 1]. *)
Fixpoint patch_loop (todo : nat) (count : nat) (lengthPos : nat) (contentLen : Z) : M Writer unit :=
  match todo with
  | O => ret tt
  | S todo' =>
      let i := (count - todo)%nat in
      let shift := (count - 1 - i)%nat in
      write_at (lengthPos + 1 + i)
               (to_byte (Z.land (Z.shiftr contentLen (8 * Z.of_nat shift)) 255)) ;;;
      patch_loop todo' count lengthPos contentLen
  end.

(** [Writer::Scope::~Scope()]. *)
Definition scope_close (lengthPos : nat) : M Writer unit :=
  let! w := get_st in
  let contentStart := (lengthPos + 1)%nat in
  let contentLen := wrap 64 (zlen (w_buf w) - Z.of_nat contentStart) in
  let needed := Z.to_nat (lengthOctets contentLen) in
  if (1 <? needed)%nat then
    insert_zeros contentStart (needed - 1) ;;;
    write_at lengthPos (to_byte (Z.lor 0x80 (Z.of_nat (needed - 1)))) ;;;
    patch_loop (needed - 1) (needed - 1) lengthPos contentLen
  else write_at lengthPos (to_byte contentLen).

(** Returns the guard's [m_lengthPos]. *)
Definition beginConstructed (t : Z) : M Writer nat :=
  (if negb (isConstructed t) then fail UnexpectedTag else ret tt) ;;;
  putTag t ;;;
  let! lengthPos := gets (fun w => length (w_buf w)) in
  put 0 ;;;
  ret lengthPos.

(** [{ const auto scope = w.beginConstructed(t); body }]. *)
Definition in_scope (t : Z) (body : M Writer unit) : M Writer unit :=
  let! lengthPos := beginConstructed t in
  body ;;;
  scope_close lengthPos.

Definition in_sequence (body : M Writer unit) : M Writer unit := in_scope tag.sequence body.

(** [if (m_ec) return;] *)
Definition unless_failed (m : M Writer unit) : M Writer unit :=
  let! w := get_st in if is_error (w_ec w) then ret tt else m.

(** [for (std::size_t i = first; i < n; ++i) put(encoded[i])]. *)
Fixpoint put_all (l : Octets) : M Writer unit :=
  match l with
  | [] => ret tt
  | b :: l' => put b ;;; put_all l'
  end.

Definition integer (v t : Z) : M Writer unit :=
  unless_failed (
    let u := wrap 32 v in
    let encoded := map (fun i => to_byte (Z.land (Z.shiftr u ((3 - Z.of_nat i) * 8)) 255)) (seq 0 4) in
    let pad := if v <? 0 then 0xFF else 0x00 in
    let first := skip_padding 4 encoded pad (v <? 0) 0 in
    putTag t ;;;
    putLength (4 - Z.of_nat first) ;;;
    put_all (drop first encoded)).

Definition unsigned64 (v t : Z) : M Writer unit :=
  unless_failed (
    let encoded :=
      0 :: map (fun i => to_byte (Z.land (Z.shiftr v ((7 - Z.of_nat i) * 8)) 255)) (seq 0 8) in
    let first := skip_padding 9 encoded 0 false 0 in
    putTag t ;;;
    putLength (9 - Z.of_nat first) ;;;
    put_all (drop first encoded)).

Definition unsigned32 (v t : Z) : M Writer unit := unsigned64 v t.

(** Both overloads: a [string_view] is viewed as the span of its octets. *)
Definition octetString (v : Octets) (t : Z) : M Writer unit :=
  unless_failed (putTag t ;;; putLength (zlen v) ;;; append v).

Definition nullValue : M Writer unit := unless_failed (putTag tag.null ;;; putLength 0).

(** The content size [objectIdentifier] and [encodedOidSize] compute. *)
Definition oid_content_size (o : Oid) : Z :=
  fold_left (fun content s => content + subidOctets s) (drop 2 o)
            (subidOctets (Oids.subid o 0 * 40 + Oids.subid o 1)).

Definition encodedOidSize (o : Oid) : Z :=
  if negb (Oids.isEncodable o) then 0
  else let content := oid_content_size o in 1 + lengthOctets content + content.

(** [for (unsigned i = n; i-- > 0;)] of the [emit] lambda. *)
Fixpoint emit_loop (i : nat) (v : Z) : M Writer unit :=
  match i with
  | O => ret tt
  | S i' =>
      let group := to_byte (Z.land (Z.shiftr v (Z.of_nat i' * 7)) 0x7F) in
      put (if (i' =? 0)%nat then group else Z.lor group 0x80) ;;;
      emit_loop i' v
  end.

Definition emit (v : Z) : M Writer unit := emit_loop (Z.to_nat (subidOctets v)) v.

Fixpoint emit_all (l : list Z) : M Writer unit :=
  match l with
  | [] => ret tt
  | v :: l' => emit v ;;; emit_all l'
  end.

Definition objectIdentifier (o : Oid) : M Writer unit :=
  unless_failed (
    if negb (Oids.isEncodable o) then fail OidNotEncodable
    else
      putTag tag.objectIdentifier ;;;
      putLength (oid_content_size o) ;;;
      emit (Oids.subid o 0 * 40 + Oids.subid o 1) ;;;
      emit_all (drop 2 o)).

Definition tlv (t : Z) (content : Octets) : M Writer unit :=
  unless_failed (putTag t ;;; putLength (zlen content) ;;; append content).

Definition raw (bytes : Octets) : M Writer unit := unless_failed (append bytes).

Definition writeValue (v : Value) : M Writer unit :=
  unless_failed (
    match v with
    | ValNull => nullValue
    | ValInt32 held => integer held tag.integer
    | ValOctets held => octetString held tag.octetString
    | ValOid held => objectIdentifier held
    | ValIpAddress held => octetString held tag.ipAddress
    | ValCounter32 held => unsigned32 held tag.counter32
    | ValGauge32 held => unsigned32 held tag.gauge32
    | ValTimeTicks held => unsigned32 held tag.timeticks
    | ValCounter64 held => unsigned64 held tag.counter64
    | ValOpaque held => octetString held tag.opaque
    | ValException NoSuchObject => tlv tag.noSuchObject []
    | ValException NoSuchInstance => tlv tag.noSuchInstance []
    | ValException EndOfMibView => tlv tag.endOfMibView []
    end).

Definition writeVarbind (vb : Varbind) : M Writer unit :=
  in_sequence (objectIdentifier (vb_name vb) ;;; writeValue (vb_val vb)).

Fixpoint write_all (vbs : list Varbind) : M Writer unit :=
  match vbs with
  | [] => ret tt
  | vb :: rest => writeVarbind vb ;;; write_all rest
  end.

Definition varbindList (vbs : list Varbind) : M Writer unit := in_sequence (write_all vbs).

(** ** The contract of an encoder *)

(** It always returns, only ever appends, and an error already recorded stays. *)
Class GoodWrite (m : M Writer unit) : Prop :=
  good_write : forall w, exists w', m w = Done tt w' /\ w_buf w `prefix_of` w_buf w' /\
    (is_error (w_ec w) = true -> w_ec w' = w_ec w).

(** From a Writer without error it appends the reference encoding, or records
    that an Oid is not encodable.  The bound is [std::size_t]'s. *)
Class Refines (m : M Writer unit) (ref : option Octets) : Prop :=
  refines : forall w, w_ec w = no_error -> exists w', m w = Done tt w' /\
    match ref with
    | Some bs => w_ec w' = no_error /\
                 (zlen (w_buf w ++ bs) < 2 ^ 64 -> w_buf w' = w_buf w ++ bs)
    | None => w_ec w' = make_error_code OidNotEncodable
    end.

Definition seq_enc (r1 r2 : option Octets) : option Octets :=
  bs1 ← r1; bs2 ← r2; Some (bs1 ++ bs2).

(** Instance search goes by the names of the operations, never into their bodies. *)
#[global] Typeclasses Opaque bind ret unless_failed integer unsigned32 unsigned64 octetString
  nullValue objectIdentifier tlv raw writeValue writeVarbind write_all varbindList in_scope in_sequence.

Lemma append_done v w : append v w = Done tt (mkWriter (w_buf w ++ v) (w_ec w)).
Proof. done. Qed.

Lemma put_all_append l w : put_all l w = Done tt (mkWriter (w_buf w ++ l) (w_ec w)).
Proof.
  revert w. induction l as [|b l IH]; intros [buf ec]; cbn [put_all w_buf w_ec].
  - by rewrite app_nil_r.
  - unfold bind, put. rewrite append_done, IH. cbn. by rewrite <- app_assoc.
Qed.

Lemma putLength_loop_append i n w :
  putLength_loop i n w = Done tt (mkWriter (w_buf w ++ be_bytes i n) (w_ec w)).
Proof.
  revert w. induction i as [|i IH]; intros [buf ec]; cbn [putLength_loop be_bytes w_buf w_ec].
  - by rewrite app_nil_r.
  - unfold bind, put. rewrite append_done, IH. cbn [w_buf w_ec].
    rewrite shiftr_land_byte by lia. rewrite to_byte_id by (apply Z.mod_pos_bound; lia).
    by rewrite <- app_assoc.
Qed.

Lemma putLength_append n w : 0 <= n < 2 ^ 64 ->
  putLength n w = Done tt (mkWriter (w_buf w ++ enc_len n) (w_ec w)).
Proof.
  intros Hn. unfold putLength, enc_len, lengthOctets.
  destruct (Z.ltb_spec n 0x80) as [Hlt|Hge].
  - destruct (Z.ltb_spec n 128); [|lia]. unfold put. rewrite append_done.
    by rewrite to_byte_id by (unfold byte_ok; lia).
  - destruct (Z.ltb_spec n 128); [lia|].
    destruct (significant_octets_spec 8 n Hn) as (Hk & _ & _). unfold be_min.
    set (k := significant_octets 8 n) in *. replace (1 + k - 1) with k by lia.
    unfold bind, put. rewrite append_done, putLength_loop_append. cbn [w_buf w_ec].
    rewrite length_be_bytes, Z2Nat.id, lor_128 by lia.
    rewrite to_byte_id by (unfold byte_ok; lia). by rewrite <- app_assoc.
Qed.

Lemma write_at_middle pre x post b ec :
  write_at (length pre) b (mkWriter (pre ++ x :: post) ec) = Done tt (mkWriter (pre ++ b :: post) ec).
Proof.
  unfold write_at, bind, get_st, set_st. cbn [w_buf w_ec]. rewrite length_app. cbn [length].
  destruct (Nat.ltb_spec (length pre) (length pre + S (length post))); [|lia].
  by rewrite insert_middle.
Qed.

Lemma patch_loop_spec todo count pre h done_ post contentLen ec :
  (todo <= count)%nat -> length done_ = (count - todo)%nat ->
  patch_loop todo count (length pre) contentLen
    (mkWriter (pre ++ h :: done_ ++ replicate todo 0 ++ post) ec) =
  Done tt (mkWriter (pre ++ h :: done_ ++ be_bytes todo contentLen ++ post) ec).
Proof.
  revert done_. induction todo as [|todo IH]; intros done_ Hle Hlen; [done|].
  cbn [patch_loop replicate be_bytes]. unfold bind.
  replace (pre ++ h :: done_ ++ (0 :: replicate todo 0) ++ post)
    with ((pre ++ h :: done_) ++ 0 :: (replicate todo 0 ++ post)) by (by rewrite <- app_assoc).
  replace (length pre + 1 + (count - S todo))%nat with (length (pre ++ h :: done_))
    by (rewrite length_app; cbn; lia).
  rewrite write_at_middle. replace (count - 1 - (count - S todo))%nat with todo by lia.
  rewrite shiftr_land_byte by lia. rewrite to_byte_id by (apply Z.mod_pos_bound; lia).
  set (b := _ mod 256).
  replace ((pre ++ h :: done_) ++ b :: replicate todo 0 ++ post)
    with (pre ++ h :: (done_ ++ [b]) ++ replicate todo 0 ++ post) by (by rewrite <- !app_assoc).
  rewrite IH; [|lia|rewrite length_app; cbn; lia]. by rewrite <- !app_assoc.
Qed.

(** Closing a scope replaces the placeholder octet by the definite length of what
    was written after it, widening in place when it needs more than one octet. *)
Lemma scope_close_spec pre x content ec :
  scope_close (length pre) (mkWriter (pre ++ x :: content) ec) =
  Done tt (mkWriter (pre ++ enc_len (wrap 64 (zlen content)) ++ content) ec).
Proof.
  unfold scope_close, bind at 1, get_st. cbn [w_buf w_ec].
  replace (zlen (pre ++ x :: content) - Z.of_nat (length pre + 1)) with (zlen content)
    by (rewrite length_app; cbn; lia).
  set (n := wrap 64 (zlen content)).
  assert (0 <= n < 2 ^ 64) as Hn by (apply Z.mod_pos_bound; lia).
  unfold lengthOctets, enc_len. destruct (Z.ltb_spec n 0x80) as [Hlt|Hge].
  - destruct (Z.ltb_spec n 128); [|lia]. cbn [Nat.ltb Z.to_nat].
    change (1 <? Z.to_nat 1)%nat with false. cbv iota.
    by rewrite write_at_middle, to_byte_id by (unfold byte_ok; lia).
  - destruct (Z.ltb_spec n 128); [lia|].
    destruct (significant_octets_spec 8 n Hn) as (Hk & Hup & _).
    assert (0 < significant_octets 8 n) as Hpos.
    { rewrite significant_octets_S by lia. pose proof (significant_octets_nonneg 7 (Z.shiftr n 8)). lia. }
    unfold be_min. set (k := significant_octets 8 n) in *.
    destruct (Nat.ltb_spec 1 (Z.to_nat (1 + k))); [|lia].
    replace (Z.to_nat (1 + k) - 1)%nat with (Z.to_nat k) by lia.
    unfold insert_zeros, bind, get_st, set_st. cbn [w_buf w_ec].
    destruct (Nat.leb_spec (length pre + 1) (length (pre ++ x :: content)));
      [|rewrite length_app in *; cbn in *; lia].
    replace (pre ++ x :: content) with ((pre ++ [x]) ++ content) by (by rewrite <- app_assoc).
    replace (length pre + 1)%nat with (length (pre ++ [x])) by (by rewrite length_app).
    rewrite take_length_app, drop_length_app.
    replace ((pre ++ [x]) ++ replicate (Z.to_nat k) 0 ++ content)
      with (pre ++ x :: [] ++ replicate (Z.to_nat k) 0 ++ content) by (by rewrite <- app_assoc).
    rewrite write_at_middle, patch_loop_spec by (cbn; lia).
    rewrite Z2Nat.id, lor_128, length_be_bytes, Z2Nat.id by lia.
    by rewrite to_byte_id by (unfold byte_ok; lia).
Qed.

(** ** The contract of each operation *)

(** Any operation that is one append is well behaved. *)
Lemma append_like_good m : (forall w, is_error (w_ec w) = true -> m w = Done tt w) ->
  (forall w, is_error (w_ec w) = false -> exists w', m w = Done tt w' /\ w_buf w `prefix_of` w_buf w') ->
  GoodWrite m.
Proof.
  intros Herr Hok w. destruct (is_error (w_ec w)) eqn:E.
  - exists w. by rewrite Herr.
  - destruct (Hok w E) as (w' & -> & ?). by exists w'.
Qed.

Lemma unless_failed_error m w : is_error (w_ec w) = true -> unless_failed m w = Done tt w.
Proof. unfold unless_failed, bind, get_st. by intros ->. Qed.

Lemma unless_failed_ok m w : is_error (w_ec w) = false -> unless_failed m w = m w.
Proof. unfold unless_failed, bind, get_st. by intros ->. Qed.

(** A guarded operation that appends [bs] to any buffer. *)
Lemma appends_contract m bs : (forall w, m w = Done tt (mkWriter (w_buf w ++ bs) (w_ec w))) ->
  GoodWrite (unless_failed m) /\ Refines (unless_failed m) (Some bs).
Proof.
  intros H. split.
  - apply append_like_good; intros w E; [by apply unless_failed_error|].
    rewrite unless_failed_ok, H by done. eexists. split; [done|]. by apply prefix_app_r.
  - intros w E. rewrite unless_failed_ok, H by (by rewrite E). eexists. by split; [|split].
Qed.

Lemma tlv_appends t c w : zlen c < 2 ^ 64 ->
  (putTag t ;;; putLength (zlen c) ;;; append c) w = Done tt (mkWriter (w_buf w ++ enc_tlv t c) (w_ec w)).
Proof.
  intros Hc. unfold bind, putTag. rewrite append_done, putLength_append by lia.
  rewrite append_done. cbn [w_buf w_ec]. by rewrite <- !app_assoc.
Qed.

(** Without a bound on the content only the length octets are unknown. *)
Lemma putLength_append_any n w : exists bs,
  putLength n w = Done tt (mkWriter (w_buf w ++ bs) (w_ec w)).
Proof.
  unfold putLength. destruct (n <? 0x80); [by eexists|].
  unfold bind, put. rewrite append_done, putLength_loop_append. cbn [w_buf w_ec].
  rewrite <- app_assoc. by eexists.
Qed.

Lemma tlv_contract t c :
  GoodWrite (tlv t c) /\ Refines (tlv t c) (Some (enc_tlv t c)).
Proof.
  assert (forall w, exists bs, (putTag t ;;; putLength (zlen c) ;;; append c) w
    = Done tt (mkWriter (w_buf w ++ bs) (w_ec w))) as Hany.
  { intros w. unfold bind, putTag. rewrite append_done.
    destruct (putLength_append_any (zlen c) (mkWriter (w_buf w ++ [t]) (w_ec w))) as [bs ->].
    rewrite append_done. cbn [w_buf w_ec]. rewrite <- !app_assoc. by eexists. }
  split.
  - apply append_like_good; intros w E; [by apply unless_failed_error|].
    unfold tlv. rewrite unless_failed_ok by done. destruct (Hany w) as [bs ->].
    eexists. split; [done|]. by apply prefix_app_r.
  - intros w E. unfold tlv. rewrite unless_failed_ok by (by rewrite E).
    destruct (Hany w) as [bs Hbs]. rewrite Hbs. eexists. split; [done|]. split; [done|].
    rewrite zlen_app, length_enc_tlv. intros Hl.
    pose proof (enc_len_pos (zlen c)). rewrite tlv_appends in Hbs by lia.
    injection Hbs as Hbs. by rewrite Hbs.
Qed.

#[global] Instance tlv_good t c : GoodWrite (tlv t c) := proj1 (tlv_contract t c).
#[global] Instance tlv_refines t c : Refines (tlv t c) (Some (enc_tlv t c)) := proj2 (tlv_contract t c).

#[global] Instance octetString_good v t : GoodWrite (octetString v t) := tlv_good t v.
#[global] Instance octetString_refines v t :
  Refines (octetString v t) (Some (enc_tlv t v)) := tlv_refines t v.

#[global] Instance raw_good v : GoodWrite (raw v).
Proof. apply (appends_contract (append v) v). intros w. apply append_done. Qed.
#[global] Instance raw_refines v : Refines (raw v) (Some v).
Proof. apply (appends_contract (append v) v). intros w. apply append_done. Qed.

Lemma nullValue_contract : GoodWrite nullValue /\ Refines nullValue (Some (enc_tlv tag.null [])).
Proof.
  apply appends_contract. intros w. unfold bind, putTag.
  rewrite append_done, putLength_append by lia. cbn [w_buf w_ec]. by rewrite <- app_assoc.
Qed.

#[global] Instance nullValue_good : GoodWrite nullValue := proj1 nullValue_contract.
#[global] Instance nullValue_refines : Refines nullValue (Some (enc_tlv tag.null [])) :=
  proj2 nullValue_contract.

(** *** Integers *)

Lemma be_bytes_map n v :
  map (fun i => to_byte (Z.land (Z.shiftr v ((Z.of_nat n - 1 - Z.of_nat i) * 8)) 255)) (seq 0 n)
  = be_bytes n v.
Proof.
  induction n as [|n IH]; [done|]. cbn [seq be_bytes]. cbn [map].
  rewrite <- IH, <- seq_shift, map_map. f_equal.
  - replace ((Z.of_nat (S n) - 1 - Z.of_nat 0) * 8) with (8 * Z.of_nat n) by lia.
    rewrite shiftr_land_byte by lia. apply to_byte_id. apply Z.mod_pos_bound; lia.
  - apply map_ext. intros i. do 4 f_equal. lia.
Qed.

(** The common tail of the two integer encoders. *)
Lemma int_appends encoded pad neg t w : encoded <> [] -> (length encoded <= 9)%nat ->
  let first := skip_padding (length encoded) encoded pad neg 0 in
  (putTag t ;;; putLength (zlen encoded - Z.of_nat first) ;;; put_all (drop first encoded)) w
  = Done tt (mkWriter (w_buf w ++ enc_tlv t (strip_padding pad neg encoded)) (w_ec w)).
Proof.
  intros Hne Hlen first.
  destruct (skip_padding_strip (length encoded) encoded pad neg 0) as [Hs Hi]; [lia..|].
  fold first in Hs, Hi. rewrite drop_0 in Hs.
  replace (zlen encoded - Z.of_nat first) with (zlen (strip_padding pad neg encoded))
    by (rewrite <- Hs, length_drop; lia).
  pose proof (strip_padding_length pad neg encoded).
  rewrite <- Hs. rewrite <- (tlv_appends t (drop first encoded) w) by (rewrite Hs; lia).
  unfold bind, putTag. rewrite append_done. destruct (putLength _ _) as [[] w'| |]; [|done..].
  apply put_all_append.
Qed.

Lemma integer_contract v t : 
  GoodWrite (integer v t) /\ Refines (integer v t) (Some (enc_tlv t (enc_int32 v))).
Proof.
  apply appends_contract. intros w. unfold enc_int32.
  pose proof (be_bytes_map 4 (wrap 32 v)) as E. change (Z.of_nat 4 - 1) with 3 in E.
  assert (be_bytes 4 (wrap 32 v) = be_bytes 4 v) as Eb.
  { apply be_value_inj; [apply be_bytes_ok..|by rewrite !length_be_bytes|].
    rewrite !be_value_be_bytes. unfold wrap. by rewrite Z.mod_mod by lia. }
  rewrite E, Eb. apply (int_appends (be_bytes 4 v)); [done|cbn; lia].
Qed.

#[global] Instance integer_good v t : GoodWrite (integer v t) := proj1 (integer_contract v t).
#[global] Instance integer_refines v t :
  Refines (integer v t) (Some (enc_tlv t (enc_int32 v))) := proj2 (integer_contract v t).

Lemma unsigned64_contract v t : uint64_ok v ->
  Refines (unsigned64 v t) (Some (enc_tlv t (enc_uint v))).
Proof.
  intros Hv. apply appends_contract. intros w. unfold enc_uint.
  pose proof (be_bytes_map 8 v) as E. change (Z.of_nat 8 - 1) with 7 in E.
  assert (0 :: be_bytes 8 v = be_bytes 9 v) as Eb.
  { cbn [be_bytes]. f_equal. change (256 ^ Z.of_nat 8) with 18446744073709551616.
    rewrite Z.div_small; [done|]. unfold uint64_ok in Hv. lia. }
  rewrite E, Eb. apply (int_appends (be_bytes 9 v)); [done|cbn; lia].
Qed.

#[global] Instance unsigned64_good v t : GoodWrite (unsigned64 v t).
Proof.
  unfold unsigned64. pose proof (be_bytes_map 8 v) as E. change (Z.of_nat 8 - 1) with 7 in E.
  rewrite E. eapply appends_contract. intros w.
  apply (int_appends (0 :: be_bytes 8 v)); [done|cbn; lia].
Qed.

#[global] Instance unsigned32_good v t : GoodWrite (unsigned32 v t) := unsigned64_good v t.

(** *** Object identifiers *)

Lemma emit_loop_append i v w :
  emit_loop i v w = Done tt (mkWriter (w_buf w ++ enc_groups i v) (w_ec w)).
Proof.
  revert w. induction i as [|i IH]; intros [buf ec]; cbn [emit_loop enc_groups w_buf w_ec].
  - by rewrite app_nil_r.
  - rewrite land_127, Z.shiftr_div_pow2 by lia.
    replace (2 ^ (Z.of_nat i * 7)) with (128 ^ Z.of_nat i)
      by (change 128 with (2 ^ 7); rewrite <- Z.pow_mul_r by lia; f_equal; lia).
    pose proof (Z.mod_pos_bound (v / 128 ^ Z.of_nat i) 128 ltac:(lia)).
    rewrite to_byte_id by (unfold byte_ok; lia). rewrite Z.lor_comm, lor_128, (Z.add_comm 128) by lia.
    unfold bind, put. rewrite append_done, IH. cbn [w_buf w_ec]. by rewrite <- app_assoc.
Qed.

Lemma emit_all_append l w :
  emit_all l w = Done tt (mkWriter (w_buf w ++ concat (map enc_subid l)) (w_ec w)).
Proof.
  revert w. induction l as [|v l IH]; intros [buf ec]; cbn [emit_all map concat w_buf w_ec].
  - by rewrite app_nil_r.
  - unfold bind, emit. rewrite emit_loop_append, IH. cbn. by rewrite <- app_assoc.
Qed.

Lemma oid_content_size_eq o : Oids.isEncodable o = true -> Oids.oid_ok o ->
  oid_content_size o = zlen (enc_oid_content o).
Proof.
  intros He Ho. destruct (isEncodable_packed o He Ho) as (a & b & rest & -> & Hp & Hr & _).
  unfold oid_content_size. cbn [enc_oid_content drop].
  change (Oids.subid (a :: b :: rest) 0) with a. change (Oids.subid (a :: b :: rest) 1) with b.
  rewrite zlen_app, length_enc_subid by (unfold uint32_ok in Hp; lia).
  rewrite length_join_subids by done. rewrite drop_0. generalize (subidOctets (a * 40 + b)).
  clear. induction rest as [|s rest IH]; intros n; cbn [fold_left fold_right]; [lia|].
  rewrite IH. lia.
Qed.

Lemma objectIdentifier_appends o w : is_error (w_ec w) = false ->
  Oids.isEncodable o = true -> Oids.oid_ok o ->
  objectIdentifier o w =
    Done tt (mkWriter (w_buf w ++ enc_tlv tag.objectIdentifier (enc_oid_content o)) (w_ec w)).
Proof.
  intros Hw He Ho. unfold objectIdentifier. rewrite unless_failed_ok, He by done. cbn [negb].
  rewrite oid_content_size_eq by done. pose proof (length_enc_oid_content o He Ho).
  unfold bind, putTag. rewrite append_done, putLength_append by lia.
  unfold emit. rewrite emit_loop_append, emit_all_append. cbn [w_buf w_ec].
  destruct (isEncodable_packed o He Ho) as (a & b & rest & -> & _).
  unfold enc_tlv. cbn [enc_oid_content drop app]. by rewrite <- !app_assoc.
Qed.

#[global] Instance objectIdentifier_good o : GoodWrite (objectIdentifier o).
Proof.
  apply append_like_good; intros w E; [by apply unless_failed_error|].
  unfold objectIdentifier. rewrite unless_failed_ok by done.
  destruct (negb _).
  - unfold fail, modify. rewrite E. eexists. split; [done|]. done.
  - unfold bind, putTag. rewrite append_done.
    destruct (putLength_append_any (oid_content_size o)
      (mkWriter (w_buf w ++ [tag.objectIdentifier]) (w_ec w))) as [bs ->].
    unfold emit. rewrite emit_loop_append, emit_all_append. eexists. split; [done|].
    cbn [w_buf]. rewrite <- !app_assoc. by apply prefix_app_r.
Qed.

Lemma objectIdentifier_refines o : Oids.oid_ok o -> Refines (objectIdentifier o) (enc_oid o).
Proof.
  intros Ho w E. unfold enc_oid. destruct (Oids.isEncodable o) eqn:He.
  - rewrite objectIdentifier_appends by (by rewrite ?E). eexists. by split; [|split].
  - unfold objectIdentifier. rewrite unless_failed_ok by (by rewrite E). rewrite He. cbn [negb].
    unfold fail, modify. rewrite E. cbn. by eexists.
Qed.

(** *** Composition *)

#[global] Instance ret_good : GoodWrite (ret tt).
Proof. intros w. by exists w. Qed.
#[global] Instance ret_refines : Refines (ret tt) (Some []).
Proof. intros w E. exists w. rewrite app_nil_r. by split; [|split]. Qed.

#[global] Instance bind_good m1 m2 : GoodWrite m1 -> GoodWrite m2 -> GoodWrite (m1 ;;; m2).
Proof.
  intros H1 H2 w. destruct (H1 w) as (w1 & E1 & P1 & K1). destruct (H2 w1) as (w2 & E2 & P2 & K2).
  exists w2. unfold bind. rewrite E1, E2. split; [done|]. split; [by etransitivity|].
  intros He. rewrite K2; [by apply K1|]. by rewrite K1.
Qed.

Lemma bind_refines m1 m2 r1 r2 : GoodWrite m2 -> Refines m1 r1 -> Refines m2 r2 ->
  Refines (m1 ;;; m2) (seq_enc r1 r2).
Proof.
  intros G2 R1 R2 w E. destruct (R1 w E) as (w1 & E1 & S1). unfold bind. rewrite E1.
  destruct r1 as [bs1|]; cbn [seq_enc mbind option_bind].
  - destruct S1 as [Ec1 Hb1]. destruct (R2 w1 Ec1) as (w2 & E2 & S2). exists w2. split; [done|].
    destruct r2 as [bs2|]; cbn [mbind option_bind]; [|done]. destruct S2 as [Ec2 Hb2].
    split; [done|]. rewrite !zlen_app. intros Hl.
    rewrite Hb2; rewrite Hb1; rewrite ?zlen_app, <- ?app_assoc; try lia; done.
  - destruct (G2 w1) as (w2 & E2 & _ & K2). exists w2. rewrite E2. split; [done|].
    rewrite K2; [done|]. by rewrite S1.
Qed.

#[global] Instance unless_failed_good m : GoodWrite m -> GoodWrite (unless_failed m).
Proof.
  intros G. apply append_like_good; intros w E; [by apply unless_failed_error|].
  rewrite unless_failed_ok by done. destruct (G w) as (w' & ? & ? & _). by exists w'.
Qed.
#[global] Instance unless_failed_refines m r : Refines m r -> Refines (unless_failed m) r.
Proof. intros R w E. rewrite unless_failed_ok by (by rewrite E). by apply R. Qed.

Lemma beginConstructed_spec t w : isConstructed t = true ->
  beginConstructed t w = Done (length (w_buf w ++ [t])) (mkWriter ((w_buf w ++ [t]) ++ [0]) (w_ec w)).
Proof. intros Ht. unfold beginConstructed. rewrite Ht. done. Qed.

(** A scope around an encoder: its octets, inside one TLV. *)
Lemma in_scope_run t body w w' : isConstructed t = true ->
  body (mkWriter ((w_buf w ++ [t]) ++ [0]) (w_ec w)) = Done tt w' ->
  ((w_buf w ++ [t]) ++ [0]) `prefix_of` w_buf w' ->
  exists content, w_buf w' = ((w_buf w ++ [t]) ++ [0]) ++ content /\
    in_scope t body w =
      Done tt (mkWriter (w_buf w ++ [t] ++ enc_len (wrap 64 (zlen content)) ++ content) (w_ec w')).
Proof.
  intros Ht Hb [content Hc]. exists content. split; [done|].
  unfold in_scope, bind. rewrite beginConstructed_spec, Hb by done.
  destruct w' as [buf' ec']. cbn [w_buf w_ec] in *. subst buf'.
  rewrite <- app_assoc. cbn [app]. rewrite scope_close_spec. by rewrite <- app_assoc.
Qed.

Lemma in_scope_good t body : isConstructed t = true -> GoodWrite body -> GoodWrite (in_scope t body).
Proof.
  intros Ht G w. destruct (G (mkWriter ((w_buf w ++ [t]) ++ [0]) (w_ec w))) as (w' & E & P & K).
  destruct (in_scope_run t body w w' Ht E P) as (content & _ & ->).
  eexists. split; [done|]. split; [by apply prefix_app_r|]. done.
Qed.

Lemma in_scope_refines t body r : isConstructed t = true -> GoodWrite body -> Refines body r ->
  Refines (in_scope t body) (enc_tlv t <$> r).
Proof.
  intros Ht G R w E.
  destruct (R (mkWriter ((w_buf w ++ [t]) ++ [0]) (w_ec w)) E) as (w' & Eb & S).
  destruct (G (mkWriter ((w_buf w ++ [t]) ++ [0]) (w_ec w))) as (w'' & Eb' & P & _).
  rewrite Eb in Eb'. injection Eb' as <-.
  destruct (in_scope_run t body w w' Ht Eb P) as (content & Hc & ->).
  eexists. split; [done|]. destruct r as [bs|]; cbn [fmap option_fmap option_map w_ec w_buf]; [|done].
  destruct S as [Ec Hb]. split; [done|]. rewrite zlen_app, length_enc_tlv. intros Hl.
  pose proof (enc_len_pos (zlen bs)). cbn [w_buf] in Hb. rewrite Hb in Hc.
  - apply app_inv_head in Hc as <-. rewrite wrap_small by lia. done.
  - rewrite !zlen_app. cbn [length]. lia.
Qed.

(** *** Values, Varbinds and their lists *)

#[global] Instance in_sequence_good body : GoodWrite body -> GoodWrite (in_sequence body).
Proof. by apply in_scope_good. Qed.

Lemma in_sequence_refines body r : GoodWrite body -> Refines body r ->
  Refines (in_sequence body) (enc_tlv tag.sequence <$> r).
Proof. by apply in_scope_refines. Qed.

#[global] Instance writeValue_good v : GoodWrite (writeValue v).
Proof. apply unless_failed_good. destruct v as [| | | | | | | | | |[]]; apply _. Qed.

Lemma writeValue_refines v : value_ok v -> Refines (writeValue v) (enc_value v).
Proof.
  intros Hv. apply unless_failed_refines.
  destruct v as [| | | | | | | | | |[]]; cbn [enc_value value_ok exception_tag] in *; try apply _;
    try (by apply objectIdentifier_refines);
    apply unsigned64_contract; unfold uint32_ok, uint64_ok in *; lia.
Qed.

#[global] Instance writeVarbind_good vb : GoodWrite (writeVarbind vb).
Proof. apply in_sequence_good. apply _. Qed.

Lemma writeVarbind_refines vb : varbind_ok vb -> Refines (writeVarbind vb) (enc_varbind vb).
Proof.
  intros [Hn Hv].
  pose proof (in_sequence_refines _ _ _
    (bind_refines _ _ _ _ _ (objectIdentifier_refines _ Hn) (writeValue_refines _ Hv))) as R.
  revert R. unfold enc_varbind, seq_enc.
  destruct (enc_oid (vb_name vb)); [|done]. cbn. by destruct (enc_value (vb_val vb)).
Qed.

#[global] Instance write_all_good vbs : GoodWrite (write_all vbs).
Proof. induction vbs as [|vb vbs IH]; cbn [write_all]; apply _. Qed.

#[global] Instance varbindList_good vbs : GoodWrite (varbindList vbs).
Proof. apply in_sequence_good. apply _. Qed.

Lemma write_all_refines vbs : Forall varbind_ok vbs ->
  Refines (write_all vbs) (@concat Z <$> mapM enc_varbind vbs).
Proof.
  induction 1 as [|vb vbs Hvb Hvbs IH]; [apply ret_refines|].
  pose proof (bind_refines _ _ _ _ _ (writeVarbind_refines _ Hvb) IH) as R.
  revert R. cbn [write_all mapM]. unfold seq_enc.
  destruct (enc_varbind vb); [|done]. cbn. by destruct (mapM enc_varbind vbs).
Qed.

Lemma varbindList_refines vbs : Forall varbind_ok vbs ->
  Refines (varbindList vbs) (enc_varbinds vbs).
Proof.
  intros H. pose proof (in_sequence_refines _ _ _ (write_all_refines _ H)) as R.
  revert R. unfold enc_varbinds. by destruct (mapM enc_varbind vbs).
Qed.

(** What a refinement gives for a run on a given Writer. *)
Lemma refines_run m bs w : Refines m (Some bs) -> w_ec w = no_error ->
  zlen (w_buf w ++ bs) < 2 ^ 64 -> m w = Done tt (mkWriter (w_buf w ++ bs) no_error).
Proof.
  intros R E Hl. destruct (R w E) as ([buf ec] & Em & Ec & Hb). rewrite Em.
  cbn in *. by rewrite Ec, Hb.
Qed.

Lemma seq_enc_Some r1 r2 bs : seq_enc r1 r2 = Some bs <->
  exists b1 b2, r1 = Some b1 /\ r2 = Some b2 /\ bs = b1 ++ b2.
Proof. unfold seq_enc. destruct r1, r2; cbn; naive_solver. Qed.

(** ** Properties *)

(** C32: the Writer, which learns a length only after writing what it measures and
    widens the placeholder in place, appends exactly the reference BER encoding of
    a VarBindList; and if some Oid in it is not encodable, it records
    [OidNotEncodable] and still returns. *)
Theorem varbindList_encodes vbs w :
  Forall varbind_ok vbs -> w_ec w = no_error ->
  match enc_varbinds vbs with
  | Some bs => zlen (w_buf w ++ bs) < 2 ^ 64 ->
               varbindList vbs w = Done tt (mkWriter (w_buf w ++ bs) no_error)
  | None => exists buf, varbindList vbs w = Done tt (mkWriter buf (make_error_code OidNotEncodable))
  end.
Proof.
  intros Hok E. pose proof (varbindList_refines vbs Hok) as R.
  destruct (enc_varbinds vbs) as [bs|].
  - intros Hl. by apply refines_run.
  - destruct (R w E) as ([buf ec] & -> & Hec). cbn in Hec. subst. by exists buf.
Qed.

Lemma varbindList_encodes_witness :
  varbindList [mkVarbind [1; 3; 6; 1] (ValInt32 (-129))] new =
    Done tt (mkWriter [48; 11; 48; 9; 6; 3; 43; 6; 1; 2; 2; 255; 127] no_error).
Proof.
  apply (varbindList_encodes [mkVarbind [1; 3; 6; 1] (ValInt32 (-129))] new);
    [|reflexivity|vm_compute; reflexivity].
  repeat constructor; cbn; lia.
Defined.

(** Every encoder of the Writer, run in any state, returns without touching
    memory outside the buffer, keeps what was already written, and keeps the first
    error that was recorded. *)
Theorem writer_safe (m : M Writer unit) w :
  (exists v, m = writeValue v) \/ (exists vb, m = writeVarbind vb) \/
  (exists vbs, m = varbindList vbs) \/ (exists t c, m = tlv t c) \/ (exists o, m = objectIdentifier o) ->
  exists w', m w = Done tt w' /\ w_buf w `prefix_of` w_buf w' /\
    (is_error (w_ec w) = true -> w_ec w' = w_ec w).
Proof. intros [[? ->]|[[? ->]|[[? ->]|[(? & ? & ->)|[? ->]]]]]; apply good_write. Qed.

Lemma writer_safe_witness :
  exists w', varbindList [mkVarbind [5] ValNull] new = Done tt w' /\ [] `prefix_of` w_buf w' /\
    (is_error no_error = true -> w_ec w' = no_error).
Proof.
  apply (writer_safe (varbindList [mkVarbind [5] ValNull]) new). right; right; left. eexists. reflexivity.
Defined.

(** [encodedOidSize] is the number of octets [objectIdentifier] writes, and 0
    exactly for an Oid it refuses. *)
Theorem encodedOidSize_exact o w :
  Oids.oid_ok o -> w_ec w = no_error ->
  exists w', objectIdentifier o w = Done tt w' /\
    zlen (w_buf w') = zlen (w_buf w) + encodedOidSize o /\
    (encodedOidSize o = 0 <-> w_ec w' = make_error_code OidNotEncodable).
Proof.
  intros Ho E. unfold encodedOidSize. destruct (Oids.isEncodable o) eqn:He; cbn [negb].
  - rewrite objectIdentifier_appends by (by rewrite ?E). eexists. split; [done|].
    cbn [w_buf w_ec]. rewrite oid_content_size_eq by done.
    pose proof (length_enc_oid_content o He Ho). rewrite lengthOctets_enc_len by lia.
    rewrite zlen_app, length_enc_tlv, E. split; [lia|].
    pose proof (enc_len_pos (zlen (enc_oid_content o))). split; [lia|done].
  - unfold objectIdentifier. rewrite unless_failed_ok by (by rewrite E). rewrite He. cbn [negb].
    unfold fail, modify. rewrite E. eexists. split; [done|]. cbn. split; [lia|done].
Qed.

Lemma encodedOidSize_exact_witness :
  exists w', objectIdentifier [1; 3; 6; 1; 4; 1; 2680] new = Done tt w' /\
    zlen (w_buf w') = 0 + 9 /\ (9 = 0 <-> w_ec w' = make_error_code OidNotEncodable).
Proof.
  apply (encodedOidSize_exact [1; 3; 6; 1; 4; 1; 2680] new); [|reflexivity].
  apply (bool_decide_unpack _). vm_compute. exact I.
Defined.

End Writer.
