(* ===== verification/BerReader.v ===== *)
(** * BerReader: the sticky, bounded cursor over a received datagram

    Models [include/snmpio/ber/Reader.hpp] and [src/BerReader.cpp].  The state is
    the buffer, the cursor, the end of the innermost open element and the first
    error.  Reads of [m_buf] outside the buffer are [Undef]; [std::size_t]
    arithmetic wraps at 64 bits.  [GoodRead] is what every read promises the
    layers above it: it returns, it stays inside its element, and it says
    [std::nullopt] exactly when an error has been recorded. *)

From S2P Require Import Prelude Errors Oids Values Ber.

Record Reader : Type := mkReader { r_buf : Octets; r_pos : Z; r_end : Z; r_ec : ErrorCode }.

Module Reader.

(** [Reader(std::span<const std::byte> input)]. *)
Definition new (input : Octets) : Reader := mkReader input 0 (zlen input) no_error.

Definition ok (r : Reader) : bool := negb (is_error (r_ec r)).

Definition fail (e : Errc) : M Reader unit :=
  modify (fun r => mkReader (r_buf r) (r_end r) (r_end r)
                            (if is_error (r_ec r) then r_ec r else make_error_code e)).

(** [fail(e); return std::nullopt;] *)
Definition fail_with {A} (e : Errc) : M Reader (option A) := fail e ;;; ret None.

Definition remaining (r : Reader) : Z := wrap 64 (r_end r - r_pos r).
Definition atEnd (r : Reader) : bool := r_end r <=? r_pos r.

(** [m_buf[m_pos]]. *)
Definition octet_here (r : Reader) : option Z :=
  if r_pos r <? 0 then None else r_buf r !! Z.to_nat (r_pos r).

Definition peekTag : M Reader (option Z) :=
  let! r := get_st in
  if is_error (r_ec r) || (r_pos r >=? r_end r) then ret None
  else let! t := deref (octet_here r) in ret (Some t).

Definition finish : M Reader bool :=
  let! r := get_st in
  if is_error (r_ec r) then ret false
  else if negb (r_pos r =? r_end r) then fail TrailingData ;;; ret false
  else ret true.

(** [m_buf[m_pos++]]. *)
Definition next_octet : M Reader Z :=
  let! r := get_st in
  let! b := deref (octet_here r) in
  set_st (mkReader (r_buf r) (r_pos r + 1) (r_end r) (r_ec r)) ;;;
  ret b.

Record Header : Type := mkHeader { h_tag : Z; h_length : Z }.

(** [for (unsigned i = 0; i < count; ++i) length = (length << 8) | m_buf[m_pos++]]. *)
Fixpoint length_loop (count : nat) (len : Z) : M Reader Z :=
  match count with
  | O => ret len
  | S count' =>
      let! b := next_octet in
      length_loop count' (Z.lor (wrap 64 (Z.shiftl len 8)) b)
  end.

(** The length of [readHeader], from its first octet on. *)
Definition readLength (first : Z) : M Reader (option Z) :=
  if first <? 0x80 then ret (Some first)
  else if first =? 0x80 then fail_with IndefiniteLength
  else if first =? 0xFF then fail_with ReservedLength
  else
    let count := Z.land first 0x7F in
    if count >? 4 then fail_with LengthTooLarge
    else
      let! r := get_st in
      if remaining r <? count then fail_with Truncated
      else let! len := length_loop (Z.to_nat count) 0 in ret (Some len).

Definition readHeader : M Reader (option Header) :=
  let! r := get_st in
  if is_error (r_ec r) then ret None
  else if remaining r <? 2 then fail_with Truncated
  else
    let! t := next_octet in
    if Z.land t numberMask =? highTagNumberEscape then fail_with HighTagNumber
    else
      let! first := next_octet in
      let? len := readLength first in
      let! r := get_st in
      if len >? remaining r then fail_with Truncated
      else ret (Some (mkHeader t len)).

(** [Reader::Scope::~Scope()]. *)
Definition scope_close (savedEnd contentEnd : Z) : M Reader unit :=
  let! r := get_st in
  (if negb (is_error (r_ec r)) && negb (r_pos r =? contentEnd) then fail TrailingData else ret tt) ;;;
  modify (fun r => mkReader (r_buf r) contentEnd savedEnd (r_ec r)).

(** [enter]: the guard it returns is the pair ([m_savedEnd], [m_contentEnd]). *)
Definition enter (expected : Z) : M Reader (Z * Z) :=
  let! r := get_st in
  let savedEnd := r_end r in
  let empty_scope := gets (fun r => (savedEnd, r_pos r)) in
  if is_error (r_ec r) then empty_scope
  else if negb (isConstructed expected) then fail UnexpectedTag ;;; empty_scope
  else
    let! tagHere := peekTag in
    if negb (bool_decide (tagHere = Some expected)) then fail UnexpectedTag ;;; empty_scope
    else
      let! h := readHeader in
      match h with
      | None => empty_scope
      | Some h =>
          let! r := get_st in
          let contentEnd := wrap 64 (r_pos r + h_length h) in
          set_st (mkReader (r_buf r) (r_pos r) contentEnd (r_ec r)) ;;;
          ret (savedEnd, contentEnd)
      end.

(** [{ const auto s = r.enter(expected); body }]: the guard's destructor runs on
    every way out of the block. *)
Definition in_scope {A} (expected : Z) (body : M Reader A) : M Reader A :=
  let! s := enter expected in
  let! a := body in
  scope_close s.1 s.2 ;;;
  ret a.

(** A [std::span] of the buffer: where it starts and what it holds. *)
Record Span : Type := mkSpan { s_off : Z; s_bytes : Octets }.

(** [m_buf.subspan(m_pos, n)], undefined outside the buffer. *)
Definition subspan (off n : Z) : M Reader Span :=
  let! r := get_st in
  if (0 <=? off) && (0 <=? n) && (off + n <=? zlen (r_buf r))
  then ret (mkSpan off (take (Z.to_nat n) (drop (Z.to_nat off) (r_buf r))))
  else undef.

Definition advance (n : Z) : M Reader unit :=
  modify (fun r => mkReader (r_buf r) (wrap 64 (r_pos r + n)) (r_end r) (r_ec r)).

Definition primitiveContent (expected : Z) : M Reader (option Span) :=
  let! r := get_st in
  if is_error (r_ec r) then ret None
  else
    let! tagHere := peekTag in
    match tagHere with
    | None => fail_with Truncated
    | Some t =>
        if negb (t =? expected) then fail_with UnexpectedTag
        else if isConstructed expected then fail_with UnexpectedTag
        else
          let? h := readHeader in
          let! r := get_st in
          let! content := subspan (r_pos r) (h_length h) in
          advance (h_length h) ;;;
          ret (Some content)
    end.

Definition skipElement : M Reader (option Span) :=
  let! r := get_st in
  if is_error (r_ec r) then ret None
  else
    let start := r_pos r in
    let? h := readHeader in
    advance (h_length h) ;;;
    let! r := get_st in
    let! s := subspan start (wrap 64 (r_pos r - start)) in
    ret (Some s).

(** [magnitude = (magnitude << 8) | content[i]] on a [std::uint32_t]. *)
Definition u32_loop (l : Octets) (magnitude : Z) : Z :=
  fold_left (fun m b => Z.lor (wrap 32 (Z.shiftl m 8)) b) l magnitude.

Definition integer (expected : Z) : M Reader (option Z) :=
  let? content := primitiveContent expected in
  let content := s_bytes content in
  match content with
  | [] => fail_with EmptyContent
  | b0 :: _ =>
      let n := length content in
      let negative := high_bit b0 in
      let pad := if negative then 0xFF else 0x00 in
      let i := skip_padding n content pad negative 0 in
      if (4 <? n - i)%nat then fail_with IntegerTooLarge
      else
        let magnitude := u32_loop (drop i content) (if negative then 0xFFFFFFFF else 0) in
        ret (Some (swrap 32 magnitude))
  end.

(** [while (i < size && content[i] == std::byte{0}) ++i;], as the octets left. *)
Fixpoint skip_zeros (l : Octets) : Octets :=
  match l with
  | b :: l' => if b =? 0 then skip_zeros l' else l
  | [] => []
  end.

Definition u64_loop (l : Octets) (v : Z) : Z :=
  fold_left (fun v b => Z.lor (wrap 64 (Z.shiftl v 8)) b) l v.

Definition unsignedContent (expected : Z) (maxSignificant : nat) : M Reader (option Z) :=
  let? content := primitiveContent expected in
  let content := s_bytes content in
  match content with
  | [] => fail_with EmptyContent
  | _ =>
      let rest := skip_zeros content in
      if (maxSignificant <? length rest)%nat then fail_with IntegerTooLarge
      else ret (Some (u64_loop rest 0))
  end.

Definition unsigned32 (expected : Z) : M Reader (option Z) :=
  let? v := unsignedContent expected 4 in
  ret (Some (wrap 32 v)).

Definition unsigned64 (expected : Z) : M Reader (option Z) := unsignedContent expected 8.

Definition octetStringView (expected : Z) : M Reader (option Span) := primitiveContent expected.

Definition octetString (expected : Z) : M Reader (option Octets) :=
  let? content := primitiveContent expected in
  ret (Some (s_bytes content)).

Definition nullValue : M Reader bool :=
  let! content := primitiveContent tag.null in
  match content with
  | None => ret false
  | Some content =>
      if negb (bool_decide (s_bytes content = [])) then fail BadNull ;;; ret false
      else ret true
  end.

(** ** Object identifiers *)

(** The inner [while] of [decodeOidContent] on the octets left: an error, or the
    value read, whether its last octet was seen, and the octets after it. *)
Fixpoint subid_loop (content : Octets) (subid : Z) : Errc + (bool * Z * Octets) :=
  match content with
  | [] => inr (false, subid, [])
  | b :: rest =>
      let subid := Z.lor (wrap 64 (Z.shiftl subid 7)) (Z.land b 0x7F) in
      if subid >? 4294967295 then inl OidSubidOverflow
      else if Z.land b 0x80 =? 0 then inr (true, subid, rest)
      else subid_loop rest subid
  end.

(** X.690 8.19.4 in reverse. *)
Definition unpack_first (subid : Z) : Oid :=
  if subid <? 40 then [0; wrap 32 subid]
  else if subid <? 80 then [1; wrap 32 (subid - 40)]
  else [2; wrap 32 (subid - 80)].

(** The outer [while]; [None] is out of fuel. *)
Fixpoint oid_loop (fuel : nat) (content : Octets) (firstSubid : bool) (result : Oid)
  : option (Errc + Oid) :=
  match fuel with
  | O => None
  | S fuel' =>
      match content with
      | [] => Some (inr result)
      | b :: _ =>
          if (Z.land b 0x7F =? 0) && negb (Z.land b 0x80 =? 0) then Some (inl OidNonMinimal)
          else match subid_loop content 0 with
               | inl e => Some (inl e)
               | inr (complete, subid, rest) =>
                   if negb complete then Some (inl OidTruncatedSubid)
                   else
                     let result := result ++ (if firstSubid then unpack_first subid
                                              else [wrap 32 subid]) in
                     if (Oids.maxSubids <? length result)%nat then Some (inl OidTooLong)
                     else oid_loop fuel' rest false result
               end
      end
  end.

Definition decodeOidContent (content : Octets) : option (Errc + Oid) :=
  match content with
  | [] => Some (inl OidEmpty)
  | _ => oid_loop (S (length content)) content true []
  end.

Definition objectIdentifier : M Reader (option Oid) :=
  let? content := primitiveContent tag.objectIdentifier in
  match decodeOidContent (s_bytes content) with
  | None => out_of_fuel
  | Some (inl e) => fail_with e
  | Some (inr result) => ret (Some result)
  end.

(** ** Values and Varbinds *)

Definition exceptionValue (t : Z) (e : ValueException) : M Reader (option Value) :=
  let? content := primitiveContent t in
  if negb (bool_decide (s_bytes content = [])) then fail_with TrailingData
  else ret (Some (ValException e)).

Definition mapr {A B} (f : A -> B) (m : M Reader (option A)) : M Reader (option B) :=
  let? v := m in ret (Some (f v)).

Definition ipAddressValue : M Reader (option Value) :=
  let? content := primitiveContent tag.ipAddress in
  if negb (length (s_bytes content) =? 4)%nat then fail_with BadIpAddress
  else ret (Some (ValIpAddress (s_bytes content))).

Definition anyValue : M Reader (option Value) :=
  let! r := get_st in
  if is_error (r_ec r) then ret None
  else
    let! t := peekTag in
    match t with
    | None => fail_with Truncated
    | Some t =>
        if t =? tag.null then
          let! v := nullValue in
          if v then ret (Some ValNull) else ret None
        else if t =? tag.integer then mapr ValInt32 (integer tag.integer)
        else if t =? tag.octetString then mapr ValOctets (octetString tag.octetString)
        else if t =? tag.objectIdentifier then mapr ValOid objectIdentifier
        else if t =? tag.ipAddress then ipAddressValue
        else if t =? tag.counter32 then mapr ValCounter32 (unsigned32 tag.counter32)
        else if t =? tag.gauge32 then mapr ValGauge32 (unsigned32 tag.gauge32)
        else if t =? tag.timeticks then mapr ValTimeTicks (unsigned32 tag.timeticks)
        else if t =? tag.counter64 then mapr ValCounter64 (unsigned64 tag.counter64)
        else if t =? tag.opaque then mapr ValOpaque (octetString tag.opaque)
        else if t =? tag.noSuchObject then exceptionValue t NoSuchObject
        else if t =? tag.noSuchInstance then exceptionValue t NoSuchInstance
        else if t =? tag.endOfMibView then exceptionValue t EndOfMibView
        else fail_with UnknownValueTag
    end.

(** [if (m_ec) return std::nullopt; return a;] after a scope has closed. *)
Definition unless_failed {A} (a : A) : M Reader (option A) :=
  let! r := get_st in ret (if is_error (r_ec r) then None else Some a).

Definition readVarbind : M Reader (option Varbind) :=
  let! r := get_st in
  if is_error (r_ec r) then ret None
  else
    let? vb := in_scope tag.sequence (
      let? name := objectIdentifier in
      let? val := anyValue in
      ret (Some (mkVarbind name val))) in
    unless_failed vb.

(** [while (ok() && !atEnd())]. *)
Fixpoint varbind_loop (fuel : nat) (out : list Varbind) : M Reader (option (list Varbind)) :=
  match fuel with
  | O => out_of_fuel
  | S fuel' =>
      let! r := get_st in
      if ok r && negb (atEnd r) then
        let? vb := readVarbind in
        varbind_loop fuel' (out ++ [vb])
      else ret (Some out)
  end.

(** One round per octet left is enough: a Varbind takes at least two. *)
Definition varbindList : M Reader (option (list Varbind)) :=
  let! r := get_st in
  if is_error (r_ec r) then ret None
  else
    let? out := in_scope tag.sequence (varbind_loop (S (length (r_buf r))) []) in
    unless_failed out.

(** ** The cursor as a list: what a Reader has left to read *)

(** The invariant of [m_pos], [m_end] and [m_buf]; no C++ object is larger than
    [PTRDIFF_MAX]. *)
Definition inv (r : Reader) : Prop :=
  octets_ok (r_buf r) /\ 0 <= r_pos r <= r_end r /\ r_end r <= zlen (r_buf r) < 2 ^ 63.

Definition view (r : Reader) : Octets :=
  take (Z.to_nat (r_end r - r_pos r)) (drop (Z.to_nat (r_pos r)) (r_buf r)).

Definition moved (r : Reader) (n : nat) : Reader :=
  mkReader (r_buf r) (r_pos r + Z.of_nat n) (r_end r) (r_ec r).

(** A Reader that has recorded [e], wherever its cursor is. *)
Definition failed_at (r : Reader) (e : Errc) (pos : Z) : Reader :=
  mkReader (r_buf r) pos (r_end r) (make_error_code e).

Lemma length_view r : inv r -> length (view r) = Z.to_nat (r_end r - r_pos r).
Proof.
  intros (_ & H1 & H2). unfold view. rewrite length_take, length_drop. lia.
Qed.

Lemma zlen_view r : inv r -> zlen (view r) = r_end r - r_pos r.
Proof. intros H. rewrite length_view by done. destruct H as (_ & ? & _). lia. Qed.

Lemma view_ok r : inv r -> octets_ok (view r).
Proof. intros (H & _). unfold view. eauto with snmp. Qed.

Lemma view_moved r n : inv r -> (n <= length (view r))%nat -> view (moved r n) = drop n (view r).
Proof.
  intros Hi Hn. rewrite length_view in Hn by done. destruct Hi as (_ & H1 & H2).
  unfold view, moved. cbn [r_buf r_pos r_end].
  replace (Z.to_nat (r_pos r + Z.of_nat n)) with (Z.to_nat (r_pos r) + n)%nat by lia.
  rewrite <- drop_drop, take_drop_commute. f_equal. f_equal. lia.
Qed.

Lemma inv_moved r n : inv r -> (n <= length (view r))%nat -> inv (moved r n).
Proof.
  intros Hi Hn. rewrite length_view in Hn by done. destruct Hi as (H0 & H1 & H2).
  unfold inv, moved. cbn. repeat split; try done; lia.
Qed.

Lemma moved_moved r n m : moved (moved r n) m = moved r (n + m).
Proof. unfold moved. cbn. f_equal. lia. Qed.

Lemma moved_0 r : moved r 0 = r.
Proof. destruct r. unfold moved. cbn. f_equal. lia. Qed.

Lemma remaining_view r : inv r -> remaining r = zlen (view r).
Proof.
  intros Hi. rewrite zlen_view by done. destruct Hi as (_ & H1 & H2). apply wrap_small. lia.
Qed.

Lemma octet_here_view r b l : inv r -> view r = b :: l -> octet_here r = Some b.
Proof.
  intros Hi Hv. assert (r_pos r < r_end r) as Hlt.
  { pose proof (zlen_view r Hi) as Hl. rewrite Hv in Hl. cbn in Hl. lia. }
  assert (view r !! 0%nat = Some b) as Hb by (by rewrite Hv).
  destruct Hi as (_ & H1 & H2). unfold octet_here. destruct (Z.ltb_spec (r_pos r) 0); [lia|].
  unfold view in Hb. rewrite lookup_take_lt in Hb by lia.
  rewrite lookup_drop, Nat.add_0_r in Hb. done.
Qed.

Lemma next_octet_view r b l : inv r -> view r = b :: l -> next_octet r = Done b (moved r 1).
Proof.
  intros Hi Hv. unfold next_octet, bind, get_st, deref, set_st.
  by rewrite (octet_here_view r b l Hi Hv).
Qed.

Lemma peekTag_view r : inv r -> is_error (r_ec r) = false -> peekTag r = Done (head (view r)) r.
Proof.
  intros Hi He. unfold peekTag, bind, get_st, deref. rewrite He, Z.geb_leb. cbn [orb].
  pose proof (zlen_view r Hi) as Hl. destruct (view r) as [|b l] eqn:Hv.
  - cbn in Hl. destruct (Z.leb_spec (r_end r) (r_pos r)); [done|lia].
  - cbn in Hl. destruct (Z.leb_spec (r_end r) (r_pos r)); [lia|].
    by rewrite (octet_here_view r b l Hi Hv).
Qed.

Lemma fail_run r e : is_error (r_ec r) = false -> fail e r = Done tt (failed_at r e (r_end r)).
Proof. intros He. unfold fail, modify, failed_at. by rewrite He. Qed.

Lemma fail_with_run {A} r e : is_error (r_ec r) = false ->
  @fail_with A e r = Done None (failed_at r e (r_end r)).
Proof. intros He. unfold fail_with, bind. by rewrite fail_run. Qed.

(** ** Reference decoders

    A parser takes the octets left and gives an error, or a result and the number
    of octets it took. *)

Definition parser (A : Type) : Type := Octets -> Errc + (A * nat).

Definition p_ret {A} (a : A) : parser A := fun _ => inr (a, 0%nat).
Definition p_fail {A} (e : Errc) : parser A := fun _ => inl e.

Definition p_bind {A B} (p : parser A) (k : A -> parser B) : parser B := fun bs =>
  match p bs with
  | inl e => inl e
  | inr (a, n) =>
      match k a (drop n bs) with
      | inl e => inl e
      | inr (b, m) => inr (b, (n + m)%nat)
      end
  end.

Definition p_map {A B} (f : A -> B) (p : parser A) : parser B :=
  p_bind p (fun a => p_ret (f a)).

(** A definite length of at most four octets, given its first one. *)
Definition p_length (first : Z) : parser Z := fun bs =>
  let k := Z.to_nat (first - 128) in
  if first <? 128 then inr (first, 0%nat)
  else if first =? 128 then inl IndefiniteLength
  else if first =? 255 then inl ReservedLength
  else if (4 <? k)%nat then inl LengthTooLarge
  else if (length bs <? k)%nat then inl Truncated
  else inr (be_value (take k bs), k).

(** An identifier octet and a definite length whose content is all there. *)
Definition p_header : parser Header := fun bs =>
  match bs with
  | t :: first :: rest =>
      if Z.land t 0x1F =? 0x1F then inl HighTagNumber
      else match p_length first rest with
           | inl e => inl e
           | inr (len, k) =>
               if zlen rest - Z.of_nat k <? len then inl Truncated
               else inr (mkHeader t len, (2 + k)%nat)
           end
  | _ => inl Truncated
  end.

(** A primitive element of the expected tag: its content. *)
Definition p_prim (expected : Z) : parser Octets := fun bs =>
  match bs with
  | [] => inl Truncated
  | t :: _ =>
      if negb (t =? expected) then inl UnexpectedTag
      else if isConstructed expected then inl UnexpectedTag
      else match p_header bs with
           | inl e => inl e
           | inr (h, n) =>
               inr (take (Z.to_nat (h_length h)) (drop n bs), (n + Z.to_nat (h_length h))%nat)
           end
  end.

(** A decoder of the content alone. *)
Definition p_content {A} (expected : Z) (dec : Octets -> Errc + A) : parser A :=
  p_bind (p_prim expected) (fun c => match dec c with inl e => p_fail e | inr a => p_ret a end).

(** A constructed element whose content [p] takes whole. *)
Definition p_scope {A} (expected : Z) (p : parser A) : parser A := fun bs =>
  match bs with
  | [] => inl UnexpectedTag
  | t :: _ =>
      if negb (t =? expected) then inl UnexpectedTag
      else match p_header bs with
           | inl e => inl e
           | inr (h, n) =>
               match p (take (Z.to_nat (h_length h)) (drop n bs)) with
               | inl e => inl e
               | inr (a, k) =>
                   if (k =? Z.to_nat (h_length h))%nat
                   then inr (a, (n + Z.to_nat (h_length h))%nat) else inl TrailingData
               end
           end
  end.

(** Two's complement of any width, if the number fits. *)
Definition dec_int32 (c : Octets) : Errc + Z :=
  match c with
  | [] => inl EmptyContent
  | _ => if decide (int32_ok (be_signed c)) then inr (be_signed c) else inl IntegerTooLarge
  end.

(** An unsigned number of any width, if it fits [k] octets. *)
Definition dec_uint (k : nat) (c : Octets) : Errc + Z :=
  match c with
  | [] => inl EmptyContent
  | _ => if be_value c <? 256 ^ Z.of_nat k then inr (be_value c) else inl IntegerTooLarge
  end.

Definition dec_empty {A} (e : Errc) (a : A) (c : Octets) : Errc + A :=
  match c with [] => inr a | _ => inl e end.

Definition dec_ip (c : Octets) : Errc + Value :=
  if (length c =? 4)%nat then inr (ValIpAddress c) else inl BadIpAddress.

(** The base-128 reading of an Oid's content: [decodeOidContent] itself, whose
    fuel is shown to suffice. *)
Definition dec_oid (c : Octets) : Errc + Oid := default (inl Ok) (decodeOidContent c).

Definition value_of_tag (t : Z) : parser Value :=
  if t =? tag.null then p_content tag.null (dec_empty BadNull ValNull)
  else if t =? tag.integer then p_map ValInt32 (p_content tag.integer dec_int32)
  else if t =? tag.octetString then p_map ValOctets (p_prim tag.octetString)
  else if t =? tag.objectIdentifier then p_map ValOid (p_content tag.objectIdentifier dec_oid)
  else if t =? tag.ipAddress then p_content tag.ipAddress dec_ip
  else if t =? tag.counter32 then p_map ValCounter32 (p_content tag.counter32 (dec_uint 4))
  else if t =? tag.gauge32 then p_map ValGauge32 (p_content tag.gauge32 (dec_uint 4))
  else if t =? tag.timeticks then p_map ValTimeTicks (p_content tag.timeticks (dec_uint 4))
  else if t =? tag.counter64 then p_map ValCounter64 (p_content tag.counter64 (dec_uint 8))
  else if t =? tag.opaque then p_map ValOpaque (p_prim tag.opaque)
  else if t =? tag.noSuchObject then p_content t (dec_empty TrailingData (ValException NoSuchObject))
  else if t =? tag.noSuchInstance then p_content t (dec_empty TrailingData (ValException NoSuchInstance))
  else if t =? tag.endOfMibView then p_content t (dec_empty TrailingData (ValException EndOfMibView))
  else p_fail UnknownValueTag.

Definition p_value : parser Value := fun bs =>
  match bs with [] => inl Truncated | t :: _ => value_of_tag t bs end.

Definition p_oid : parser Oid := p_content tag.objectIdentifier dec_oid.

Definition p_varbind : parser Varbind :=
  p_scope tag.sequence (p_bind p_oid (fun name => p_map (mkVarbind name) p_value)).

(** Elements until nothing is left. *)
Fixpoint p_many {A} (fuel : nat) (p : parser A) : parser (list A) := fun bs =>
  match fuel, bs with
  | _, [] => inr ([], 0%nat)
  | O, _ => inl Truncated
  | S fuel', _ => p_bind p (fun a => p_map (cons a) (p_many fuel' p)) bs
  end.

Definition p_varbinds : parser (list Varbind) :=
  p_scope tag.sequence (fun bs => p_many (length bs) p_varbind bs).

(** ** The contract of a read *)

(** From a Reader without error, [m] does to its octets what [p] does to the list:
    it returns, moves the cursor by what it took, or records the error and gives
    nothing; the buffer, and the end of the element it is in, are untouched. *)
Definition RunsAt {A} (m : M Reader (option A)) (p : parser A) (r : Reader) : Prop :=
  inv r -> r_ec r = no_error ->
  match p (view r) with
  | inr (a, n) => (n <= length (view r))%nat /\ m r = Done (Some a) (moved r n)
  | inl e => e <> Ok /\ exists pos, r_pos r <= pos <= r_end r /\ m r = Done None (failed_at r e pos)
  end.

Definition Runs {A} (m : M Reader (option A)) (p : parser A) : Prop := forall r, RunsAt m p r.

(** After an error a read is a no-op. *)
Definition Sticky {A} (m : M Reader (option A)) : Prop :=
  forall r, is_error (r_ec r) = true -> m r = Done None r.

Class Reads {A} (m : M Reader (option A)) (p : parser A) : Prop :=
  { reads_runs : Runs m p; reads_sticky : Sticky m }.

Lemma is_error_ok r : r_ec r = no_error -> is_error (r_ec r) = false.
Proof. by intros ->. Qed.

Lemma is_error_failed r e pos : e <> Ok -> is_error (r_ec (failed_at r e pos)) = true.
Proof. intros H. by apply is_error_make_error_code. Qed.

Lemma p_length_bound first bs len k : byte_ok first -> octets_ok bs ->
  p_length first bs = inr (len, k) -> 0 <= len /\ (k <= length bs)%nat.
Proof.
  intros Hf Hok. unfold p_length. destruct (Z.ltb_spec first 128).
  - intros [= <- <-]. unfold byte_ok in Hf. lia.
  - destruct (first =? 128), (first =? 255); try done. destruct (Nat.ltb_spec 4 (Z.to_nat (first - 128))); [done|].
    destruct (Nat.ltb_spec (length bs) (Z.to_nat (first - 128))); [done|]. intros [= <- <-].
    split; [|lia]. apply be_value_bound. eauto with snmp.
Qed.

Lemma p_header_len bs h n : p_header bs = inr (h, n) -> octets_ok bs ->
  0 <= h_length h /\ (n + Z.to_nat (h_length h) <= length bs)%nat /\ (2 <= n)%nat.
Proof.
  unfold p_header. destruct bs as [|t [|first rest]]; [done..|]. intros H Hok.
  apply octets_ok_cons in Hok as [_ Hok]. apply octets_ok_cons in Hok as [Hf Hok].
  destruct (Z.land t 31 =? 31); [done|].
  destruct (p_length first rest) as [e|[len k]] eqn:Hp; [done|].
  destruct (p_length_bound _ _ _ _ Hf Hok Hp).
  destruct (Z.ltb_spec (zlen rest - Z.of_nat k) len); [done|].
  injection H as <- <-. cbn [h_length length]. lia.
Qed.

(** *** Headers *)

Lemma length_loop_view count r len : inv r -> (count <= length (view r))%nat ->
  0 <= len -> len * 256 ^ Z.of_nat count + 256 ^ Z.of_nat count <= 2 ^ 56 ->
  length_loop count len r =
    Done (len * 256 ^ Z.of_nat count + be_value (take count (view r))) (moved r count).
Proof.
  revert r len. induction count as [|count IH]; intros r len Hi Hc Hl0 Hl; cbn [length_loop].
  { unfold ret. rewrite moved_0, take_0. change (256 ^ Z.of_nat 0) with 1.
    change (be_value []) with 0. f_equal. lia. }
  pose proof (view_ok r Hi) as Hok. destruct (view r) as [|b l] eqn:Hv; [cbn in Hc; lia|].
  apply octets_ok_cons in Hok as [Hb Hok]. rewrite pow256_S in *.
  pose proof (pow256_pos (Z.of_nat count) ltac:(lia)).
  assert (256 * len < 2 ^ 56) by nia.
  rewrite (bind_done _ _ _ _ _ (next_octet_view r b l Hi Hv)).
  rewrite Z.shiftl_mul_pow2, (wrap_small 64) by lia.
  rewrite <- Z.shiftl_mul_pow2, lor_shl8 by done.
  assert (view (moved r 1) = l) as Hv1 by (rewrite view_moved, Hv by (rewrite ?Hv; cbn; done || lia); done).
  rewrite IH; rewrite ?Hv1.
  - rewrite moved_moved. cbn [take]. rewrite be_value_cons, length_take.
    cbn [length] in Hc. rewrite Nat.min_l by lia. f_equal. lia.
  - apply inv_moved; [done|]. rewrite Hv. cbn. lia.
  - cbn in Hc. lia.
  - unfold byte_ok in Hb. lia.
  - unfold byte_ok in Hb. nia.
Qed.

Lemma inv_pos r : inv r -> r_pos r <= r_end r <= r_end r.
Proof. intros (_ & H & _). lia. Qed.

Lemma fail_runs {A} e : e <> Ok -> Runs (@fail_with A e) (p_fail e).
Proof.
  intros Hok r Hi He. unfold p_fail. rewrite fail_with_run by (by apply is_error_ok).
  split; [done|]. eexists. split; [by apply inv_pos|done].
Qed.

Lemma ret_runs {A} (a : A) : Runs (ret (Some a)) (p_ret a).
Proof. intros r Hi He. unfold p_ret. rewrite moved_0. split; [lia|done]. Qed.

Lemma readLength_runs first : byte_ok first -> Runs (readLength first) (p_length first).
Proof.
  intros Hf r Hi He. unfold readLength, p_length. destruct (Z.ltb_spec first 0x80) as [Hs|Hs].
  { destruct (Z.ltb_spec first 128); [|lia]. by apply ret_runs. }
  destruct (Z.ltb_spec first 128); [lia|].
  change 0x80 with 128. destruct (first =? 128); [by apply (fail_runs IndefiniteLength)|].
  change 0xFF with 255. destruct (Z.eqb_spec first 255) as [|Hne]; [by apply (fail_runs ReservedLength)|].
  assert (Z.land first 0x7F = first - 128) as ->.
  { rewrite land_127. replace first with (first - 128 + 1 * 128) at 1 by lia.
    rewrite Z.mod_add by lia. apply Z.mod_small. unfold byte_ok in Hf. lia. }
  rewrite Z.gtb_ltb. destruct (Z.ltb_spec 4 (first - 128)), (Nat.ltb_spec 4 (Z.to_nat (first - 128))); try lia.
  { by apply (fail_runs LengthTooLarge). }
  rewrite (bind_done _ _ r r r) by done. rewrite remaining_view by done.
  destruct (Z.ltb_spec (zlen (view r)) (first - 128)),
    (Nat.ltb_spec (length (view r)) (Z.to_nat (first - 128))); try lia.
  { by apply (fail_runs Truncated). }
  split; [lia|]. erewrite bind_done; [|apply length_loop_view; try done; try lia].
  - done.
  - transitivity (256 ^ 4); [|lia]. rewrite Z.mul_0_l, Z.add_0_l. apply Z.pow_le_mono_r; lia.
Qed.

(** A read after [n] octets, seen from before them. *)
Lemma runs_moved {A} (m : M Reader (option A)) p r n : Runs m p -> inv r -> r_ec r = no_error ->
  (n <= length (view r))%nat ->
  match p (drop n (view r)) with
  | inr (a, k) => (n + k <= length (view r))%nat /\ m (moved r n) = Done (Some a) (moved r (n + k))
  | inl e => e <> Ok /\ exists pos, r_pos r <= pos <= r_end r /\ m (moved r n) = Done None (failed_at r e pos)
  end.
Proof.
  intros R Hi He Hn. specialize (R (moved r n) (inv_moved r n Hi Hn) He).
  rewrite view_moved in R by done. destruct (p (drop n (view r))) as [e|[a k]].
  - destruct R as (Hne & pos & Hpos & ->). split; [done|]. exists pos. cbn in Hpos. split; [lia|done].
  - destruct R as [Hk ->]. rewrite length_drop in Hk. rewrite moved_moved. split; [lia|done].
Qed.

Lemma readHeader_runs : Runs readHeader p_header.
Proof.
  intros r Hi He. pose proof (view_ok r Hi) as Hok.
  unfold readHeader. rewrite (bind_done _ _ r r r) by done.
  rewrite is_error_ok, remaining_view by done.
  unfold p_header. destruct (view r) as [|t [|first rest]] eqn:Hv; [by apply (fail_runs Truncated)..|].
  rewrite !zlen_cons. destruct (Z.ltb_spec (1 + (1 + zlen rest)) 2) as [?|_]; [lia|].
  rewrite (bind_done _ _ _ _ _ (next_octet_view r _ _ Hi Hv)).
  apply octets_ok_cons in Hok as [_ Hok]. apply octets_ok_cons in Hok as [Hf Hok].
  assert (forall n, (n <= 2)%nat -> inv (moved r n) /\ view (moved r n) = drop n (t :: first :: rest)) as Hm.
  { intros n Hn. rewrite <- Hv. assert (n <= length (view r))%nat by (rewrite Hv; cbn; lia).
    split; [by apply inv_moved|by apply view_moved]. }
  unfold numberMask, highTagNumberEscape. destruct (Z.land t 31 =? 31).
  { destruct (fail_runs (A := Header) HighTagNumber ltac:(done) (moved r 1)) as (? & pos & Hpos & ->);
      [apply Hm; lia|done|]. split; [done|]. exists pos. cbn in Hpos. split; [lia|done]. }
  rewrite (bind_done _ _ _ _ _ (next_octet_view (moved r 1) first rest (proj1 (Hm 1%nat ltac:(lia))) (proj2 (Hm 1%nat ltac:(lia))))).
  rewrite moved_moved. change (1 + 1)%nat with 2%nat.
  pose proof (runs_moved _ _ r 2 (readLength_runs first Hf) Hi He) as R.
  rewrite Hv in R. cbn [drop length] in R. rewrite drop_0 in R. specialize (R ltac:(lia)).
  destruct (p_length first rest) as [e|[len k]] eqn:Hp.
  { destruct R as (Hne & pos & Hpos & E). split; [done|]. exists pos. by rewrite (bind_opt_none _ _ _ _ E). }
  destruct R as [Hk E]. rewrite (bind_opt_some _ _ _ _ _ E).
  rewrite (bind_done _ _ (moved r (2 + k)) (moved r (2 + k)) (moved r (2 + k))) by done.
  assert (2 + k <= length (view r))%nat as Hk' by (rewrite Hv; cbn; lia).
  rewrite remaining_view, view_moved, length_drop, Hv, Z.gtb_ltb by (by try apply inv_moved).
  replace (Z.of_nat (length (t :: first :: rest) - (2 + k))) with (zlen rest - Z.of_nat k) by (cbn; lia).
  destruct (Z.ltb_spec (zlen rest - Z.of_nat k) len); [|split; [cbn; lia|done]].
  split; [done|]. exists (r_end r). rewrite fail_with_run by (by apply is_error_ok).
  split; [by apply inv_pos|done].
Qed.

#[global] Instance readHeader_reads : Reads readHeader p_header.
Proof.
  split; [apply readHeader_runs|]. intros r He. unfold readHeader, bind, get_st. by rewrite He.
Qed.

(** *** Composition *)

Lemma bind_runs {A B} (m : M Reader (option A)) p (k : A -> M Reader (option B)) q :
  Runs m p -> (forall a, Runs (k a) (q a)) -> Runs (let? a := m in k a) (p_bind p q).
Proof.
  intros Rm Rk r Hi He. specialize (Rm r Hi He). unfold p_bind.
  destruct (p (view r)) as [e|[a n]].
  - destruct Rm as (Hne & pos & Hpos & E). rewrite (bind_opt_none _ _ _ _ E). eauto.
  - destruct Rm as [Hn E]. rewrite (bind_opt_some _ _ _ _ _ E).
    pose proof (runs_moved _ _ r n (Rk a) Hi He Hn) as R.
    destruct (q a (drop n (view r))) as [e|[b k']]; done.
Qed.

Lemma bind_sticky {A B} (m : M Reader (option A)) (k : A -> M Reader (option B)) :
  Sticky m -> Sticky (let? a := m in k a).
Proof. intros H r He. rewrite (bind_opt_none _ _ r r); [done|]. by apply H. Qed.

Lemma bind_reads {A B} (m : M Reader (option A)) p (k : A -> M Reader (option B)) q :
  Reads m p -> (forall a, Runs (k a) (q a)) -> Reads (let? a := m in k a) (p_bind p q).
Proof. intros [Rm Sm] Rk. split; [by apply bind_runs|by apply bind_sticky]. Qed.

#[global] Instance mapr_reads {A B} (f : A -> B) m p : Reads m p -> Reads (mapr f m) (p_map f p).
Proof. intros H. apply bind_reads; [done|]. intros a. apply ret_runs. Qed.

Lemma runs_ext {A} (m : M Reader (option A)) p q : (forall bs, p bs = q bs) -> Runs m p -> Runs m q.
Proof. intros E R r Hi He. rewrite <- E. by apply R. Qed.

(** *** Primitive elements *)

Lemma subspan_view r n k : inv r -> (n + k <= length (view r))%nat ->
  subspan (r_pos r + Z.of_nat n) (Z.of_nat k) (moved r n) =
    Done (mkSpan (r_pos r + Z.of_nat n) (take k (drop n (view r)))) (moved r n).
Proof.
  intros Hi Hn. rewrite length_view in Hn by done. destruct Hi as (_ & H1 & H2).
  unfold subspan, bind, get_st. cbn [r_buf moved].
  destruct (Z.leb_spec 0 (r_pos r + Z.of_nat n)); [|lia].
  destruct (Z.leb_spec 0 (Z.of_nat k)); [|lia].
  destruct (Z.leb_spec (r_pos r + Z.of_nat n + Z.of_nat k) (zlen (r_buf r))); [|lia].
  cbn [andb]. unfold ret. do 2 f_equal. rewrite Nat2Z.id.
  unfold view. replace (Z.to_nat (r_end r - r_pos r)) with
    (n + (Z.to_nat (r_end r - r_pos r) - n))%nat by lia.
  rewrite <- take_drop_commute, take_take, drop_drop, Nat.min_l by lia.
  f_equal. f_equal. lia.
Qed.

(** What [primitiveContent] returns, with the place of the span it gives. *)
Lemma primitiveContent_run expected r : inv r -> r_ec r = no_error ->
  match p_prim expected (view r) with
  | inr (c, n) =>
      (n <= length (view r))%nat /\ octets_ok c /\ (length c <= n)%nat /\
      primitiveContent expected r = Done (Some (mkSpan (r_pos r + Z.of_nat n - zlen c) c)) (moved r n)
  | inl e => e <> Ok /\ exists pos, r_pos r <= pos <= r_end r /\
      primitiveContent expected r = Done None (failed_at r e pos)
  end.
Proof.
  intros Hi He. unfold primitiveContent, p_prim. rewrite (bind_done _ _ r r r) by done.
  rewrite is_error_ok by done. rewrite (bind_done _ _ _ _ _ (peekTag_view r Hi (is_error_ok r He))).
  pose proof (view_ok r Hi) as Hok. pose proof (readHeader_runs r Hi He) as R.
  destruct (view r) as [|t rest] eqn:Hv; cbn [head]; [by apply (fail_runs Truncated)|].
  destruct (negb (t =? expected)); [by apply (fail_runs UnexpectedTag)|].
  destruct (isConstructed expected); [by apply (fail_runs UnexpectedTag)|].
  destruct (p_header (t :: rest)) as [e|[h n]] eqn:Hh.
  { destruct R as (Hne & pos & Hpos & E). rewrite (bind_opt_none _ _ _ _ E). eauto. }
  destruct R as [_ E]. rewrite (bind_opt_some _ _ _ _ _ E).
  destruct (p_header_len _ _ _ Hh Hok) as (Hl0 & Hl & Hn2).
  set (k := Z.to_nat (h_length h)) in *. assert (h_length h = Z.of_nat k) as -> by lia.
  rewrite <- Hv in *. pose proof (subspan_view r n k Hi Hl) as Es.
  rewrite (bind_done _ _ (moved r n) (moved r n) (moved r n)) by done.
  rewrite (bind_done _ _ _ _ _ Es).
  assert (length (take k (drop n (view r))) = k) as Hlen by (rewrite length_take, length_drop; lia).
  split; [done|]. split; [eauto with snmp|]. split; [lia|]. rewrite Hlen.
  rewrite length_view in Hl by done. destruct Hi as (_ & H1 & H2).
  unfold bind, advance, modify, ret, moved. cbn [r_buf r_pos r_end r_ec].
  rewrite wrap_small by lia. f_equal; [|f_equal; lia]. do 2 f_equal. lia.
Qed.

Lemma primitiveContent_sticky expected : Sticky (primitiveContent expected).
Proof. intros r He. unfold primitiveContent, bind, get_st. by rewrite He. Qed.

(** A decoder of the content of a primitive element. *)
Lemma content_reads {A} expected (k : Span -> M Reader (option A)) dec :
  (forall c off, octets_ok c ->
     Runs (k (mkSpan off c)) (match dec c with inl e => p_fail e | inr a => p_ret a end)) ->
  Reads (let? s := primitiveContent expected in k s) (p_content expected dec).
Proof.
  intros Hk. split; [|by apply bind_sticky, primitiveContent_sticky]. intros r Hi He.
  pose proof (primitiveContent_run expected r Hi He) as R. unfold p_content, p_bind.
  destruct (p_prim expected (view r)) as [e|[c n]].
  - destruct R as (Hne & pos & Hpos & E). rewrite (bind_opt_none _ _ _ _ E). eauto.
  - destruct R as (Hn & Hok & Hcn & E). rewrite (bind_opt_some _ _ _ _ _ E).
    pose proof (runs_moved _ _ r n (Hk c (r_pos r + Z.of_nat n - zlen c) Hok) Hi He Hn) as R.
    by destruct (dec c).
Qed.

#[global] Instance octetString_reads t : Reads (octetString t) (p_prim t).
Proof.
  destruct (content_reads t (fun s => ret (Some (s_bytes s))) inr) as [R S].
  { intros c off _. apply ret_runs. }
  split; [|done]. eapply runs_ext; [|done]. intros bs. unfold p_content, p_bind.
  destruct (p_prim t bs) as [|[c n]]; cbn; [done|]. by rewrite Nat.add_0_r.
Qed.

(** *** Integers *)

Lemma u32_loop_value l m : octets_ok l -> 0 <= m < 2 ^ 32 ->
  u32_loop l m = (m * 256 ^ zlen l + be_value l) mod 2 ^ 32.
Proof.
  intros Hl. revert m. induction Hl as [|b l Hb Hl IH]; intros m Hm.
  - cbn. change (256 ^ 0) with 1. rewrite Z.mod_small; lia.
  - unfold u32_loop in *. cbn [fold_left]. unfold wrap. rewrite Z.shiftl_mul_pow2 by lia.
    assert (Z.lor ((m * 2 ^ 8) mod 2 ^ 32) b = (m * 256 + b) mod 2 ^ 32) as ->.
    { assert ((m * 2 ^ 8) mod 2 ^ 32 = Z.shiftl (m mod 2 ^ 24) 8) as ->.
      { rewrite Z.shiftl_mul_pow2 by lia. change (2 ^ 32) with (2 ^ 24 * 2 ^ 8).
        by rewrite Z.mul_mod_distr_r. }
      rewrite lor_shl8 by done. unfold byte_ok in Hb.
      pose proof (Z.mod_pos_bound m (2 ^ 24) ltac:(lia)).
      pose proof (Z.div_mod m (2 ^ 24) ltac:(lia)).
      apply (Z.mod_unique _ _ (m / 2 ^ 24)); [left|]; lia. }
    rewrite IH by (apply Z.mod_pos_bound; lia).
    rewrite be_value_cons. cbn [length]. rewrite pow256_S.
    rewrite Zplus_mod, Zmult_mod, Z.mod_mod, <- Zmult_mod, <- Zplus_mod by lia. f_equal. lia.
Qed.

(** Magnitude and sign of at most four octets are the two's complement number. *)
Lemma u32_signed l b l' : l = b :: l' -> octets_ok l -> (length l <= 4)%nat ->
  swrap 32 (u32_loop l (if high_bit b then 0xFFFFFFFF else 0)) = be_signed l /\ int32_ok (be_signed l).
Proof.
  intros -> Hok Hlen. assert (byte_ok b) as Hb by (by apply octets_ok_cons in Hok as [? _]).
  rewrite u32_loop_value by (destruct (high_bit b); lia || done).
  unfold be_signed. pose proof (be_value_bound _ Hok) as Hbound.
  pose proof (be_value_bound l' ltac:(by apply octets_ok_cons in Hok as [_ ?])) as Hbound'.
  rewrite high_bit_ltb by done.
  assert (exists k, zlen (b :: l') = 1 + k /\ zlen l' = k /\ 0 <= k <= 3) as (k & Ek & Ek' & Hk).
  { exists (zlen l'). cbn in *. lia. }
  rewrite be_value_cons in *. rewrite Ek, Ek' in *. rewrite Z.pow_add_r in * by lia.
  change (256 ^ 1) with 256 in *. unfold byte_ok in Hb.
  assert (256 ^ k = 1 \/ 256 ^ k = 256 \/ 256 ^ k = 65536 \/ 256 ^ k = 16777216) as HP.
  { assert (k = 0 \/ k = 1 \/ k = 2 \/ k = 3) as [->|[->|[->| ->]]] by lia; auto. }
  set (P := 256 ^ k) in *. set (v := b * P + be_value l') in *.
  unfold int32_ok. destruct (Z.ltb_spec b 128); cbn [negb].
  - rewrite Z.mul_0_l, Z.add_0_l, Z.mod_small by lia.
    rewrite swrap_small by lia. split; [done|]. lia.
  - assert ((4294967295 * (256 * P) + v) mod 2 ^ 32 = v - 256 * P + 2 ^ 32) as ->.
    { symmetry. apply (Z.mod_unique _ _ (256 * P - 1)); [left|]; lia. }
    rewrite swrap_unsigned by lia. destruct (Z.ltb_spec (v - 256 * P + 2 ^ 32) (2 ^ (32 - 1))); lia.
Qed.

#[global] Instance integer_reads t : Reads (integer t) (p_content t dec_int32).
Proof.
  apply content_reads. intros c off Hc. cbn [s_bytes]. destruct c as [|b0 c0]; [by apply fail_runs|].
  unfold dec_int32. set (c := b0 :: c0) in *. set (neg := high_bit b0).
  destruct (skip_padding_strip (length c) c (if neg then 0xFF else 0) neg 0) as [Es Hi]; [lia..|].
  rewrite drop_0 in Es. set (i := skip_padding _ _ _ _ _) in *.
  destruct (strip_padding_signed c neg Hc) as [Ev Hh]; [done|].
  pose proof (strip_padding_minimal c neg Hc ltac:(done)) as Hmin. cbn zeta in Hmin.
  change 0xFF with 255 in *. rewrite <- Es in *.
  pose proof (length_drop c i) as Hld.
  assert (octets_ok (drop i c)) as Hd by (eauto with snmp).
  destruct (drop i c) as [|b l] eqn:Ed; [done|]. rewrite <- Ev.
  destruct (Nat.ltb_spec 4 (length c - i)).
  - rewrite decide_False; [by apply fail_runs|]. unfold int32_ok.
    intros Hr. apply (Hmin ltac:(lia) 4%nat ltac:(lia)). change (256 ^ Z.of_nat 4) with 4294967296. lia.
  - destruct (u32_signed (b :: l) b l eq_refl Hd) as [E Hr]; [lia|].
    rewrite decide_True by done. rewrite <- Hh, E. apply ret_runs.
Qed.

Lemma skip_zeros_value c : be_value (skip_zeros c) = be_value c.
Proof.
  induction c as [|b c IH]; [done|]. cbn [skip_zeros]. destruct (Z.eqb_spec b 0) as [->|]; [|done].
  by rewrite be_value_cons, IH.
Qed.

Lemma skip_zeros_ok c : octets_ok c -> octets_ok (skip_zeros c).
Proof.
  induction 1 as [|b c Hb Hc IH]; [constructor|]. cbn [skip_zeros].
  destruct (b =? 0); [done|by constructor].
Qed.

(** Without leading zeros the number of octets is the size of the number. *)
Lemma skip_zeros_size c k : octets_ok c ->
  (length (skip_zeros c) <= k)%nat <-> be_value c < 256 ^ Z.of_nat k.
Proof.
  intros Hc. rewrite <- skip_zeros_value. pose proof (skip_zeros_ok c Hc) as Ho.
  pose proof (be_value_bound _ Ho) as Hb. split; intros H.
  - assert (256 ^ zlen (skip_zeros c) <= 256 ^ Z.of_nat k) by (apply Z.pow_le_mono_r; lia). lia.
  - assert (match skip_zeros c with [] => True | b :: _ => b <> 0 end) as Hnz.
    { clear. induction c as [|b c IH]; [done|]. cbn. by destruct (Z.eqb_spec b 0). }
    destruct (skip_zeros c) as [|b l]; [cbn; lia|]. apply Nat.nlt_ge. intros Hlt.
    apply octets_ok_cons in Ho as [Hb' Ho]. rewrite be_value_cons in H.
    pose proof (be_value_bound _ Ho). cbn [length] in Hlt.
    assert (256 ^ Z.of_nat k <= 256 ^ zlen l) by (apply Z.pow_le_mono_r; lia).
    unfold byte_ok in Hb'. nia.
Qed.

Lemma u64_loop_value l v : octets_ok l -> 0 <= v -> (v + 1) * 256 ^ zlen l <= 2 ^ 64 ->
  u64_loop l v = v * 256 ^ zlen l + be_value l.
Proof.
  intros Hl. revert v. induction Hl as [|b l Hb Hl IH]; intros v Hv Hm.
  - cbn. change (256 ^ 0) with 1. lia.
  - unfold u64_loop in *. cbn [fold_left length] in *. rewrite pow256_S in *.
    pose proof (pow256_pos (zlen l) ltac:(lia)). unfold byte_ok in Hb.
    rewrite Z.shiftl_mul_pow2, wrap_small by (change (2 ^ 8) with 256; nia).
    rewrite <- Z.shiftl_mul_pow2, lor_shl8 by done. rewrite IH by nia. rewrite be_value_cons. lia.
Qed.

Lemma unsignedContent_reads t k : (k <= 8)%nat ->
  Reads (unsignedContent t k) (p_content t (dec_uint k)).
Proof.
  intros Hk. apply content_reads. intros c off Hc. cbn [s_bytes]. destruct c as [|b c0]; [by apply fail_runs|].
  unfold dec_uint. set (c := b :: c0) in *. pose proof (skip_zeros_size c k Hc) as Hs.
  destruct (Nat.ltb_spec k (length (skip_zeros c))), (Z.ltb_spec (be_value c) (256 ^ Z.of_nat k)); try lia.
  - by apply fail_runs.
  - rewrite u64_loop_value; [rewrite Z.mul_0_l, Z.add_0_l, skip_zeros_value; apply ret_runs|..].
    + by apply skip_zeros_ok.
    + done.
    + rewrite Z.mul_1_l. transitivity (256 ^ 8); [apply Z.pow_le_mono_r; lia|done].
Qed.

#[global] Instance unsigned64_reads t : Reads (unsigned64 t) (p_content t (dec_uint 8)).
Proof. by apply unsignedContent_reads. Qed.

#[global] Instance unsigned32_reads t : Reads (unsigned32 t) (p_content t (dec_uint 4)).
Proof.
  destruct (bind_reads _ _ _ _ (unsignedContent_reads t 4 ltac:(lia))
    (fun v => ret_runs (wrap 32 v))) as [R S]. split; [|done].
  intros r Hi He. specialize (R r Hi He). revert R. unfold p_content, p_bind at 1.
  assert (octets_ok (view r)) as Hok by (by apply view_ok).
  pose proof (primitiveContent_run t r Hi He) as Hp. unfold p_bind.
  destruct (p_prim t (view r)) as [e|[c n]]; [done|]. destruct Hp as (_ & Hc & _ & _).
  unfold dec_uint. destruct c as [|b c0]; [done|]. set (c := b :: c0) in *.
  destruct (Z.ltb_spec (be_value c) (256 ^ Z.of_nat 4)); [|done]. cbn -[be_value].
  pose proof (be_value_bound c Hc). rewrite (wrap_small 32) by (split; [lia|done]).
  by rewrite !Nat.add_0_r.
Qed.

(** *** Object identifiers *)

Lemma subid_loop_rest content v complete v' rest :
  subid_loop content v = inr (complete, v', rest) -> content <> [] ->
  (length rest < length content)%nat.
Proof.
  revert v. induction content as [|b content IH]; intros v; [done|]. cbn [subid_loop]. intros H _.
  destruct (_ >? _); [done|]. destruct (Z.land b 128 =? 0).
  { injection H as _ _ <-. cbn. lia. }
  destruct content as [|c content].
  - injection H as _ _ <-. cbn. lia.
  - specialize (IH _ H ltac:(done)). cbn [length] in *. lia.
Qed.

Lemma subid_loop_error content v e : subid_loop content v = inl e -> e = OidSubidOverflow.
Proof.
  revert v. induction content as [|b content IH]; intros v; [done|]. cbn [subid_loop].
  destruct (_ >? _); [by intros [= <-]|]. destruct (Z.land b 128 =? 0); [done|]. apply IH.
Qed.

(** One round per octet is enough, since each takes one at least. *)
Lemma oid_loop_total fuel content first result : (length content < fuel)%nat ->
  exists x, oid_loop fuel content first result = Some x /\ x <> inl Ok.
Proof.
  revert content first result. induction fuel as [|fuel IH]; intros content first result Hf; [lia|].
  cbn [oid_loop]. destruct content as [|b content]; [by eexists|].
  destruct (_ && _); [by eexists|].
  destruct (subid_loop (b :: content) 0) as [e|[[complete v] rest]] eqn:Hs.
  { apply subid_loop_error in Hs as ->. by eexists. }
  destruct (negb complete); [by eexists|]. cbn zeta. destruct (_ <? _)%nat; [by eexists|].
  apply IH. apply subid_loop_rest in Hs; [|done]. lia.
Qed.

Lemma decodeOidContent_total content :
  decodeOidContent content = Some (dec_oid content) /\ dec_oid content <> inl Ok.
Proof.
  unfold dec_oid, decodeOidContent. destruct content as [|b content]; [done|].
  destruct (oid_loop_total (S (length (b :: content))) (b :: content) true []) as (x & -> & Hx); [lia|].
  done.
Qed.

#[global] Instance objectIdentifier_reads : Reads objectIdentifier p_oid.
Proof.
  apply content_reads. intros c off _. cbn [s_bytes].
  destruct (decodeOidContent_total c) as [-> Hne].
  destruct (dec_oid c) as [e|o]; [apply fail_runs; congruence|apply ret_runs].
Qed.

(** *** Values *)

#[global] Instance exceptionValue_reads t e :
  Reads (exceptionValue t e) (p_content t (dec_empty TrailingData (ValException e))).
Proof.
  apply content_reads. intros c off _. cbn [s_bytes dec_empty]. destruct c as [|b c].
  - rewrite bool_decide_true by done. apply ret_runs.
  - rewrite bool_decide_false by done. by apply fail_runs.
Qed.

#[global] Instance ipAddressValue_reads : Reads ipAddressValue (p_content tag.ipAddress dec_ip).
Proof.
  apply content_reads. intros c off _. cbn [s_bytes]. unfold dec_ip.
  destruct (length c =? 4)%nat; [apply ret_runs|by apply fail_runs].
Qed.

(** [nullValue] as a read: [false] stands for [std::nullopt]. *)
#[global] Instance nullValue_reads :
  Reads (let! v := nullValue in if v then ret (Some ValNull) else ret None)
        (p_content tag.null (dec_empty BadNull ValNull)).
Proof.
  destruct (content_reads tag.null
    (fun s => if negb (bool_decide (s_bytes s = [])) then fail_with BadNull else ret (Some ValNull))
    (dec_empty BadNull ValNull)) as [R S].
  { intros c off _. cbn [s_bytes dec_empty]. destruct c as [|b c].
    - rewrite bool_decide_true by done. apply ret_runs.
    - rewrite bool_decide_false by done. by apply fail_runs. }
  assert (forall r, (let! v := nullValue in if v then ret (Some ValNull) else ret None) r =
    (let? s := primitiveContent tag.null in
     if negb (bool_decide (s_bytes s = [])) then fail_with BadNull else ret (Some ValNull)) r) as E.
  { intros r. unfold nullValue, bind_opt, bind. destruct (primitiveContent tag.null r) as [[s|] r'| |]; try done.
    by destruct (negb (bool_decide (s_bytes s = []))). }
  split.
  - intros r Hi He. rewrite E. by apply R.
  - intros r He. rewrite E. by apply S.
Qed.

(** The dispatch on the tag, one read of [p_value] per branch. *)
#[global] Instance anyValue_reads : Reads anyValue p_value.
Proof.
  split; [|intros r He; unfold anyValue, bind, get_st; by rewrite He].
  intros r Hi He. unfold anyValue. rewrite (bind_done _ _ r r r) by done.
  rewrite is_error_ok by done. rewrite (bind_done _ _ _ _ _ (peekTag_view r Hi (is_error_ok r He))).
  unfold p_value. destruct (view r) as [|t rest] eqn:Hv; cbn [head]; rewrite <- ?Hv.
  { by apply (fail_runs Truncated). }
  unfold value_of_tag.
  repeat (match goal with |- context [if ?b then _ else _] => destruct b; [exact (reads_runs r Hi He)|] end).
  by apply (fail_runs UnknownValueTag ltac:(done) r).
Qed.

(** *** Constructed elements *)

Lemma no_error_ok : is_error no_error = false.
Proof. done. Qed.

Lemma unless_failed_none {A} (a : A) r : r_ec r = no_error -> unless_failed a r = Done (Some a) r.
Proof. intros He. unfold unless_failed, bind, get_st. by rewrite He. Qed.

Lemma unless_failed_sticky {A} (a : A) r : is_error (r_ec r) = true -> unless_failed a r = Done None r.
Proof. intros He. unfold unless_failed, bind, get_st. by rewrite He. Qed.

Lemma scope_close_err sE cE r : is_error (r_ec r) = true ->
  scope_close sE cE r = Done tt (mkReader (r_buf r) cE sE (r_ec r)).
Proof. intros He. unfold scope_close, bind, get_st, modify. by rewrite He. Qed.

Lemma scope_close_ok sE cE r : r_ec r = no_error -> r_pos r = cE ->
  scope_close sE cE r = Done tt (mkReader (r_buf r) cE sE no_error).
Proof.
  intros He <-. unfold scope_close, bind, get_st, modify. rewrite He, Z.eqb_refl. cbn. by rewrite He.
Qed.

Lemma scope_close_trailing sE cE r : r_ec r = no_error -> r_pos r <> cE ->
  scope_close sE cE r = Done tt (mkReader (r_buf r) cE sE (make_error_code TrailingData)).
Proof.
  intros He Hp. unfold scope_close, bind, get_st, modify. rewrite He. cbn [negb andb].
  apply Z.eqb_neq in Hp. rewrite Hp, no_error_ok. cbn [negb andb]. by rewrite fail_run by (by rewrite He).
Qed.

Lemma scope_close_total sE cE r : exists r', scope_close sE cE r = Done tt r'.
Proof. unfold scope_close, bind, get_st, modify. destruct (_ && _); by eexists. Qed.

(** The Reader inside an element whose header took [n] octets. *)
Definition entered (r : Reader) (n : nat) (len : Z) : Reader :=
  mkReader (r_buf r) (r_pos r + Z.of_nat n) (r_pos r + Z.of_nat n + len) (r_ec r).

Lemma entered_view r n k : inv r -> (n + k <= length (view r))%nat ->
  inv (entered r n (Z.of_nat k)) /\ view (entered r n (Z.of_nat k)) = take k (drop n (view r)).
Proof.
  intros Hi Hn. pose proof Hi as Hi'. rewrite length_view in Hn by done. destruct Hi as (H0 & H1 & H2).
  split; [repeat split; cbn; done || lia|]. unfold view, entered. cbn [r_buf r_pos r_end].
  replace (Z.to_nat (r_end r - r_pos r)) with (n + (Z.to_nat (r_end r - r_pos r) - n))%nat by lia.
  rewrite <- take_drop_commute, take_take, drop_drop, Nat.min_l by lia. f_equal; [lia|]. f_equal. lia.
Qed.

(** What [enter] does, in terms of the header it reads. *)
Lemma enter_run t r : inv r -> r_ec r = no_error -> isConstructed t = true ->
  match match head (view r) with
        | None => inl UnexpectedTag
        | Some t' => if negb (t' =? t) then inl UnexpectedTag else p_header (view r)
        end with
  | inr (h, n) =>
      enter t r = Done (r_end r, r_pos r + Z.of_nat n + h_length h) (entered r n (h_length h))
  | inl e => e <> Ok /\ exists pos, r_pos r <= pos <= r_end r /\
      enter t r = Done (r_end r, pos) (failed_at r e pos)
  end.
Proof.
  intros Hi He Ht. unfold enter. rewrite (bind_done _ _ r r r) by done.
  rewrite is_error_ok, Ht by done. cbn [negb].
  rewrite (bind_done _ _ _ _ _ (peekTag_view r Hi (is_error_ok r He))).
  assert (UnexpectedTag <> Ok /\ exists pos, r_pos r <= pos <= r_end r /\
      (fail UnexpectedTag ;;; gets (fun r' => (r_end r, r_pos r'))) r =
        Done (r_end r, pos) (failed_at r UnexpectedTag pos)) as Hu.
  { split; [done|]. exists (r_end r). rewrite (bind_done _ _ _ _ _ (fail_run r _ (is_error_ok r He))).
    split; [by apply inv_pos|done]. }
  pose proof (view_ok r Hi) as Hok. pose proof (readHeader_runs r Hi He) as R.
  destruct (view r) as [|t' rest] eqn:Hv; cbn [head]; [by rewrite bool_decide_false|].
  destruct (Z.eqb_spec t' t) as [->|Hne]; [|rewrite bool_decide_false by congruence; done].
  rewrite bool_decide_true by done. cbn [negb].
  destruct (p_header (t :: rest)) as [e|[h n]] eqn:Hh.
  - destruct R as (Hne & pos & Hpos & E). rewrite (bind_done _ _ _ _ _ E). eauto.
  - destruct R as [_ E]. rewrite (bind_done _ _ _ _ _ E).
    destruct (p_header_len _ _ _ Hh Hok) as (Hl0 & Hl & _). rewrite <- Hv, length_view in Hl by done.
    destruct Hi as (_ & H1 & H2). unfold bind, get_st, set_st, ret, moved, entered.
    cbn [r_buf r_pos r_end r_ec]. by rewrite wrap_small by lia.
Qed.

Definition scoped {A} (t : Z) (body : M Reader (option A)) : M Reader (option A) :=
  let? a := in_scope t body in unless_failed a.

(** After an error the block itself does nothing, whatever it returns. *)
Definition Inert {A} (m : M Reader (option A)) : Prop :=
  forall r, is_error (r_ec r) = true -> exists o, m r = Done o r.

Lemma sticky_inert {A} (m : M Reader (option A)) : Sticky m -> Inert m.
Proof. intros H r He. eexists. by apply H. Qed.

(** A guarded block reads its element whole, or fails. *)
Lemma scoped_runs_at {A} t (body : M Reader (option A)) p r : isConstructed t = true ->
  (forall r', r_buf r' = r_buf r -> RunsAt body p r') -> Inert body ->
  RunsAt (scoped t body) (p_scope t p) r.
Proof.
  intros Ht Hb Hs Hi He. pose proof (enter_run t r Hi He Ht) as Hen. pose proof (view_ok r Hi) as Hok.
  assert (forall e pos, e <> Ok -> r_pos r <= pos <= r_end r ->
    enter t r = Done (r_end r, pos) (failed_at r e pos) ->
    e <> Ok /\ exists pos, r_pos r <= pos <= r_end r /\
      scoped t body r = Done None (failed_at r e pos)) as Hfail.
  { intros e pos Hne Hpos E. split; [done|]. exists pos. split; [done|].
    destruct (Hs _ (is_error_failed r e pos Hne)) as [o Eo].
    unfold scoped, in_scope, bind_opt, bind. rewrite E, Eo. cbn [fst snd].
    rewrite scope_close_err by (by apply is_error_failed). unfold ret. destruct o; [|done].
    by rewrite unless_failed_sticky by (by apply is_error_make_error_code). }
  unfold p_scope. destruct (view r) as [|t' rest] eqn:Hv; cbn [head] in Hen; [naive_solver|].
  destruct (negb (t' =? t)); [naive_solver|].
  destruct (p_header (t' :: rest)) as [e|[h n]] eqn:Hh; [naive_solver|].
  destruct (p_header_len _ _ _ Hh Hok) as (Hl0 & Hl & _).
  set (k := Z.to_nat (h_length h)) in *. assert (h_length h = Z.of_nat k) as Ek by lia. rewrite Ek in Hen.
  rewrite <- Hv in *. destruct (entered_view r n k Hi Hl) as [Hi1 Hv1].
  set (r1 := entered r n (Z.of_nat k)) in *.
  pose proof (Hb r1 eq_refl Hi1 He) as R. rewrite Hv1 in R.
  pose proof Hl as Hlv. rewrite length_view in Hl by done.
  assert (0 <= r_pos r <= r_end r) as Hp by (destruct Hi as (_ & ? & _); lia).
  unfold scoped, in_scope. unfold bind_opt.
  destruct (p (take k (drop n (view r)))) as [e|[a j]].
  - destruct R as (Hne & pos & _ & E). split; [done|]. exists (r_pos r + Z.of_nat n + Z.of_nat k).
    split; [lia|]. unfold bind. rewrite Hen, E. cbn [fst snd].
    by rewrite scope_close_err by (by apply is_error_failed).
  - destruct R as [Hj E]. destruct (Nat.eqb_spec j k) as [->|Hne].
    + split; [lia|]. unfold bind. rewrite Hen, E. cbn [fst snd]. rewrite scope_close_ok by done.
      unfold ret. rewrite unless_failed_none by done. unfold moved. rewrite He. f_equal. f_equal. lia.
    + split; [done|]. exists (r_pos r + Z.of_nat n + Z.of_nat k). split; [lia|].
      unfold bind. rewrite Hen, E. cbn [fst snd]. rewrite scope_close_trailing by (done || cbn; lia).
      unfold ret. by rewrite unless_failed_sticky.
Qed.

Lemma scoped_sticky {A} t (body : M Reader (option A)) : Inert body -> Sticky (scoped t body).
Proof.
  intros Hs r He. destruct (Hs r He) as [o Eo].
  unfold scoped, in_scope, bind_opt, enter, bind, get_st, gets. rewrite He, Eo. cbn [fst snd].
  rewrite scope_close_err by done. unfold ret. destruct r, o; [|done]. by rewrite unless_failed_sticky.
Qed.

Lemma scoped_reads {A} t (body : M Reader (option A)) p : isConstructed t = true ->
  Reads body p -> Reads (scoped t body) (p_scope t p).
Proof.
  intros Ht [R S]. split; [|by apply scoped_sticky, sticky_inert].
  intros r. apply scoped_runs_at; [done| |by apply sticky_inert]. intros r' _. apply R.
Qed.

#[global] Instance readVarbind_reads : Reads readVarbind p_varbind.
Proof.
  destruct (scoped_reads tag.sequence (let? name := objectIdentifier in
      let? val := anyValue in ret (Some (mkVarbind name val))) _ eq_refl
    (bind_reads _ _ _ _ objectIdentifier_reads
      (fun name => reads_runs (Reads := bind_reads _ _ _ _ anyValue_reads
         (fun val => ret_runs (mkVarbind name val)))))) as [R S].
  split.
  - intros r Hi He. unfold readVarbind. rewrite (bind_done _ _ r r r) by done.
    rewrite is_error_ok by done. by apply R.
  - intros r He. unfold readVarbind, bind at 1, get_st. by rewrite He.
Qed.

Lemma p_scope_min {A} t (p : parser A) bs a n : p_scope t p bs = inr (a, n) -> octets_ok bs ->
  (2 <= n)%nat.
Proof.
  unfold p_scope. destruct bs as [|t' rest]; [done|]. destruct (negb _); [done|]. intros H Hok.
  destruct (p_header (t' :: rest)) as [e|[h k]] eqn:Hh; [done|].
  destruct (p_header_len _ _ _ Hh Hok) as (_ & _ & ?). destruct (p _) as [e|[b j]]; [done|].
  destruct (_ =? _)%nat; [|done]. injection H as _ <-. lia.
Qed.

Lemma at_end_view r : inv r -> r_ec r = no_error ->
  ok r && negb (atEnd r) = match view r with [] => false | _ => true end.
Proof.
  intros Hi He. unfold ok, atEnd. rewrite He. cbn [is_error negb andb].
  pose proof (zlen_view r Hi) as Hl. destruct (view r) as [|b l]; cbn in Hl;
    destruct (Z.leb_spec (r_end r) (r_pos r)); done || lia.
Qed.

(** The loop of [varbindList] ends, and gives what [p_many] gives. *)
Lemma varbind_loop_runs fuel g out r : (length (view r) < fuel)%nat -> (length (view r) <= g)%nat ->
  RunsAt (varbind_loop fuel out) (p_map (app out) (p_many g p_varbind)) r.
Proof.
  revert g out r. induction fuel as [|fuel IH]; intros g out r Hf Hg Hi He; [lia|].
  cbn [varbind_loop]. rewrite (bind_done _ _ r r r) by done. rewrite at_end_view by done.
  pose proof (view_ok r Hi) as Hok. pose proof (readVarbind_reads.(reads_runs) r Hi He) as R.
  unfold p_map, p_bind at 1. destruct (view r) as [|b l] eqn:Hv.
  { assert (p_many g p_varbind [] = inr ([], 0%nat)) as -> by (by destruct g).
    cbn. rewrite app_nil_r, moved_0. split; [lia|done]. }
  destruct g as [|g]; [cbn in Hg; lia|]. cbn [p_many]. unfold p_bind at 1.
  destruct (p_varbind (b :: l)) as [e|[vb n]] eqn:Hp.
  { destruct R as (Hne & pos & Hpos & E). rewrite (bind_opt_none _ _ _ _ E). eauto. }
  destruct R as [Hn E]. rewrite (bind_opt_some _ _ _ _ _ E). apply p_scope_min in Hp; [|done].
  rewrite <- Hv in *. assert (length (view (moved r n)) < length (view r))%nat as Hlt.
  { rewrite view_moved, length_drop by done. lia. }
  specialize (IH g (out ++ [vb]) (moved r n) ltac:(lia) ltac:(lia) (inv_moved r n Hi Hn) He).
  rewrite view_moved in IH by done. unfold p_map, p_bind in *. cbn -[take drop] in *.
  destruct (p_many g p_varbind (drop n (view r))) as [e|[vbs m]].
  - destruct IH as (Hne & pos & Hpos & ->). split; [done|]. exists pos. split; [lia|done].
  - destruct IH as [Hm ->]. rewrite length_drop in Hm. rewrite moved_moved, <- app_assoc. cbn [app].
    replace (n + (m + 0) + 0)%nat with (n + (m + 0))%nat by lia. split; [lia|done].
Qed.

Lemma varbind_loop_sticky fuel out r : is_error (r_ec r) = true ->
  varbind_loop (S fuel) out r = Done (Some out) r.
Proof. intros He. cbn [varbind_loop]. unfold bind, get_st, ok. by rewrite He. Qed.

Lemma p_map_id {A} (p : parser A) bs : p_map (fun a => a) p bs = p bs.
Proof.
  unfold p_map, p_bind. destruct (p bs) as [|[a n]]; [done|]. cbn. by rewrite Nat.add_0_r.
Qed.

#[global] Instance varbindList_reads : Reads varbindList p_varbinds.
Proof.
  split; [|intros r He; unfold varbindList, bind at 1, get_st; by rewrite He].
  intros r Hi He. unfold varbindList. rewrite (bind_done _ _ r r r) by done. rewrite is_error_ok by done.
  apply scoped_runs_at; [done| | |done..].
  - intros r' Hb Hi' He'. rewrite <- p_map_id.
    apply (varbind_loop_runs _ (length (view r')) []); [|done..].
    rewrite length_view by done. destruct Hi' as (_ & ? & ?). rewrite Hb in *. lia.
  - intros r' He'. eexists. by apply varbind_loop_sticky.
Qed.

Lemma skipElement_run r : inv r -> r_ec r = no_error ->
  match p_header (view r) with
  | inr (h, n) => let m := (n + Z.to_nat (h_length h))%nat in
      (m <= length (view r))%nat /\
      skipElement r = Done (Some (mkSpan (r_pos r) (take m (view r)))) (moved r m)
  | inl e => e <> Ok /\ exists pos, r_pos r <= pos <= r_end r /\
      skipElement r = Done None (failed_at r e pos)
  end.
Proof.
  intros Hi He. unfold skipElement. rewrite (bind_done _ _ r r r) by done. rewrite is_error_ok by done.
  cbn zeta. pose proof (readHeader_runs r Hi He) as R. pose proof (view_ok r Hi) as Hok.
  destruct (p_header (view r)) as [e|[h n]] eqn:Hh.
  { destruct R as (Hne & pos & Hpos & E). rewrite (bind_opt_none _ _ _ _ E). eauto. }
  destruct R as [_ E]. destruct (p_header_len _ _ _ Hh Hok) as (Hl0 & Hl & _).
  split; [done|]. rewrite (bind_opt_some _ _ _ _ _ E).
  set (m := (n + Z.to_nat (h_length h))%nat) in *. pose proof Hl as Hlv. rewrite length_view in Hl by done.
  assert (advance (h_length h) (moved r n) = Done tt (moved r m)) as Ea.
  { destruct Hi as (_ & H1 & H2). unfold advance, modify, moved. cbn. rewrite wrap_small by lia. f_equal. f_equal. lia. }
  rewrite (bind_done _ _ _ _ _ Ea), (bind_done _ _ _ (moved r m) (moved r m)) by done.
  replace (wrap 64 (r_pos (moved r m) - r_pos r)) with (Z.of_nat m).
  2: { destruct Hi as (_ & H1 & H2). cbn [r_pos moved]. rewrite wrap_small; lia. }
  pose proof (subspan_view r 0 m Hi Hlv) as Es. rewrite Z.add_0_r, moved_0, drop_0 in Es.
  assert (subspan (r_pos r) (Z.of_nat m) (moved r m) =
    Done (mkSpan (r_pos r) (take m (view r))) (moved r m)) as Es'.
  { revert Es. unfold subspan, bind, get_st. cbn [r_buf moved]. destruct (_ && _); [|done].
    unfold ret. by intros [= ->]. }
  by rewrite (bind_done _ _ _ _ _ Es').
Qed.

(** ** Any sequence of calls

    A caller is a script of public calls, scopes nested as blocks are. *)

#[warnings="-register-all"]
Inductive call : Type :=
| CallPeekTag
| CallFinish
| CallSkipElement
| CallInteger (t : Z)
| CallUnsigned32 (t : Z)
| CallUnsigned64 (t : Z)
| CallOctetString (t : Z)
| CallOctetStringView (t : Z)
| CallNullValue
| CallObjectIdentifier
| CallAnyValue
| CallReadVarbind
| CallVarbindList
| CallScope (t : Z) (body : list call).

Definition discard {A} (m : M Reader A) : M Reader unit := m ;;; ret tt.

Fixpoint run_call (c : call) : M Reader unit :=
  match c with
  | CallPeekTag => discard peekTag
  | CallFinish => discard finish
  | CallSkipElement => discard skipElement
  | CallInteger t => discard (integer t)
  | CallUnsigned32 t => discard (unsigned32 t)
  | CallUnsigned64 t => discard (unsigned64 t)
  | CallOctetString t => discard (octetString t)
  | CallOctetStringView t => discard (octetStringView t)
  | CallNullValue => discard nullValue
  | CallObjectIdentifier => discard objectIdentifier
  | CallAnyValue => discard anyValue
  | CallReadVarbind => discard readVarbind
  | CallVarbindList => discard varbindList
  | CallScope t body =>
      in_scope t ((fix go l := match l with [] => ret tt | c :: l => run_call c ;;; go l end) body)
  end.

Definition run_calls (l : list call) : M Reader unit :=
  (fix go l := match l with [] => ret tt | c :: l => run_call c ;;; go l end) l.

(** A Reader between two calls. *)
Definition good (r : Reader) : Prop :=
  inv r /\ (r_ec r = no_error \/ is_error (r_ec r) = true).

(** What any call keeps. *)
Record kept (r r' : Reader) : Prop := mkKept {
  kept_good : good r';
  kept_buf : r_buf r' = r_buf r;
  kept_end : r_end r' = r_end r;
  kept_ec : is_error (r_ec r) = true -> r_ec r' = r_ec r }.

Class Keeps {A} (m : M Reader A) : Prop :=
  keeps : forall r, good r -> exists a r', m r = Done a r' /\ kept r r'.

Lemma kept_refl r : good r -> kept r r.
Proof. by intros H; split. Qed.

Lemma kept_trans r1 r2 r3 : kept r1 r2 -> kept r2 r3 -> kept r1 r3.
Proof.
  intros [G1 B1 E1 C1] [G2 B2 E2 C2]. split; [done|congruence..|].
  intros H. rewrite C2; [by apply C1|]. by rewrite C1.
Qed.

Lemma kept_moved r n : good r -> (n <= length (view r))%nat -> kept r (moved r n).
Proof. intros [Hi He] Hn. split; [split; [by apply inv_moved|done]|done..]. Qed.

Lemma kept_failed r e pos : good r -> r_ec r = no_error -> e <> Ok -> r_pos r <= pos <= r_end r ->
  kept r (failed_at r e pos).
Proof.
  intros [(H0 & H1 & H2) He] E Hne Hp. split; [|done|done|rewrite E; done].
  split; [repeat split; cbn; done || lia|]. right. by apply is_error_failed.
Qed.

Lemma reads_keeps {A} (m : M Reader (option A)) p : Reads m p -> Keeps m.
Proof.
  intros [R S] r Hg. destruct Hg as [Hi [He|He]] eqn:Eg; clear Eg.
  - specialize (R r Hi He). destruct (p (view r)) as [e|[a n]].
    + destruct R as (Hne & pos & Hpos & ->). do 2 eexists. split; [done|]. by apply kept_failed.
    + destruct R as [Hn ->]. do 2 eexists. split; [done|]. by apply kept_moved.
  - rewrite (S r He). do 2 eexists. split; [done|]. by apply kept_refl.
Qed.

Lemma bind_keeps {A B} (m : M Reader A) (k : A -> M Reader B) :
  Keeps m -> (forall a, Keeps (k a)) -> Keeps (let! a := m in k a).
Proof.
  intros Hm Hk r Hg. destruct (Hm r Hg) as (a & r1 & E1 & K1).
  destruct (Hk a r1 (kept_good _ _ K1)) as (b & r2 & E2 & K2).
  exists b, r2. rewrite (bind_done _ _ _ _ _ E1). split; [done|]. by eapply kept_trans.
Qed.

#[global] Instance ret_keeps {A} (a : A) : Keeps (ret a).
Proof. intros r Hg. do 2 eexists. split; [done|]. by apply kept_refl. Qed.

#[global] Instance discard_keeps {A} (m : M Reader A) : Keeps m -> Keeps (discard m).
Proof. intros H. apply bind_keeps; [done|]. intros _. apply _. Qed.

#[global] Instance fail_keeps e : e <> Ok -> Keeps (fail e).
Proof.
  intros Hne r Hg. unfold fail, modify. do 2 eexists. split; [done|]. destruct Hg as [(H0 & H1 & H2) He].
  split; [|done|done|by intros ->]. split; [repeat split; cbn; done || lia|]. cbn. right.
  destruct (is_error (r_ec r)) eqn:E; [done|]. by apply is_error_make_error_code.
Qed.

#[global] Instance peekTag_keeps : Keeps peekTag.
Proof.
  intros r Hg. pose proof Hg as [Hi He]. destruct (is_error (r_ec r)) eqn:E.
  - unfold peekTag, bind, get_st. rewrite E. do 2 eexists. split; [done|]. by apply kept_refl.
  - rewrite peekTag_view by done. do 2 eexists. split; [done|]. by apply kept_refl.
Qed.

#[global] Instance finish_keeps : Keeps finish.
Proof.
  intros r Hg. unfold finish. rewrite (bind_done _ _ r r r) by done.
  destruct (is_error (r_ec r)); [by apply ret_keeps|]. destruct (negb _); [|by apply ret_keeps].
  apply bind_keeps; [by apply fail_keeps|apply _|done].
Qed.

#[global] Instance primitiveContent_keeps t : Keeps (primitiveContent t).
Proof.
  intros r Hg. destruct Hg as [Hi [He|He]] eqn:Eg; clear Eg.
  - pose proof (primitiveContent_run t r Hi He) as R. destruct (p_prim t (view r)) as [e|[c n]].
    + destruct R as (Hne & pos & Hpos & ->). do 2 eexists. split; [done|]. by apply kept_failed.
    + destruct R as (Hn & _ & _ & ->). do 2 eexists. split; [done|]. by apply kept_moved.
  - rewrite primitiveContent_sticky by done. do 2 eexists. split; [done|]. by apply kept_refl.
Qed.

#[global] Instance nullValue_keeps : Keeps nullValue.
Proof.
  apply bind_keeps; [apply _|]. intros [s|]; [|apply _].
  destruct (negb _); [|apply _]. apply bind_keeps; [by apply fail_keeps|apply _].
Qed.

#[global] Instance skipElement_keeps : Keeps skipElement.
Proof.
  intros r Hg. destruct Hg as [Hi [He|He]] eqn:Eg; clear Eg.
  - pose proof (skipElement_run r Hi He) as R. destruct (p_header (view r)) as [e|[h n]].
    + destruct R as (Hne & pos & Hpos & ->). do 2 eexists. split; [done|]. by apply kept_failed.
    + destruct R as (Hn & ->). do 2 eexists. split; [done|]. by apply kept_moved.
  - unfold skipElement, bind, get_st. rewrite He. do 2 eexists. split; [done|]. by apply kept_refl.
Qed.

(** [enter] gives an end that is inside the element it is in. *)
Lemma enter_keeps t r : good r -> exists cE r', enter t r = Done (r_end r, cE) r' /\
  good r' /\ r_buf r' = r_buf r /\ 0 <= cE <= r_end r /\
  (is_error (r_ec r) = true -> r_ec r' = r_ec r).
Proof.
  intros Hg. pose proof Hg as [Hi [He|He]].
  2: { unfold enter, bind, get_st, gets. rewrite He. do 2 eexists. split; [done|].
       destruct Hi as (_ & ? & _). repeat split; done || lia || apply Hg. }
  destruct (isConstructed t) eqn:Ht.
  - pose proof (enter_run t r Hi He Ht) as R. pose proof (view_ok r Hi) as Hok.
    destruct (match head (view r) with Some _ => _ | None => _ end) as [e|[h n]] eqn:Eh.
    + destruct R as (Hne & pos & Hpos & ->). do 2 eexists. split; [done|].
      destruct (kept_failed r e pos Hg He Hne Hpos). destruct Hi as (_ & ? & _).
      split; [done|]. repeat split; done || lia.
    + rewrite R. assert (p_header (view r) = inr (h, n)) as Hh.
      { destruct (head (view r)); [|done]. by destruct (negb _). }
      destruct (p_header_len _ _ _ Hh Hok) as (Hl0 & Hl & _).
      destruct (entered_view r n (Z.to_nat (h_length h)) Hi Hl) as [Hi1 _].
      rewrite Z2Nat.id in Hi1 by done. rewrite length_view in Hl by done.
      do 2 eexists. split; [done|]. split; [split; [done|by left]|].
      destruct Hi as (_ & ? & _). repeat split; done || lia.
  - unfold enter, bind, get_st. rewrite is_error_ok, Ht by done. cbn [negb].
    rewrite fail_run by (by apply is_error_ok). do 2 eexists. split; [done|].
    destruct (kept_failed r UnexpectedTag (r_end r) Hg He ltac:(done) (inv_pos r Hi)).
    destruct Hi as (_ & ? & _). split; [done|]. repeat split; cbn; done || lia.
Qed.

#[global] Instance in_scope_keeps {A} t (body : M Reader A) : Keeps body -> Keeps (in_scope t body).
Proof.
  intros Hb r Hg. destruct (enter_keeps t r Hg) as (cE & r1 & E1 & G1 & B1 & C1 & K1).
  destruct (Hb r1 G1) as (a & r2 & E2 & [[Hi2 He2] B2 _ K2]). unfold in_scope.
  rewrite (bind_done _ _ _ _ _ E1), (bind_done _ _ _ _ _ E2). cbn [fst snd].
  assert (exists ec, scope_close (r_end r) cE r2 = Done tt (mkReader (r_buf r) cE (r_end r) ec) /\
    (ec = no_error \/ is_error ec = true) /\ (is_error (r_ec r2) = true -> ec = r_ec r2)) as (ec & E3 & Hec & Hk).
  { rewrite B1 in B2. rewrite <- B2. destruct He2 as [He|He].
    - destruct (Z.eq_dec (r_pos r2) cE) as [Hp|Hp].
      + rewrite scope_close_ok by done. eexists. split; [done|]. rewrite He. split; [by left|done].
      + rewrite scope_close_trailing by done. eexists. split; [done|]. rewrite He. split; [by right|done].
    - rewrite scope_close_err by done. eauto. }
  rewrite (bind_done _ _ _ _ _ E3). do 2 eexists. split; [done|]. destruct Hg as [(H0 & H1 & H2) _].
  split; [split; [repeat split; cbn; done || lia|done]|done..|].
  cbn. intros He. pose proof (K1 He) as F1. rewrite <- F1 in He. pose proof (K2 He) as F2.
  rewrite <- F2 in He. rewrite (Hk He). congruence.
Qed.

Ltac keeps_tac := first [apply _ | eapply reads_keeps; apply _].

Lemma run_call_keeps c : Keeps (run_call c).
Proof.
  revert c. fix IH 1. intros c. destruct c as [| | | | | | | | | | | | |t body]; cbn [run_call];
    try (apply discard_keeps; keeps_tac).
  apply in_scope_keeps. induction body as [|c body IHb]; [apply _|]. apply bind_keeps; [apply IH|done].
Qed.

Lemma run_calls_keeps l : Keeps (run_calls l).
Proof.
  induction l as [|c l IH]; [apply _|]. apply bind_keeps; [apply run_call_keeps|intros _; exact IH].
Qed.

Lemma new_good bs : octets_ok bs -> zlen bs < 2 ^ 63 -> good (new bs).
Proof. intros Ho Hl. split; [repeat split; cbn; done || lia|by left]. Qed.

Lemma view_new bs : view (new bs) = bs.
Proof.
  unfold view, new. cbn [r_buf r_pos r_end]. rewrite Z.sub_0_r, Nat2Z.id, drop_0. by apply firstn_all.
Qed.

(** ** Properties *)



(** A header is read exactly as X.690 and the limits of SNMP say: a
    single-octet tag, a definite length of at most four octets, and a content that
    is all inside the enclosing element; every other input is refused with the
    error of its kind, checked in the order tag, form of the length, octets of the
    length, content.  The cursor moves past the header and nothing else. *)
Theorem readHeader_refines r :
  inv r -> r_ec r = no_error ->
  match p_header (view r) with
  | inr (h, n) =>
      readHeader r = Done (Some h) (moved r n) /\
      r_pos r + Z.of_nat n + h_length h <= r_end r
  | inl e => exists pos, readHeader r = Done None (failed_at r e pos)
  end.
Proof.
  intros Hi He. pose proof (readHeader_runs r Hi He) as R. pose proof (view_ok r Hi) as Hok.
  destruct (p_header (view r)) as [e|[h n]] eqn:Hh.
  - destruct R as (_ & pos & _ & ?). eauto.
  - destruct R as [_ ?]. split; [done|]. destruct (p_header_len _ _ _ Hh Hok) as (Hl0 & Hl & _).
    rewrite length_view in Hl by done. destruct Hi as (_ & ? & _). lia.
Qed.

Lemma readHeader_refines_witness :
  readHeader (new [0x04; 0x82; 0x00; 0x01; 0xAB]) =
    Done (Some (mkHeader 0x04 1)) (moved (new [0x04; 0x82; 0x00; 0x01; 0xAB]) 4) /\
  0 + 4 + 1 <= 5.
Proof.
  apply (readHeader_refines (new [0x04; 0x82; 0x00; 0x01; 0xAB])); [|reflexivity].
  apply new_good; [|vm_compute; reflexivity]. apply (bool_decide_unpack _). vm_compute. exact I.
Defined.

(** [integer] gives the two's complement value of a content of any width and
    any padding, and refuses with [IntegerTooLarge] exactly the values outside 32
    bits; [unsigned64] does the same for unsigned values and 64 bits. *)
Theorem integer_value t c r n :
  inv r -> r_ec r = no_error -> c <> [] -> p_prim t (view r) = inr (c, n) ->
  (int32_ok (be_signed c) -> integer t r = Done (Some (be_signed c)) (moved r n)) /\
  (~ int32_ok (be_signed c) ->
     exists pos, integer t r = Done None (failed_at r IntegerTooLarge pos)) /\
  (uint64_ok (be_value c) -> unsigned64 t r = Done (Some (be_value c)) (moved r n)) /\
  (~ uint64_ok (be_value c) ->
     exists pos, unsigned64 t r = Done None (failed_at r IntegerTooLarge pos)).
Proof.
  intros Hi He Hc Hp. pose proof (reads_runs (Reads := integer_reads t) r Hi He) as Ri.
  pose proof (reads_runs (Reads := unsigned64_reads t) r Hi He) as Ru.
  pose proof (primitiveContent_run t r Hi He) as Rp. rewrite Hp in Rp. destruct Rp as (_ & Hok & _).
  pose proof (be_value_bound c Hok) as Hb.
  unfold p_content, p_bind in Ri, Ru. rewrite Hp in Ri, Ru. unfold dec_int32, dec_uint in Ri, Ru.
  destruct c as [|b c]; [done|]. change (256 ^ Z.of_nat 8) with 18446744073709551616 in Ru.
  assert (uint64_ok (be_value (b :: c)) <-> be_value (b :: c) < 18446744073709551616) as Hu
    by (unfold uint64_ok; lia). rewrite Hu.
  destruct (decide _) as [Hd|Hd], (Z.ltb_spec (be_value (b :: c)) 18446744073709551616);
    cbn -[be_value be_signed] in Ri, Ru; rewrite ?Nat.add_0_r in Ri; rewrite ?Nat.add_0_r in Ru;
    (split; [|split; [|split]]); try lia; try done; intros _; naive_solver.
Qed.

Lemma integer_value_witness :
  let r := new [0x02; 0x05; 0xFF; 0xFF; 0xFF; 0xFF; 0x7F] in
  integer tag.integer r = Done (Some (-129)) (moved r 7).
Proof.
  refine (proj1 (integer_value tag.integer [0xFF; 0xFF; 0xFF; 0xFF; 0x7F]
    (new [0x02; 0x05; 0xFF; 0xFF; 0xFF; 0xFF; 0x7F]) 7 _ _ _ _) _); try reflexivity; try discriminate.
  - apply new_good; [|vm_compute; reflexivity]. apply (bool_decide_unpack _). vm_compute. exact I.
  - vm_compute. split; congruence.
Defined.



End Reader.
