(* ===== verification/BerRoundtrip.v ===== *)
(** * BerRoundtrip: what the Reader reads is what the Writer wrote

    The reference decoders of [BerReader] inverted on the reference encoding of
    [Ber].  [Codec] is the promise one pair of them makes to the messages built
    from it; each layer's instance is proved from the instances below it. *)

From S2P Require Import Prelude Errors Oids Values Ber BerWriter BerReader.
Import Reader.

(** [p] reads back what [enc] gives, whatever follows it, and takes nothing else.
    Four length octets are all the Reader takes, hence the bound. *)
Class Codec {A} (p : parser A) (enc : A -> option Octets) (ok : A -> Prop) : Prop :=
  codec : forall a bs rest, ok a -> enc a = Some bs -> zlen bs < 2 ^ 32 ->
    p (bs ++ rest) = inr (a, length bs).

(** ** Lengths and headers *)

Lemma enc_len_short n : n < 128 -> enc_len n = [n].
Proof. intros H. unfold enc_len. by destruct (Z.ltb_spec n 128); [|lia]. Qed.

Lemma p_length_enc n first l rest : 0 <= n < 2 ^ 32 -> enc_len n = first :: l ->
  p_length first (l ++ rest) = inr (n, length l).
Proof.
  intros Hn. unfold enc_len, p_length. destruct (Z.ltb_spec n 128) as [Hs|Hs].
  - intros [= <- <-]. by destruct (Z.ltb_spec n 128); [|lia].
  - intros [= <- <-]. pose proof (be_min_length n 4 ltac:(lia) ltac:(lia)) as Hl.
    pose proof (be_min_nonempty n ltac:(lia)) as Hp.
    destruct (Z.ltb_spec (128 + zlen (be_min n)) 128); [lia|].
    destruct (Z.eqb_spec (128 + zlen (be_min n)) 128); [lia|].
    destruct (Z.eqb_spec (128 + zlen (be_min n)) 255); [lia|].
    replace (Z.to_nat (128 + zlen (be_min n) - 128)) with (length (be_min n)) by lia.
    destruct (Nat.ltb_spec 4 (length (be_min n))); [lia|]. rewrite length_app.
    destruct (Nat.ltb_spec (length (be_min n) + length rest) (length (be_min n))); [lia|].
    rewrite take_length_app, be_min_value by lia. done.
Qed.

(** A tag that fits one identifier octet. *)
Definition low_tag (t : Z) : Prop := Z.land t 0x1F <> 0x1F.

Lemma p_header_enc t c rest : low_tag t -> zlen c < 2 ^ 32 ->
  p_header (enc_tlv t c ++ rest) = inr (mkHeader t (zlen c), (1 + length (enc_len (zlen c)))%nat).
Proof.
  intros Ht Hl. unfold enc_tlv. pose proof (enc_len_pos (zlen c)) as Hp.
  destruct (enc_len (zlen c)) as [|first l] eqn:El; [cbn in Hp; lia|]. cbn [app].
  rewrite <- app_assoc. unfold p_header. destruct (Z.eqb_spec (Z.land t 31) 31) as [E|_]; [done|].
  rewrite (p_length_enc (zlen c)) by (done || lia). rewrite !zlen_app.
  destruct (Z.ltb_spec (zlen l + (zlen c + zlen rest) - zlen l) (zlen c)); [lia|]. done.
Qed.

Lemma drop_header t c rest :
  drop (1 + length (enc_len (zlen c))) (enc_tlv t c ++ rest) = c ++ rest.
Proof. unfold enc_tlv. cbn. rewrite <- app_assoc. apply drop_length_app. Qed.

Lemma enc_tlv_length t c : length (enc_tlv t c) = (1 + length (enc_len (zlen c)) + length c)%nat.
Proof. unfold enc_tlv. cbn. by rewrite length_app. Qed.

Lemma enc_tlv_content_short t c n : zlen (enc_tlv t c) < n -> zlen c < n.
Proof. rewrite enc_tlv_length. lia. Qed.

Lemma p_prim_enc t c rest : low_tag t -> isConstructed t = false -> zlen c < 2 ^ 32 ->
  p_prim t (enc_tlv t c ++ rest) = inr (c, length (enc_tlv t c)).
Proof.
  intros Ht Hc Hl. unfold p_prim. rewrite p_header_enc by done. cbn [h_length].
  rewrite drop_header, Nat2Z.id, take_length_app, enc_tlv_length. cbn [enc_tlv app].
  by rewrite Z.eqb_refl, Hc.
Qed.

Lemma p_content_enc {A} t c (dec : Octets -> Errc + A) a rest : low_tag t -> isConstructed t = false ->
  zlen (enc_tlv t c) < 2 ^ 32 -> dec c = inr a ->
  p_content t dec (enc_tlv t c ++ rest) = inr (a, length (enc_tlv t c)).
Proof.
  intros Ht Hc Hl Hd. unfold p_content, p_bind.
  rewrite p_prim_enc by (done || by eapply enc_tlv_content_short). rewrite Hd. cbn. by rewrite Nat.add_0_r.
Qed.

Lemma p_scope_enc {A} t c (p : parser A) a rest : low_tag t -> zlen (enc_tlv t c) < 2 ^ 32 ->
  p c = inr (a, length c) ->
  p_scope t p (enc_tlv t c ++ rest) = inr (a, length (enc_tlv t c)).
Proof.
  intros Ht Hl Hp. unfold p_scope. rewrite p_header_enc by (done || by eapply enc_tlv_content_short).
  cbn [h_length]. rewrite drop_header, Nat2Z.id, take_length_app, Hp, Nat.eqb_refl, enc_tlv_length.
  cbn [enc_tlv app]. by rewrite Z.eqb_refl.
Qed.

(** Two readings one after the other. *)
Lemma p_bind_enc {A B} (p : parser A) (q : A -> parser B) b1 b2 rest a b :
  (forall rest, p (b1 ++ rest) = inr (a, length b1)) ->
  (forall rest, q a (b2 ++ rest) = inr (b, length b2)) ->
  p_bind p q ((b1 ++ b2) ++ rest) = inr (b, length (b1 ++ b2)).
Proof.
  intros Hp Hq. unfold p_bind. rewrite <- app_assoc, Hp, drop_length_app, Hq. by rewrite length_app.
Qed.

Lemma p_map_enc {A B} (f : A -> B) p bs a : p bs = inr (a, length bs) -> p_map f p bs = inr (f a, length bs).
Proof. intros H. unfold p_map, p_bind. rewrite H. cbn. by rewrite Nat.add_0_r. Qed.

Lemma p_map_enc_app {A B} (f : A -> B) p bs rest a :
  p (bs ++ rest) = inr (a, length bs) -> p_map f p (bs ++ rest) = inr (f a, length bs).
Proof. intros H. unfold p_map, p_bind. rewrite H. cbn. by rewrite Nat.add_0_r. Qed.

(** ** Integers *)

Lemma be_bytes_signed n v : - 256 ^ Z.of_nat n <= 2 * v < 256 ^ Z.of_nat n -> (0 < n)%nat ->
  be_signed (be_bytes n v) = v /\
  match be_bytes n v with [] => False | b :: _ => high_bit b = (v <? 0) end.
Proof.
  intros Hv Hn. destruct n as [|n]; [lia|]. pose proof (be_value_be_bytes (S n) v) as Hb.
  pose proof (be_bytes_ok (S n) v) as Hok. pose proof (length_be_bytes (S n) v) as Hlen.
  cbn [be_bytes] in *. apply octets_ok_cons in Hok as [Hb0 Hok].
  pose proof (be_value_bound _ Hok) as Hbl. rewrite length_be_bytes in Hbl.
  unfold be_signed. rewrite Hlen, Hb. rewrite be_value_cons, length_be_bytes in Hb.
  rewrite high_bit_ltb by done. set (b := _ mod 256) in *. set (P := 256 ^ Z.of_nat (S n)) in *.
  assert (P = 256 * 256 ^ Z.of_nat n) as HP by apply pow256_S.
  unfold byte_ok in Hb0. destruct (Z.ltb_spec v 0).
  - assert (v mod P = v + P) as E by (symmetry; apply (Z.mod_unique v P (-1)); [left|]; lia).
    rewrite E in *. destruct (Z.ltb_spec b 128); [nia|]. cbn. split; [lia|done].
  - rewrite Z.mod_small in * by lia. destruct (Z.ltb_spec b 128); [|nia]. done.
Qed.

Lemma strip_be_bytes n v neg : - 256 ^ Z.of_nat n <= 2 * v < 256 ^ Z.of_nat n -> (0 < n)%nat ->
  neg = (v <? 0) ->
  let c := strip_padding (if neg then 255 else 0) neg (be_bytes n v) in
  be_signed c = v /\ match c with [] => False | b :: _ => high_bit b = neg end.
Proof.
  intros Hv Hn -> c. destruct (be_bytes_signed n v Hv Hn) as [E Hh].
  destruct (strip_padding_signed (be_bytes n v) (v <? 0) (be_bytes_ok n v)) as [E' Hh'].
  { by destruct (be_bytes n v). }
  fold c in E', Hh'. rewrite E' . split; [done|]. destruct c; [|done]. by rewrite Hh' in Hh.
Qed.

Lemma dec_int32_enc v : int32_ok v -> dec_int32 (enc_int32 v) = inr v.
Proof.
  intros Hv. unfold int32_ok in Hv.
  destruct (strip_be_bytes 4 v (v <? 0)) as [E Hh]; [change (256 ^ Z.of_nat 4) with 4294967296; lia|lia|done|].
  fold (enc_int32 v) in E, Hh. unfold dec_int32. destruct (enc_int32 v); [done|].
  by rewrite E, decide_True.
Qed.

Lemma dec_uint_enc k v : 0 <= v < 256 ^ Z.of_nat k -> (k <= 8)%nat -> dec_uint k (enc_uint v) = inr v.
Proof.
  intros Hv Hk. assert (256 ^ Z.of_nat k <= 256 ^ 8) by (apply Z.pow_le_mono_r; lia).
  destruct (strip_be_bytes 9 v false) as [E Hh].
  - change (256 ^ Z.of_nat 9) with (256 * 256 ^ 8). lia.
  - lia.
  - by destruct (Z.ltb_spec v 0); [lia|].
  - fold (enc_uint v) in E, Hh. unfold dec_uint. destruct (enc_uint v) as [|b c]; [done|].
    unfold be_signed in E. rewrite Hh in E. rewrite E. by destruct (Z.ltb_spec v (256 ^ Z.of_nat k)); [|lia].
Qed.

(** ** Object identifiers *)

Lemma pow128_S n : 128 ^ Z.of_nat (S n) = 128 * 128 ^ Z.of_nat n.
Proof. rewrite Nat2Z.inj_succ, Z.pow_succ_r by lia. done. Qed.

(** The octet of a group: its seven bits, and whether another one follows. *)
Lemma group_octet g n : 0 <= g < 128 ->
  let b := if (n =? 0)%nat then g else g + 128 in
  Z.land b 0x7F = g /\ (Z.land b 0x80 =? 0) = (n =? 0)%nat.
Proof.
  intros Hg b. assert (byte_ok b) as Hb by (subst b; unfold byte_ok; destruct (n =? 0)%nat; lia).
  pose proof (high_bit_ltb b Hb) as Hh. unfold high_bit in Hh. apply (f_equal negb) in Hh.
  rewrite !negb_involutive in Hh. change 0x80 with 128. rewrite Hh, land_127. subst b.
  destruct (n =? 0)%nat.
  - rewrite Z.mod_small by lia. split; [done|]. by destruct (Z.ltb_spec g 128); [|lia].
  - replace (g + 128) with (g + 1 * 128) by lia. rewrite Z.mod_add, Z.mod_small by lia.
    split; [done|]. by destruct (Z.ltb_spec (g + 1 * 128) 128); [lia|].
Qed.

Lemma subid_loop_groups n v acc rest : 0 <= acc ->
  acc * 128 ^ Z.of_nat (S n) + v mod 128 ^ Z.of_nat (S n) < 2 ^ 32 ->
  subid_loop (enc_groups (S n) v ++ rest) acc =
    inr (true, acc * 128 ^ Z.of_nat (S n) + v mod 128 ^ Z.of_nat (S n), rest).
Proof.
  revert acc. induction n as [|n IH]; intros acc Ha Hb.
  - cbn [enc_groups app subid_loop Nat.eqb]. change (128 ^ Z.of_nat 0) with 1. rewrite Z.div_1_r.
    change (128 ^ Z.of_nat 1) with 128 in *. pose proof (Z.mod_pos_bound v 128 ltac:(lia)) as Hg.
    destruct (group_octet (v mod 128) 0 Hg) as [E1 E2]. cbn [Nat.eqb] in E1, E2. rewrite E1, E2.
    rewrite Z.shiftl_mul_pow2, wrap_small, <- Z.shiftl_mul_pow2 by lia.
    rewrite (lor_shiftl_add 7) by lia. change (2 ^ 7) with 128. rewrite Z.gtb_ltb.
    by destruct (Z.ltb_spec 4294967295 (acc * 128 + v mod 128)); [lia|].
  - remember (S n) as m eqn:Em. cbn [enc_groups app subid_loop]. rewrite pow128_S in *.
    assert (0 < 128 ^ Z.of_nat m) as Hm by (apply Z.pow_pos_nonneg; lia).
    pose proof (Z.mod_pos_bound (v / 128 ^ Z.of_nat m) 128 ltac:(lia)) as Hg.
    pose proof (Z.mod_pos_bound v (128 ^ Z.of_nat m) ltac:(lia)).
    rewrite (Z.mul_comm 128), Z.rem_mul_r in * by lia. set (g := _ / _ mod 128) in *.
    destruct (group_octet g m Hg) as [-> ->].
    rewrite Z.shiftl_mul_pow2, wrap_small, <- Z.shiftl_mul_pow2 by (lia || nia).
    rewrite (lor_shiftl_add 7) by lia. change (2 ^ 7) with 128. rewrite Z.gtb_ltb.
    destruct (Z.ltb_spec 4294967295 (acc * 128 + g)); [nia|].
    replace (m =? 0)%nat with false by (by subst m). rewrite IH by nia.
    do 3 f_equal. lia.
Qed.

Lemma enc_subid_cons v : 0 <= v < 2 ^ 64 -> exists n, enc_subid v = enc_groups (S n) v /\
  v < 128 ^ Z.of_nat (S n) /\ (n = 0%nat \/ 128 ^ Z.of_nat n <= v).
Proof.
  intros Hv. destruct (subidOctets_spec v Hv) as (Hk & Hup & Hlo). unfold enc_subid.
  exists (Z.to_nat (subidOctets v - 1)). set (k := subidOctets v) in *.
  replace (S (Z.to_nat (k - 1))) with (Z.to_nat k) by lia. rewrite !Z2Nat.id by lia.
  split; [done|]. split; [done|]. destruct Hlo; [left|right]; lia.
Qed.

Lemma subid_loop_enc v rest : uint32_ok v -> subid_loop (enc_subid v ++ rest) 0 = inr (true, v, rest).
Proof.
  intros Hv. unfold uint32_ok in Hv. destruct (enc_subid_cons v) as (n & -> & Hup & _); [lia|].
  rewrite subid_loop_groups; rewrite ?Z.mul_0_l, ?Z.add_0_l, ?Z.mod_small by lia; done || lia.
Qed.

(** The encoding of a sub-identifier has no leading zero group. *)
Lemma enc_subid_minimal v : uint32_ok v -> exists b l, enc_subid v = b :: l /\
  (Z.land b 0x7F =? 0) && negb (Z.land b 0x80 =? 0) = false.
Proof.
  intros Hv. unfold uint32_ok in Hv. destruct (enc_subid_cons v) as (n & -> & Hup & Hlo); [lia|].
  cbn [enc_groups]. do 2 eexists. split; [done|]. rewrite pow128_S in Hup.
  assert (0 < 128 ^ Z.of_nat n) by (apply Z.pow_pos_nonneg; lia).
  assert (v / 128 ^ Z.of_nat n mod 128 = v / 128 ^ Z.of_nat n) as E.
  { apply Z.mod_small. split; [apply Z.div_pos; lia|apply Z.div_lt_upper_bound; lia]. }
  destruct (group_octet (v / 128 ^ Z.of_nat n mod 128) n) as [-> ->]; [apply Z.mod_pos_bound; lia|].
  destruct Hlo as [->|Hlo]; [cbn; apply andb_false_r|]. rewrite E.
  assert (0 < v / 128 ^ Z.of_nat n) by (apply Z.div_str_pos; lia).
  by destruct (Z.eqb_spec (v / 128 ^ Z.of_nat n) 0); [lia|].
Qed.

Lemma oid_loop_step fuel v content (first : bool) result : uint32_ok v ->
  (length (result ++ (if first then unpack_first v else [v])) <= 128)%nat ->
  oid_loop (S fuel) (enc_subid v ++ content) first result =
    oid_loop fuel content false (result ++ (if first then unpack_first v else [v])).
Proof.
  intros Hv Hl. destruct (enc_subid_minimal v Hv) as (b & l & E & Hmin).
  pose proof (subid_loop_enc v content Hv) as Hs. rewrite E in *. cbn [app] in *. cbn [oid_loop].
  rewrite Hmin, Hs. cbn [negb]. rewrite (wrap_small 32) by (unfold uint32_ok in Hv; lia).
  unfold Oids.maxSubids. by destruct (Nat.ltb_spec 128 (length (result ++ (if first then unpack_first v else [v])))); [lia|].
Qed.

Lemma oid_loop_rest fuel rest result : Oids.oid_ok rest -> (length rest < fuel)%nat ->
  (length result + length rest <= 128)%nat ->
  oid_loop fuel (concat (map enc_subid rest)) false result = Some (inr (result ++ rest)).
Proof.
  revert fuel result. induction rest as [|v rest IH]; intros fuel result Ho Hf Hl;
    (destruct fuel as [|fuel]; [cbn in Hf; lia|]).
  - cbn. by rewrite app_nil_r.
  - apply Forall_cons_1 in Ho as [Hv Ho]. cbn [map concat length] in *.
    rewrite oid_loop_step by (done || rewrite length_app; cbn; lia).
    rewrite IH by (done || lia || rewrite length_app; cbn; lia). by rewrite <- app_assoc.
Qed.

Lemma unpack_first_packed a b : 0 <= a <= 2 -> (a < 2 -> b < 40) -> 0 <= b -> uint32_ok (a * 40 + b) ->
  unpack_first (a * 40 + b) = [a; b].
Proof.
  intros Ha Hb Hb0 Hp. unfold uint32_ok in Hp. unfold unpack_first.
  destruct (Z.ltb_spec (a * 40 + b) 40), (Z.ltb_spec (a * 40 + b) 80); rewrite wrap_small by lia;
    repeat f_equal; lia.
Qed.

Lemma length_concat_subids rest : Oids.oid_ok rest ->
  (length rest <= length (concat (map enc_subid rest)))%nat.
Proof.
  induction 1 as [|v rest Hv Ho IH]; [done|]. cbn [map concat length]. rewrite length_app.
  destruct (enc_subid_minimal v Hv) as (b & l & -> & _). cbn. lia.
Qed.

Lemma dec_oid_enc o : Oids.isEncodable o = true -> Oids.oid_ok o -> dec_oid (enc_oid_content o) = inr o.
Proof.
  intros He Ho. destruct (isEncodable_packed o He Ho) as (a & b & rest & -> & Hp & Hr & Hl & Ha & Hb & Ha2 & Hb40).
  unfold uint32_ok in Ha, Hb. cbn [enc_oid_content]. destruct (enc_subid_minimal _ Hp) as (x & l & E & _).
  unfold dec_oid, decodeOidContent. rewrite E at 1. cbn [app].
  rewrite oid_loop_step; [|done|].
  - cbn [app]. rewrite unpack_first_packed by (done || lia). rewrite oid_loop_rest; [done..| |].
    + rewrite length_app, E. pose proof (length_concat_subids rest Hr). cbn. lia.
    + cbn. lia.
  - cbn [app]. rewrite unpack_first_packed by (done || lia). cbn. lia.
Qed.

#[export] Instance oid_codec : Codec p_oid enc_oid Oids.oid_ok.
Proof.
  intros o bs rest Ho He Hl. unfold enc_oid in He. destruct (Oids.isEncodable o) eqn:E; [|done].
  injection He as <-. apply p_content_enc; [done..|]. by apply dec_oid_enc.
Qed.

(** ** Values and Varbinds *)

Lemma p_value_enc t c rest a :
  value_of_tag t (enc_tlv t c ++ rest) = inr (a, length (enc_tlv t c)) ->
  p_value (enc_tlv t c ++ rest) = inr (a, length (enc_tlv t c)).
Proof. done. Qed.

(** The branch of [value_of_tag] for a given tag, and the content decoder of it. *)
Ltac value_branch :=
  apply p_value_enc; unfold value_of_tag; cbv [tag.null tag.integer tag.octetString
    tag.objectIdentifier tag.ipAddress tag.counter32 tag.gauge32 tag.timeticks tag.counter64
    tag.opaque tag.noSuchObject tag.noSuchInstance tag.endOfMibView Z.eqb Pos.eqb exception_tag];
  try apply p_map_enc_app; first [apply p_content_enc; [done..|] | apply p_prim_enc; [done..|]].

#[export] Instance value_codec : Codec p_value enc_value value_ok.
Proof.
  intros v bs rest Hv He Hl. destruct v as [|z|c|o|c|z|z|z|c|z|e]; cbn [enc_value value_ok] in *.
  4: { unfold enc_oid in He. destruct (Oids.isEncodable o) eqn:E; [|done]. injection He as <-.
       value_branch. by apply dec_oid_enc. }
  all: injection He as <-.
  - by value_branch.
  - value_branch. by apply dec_int32_enc.
  - value_branch. by eapply enc_tlv_content_short.
  - value_branch. destruct Hv as [_ Hv]. unfold dec_ip. by rewrite Hv.
  - value_branch. apply dec_uint_enc; [done|lia].
  - value_branch. apply dec_uint_enc; [done|lia].
  - value_branch. apply dec_uint_enc; [done|lia].
  - value_branch. by eapply enc_tlv_content_short.
  - value_branch. apply dec_uint_enc; [done|lia].
  - destruct e; by value_branch.
Qed.

#[export] Instance varbind_codec : Codec p_varbind enc_varbind varbind_ok.
Proof.
  intros vb bs rest [Hn Hv] He Hl. unfold enc_varbind in He.
  destruct (enc_oid (vb_name vb)) as [name|] eqn:En; [|done]. cbn in He.
  destruct (enc_value (vb_val vb)) as [val|] eqn:Ev; [|done]. cbn in He. injection He as <-.
  pose proof (enc_tlv_content_short _ _ _ Hl) as Hc. rewrite zlen_app in Hc.
  apply p_scope_enc; [done..|]. rewrite <- (app_nil_r (name ++ val)) at 1.
  apply p_bind_enc with (a := vb_name vb).
  - intros rest'. by apply (codec _ _ _ Hn En); lia.
  - intros rest'. replace vb with (mkVarbind (vb_name vb) (vb_val vb)) at 2 by (by destruct vb).
    apply p_map_enc_app. by apply (codec _ _ _ Hv Ev); lia.
Qed.

Lemma enc_tlv_nonempty t c : (0 < length (enc_tlv t c))%nat.
Proof. cbn. lia. Qed.

Lemma enc_varbind_tlv vb bs : enc_varbind vb = Some bs -> exists c, bs = enc_tlv tag.sequence c.
Proof.
  unfold enc_varbind. destruct (enc_oid (vb_name vb)) as [n|]; [|done]. cbn.
  destruct (enc_value (vb_val vb)) as [v|]; [|done]. cbn. intros [= <-]. eauto.
Qed.

Lemma p_many_enc fuel vbs chunks : Forall varbind_ok vbs -> mapM enc_varbind vbs = Some chunks ->
  zlen (concat chunks) < 2 ^ 32 -> (length (concat chunks) <= fuel)%nat ->
  p_many fuel p_varbind (concat chunks) = inr (vbs, length (concat chunks)).
Proof.
  intros Hok. revert fuel chunks. induction Hok as [|vb vbs Hvb Hvbs IH]; intros fuel chunks He Hl Hf.
  - injection He as <-. by destruct fuel.
  - cbn in He. destruct (enc_varbind vb) as [bs|] eqn:Eb; [|done]. cbn in He.
    destruct (mapM enc_varbind vbs) as [bss|] eqn:Es; [|done]. cbn in He. injection He as <-.
    cbn [concat] in *. rewrite zlen_app in Hl. rewrite length_app in Hf.
    destruct (enc_varbind_tlv vb bs Eb) as [c Ec].
    assert (0 < length bs)%nat as Hpos by (subst bs; apply enc_tlv_nonempty).
    destruct fuel as [|fuel]; [lia|]. specialize (IH fuel bss eq_refl ltac:(lia) ltac:(lia)).
    cbn [p_many]. destruct (bs ++ concat bss) as [|x l] eqn:Ex.
    { apply (f_equal length) in Ex. rewrite length_app in Ex. cbn in Ex. lia. }
    rewrite <- Ex. unfold p_bind at 1. rewrite (codec vb bs (concat bss) Hvb Eb) by lia.
    rewrite drop_length_app, (p_map_enc _ _ _ _ IH). by rewrite length_app.
Qed.

#[export] Instance varbinds_codec : Codec p_varbinds enc_varbinds (Forall varbind_ok).
Proof.
  intros vbs bs rest Hok He Hl. unfold enc_varbinds in He.
  destruct (mapM enc_varbind vbs) as [chunks|] eqn:Em; [|done]. cbn in He. injection He as <-.
  apply p_scope_enc; [done..|]. apply p_many_enc; [done..|by eapply enc_tlv_content_short|done].
Qed.

(** ** What a decoder gives is well formed *)

Class WellFormed {A} (p : parser A) (ok : A -> Prop) : Prop :=
  well_formed : forall bs a n, octets_ok bs -> p bs = inr (a, n) -> ok a.

Lemma p_bind_inv {A B} (p : parser A) (q : A -> parser B) bs b n : p_bind p q bs = inr (b, n) ->
  exists a k m, p bs = inr (a, k) /\ q a (drop k bs) = inr (b, m) /\ n = (k + m)%nat.
Proof.
  unfold p_bind. destruct (p bs) as [|[a k]]; [done|].
  destruct (q a (drop k bs)) as [|[b' m]] eqn:E; [done|]. intros [= <- <-]. eauto 10.
Qed.

Lemma p_map_inv {A B} (f : A -> B) p bs b n : p_map f p bs = inr (b, n) ->
  exists a, p bs = inr (a, n) /\ b = f a.
Proof.
  intros (a & k & m & Ha & [= <- <-] & ->)%p_bind_inv. exists a. by rewrite Nat.add_0_r.
Qed.

Lemma p_prim_inv t bs c n : p_prim t bs = inr (c, n) -> octets_ok bs -> octets_ok c /\ (length c + 2 <= n)%nat.
Proof.
  unfold p_prim. destruct bs as [|b bs]; [done|]. destruct (negb _); [done|]. destruct (isConstructed t); [done|].
  destruct (p_header (b :: bs)) as [|[h k]] eqn:Hh; [done|]. intros [= <- <-] Hok.
  destruct (p_header_len _ _ _ Hh Hok) as (? & ? & ?). split; [eauto with snmp|].
  rewrite length_take. lia.
Qed.

Lemma p_content_inv {A} t (dec : Octets -> Errc + A) bs a n : p_content t dec bs = inr (a, n) ->
  exists c, p_prim t bs = inr (c, n) /\ dec c = inr a.
Proof.
  intros (c & k & m & Hc & Hd & ->)%p_bind_inv. exists c. destruct (dec c); [done|].
  injection Hd as -> <-. by rewrite Nat.add_0_r.
Qed.

Lemma p_scope_inv {A} t (p : parser A) bs a n : p_scope t p bs = inr (a, n) -> octets_ok bs ->
  exists c, octets_ok c /\ p c = inr (a, length c).
Proof.
  unfold p_scope. destruct bs as [|b bs]; [done|]. destruct (negb _); [done|].
  destruct (p_header (b :: bs)) as [|[h k]] eqn:Hh; [done|]. intros H Hok.
  destruct (p_header_len _ _ _ Hh Hok) as (? & Hl & ?).
  exists (take (Z.to_nat (h_length h)) (drop k (b :: bs))). split; [eauto with snmp|].
  destruct (p (take _ _)) as [|[a' j]]; [done|].
  destruct (Nat.eqb_spec j (Z.to_nat (h_length h))) as [Hj|]; [|done]. injection H as <- _.
  rewrite length_take, length_drop. do 2 f_equal. lia.
Qed.

Lemma dec_int32_ok c v : dec_int32 c = inr v -> int32_ok v.
Proof. unfold dec_int32. destruct c; [done|]. destruct (decide _); [|done]. by intros [= <-]. Qed.

Lemma dec_uint_ok k c v : dec_uint k c = inr v -> octets_ok c -> 0 <= v < 256 ^ Z.of_nat k.
Proof.
  unfold dec_uint. destruct c as [|b c]; [done|]. intros H Hok.
  destruct (Z.ltb_spec (be_value (b :: c)) (256 ^ Z.of_nat k)); [|done]. injection H as <-.
  pose proof (be_value_bound _ Hok). lia.
Qed.

(** ** The encoding of an Oid is canonical *)

(** What a complete sub-identifier was: [n] groups, the bit on all but the last. *)
Lemma subid_loop_inv content acc v rest : octets_ok content -> 0 <= acc < 2 ^ 32 ->
  subid_loop content acc = inr (true, v, rest) ->
  exists n, content = enc_groups (S n) v ++ rest /\ octets_ok rest /\ 0 <= v < 2 ^ 32 /\
    v / 128 ^ Z.of_nat (S n) = acc.
Proof.
  intros Hok. revert acc. induction Hok as [|b content Hb Hok IH]; intros acc Ha; [done|].
  cbn [subid_loop]. rewrite Z.shiftl_mul_pow2, wrap_small, <- Z.shiftl_mul_pow2 by lia.
  assert (0 <= Z.land b 127 < 128) as Hg by (rewrite land_127; apply Z.mod_pos_bound; lia).
  rewrite (lor_shiftl_add 7) by lia. change (2 ^ 7) with 128. rewrite Z.gtb_ltb.
  set (g := Z.land b 127) in *. destruct (Z.ltb_spec 4294967295 (acc * 128 + g)) as [|Hle]; [done|].
  assert (forall n, (Z.land b 128 =? 0) = (n =? 0)%nat -> b = (if (n =? 0)%nat then g else g + 128)) as Hbg.
  { intros n <-. pose proof (high_bit_ltb b Hb) as Hh. unfold high_bit in Hh.
    apply (f_equal negb) in Hh. rewrite !negb_involutive in Hh. rewrite Hh. subst g. rewrite land_127.
    unfold byte_ok in Hb. destruct (Z.ltb_spec b 128); [by rewrite Z.mod_small by lia|].
    replace b with (b - 128 + 1 * 128) at 2 by lia. rewrite Z.mod_add, Z.mod_small by lia. lia. }
  destruct (Z.land b 128 =? 0) eqn:Elast.
  - intros [= <- <-]. exists 0%nat. cbn [enc_groups app Nat.eqb]. change (128 ^ Z.of_nat 0) with 1.
    change (128 ^ Z.of_nat 1) with 128. rewrite Z.div_1_r.
    rewrite (Z.add_comm (acc * 128)), Z.mod_add, Z.mod_small, Z.div_add, Z.div_small by lia.
    rewrite (Hbg 0%nat eq_refl) at 1. split; [done|]. split; [done|]. lia.
  - intros H. destruct (IH (acc * 128 + g) ltac:(lia) H) as (n & -> & Hr & Hv & Hd).
    exists (S n). remember (S n) as m eqn:Em. cbn [enc_groups app].
    rewrite Hd, (Z.add_comm (acc * 128)), Z.mod_add, Z.mod_small by lia.
    assert ((m =? 0)%nat = false) as Em0 by (by subst m). rewrite (Hbg m) at 1 by done.
    split; [done|]. split; [done|]. split; [done|].
    rewrite pow128_S, (Z.mul_comm 128), <- Z.div_div by (lia || (apply Z.pow_nonzero; lia)).
    rewrite Hd, (Z.add_comm (acc * 128)), Z.div_add, Z.div_small by lia. lia.
Qed.

(** Without a leading zero group the number of groups is the number [subidOctets] says. *)
Lemma subid_loop_canonical b content v rest : octets_ok (b :: content) ->
  (Z.land b 0x7F =? 0) && negb (Z.land b 0x80 =? 0) = false ->
  subid_loop (b :: content) 0 = inr (true, v, rest) ->
  b :: content = enc_subid v ++ rest /\ octets_ok rest /\ uint32_ok v.
Proof.
  intros Hok Hmin H. destruct (subid_loop_inv _ 0 _ _ Hok ltac:(lia) H) as (n & E & Hr & Hv & Hd).
  split; [|split; [done|unfold uint32_ok; lia]]. rewrite E. f_equal. unfold enc_subid. f_equal.
  destruct (subidOctets_spec v ltac:(lia)) as (Hk & Hup & Hlo). set (k := subidOctets v) in *.
  assert (0 < 128 ^ Z.of_nat n) as HP by (apply Z.pow_pos_nonneg; lia).
  assert (v < 128 ^ Z.of_nat (S n)) as Hvn.
  { apply Z.div_small_iff in Hd; [lia|]. apply Z.pow_nonzero; lia. }
  assert (n = 0%nat \/ 128 ^ Z.of_nat n <= v) as Hn.
  { destruct n as [|n]; [by left|]. right. remember (S n) as m eqn:Em. cbn [enc_groups app] in E.
    injection E as -> _. replace (m =? 0)%nat with false in Hmin by (by subst m).
    pose proof (Z.mod_pos_bound (v / 128 ^ Z.of_nat m) 128 ltac:(lia)) as Hg.
    destruct (group_octet (v / 128 ^ Z.of_nat m mod 128) m Hg) as [E1 E2].
    replace (m =? 0)%nat with false in E1, E2 by (by subst m). rewrite E1, E2 in Hmin. cbn [negb] in Hmin.
    rewrite andb_true_r in Hmin. apply Z.eqb_neq in Hmin. rewrite pow128_S in Hvn.
    rewrite Z.mod_small in Hmin by (split; [apply Z.div_pos; lia|apply Z.div_lt_upper_bound; lia]).
    apply Z.nlt_ge. intros Hlt. apply Hmin. apply Z.div_small. lia. }
  enough (k = Z.of_nat (S n)) by lia.
  apply Z.le_antisymm; apply Z.nlt_ge; intros Hlt.
  - destruct Hlo as [Hlo|Hlo]; [lia|].
    assert (128 ^ Z.of_nat (S n) <= 128 ^ (k - 1)) by (apply Z.pow_le_mono_r; lia). lia.
  - destruct Hn as [->|Hn]; [lia|].
    assert (128 ^ k <= 128 ^ Z.of_nat n) by (apply Z.pow_le_mono_r; lia). lia.
Qed.

Lemma unpack_first_inv v : uint32_ok v -> exists a b, unpack_first v = [a; b] /\ v = a * 40 + b /\
  uint32_ok a /\ uint32_ok b /\ a <= 2 /\ (a < 2 -> b < 40).
Proof.
  unfold uint32_ok. intros Hv. unfold unpack_first.
  destruct (Z.ltb_spec v 40); [|destruct (Z.ltb_spec v 80)]; rewrite wrap_small by lia;
    do 2 eexists; (split; [reflexivity|]); lia.
Qed.

Lemma oid_loop_canonical fuel content first result o : octets_ok content ->
  oid_loop fuel content first result = Some (inr o) ->
  exists l, content = concat (map enc_subid l) /\ Oids.oid_ok l /\
    (length o <= 128 \/ content = [])%nat /\
    o = result ++ (if first then match l with [] => [] | v :: l' => unpack_first v ++ l' end else l).
Proof.
  revert content first result. induction fuel as [|fuel IH]; intros content first result Hok; [done|].
  cbn [oid_loop]. destruct content as [|b content].
  { intros [= <-]. exists []. split; [done|]. split; [constructor|]. split; [by right|].
    destruct first; by rewrite app_nil_r. }
  destruct (_ && _) eqn:Hmin; [done|].
  destruct (subid_loop (b :: content) 0) as [|[[[] v] rest]] eqn:Hs; [done| |done]. cbn [negb].
  destruct (subid_loop_canonical _ _ _ _ Hok Hmin Hs) as (E & Hr & Hv).
  rewrite (wrap_small 32) by done. unfold Oids.maxSubids.
  destruct (Nat.ltb_spec 128 (length (result ++ (if first then unpack_first v else [v])))) as [|Hlen]; [done|].
  intros H. destruct (IH _ _ _ Hr H) as (l & El & Hl & Hlo & ->). exists (v :: l). cbn [map concat].
  rewrite E, El. split; [done|]. split; [by constructor|]. split.
  - left. destruct Hlo as [?|Hn]; [done|]. assert (l = []) as ->.
    { destruct l as [|w l]; [done|]. apply Forall_cons_1 in Hl as [Hw _].
      destruct (enc_subid_minimal w Hw) as (x & y & Ex & _). rewrite Hn in El. cbn in El. by rewrite Ex in El. }
    by rewrite app_nil_r.
  - rewrite <- app_assoc. by destruct first.
Qed.

Lemma dec_oid_canonical c o : octets_ok c -> dec_oid c = inr o ->
  Oids.oid_ok o /\ Oids.isEncodable o = true /\ enc_oid_content o = c.
Proof.
  intros Hok H. destruct (decodeOidContent_total c) as [E _]. rewrite H in E. revert E.
  unfold decodeOidContent. destruct c as [|b c]; [done|]. intros E.
  destruct (oid_loop_canonical _ _ _ _ _ Hok E) as (l & El & Hl & [Hlen|?] & Ho); [|done].
  destruct l as [|v l]; [done|]. apply Forall_cons_1 in Hl as [Hv Hl]. cbn [app] in Ho.
  destruct (unpack_first_inv v Hv) as (x & y & Eu & -> & Hx & Hy & Hx2 & Hxy). rewrite Eu in Ho. subst o.
  cbn [app] in *. split; [by do 2 (apply Forall_cons_2; [done|])|]. split; [|by rewrite El].
  apply Oids.isEncodable_spec. exists x, y, l. unfold uint32_ok in *. cbn in Hlen.
  repeat split; try done; lia.
Qed.

(** ** Well-formedness of Oids, values and Varbinds *)

(** Well formed, and with every Oid one that BER can express again. *)
Definition value_wire_ok (v : Value) : Prop :=
  value_ok v /\ match v with ValOid o => Oids.isEncodable o = true | _ => True end.

Definition varbind_wire_ok (vb : Varbind) : Prop :=
  (Oids.oid_ok (vb_name vb) /\ Oids.isEncodable (vb_name vb) = true) /\ value_wire_ok (vb_val vb).

#[export] Instance oid_well_formed : WellFormed p_oid (fun o => Oids.oid_ok o /\ Oids.isEncodable o = true).
Proof.
  intros bs o n Hok (c & Hc & Hd)%p_content_inv. destruct (p_prim_inv _ _ _ _ Hc Hok) as [Hco _].
  destruct (dec_oid_canonical c o Hco Hd) as (? & ? & _). done.
Qed.

Lemma content_well_formed {A} t (dec : Octets -> Errc + A) (ok : A -> Prop) :
  (forall c a, octets_ok c -> dec c = inr a -> ok a) -> WellFormed (p_content t dec) ok.
Proof.
  intros H bs a n Hok (c & Hc & Hd)%p_content_inv. eapply H; [|done]. by eapply p_prim_inv in Hc as [? _].
Qed.

Lemma map_well_formed {A B} (f : A -> B) p (P : A -> Prop) (ok : B -> Prop) : WellFormed p P ->
  (forall a, P a -> ok (f a)) -> WellFormed (p_map f p) ok.
Proof. intros Hp Hf bs b n Hok (a & Ha & ->)%p_map_inv. by eapply Hf, Hp. Qed.

Lemma prim_well_formed t : WellFormed (p_prim t) octets_ok.
Proof. intros bs c n Hok Hc. by apply p_prim_inv in Hc as [? _]. Qed.

Lemma fail_well_formed {A} e (ok : A -> Prop) : WellFormed (p_fail e) ok.
Proof. by intros bs a n _. Qed.

Lemma uint_well_formed t k (ok : Z -> Prop) : (forall v, 0 <= v < 256 ^ Z.of_nat k -> ok v) ->
  WellFormed (p_content t (dec_uint k)) ok.
Proof. intros H. apply content_well_formed. intros c a Hc Hd. apply H. by eapply dec_uint_ok. Qed.

Lemma empty_well_formed t e v : value_wire_ok v -> WellFormed (p_content t (dec_empty e v)) value_wire_ok.
Proof. intros H. apply content_well_formed. intros [|? ?] a _; [by intros [= <-]|done]. Qed.

Lemma value_of_tag_well_formed t : WellFormed (value_of_tag t) value_wire_ok.
Proof.
  unfold value_of_tag.
  destruct (t =? tag.null); [by apply empty_well_formed|].
  destruct (t =? tag.integer).
  { eapply map_well_formed; [|by intros a Ha; split; [exact Ha|]].
    apply content_well_formed. intros c a _. apply dec_int32_ok. }
  destruct (t =? tag.octetString); [eapply map_well_formed; [apply prim_well_formed|done]|].
  destruct (t =? tag.objectIdentifier); [eapply map_well_formed; [apply oid_well_formed|done]|].
  destruct (t =? tag.ipAddress).
  { apply content_well_formed. intros c a Hc. unfold dec_ip.
    destruct (Nat.eqb_spec (length c) 4); [|done]. by intros [= <-]. }
  destruct (t =? tag.counter32); [eapply map_well_formed; [by apply (uint_well_formed _ _ uint32_ok)|done]|].
  destruct (t =? tag.gauge32); [eapply map_well_formed; [by apply (uint_well_formed _ _ uint32_ok)|done]|].
  destruct (t =? tag.timeticks); [eapply map_well_formed; [by apply (uint_well_formed _ _ uint32_ok)|done]|].
  destruct (t =? tag.counter64); [eapply map_well_formed; [by apply (uint_well_formed _ _ uint64_ok)|done]|].
  destruct (t =? tag.opaque); [eapply map_well_formed; [apply prim_well_formed|done]|].
  destruct (t =? tag.noSuchObject); [by apply empty_well_formed|].
  destruct (t =? tag.noSuchInstance); [by apply empty_well_formed|].
  destruct (t =? tag.endOfMibView); [by apply empty_well_formed|].
  apply fail_well_formed.
Qed.

#[export] Instance value_well_formed : WellFormed p_value value_wire_ok.
Proof. intros [|t bs] v n Hok H; [done|]. by eapply value_of_tag_well_formed. Qed.

#[export] Instance varbind_well_formed : WellFormed p_varbind varbind_wire_ok.
Proof.
  intros bs vb n Hok H. apply p_scope_inv in H as (c & Hc & H); [|done].
  apply p_bind_inv in H as (name & k & m & Hn & Hv & _). apply p_map_inv in Hv as (v & Hv & ->).
  split; cbn; [by eapply oid_well_formed|]. eapply value_well_formed; [|done]. eauto with snmp.
Qed.

Lemma p_many_well_formed fuel bs vbs n : octets_ok bs -> p_many fuel p_varbind bs = inr (vbs, n) ->
  Forall varbind_wire_ok vbs.
Proof.
  revert bs vbs n. induction fuel as [|fuel IH]; intros bs vbs n Hok.
  - destruct bs; [|done]. intros [= <- _]. constructor.
  - cbn [p_many]. destruct bs as [|b bs]; [intros [= <- _]; constructor|].
    intros (vb & k & m & Hvb & Hr & _)%p_bind_inv. apply p_map_inv in Hr as (l & Hl & ->).
    constructor; [by eapply varbind_well_formed|]. eapply IH; [|done]. eauto with snmp.
Qed.

#[export] Instance varbinds_well_formed : WellFormed p_varbinds (Forall varbind_wire_ok).
Proof.
  intros bs vbs n Hok H. apply p_scope_inv in H as (c & Hc & H); [|done]. by eapply p_many_well_formed.
Qed.

Lemma enc_value_wire v : value_wire_ok v -> exists bs, enc_value v = Some bs.
Proof.
  intros [_ H]. destruct v; cbn [enc_value]; eauto. unfold enc_oid. rewrite H. eauto.
Qed.

Lemma enc_varbind_wire vb : varbind_wire_ok vb -> exists bs, enc_varbind vb = Some bs.
Proof.
  intros [[_ Hn] Hv]. destruct (enc_value_wire _ Hv) as [v Ev].
  unfold enc_varbind, enc_oid. rewrite Hn, Ev. cbn. eauto.
Qed.

Lemma enc_varbinds_wire vbs : Forall varbind_wire_ok vbs -> exists bs, enc_varbinds vbs = Some bs.
Proof.
  intros H. assert (exists l, mapM enc_varbind vbs = Some l) as [l El].
  { induction H as [|vb vbs Hvb _ [l IH]]; [by eexists|]. destruct (enc_varbind_wire _ Hvb) as [b Eb].
    exists (b :: l). cbn. by rewrite Eb, IH. }
  unfold enc_varbinds. rewrite El. cbn. eauto.
Qed.

Lemma wire_varbind_ok vb : varbind_wire_ok vb -> varbind_ok vb.
Proof. intros [[? _] [? _]]. by split. Qed.

(** A datagram that is one encoding, read from the start. *)
Lemma codec_run {A} (m : M Reader (option A)) p enc ok a bs : Reads m p -> Codec p enc ok ->
  ok a -> enc a = Some bs -> octets_ok bs -> zlen bs < 2 ^ 32 ->
  m (new bs) = Done (Some a) (moved (new bs) (length bs)).
Proof.
  intros R C Ha He Ho Hl. destruct (new_good bs Ho ltac:(lia)) as [Hi _].
  pose proof (reads_runs (Reads := R) (new bs) Hi eq_refl) as Hr. rewrite view_new in Hr.
  pose proof (codec a bs [] Ha He Hl) as Hp. rewrite app_nil_r in Hp. rewrite Hp in Hr. apply Hr.
Qed.

Lemma finish_end bs : finish (moved (new bs) (length bs)) = Done true (moved (new bs) (length bs)).
Proof. unfold finish, bind, get_st. cbn. by rewrite Z.eqb_refl. Qed.

(** The octets of an encoding are octets. *)
Lemma enc_int32_ok v : octets_ok (enc_int32 v).
Proof. apply strip_padding_ok, be_bytes_ok. Qed.

Lemma enc_uint_ok v : octets_ok (enc_uint v).
Proof. apply strip_padding_ok, be_bytes_ok. Qed.

Lemma enc_tlv_ok' t c : byte_ok t -> octets_ok c -> zlen (enc_tlv t c) < 2 ^ 32 -> octets_ok (enc_tlv t c).
Proof. intros Ht Hc Hl%enc_tlv_content_short. apply enc_tlv_ok; [done..|lia]. Qed.

Lemma enc_oid_ok o bs : enc_oid o = Some bs -> zlen bs < 2 ^ 32 -> octets_ok bs.
Proof.
  unfold enc_oid. destruct (Oids.isEncodable o); [|done]. intros [= <-].
  apply enc_tlv_ok'; [done|]. apply enc_oid_content_ok.
Qed.

Lemma enc_value_ok v bs : value_ok v -> enc_value v = Some bs -> zlen bs < 2 ^ 32 -> octets_ok bs.
Proof.
  destruct v as [| | |o| | | | | | |e]; cbn [enc_value value_ok]; intros Hv He Hl;
    try (by eapply enc_oid_ok); injection He as <-;
    (apply enc_tlv_ok'; [try done; by destruct e| |done]);
    first [apply enc_int32_ok | apply enc_uint_ok | done | apply Hv | constructor].
Qed.

Lemma enc_varbind_ok vb bs : varbind_ok vb -> enc_varbind vb = Some bs -> zlen bs < 2 ^ 32 -> octets_ok bs.
Proof.
  intros [Hn Hv] He Hl. unfold enc_varbind in He. destruct (enc_oid (vb_name vb)) as [n|] eqn:En; [|done].
  destruct (enc_value (vb_val vb)) as [v|] eqn:Ev; [|done]. injection He as <-.
  pose proof (enc_tlv_content_short _ _ _ Hl) as Hc. rewrite zlen_app in Hc.
  apply enc_tlv_ok'; [done| |done]. apply octets_ok_app. split.
  - eapply enc_oid_ok; [done|lia].
  - eapply enc_value_ok; [done..|lia].
Qed.

Lemma enc_varbinds_ok vbs bs : Forall varbind_ok vbs -> enc_varbinds vbs = Some bs ->
  zlen bs < 2 ^ 32 -> octets_ok bs.
Proof.
  intros Hok He Hl. unfold enc_varbinds in He. destruct (mapM enc_varbind vbs) as [l|] eqn:Em; [|done].
  injection He as <-. apply enc_tlv_ok'; [done| |done]. apply enc_tlv_content_short in Hl.
  revert l Em Hl. induction Hok as [|vb vbs Hvb _ IH]; intros l Em Hl; [injection Em as <-; constructor|].
  cbn in Em. destruct (enc_varbind vb) as [b|] eqn:Eb; [|done].
  destruct (mapM enc_varbind vbs) as [bs|]; [|done]. injection Em as <-. cbn [concat] in *.
  rewrite zlen_app in Hl. apply octets_ok_app. split; [|apply IH; [done|lia]].
  eapply enc_varbind_ok; [done..|lia].
Qed.

(** ** Properties *)

(** A VarBindList survives the wire.  The Writer encodes any list of well-formed
    Varbinds whose Oids are encodable, and the Reader, given those octets, returns
    that same list, and has then consumed every octet ([finish] agrees). *)
Theorem varbindList_roundtrip vbs bs :
  Forall varbind_ok vbs -> enc_varbinds vbs = Some bs -> zlen bs < 2 ^ 32 ->
  Writer.varbindList vbs Writer.new = Done tt (mkWriter bs no_error) /\
  (let? out := varbindList in let! all := finish in ret (Some (out, all))) (new bs) =
    Done (Some (vbs, true)) (moved (new bs) (length bs)).
Proof.
  intros Hok He Hl. split.
  - pose proof (Writer.varbindList_refines vbs Hok) as R. rewrite He in R.
    apply (Writer.refines_run _ _ Writer.new); [done..|]. cbn. lia.
  - rewrite (bind_opt_some _ _ _ _ _ (codec_run _ _ _ _ _ _ varbindList_reads varbinds_codec Hok He
      (enc_varbinds_ok _ _ Hok He Hl) Hl)).
    by rewrite (bind_done _ _ _ _ _ (finish_end bs)).
Qed.

Lemma varbindList_roundtrip_witness :
  let vbs := [mkVarbind [1; 3; 6; 1; 2; 1; 1; 3; 0] (ValTimeTicks 4294967295);
              mkVarbind [2; 999; 3] (ValException EndOfMibView)] in
  (let? out := varbindList in let! all := finish in ret (Some (out, all)))
    (new (default [] (enc_varbinds vbs))) =
    Done (Some (vbs, true)) (moved (new (default [] (enc_varbinds vbs))) 30).
Proof.
  refine (proj2 (varbindList_roundtrip
    [mkVarbind [1; 3; 6; 1; 2; 1; 1; 3; 0] (ValTimeTicks 4294967295);
     mkVarbind [2; 999; 3] (ValException EndOfMibView)] _ _ _ _)); [|reflexivity|vm_compute; reflexivity].
  repeat (apply Forall_cons_2; [split; [apply (bool_decide_unpack _); vm_compute; exact I|cbn; try lia]|]);
    [unfold uint32_ok; lia|constructor].
Defined.

(** An Oid has exactly one encoding the Reader accepts, the one the Writer
    writes: padded or overlong sub-identifiers are refused, and what is accepted
    is an Oid that can be written again. *)
Theorem oid_encoding_canonical c o :
  octets_ok c ->
  decodeOidContent c = Some (inr o) <->
  Oids.oid_ok o /\ Oids.isEncodable o = true /\ c = enc_oid_content o.
Proof.
  intros Hc. destruct (decodeOidContent_total c) as [-> _]. split.
  - intros [= H]. destruct (dec_oid_canonical c o Hc H) as (? & ? & ?). done.
  - intros (Ho & He & ->). by rewrite dec_oid_enc.
Qed.

Lemma oid_encoding_canonical_witness :
  decodeOidContent [0x2B; 0x06; 0x80; 0x01] = Some (inr [1; 3; 6; 1]) <->
  Oids.oid_ok [1; 3; 6; 1] /\ Oids.isEncodable [1; 3; 6; 1] = true /\
    [0x2B; 0x06; 0x80; 0x01] = enc_oid_content [1; 3; 6; 1].
Proof.
  apply oid_encoding_canonical. apply (bool_decide_unpack _). vm_compute. exact I.
Defined.

(** What the Reader returns from the network is well formed: every number is in
    the range of its type, an IpAddress has four octets, an Oid has 2 to 128
    sub-identifiers of 32 bits; and the whole list can be encoded again. *)
Theorem varbindList_well_formed bs vbs r :
  octets_ok bs -> zlen bs < 2 ^ 63 -> varbindList (new bs) = Done (Some vbs) r ->
  Forall varbind_ok vbs /\ exists bs', enc_varbinds vbs = Some bs'.
Proof.
  intros Ho Hl H. destruct (new_good bs Ho Hl) as [Hi _].
  pose proof (reads_runs (Reads := varbindList_reads) (new bs) Hi eq_refl) as R. rewrite view_new, H in R.
  destruct (p_varbinds bs) as [e|[l n]] eqn:Hp; [naive_solver|]. destruct R as [_ [= -> _]].
  pose proof (varbinds_well_formed bs _ _ Ho Hp) as Hw. split; [|by apply enc_varbinds_wire].
  eapply Forall_impl; [apply wire_varbind_ok|done].
Qed.

Lemma varbindList_well_formed_witness :
  Forall varbind_ok [mkVarbind [1; 3] ValNull] /\ exists bs', enc_varbinds [mkVarbind [1; 3] ValNull] = Some bs'.
Proof.
  eapply (varbindList_well_formed [48; 7; 48; 5; 6; 1; 43; 5; 0]); [|vm_compute; reflexivity..].
  apply (bool_decide_unpack _). vm_compute. exact I.
Defined.
