(* ===== verification/Pdu.v ===== *)
(** * Pdu: Protocol Data Units and the SNMPv2c message

    Models [include/snmpio/Pdu.hpp] and the codec half of [src/Pdu.cpp] (its error
    category is in [Errors]).  [RunsE] is the contract of a decoder that reports
    its error through an [ec] of its own rather than through the Reader; the
    SNMPv3 decoder is proved against it too. *)

From S2P Require Import Prelude Errors Oids Values Ber BerWriter BerReader BerRoundtrip.

Inductive PduType : Type := Get | GetNext | GetBulk | SetPdu | Response | Report.

#[export] Instance PduType_eq_dec : EqDecision PduType.
Proof. solve_decision. Defined.

(** [static_cast<ber::TagType>(type)]. *)
Definition pdu_tag (t : PduType) : Z :=
  match t with
  | Get => tag.getRequest
  | GetNext => tag.getNextRequest
  | GetBulk => tag.getBulkRequest
  | SetPdu => tag.setRequest
  | Response => tag.response
  | Report => tag.report
  end.

(** [static_cast<PduType>(t)]; an octet that names no enumerator is [None]. *)
Definition pdu_type_of (t : Z) : option PduType :=
  list_find (fun p => pdu_tag p = t) [Get; GetNext; GetBulk; SetPdu; Response; Report] ≫= fun x => Some x.2.

Definition isPduTag (t : Z) : bool :=
  if t =? tag.getRequest then true
  else if t =? tag.getNextRequest then true
  else if t =? tag.getBulkRequest then true
  else if t =? tag.setRequest then true
  else if t =? tag.response then true
  else if t =? tag.report then true
  else false.

Record Pdu : Type := mkPdu {
  pdu_type : PduType;
  requestId : Z;
  errorStatus : Z;
  errorIndex : Z;
  varbinds : list Varbind }.

Definition nonRepeaters (p : Pdu) : Z := errorStatus p.
Definition maxRepetitions (p : Pdu) : Z := errorIndex p.

Definition setBulkParams (nonRepeaters maxRepetitions : Z) (p : Pdu) : Pdu :=
  mkPdu (pdu_type p) (requestId p) nonRepeaters maxRepetitions (varbinds p).

Definition pdu_ok (p : Pdu) : Prop :=
  int32_ok (requestId p) /\ int32_ok (errorStatus p) /\ int32_ok (errorIndex p) /\
  Forall varbind_ok (varbinds p).

Definition encodePdu (p : Pdu) : M Writer unit :=
  Writer.in_scope (pdu_tag (pdu_type p)) (
    Writer.integer (requestId p) tag.integer ;;;
    Writer.integer (errorStatus p) tag.integer ;;;
    Writer.integer (errorIndex p) tag.integer ;;;
    Writer.varbindList (varbinds p)).

Definition decodePdu : M Reader (option Pdu) :=
  let! r := get_st in
  if negb (Reader.ok r) then ret None
  else
    let! t := Reader.peekTag in
    match t with
    | None => Reader.fail_with Truncated
    | Some t =>
        if negb (isPduTag t) then Reader.fail_with UnexpectedPduType
        else
          let! type := deref (pdu_type_of t) in
          let? p := Reader.in_scope t (
            let! requestId := Reader.integer tag.integer in
            let! errorStatus := Reader.integer tag.integer in
            let! errorIndex := Reader.integer tag.integer in
            let! varbinds := Reader.varbindList in
            match requestId, errorStatus, errorIndex, varbinds with
            | Some requestId, Some errorStatus, Some errorIndex, Some varbinds =>
                ret (Some (mkPdu type requestId errorStatus errorIndex varbinds))
            | _, _, _, _ => ret None
            end) in
          Reader.unless_failed p
    end.

Definition versionV2c : Z := 1.

Record V2cMessage : Type := mkV2cMessage { v2c_community : cstring; v2c_pdu : Pdu }.

Definition messageVersion {T} (datagram : Octets) : M T (option Z) :=
  run_local (Reader.new datagram) (Reader.in_scope tag.sequence (Reader.integer tag.integer))
    (fun version _ => ret version).

Definition encodeV2cMessage {T} (community : cstring) (pdu : Pdu) : M T (ErrorCode + Octets) :=
  run_local Writer.new
    (Writer.in_sequence (
       Writer.integer versionV2c tag.integer ;;;
       Writer.octetString community tag.octetString ;;;
       encodePdu pdu))
    (fun _ w => if is_error (w_ec w) then ret (inl (w_ec w)) else ret (inr (w_buf w))).

(** [ec = r.error(); return std::nullopt;] *)
Definition reader_error {A} : M Reader (ErrorCode + A) := gets (fun r => inl (r_ec r)).

Definition decodeV2cMessage {T} (datagram : Octets) : M T (ErrorCode + V2cMessage) :=
  run_local (Reader.new datagram)
    (let+ msg := Reader.in_scope tag.sequence (
       let! version := Reader.integer tag.integer in
       let! community := Reader.octetString tag.octetString in
       match version, community with
       | Some version, Some community =>
           if negb (version =? versionV2c) then ret (inl (make_error_code BadVersion))
           else
             let! pdu := decodePdu in
             match pdu with
             | None => reader_error
             | Some pdu => ret (inr (mkV2cMessage community pdu))
             end
       | _, _ => reader_error
       end) in
     let! all := Reader.finish in
     if negb all then reader_error else ret (inr msg))
    (fun result _ => ret result).

(** ** Reference codecs *)

Definition p_int32 : Reader.parser Z := Reader.p_content tag.integer Reader.dec_int32.

Definition p_pdu_body (type : PduType) : Reader.parser Pdu :=
  Reader.p_bind p_int32 (fun id => Reader.p_bind p_int32 (fun st => Reader.p_bind p_int32 (fun ix =>
    Reader.p_map (mkPdu type id st ix) Reader.p_varbinds))).

Definition p_pdu : Reader.parser Pdu := fun bs =>
  match bs with
  | [] => inl Truncated
  | t :: _ =>
      match pdu_type_of t with
      | None => inl UnexpectedPduType
      | Some type => Reader.p_scope t (p_pdu_body type) bs
      end
  end.

Definition p_v2c : Reader.parser V2cMessage :=
  Reader.p_scope tag.sequence (Reader.p_bind p_int32 (fun version =>
    Reader.p_bind (Reader.p_prim tag.octetString) (fun community =>
      if negb (version =? versionV2c) then Reader.p_fail BadVersion
      else Reader.p_map (mkV2cMessage community) p_pdu))).

(** [p] takes the whole input. *)
Definition dec_whole {A} (p : Reader.parser A) (bs : Octets) : Errc + A :=
  match p bs with
  | inl e => inl e
  | inr (a, n) => if (n =? length bs)%nat then inr a else inl TrailingData
  end.

Definition enc_integer (v : Z) : option Octets := Some (enc_tlv tag.integer (enc_int32 v)).
Definition enc_octets (v : Octets) : option Octets := Some (enc_tlv tag.octetString v).

Definition enc_pdu (p : Pdu) : option Octets :=
  enc_tlv (pdu_tag (pdu_type p)) <$>
    Writer.seq_enc (enc_integer (requestId p)) (Writer.seq_enc (enc_integer (errorStatus p))
      (Writer.seq_enc (enc_integer (errorIndex p)) (enc_varbinds (varbinds p)))).

Definition enc_v2c (m : V2cMessage) : option Octets :=
  enc_tlv tag.sequence <$>
    Writer.seq_enc (enc_integer versionV2c)
      (Writer.seq_enc (enc_octets (v2c_community m)) (enc_pdu (v2c_pdu m))).

Lemma pdu_type_of_tag p : pdu_type_of (pdu_tag p) = Some p.
Proof. by destruct p. Qed.

Lemma isPduTag_spec t : isPduTag t = match pdu_type_of t with Some _ => true | None => false end.
Proof.
  unfold isPduTag, pdu_type_of, tag.getRequest, tag.getNextRequest, tag.getBulkRequest, tag.setRequest,
    tag.response, tag.report. cbn [list_find mbind option_bind pdu_tag].
  unfold tag.getRequest, tag.getNextRequest, tag.getBulkRequest, tag.setRequest, tag.response, tag.report.
  repeat match goal with
  | |- context [decide (?a = t)] => destruct (decide (a = t)) as [<-|?]; [done|]
  end. cbn.
  repeat match goal with
  | |- context [t =? ?a] => destruct (Z.eqb_spec t a); [congruence|]
  end. done.
Qed.

Lemma pdu_type_of_inv t p : pdu_type_of t = Some p -> t = pdu_tag p.
Proof.
  unfold pdu_type_of. destruct (list_find _ _) as [[i q]|] eqn:E; [|done]. cbn. intros [= <-].
  apply list_find_Some in E as (_ & ? & _). done.
Qed.

Lemma pdu_tag_constructed p : isConstructed (pdu_tag p) = true.
Proof. by destruct p. Qed.

Lemma pdu_tag_byte p : byte_ok (pdu_tag p).
Proof. by destruct p. Qed.

Lemma pdu_tag_low p : low_tag (pdu_tag p).
Proof. by destruct p. Qed.

(** ** Reads that go on after a failure

    A block of the source reads all its fields and tests them at the end; an error
    recorded by one makes the rest no-ops. *)

Lemma seq_reads {A B} (m : M Reader (option A)) p (k : option A -> M Reader (option B)) q :
  Reader.Reads m p -> (forall a, Reader.Runs (k (Some a)) (q a)) -> Reader.Sticky (k None) ->
  Reader.Reads (let! o := m in k o) (Reader.p_bind p q).
Proof.
  intros [Rm Sm] Rk Sk. split.
  - intros r Hi He. specialize (Rm r Hi He). unfold Reader.p_bind.
    destruct (p (Reader.view r)) as [e|[a n]].
    + destruct Rm as (Hne & pos & Hpos & E). rewrite (bind_done _ _ _ _ _ E).
      rewrite Sk by (by apply Reader.is_error_failed). eauto.
    + destruct Rm as [Hn E]. rewrite (bind_done _ _ _ _ _ E).
      pose proof (Reader.runs_moved _ _ r n (Rk a) Hi He Hn) as R.
      destruct (q a (drop n (Reader.view r))) as [e|[b k']]; done.
  - intros r He. rewrite (bind_done _ _ _ _ _ (Sm r He)). by apply Sk.
Qed.

Lemma seq_reads_then {A B} (m : M Reader (option A)) p (k : option A -> M Reader (option B)) q :
  Reader.Reads m p -> Reader.Sticky (k None) -> (forall a, Reader.Reads (k (Some a)) (q a)) ->
  Reader.Reads (let! o := m in k o) (Reader.p_bind p q).
Proof. intros Rm Sk Rk. apply seq_reads; [done|intros a; by destruct (Rk a)|done]. Qed.

Lemma drop_sticky {A B} (m : M Reader (option A)) (k : option A -> M Reader (option B)) :
  Reader.Sticky m -> Reader.Sticky (k None) -> Reader.Sticky (let! o := m in k o).
Proof. intros Sm Sk r He. rewrite (bind_done _ _ _ _ _ (Sm r He)). by apply Sk. Qed.

Lemma ret_none_sticky {A} : Reader.Sticky (@ret Reader (option A) None).
Proof. by intros r He. Qed.

#[export] Instance int32_reads : Reader.Reads (Reader.integer tag.integer) p_int32 :=
  Reader.integer_reads tag.integer.

(** A field whose value is dropped because an earlier one failed. *)
Ltac sticky_tac :=
  repeat (apply drop_sticky; [eapply Reader.reads_sticky|]; cbn beta iota); apply ret_none_sticky.

Lemma pdu_body_reads type :
  Reader.Reads
    (let! requestId := Reader.integer tag.integer in
     let! errorStatus := Reader.integer tag.integer in
     let! errorIndex := Reader.integer tag.integer in
     let! varbinds := Reader.varbindList in
     match requestId, errorStatus, errorIndex, varbinds with
     | Some requestId, Some errorStatus, Some errorIndex, Some varbinds =>
         ret (Some (mkPdu type requestId errorStatus errorIndex varbinds))
     | _, _, _, _ => ret None
     end) (p_pdu_body type).
Proof.
  do 3 (apply seq_reads_then; [apply _|sticky_tac|intros ?]).
  apply seq_reads; [apply _|intros vbs; apply Reader.ret_runs|sticky_tac].
Qed.

#[export] Instance decodePdu_reads : Reader.Reads decodePdu p_pdu.
Proof.
  split; [|intros r He; unfold decodePdu, bind at 1, get_st, Reader.ok; by rewrite He].
  intros r Hi He. unfold decodePdu. rewrite (bind_done _ _ r r r) by done.
  unfold Reader.ok. rewrite Reader.is_error_ok by done. cbn [negb].
  rewrite (bind_done _ _ _ _ _ (Reader.peekTag_view r Hi (Reader.is_error_ok r He))).
  unfold p_pdu. destruct (Reader.view r) as [|t rest] eqn:Hv; cbn [head]; rewrite <- ?Hv.
  { by apply (Reader.fail_runs Truncated). }
  rewrite isPduTag_spec. destruct (pdu_type_of t) as [type|] eqn:Ht; cbn [negb].
  - rewrite (bind_done _ _ r type r) by done. rewrite (pdu_type_of_inv _ _ Ht).
    apply (Reader.reads_runs (Reads := Reader.scoped_reads _ _ _ (pdu_tag_constructed type)
      (pdu_body_reads type))); done.
  - by apply (Reader.fail_runs UnexpectedPduType).
Qed.

(** ** Decoders with an error code of their own *)

(** A parser that may depend on where in the buffer its octets start. *)
Definition parser_at (A : Type) : Type := Z -> Reader.parser A.

Definition p_bind_at {A B} (p : Reader.parser A) (k : A -> parser_at B) : parser_at B := fun pos bs =>
  match p bs with
  | inl e => inl e
  | inr (a, n) =>
      match k a (pos + Z.of_nat n) (drop n bs) with
      | inl e => inl e
      | inr (b, m) => inr (b, (n + m)%nat)
      end
  end.

Definition p_scope_at {A} (expected : Z) (p : parser_at A) : parser_at A := fun pos bs =>
  match bs with
  | [] => inl UnexpectedTag
  | t :: _ =>
      if negb (t =? expected) then inl UnexpectedTag
      else match Reader.p_header bs with
           | inl e => inl e
           | inr (h, n) =>
               match p (pos + Z.of_nat n) (take (Z.to_nat (Reader.h_length h)) (drop n bs)) with
               | inl e => inl e
               | inr (a, k) =>
                   if (k =? Z.to_nat (Reader.h_length h))%nat
                   then inr (a, (n + Z.to_nat (Reader.h_length h))%nat) else inl TrailingData
               end
           end
  end.

(** [m] gives what [p] gives, and its [ec] is the error of [p]. *)
Definition RunsE {A} (m : M Reader (ErrorCode + A)) (p : parser_at A) : Prop :=
  forall r, Reader.inv r -> r_ec r = no_error ->
  match p (r_pos r) (Reader.view r) with
  | inr (a, n) => (n <= length (Reader.view r))%nat /\ m r = Done (inr a) (Reader.moved r n)
  | inl e => e <> Ok /\ exists r', m r = Done (inl (make_error_code e)) r'
  end.

(** On a Reader that has already failed, [m] reports that failure. *)
Definition StickyE {A} (m : M Reader (ErrorCode + A)) : Prop :=
  forall r, is_error (r_ec r) = true -> exists r', m r = Done (inl (r_ec r)) r'.

Lemma seqE {A B} (m : M Reader (option A)) p (k : option A -> M Reader (ErrorCode + B)) q :
  Reader.Reads m p -> StickyE (k None) -> (forall a, RunsE (k (Some a)) (q a)) ->
  RunsE (let! o := m in k o) (p_bind_at p q).
Proof.
  intros [Rm Sm] Sk Rk r Hi He. specialize (Rm r Hi He). unfold p_bind_at.
  destruct (p (Reader.view r)) as [e|[a n]].
  - destruct Rm as (Hne & pos & Hpos & E). rewrite (bind_done _ _ _ _ _ E). split; [done|].
    apply (Sk (Reader.failed_at r e pos)). by apply Reader.is_error_failed.
  - destruct Rm as [Hn E]. rewrite (bind_done _ _ _ _ _ E).
    specialize (Rk a (Reader.moved r n) (Reader.inv_moved r n Hi Hn) He).
    rewrite Reader.view_moved in Rk by done. cbn [r_pos Reader.moved] in Rk.
    destruct (q a _ (drop n (Reader.view r))) as [e|[b k']]; [done|]. destruct Rk as [Hk ->]. rewrite length_drop in Hk. rewrite Reader.moved_moved. split; [lia|done].
Qed.

Lemma seqE_sticky {A B} (m : M Reader (option A)) (k : option A -> M Reader (ErrorCode + B)) :
  Reader.Sticky m -> StickyE (k None) -> StickyE (let! o := m in k o).
Proof. intros Sm Sk r He. rewrite (bind_done _ _ _ _ _ (Sm r He)). by apply Sk. Qed.

Lemma reader_error_sticky {A} : StickyE (@reader_error A).
Proof. intros r He. by eexists. Qed.

Lemma retE {A} (a : A) : RunsE (ret (inr a)) (fun _ => Reader.p_ret a).
Proof. intros r Hi He. cbn. rewrite Reader.moved_0. split; [lia|done]. Qed.

Lemma failE {A} e : e <> Ok -> RunsE (ret (inl (make_error_code e))) (fun _ => @Reader.p_fail A e).
Proof. intros Hne r Hi He. split; [done|]. by eexists. Qed.

Ltac stickyE_tac :=
  repeat (apply seqE_sticky; [eapply Reader.reads_sticky|]; cbn beta iota); apply reader_error_sticky.

(** The state in which a block that was entered is left. *)
Lemma in_scope_E {A} t (m : M Reader (ErrorCode + A)) p r : isConstructed t = true ->
  RunsE m p -> StickyE m -> Reader.inv r -> r_ec r = no_error ->
  match p_scope_at t p (r_pos r) (Reader.view r) with
  | inr (a, n) => (n <= length (Reader.view r))%nat /\
      Reader.in_scope t m r = Done (inr a) (Reader.moved r n)
  | inl e => e <> Ok /\ exists r', (exists ec, Reader.in_scope t m r = Done (inl ec) r' /\ ec = make_error_code e) \/
      (exists a, Reader.in_scope t m r = Done (inr a) r' /\ r_ec r' = make_error_code e)
  end.
Proof.
  intros Ht Rm Sm Hi He. pose proof (Reader.enter_run t r Hi He Ht) as Hen.
  pose proof (Reader.view_ok r Hi) as Hok. assert (forall e pos, e <> Ok ->
    Reader.enter t r = Done (r_end r, pos) (Reader.failed_at r e pos) ->
    exists r', Reader.in_scope t m r = Done (inl (make_error_code e)) r') as Hfail.
  { intros e pos Hne E. destruct (Sm _ (Reader.is_error_failed r e pos Hne)) as [r' Em].
    unfold Reader.in_scope, bind. rewrite E, Em. cbn [fst snd].
    destruct (Reader.scope_close_total (r_end r) pos r') as [r'' ->]. by eexists. }
  unfold p_scope_at. destruct (Reader.view r) as [|t' rest] eqn:Hv; cbn [head] in Hen; [naive_solver|].
  destruct (negb (t' =? t)); [naive_solver|].
  destruct (Reader.p_header (t' :: rest)) as [e|[h n]] eqn:Hh; [naive_solver|].
  destruct (Reader.p_header_len _ _ _ Hh Hok) as (Hl0 & Hl & _).
  set (k := Z.to_nat (Reader.h_length h)) in *.
  assert (Reader.h_length h = Z.of_nat k) as Ek by lia. rewrite Ek in Hen.
  rewrite <- Hv in *. destruct (Reader.entered_view r n k Hi Hl) as [Hi1 Hv1].
  set (r1 := Reader.entered r n (Z.of_nat k)) in *.
  specialize (Rm r1 Hi1 He). rewrite Hv1 in Rm. unfold Reader.in_scope, bind. rewrite Hen. cbn [fst snd].
  cbn [r_pos Reader.entered r1] in Rm. destruct (p _ (take k (drop n (Reader.view r)))) as [e|[a j]].
  - destruct Rm as (Hne & r' & ->). split; [done|].
    destruct (Reader.scope_close_total (r_end r) (r_pos r + Z.of_nat n + Z.of_nat k) r') as [r'' ->].
    exists r''. left. by eexists.
  - destruct Rm as [Hj ->]. destruct (Nat.eqb_spec j k) as [->|Hne].
    + rewrite Reader.scope_close_ok by done. split; [lia|]. unfold ret, Reader.moved. rewrite He.
      f_equal. f_equal. lia.
    + rewrite Reader.scope_close_trailing by (done || cbn; lia). split; [done|]. eexists. right. by eexists.
Qed.

(** A whole message: one block, then [finish]. *)
Lemma whole_message {A T} t (m : M Reader (ErrorCode + A)) p bs (s : T) : isConstructed t = true ->
  RunsE m p -> StickyE m -> octets_ok bs -> zlen bs < 2 ^ 63 ->
  run_local (Reader.new bs)
    (let+ msg := Reader.in_scope t m in
     let! all := Reader.finish in
     if negb all then reader_error else ret (inr msg))
    (fun result _ => ret result) s =
  Done (match dec_whole (p_scope_at t p 0) bs with
        | inl e => inl (make_error_code e)
        | inr a => inr a
        end) s.
Proof.
  intros Ht Rm Sm Ho Hl. destruct (Reader.new_good bs Ho Hl) as [Hi _].
  pose proof (in_scope_E t m p (Reader.new bs) Ht Rm Sm Hi eq_refl) as R. rewrite Reader.view_new in R.
  unfold dec_whole, run_local, bind_sum, bind.
  cbn [r_pos Reader.new] in R. destruct (p_scope_at t p 0 bs) as [e|[a n]].
  - destruct R as (Hne & r' & [(ec & -> & ->)|(a & -> & Hec)]); [done|].
    unfold Reader.finish, bind, get_st. assert (is_error (r_ec r') = true) as ->.
    { rewrite Hec. by apply is_error_make_error_code. }
    cbn. by rewrite Hec.
  - destruct R as [Hn ->]. unfold Reader.finish, bind, get_st. cbn [r_ec r_pos r_end Reader.moved Reader.new].
    rewrite Reader.no_error_ok. destruct (Nat.eqb_spec n (length bs)) as [->|Hne].
    + by rewrite Z.eqb_refl.
    + destruct (Z.eqb_spec (0 + Z.of_nat n) (zlen bs)); [lia|]. done.
Qed.

Lemma whole_error {A} t (m : M Reader (ErrorCode + A)) p bs : isConstructed t = true ->
  RunsE m p -> StickyE m -> octets_ok bs -> zlen bs < 2 ^ 63 -> dec_whole (p_scope_at t p 0) bs <> inl Ok.
Proof.
  intros Ht Rm Sm Ho Hl. destruct (Reader.new_good bs Ho Hl) as [Hi _].
  pose proof (in_scope_E t m p (Reader.new bs) Ht Rm Sm Hi eq_refl) as R. rewrite Reader.view_new in R.
  cbn [r_pos Reader.new] in R. unfold dec_whole.
  destruct (p_scope_at t p 0 bs) as [e|[a n]]; [destruct R as [Hne _]; congruence|]. by destruct (_ =? _)%nat.
Qed.

(** A block in the middle of another, tested with [if (!r.ok())] after it closes. *)
Lemma inner_scopeE {A B} t (m : M Reader (ErrorCode + A)) p (k : A -> M Reader (ErrorCode + B)) q :
  isConstructed t = true -> RunsE m (fun _ => p) -> StickyE m -> (forall a, RunsE (k a) (q a)) ->
  RunsE (let+ a := Reader.in_scope t m in
         let! r := get_st in
         if negb (Reader.ok r) then reader_error else k a)
        (p_bind_at (Reader.p_scope t p) q).
Proof.
  intros Ht Rm Sm Rk r Hi He. pose proof (in_scope_E t m (fun _ => p) r Ht Rm Sm Hi He) as R.
  change (p_scope_at t (fun _ => p) (r_pos r)) with (Reader.p_scope t p) in R.
  unfold p_bind_at. destruct (Reader.p_scope t p (Reader.view r)) as [e|[a n]].
  - destruct R as (Hne & r' & [(ec & E & ->)|(a & E & Hec)]); (split; [done|]);
      [rewrite (bind_sum_inl _ _ _ _ _ E); by eexists|rewrite (bind_sum_inr _ _ _ _ _ E)].
    unfold bind, get_st, Reader.ok. rewrite Hec, (proj2 (is_error_make_error_code e) Hne). cbn. exists r'.
    unfold reader_error, gets. by rewrite Hec.
  - destruct R as [Hn E]. specialize (Rk a (Reader.moved r n) (Reader.inv_moved r n Hi Hn) He).
    rewrite Reader.view_moved in Rk by done. cbn [r_pos Reader.moved] in Rk.
    assert ((let+ a := Reader.in_scope t m in
         let! r := get_st in
         if negb (Reader.ok r) then reader_error else k a) r = k a (Reader.moved r n)) as Ek.
    { rewrite (bind_sum_inr _ _ _ _ _ E). unfold bind, get_st, Reader.ok. cbn [r_ec Reader.moved].
      by rewrite He, Reader.no_error_ok. }
    destruct (q a _ (drop n (Reader.view r))) as [e|[b k']].
    + by rewrite <- Ek in Rk.
    + rewrite <- Ek, Reader.moved_moved, length_drop in Rk. destruct Rk as [Hk Er]. split; [lia|exact Er].
Qed.

Lemma v2c_body_runs :
  let m := (let! version := Reader.integer tag.integer in
       let! community := Reader.octetString tag.octetString in
       match version, community with
       | Some version, Some community =>
           if negb (version =? versionV2c) then ret (inl (make_error_code BadVersion))
           else
             let! pdu := decodePdu in
             match pdu with
             | None => reader_error
             | Some pdu => ret (inr (mkV2cMessage community pdu))
             end
       | _, _ => reader_error
       end) in
  RunsE m (fun _ => Reader.p_bind p_int32 (fun version =>
    Reader.p_bind (Reader.p_prim tag.octetString) (fun community =>
      if negb (version =? versionV2c) then Reader.p_fail BadVersion
      else Reader.p_map (mkV2cMessage community) p_pdu))) /\ StickyE m.
Proof.
  split; [|stickyE_tac]. apply (seqE _ p_int32 _ (fun version _ => _)); [apply _|stickyE_tac|]. intros version.
  apply (seqE _ _ _ (fun community _ => _)); [apply _|stickyE_tac|]. intros community.
  destruct (negb (version =? versionV2c)); [by apply failE|].
  apply (seqE _ _ _ (fun pdu _ => _)); [apply _|stickyE_tac|]. intros pdu. apply retE.
Qed.

(** ** Encoding *)

#[export] Instance encodePdu_good p : Writer.GoodWrite (encodePdu p).
Proof. apply Writer.in_scope_good; [apply pdu_tag_constructed|apply _]. Qed.

Lemma encodePdu_refines p : pdu_ok p -> Writer.Refines (encodePdu p) (enc_pdu p).
Proof.
  intros (H1 & H2 & H3 & H4). apply Writer.in_scope_refines; [apply pdu_tag_constructed|apply _|].
  do 3 (apply Writer.bind_refines; [apply _|apply Writer.integer_refines|]).
  by apply Writer.varbindList_refines.
Qed.

Lemma v2c_refines c p : pdu_ok p ->
  Writer.Refines (Writer.in_sequence (Writer.integer versionV2c tag.integer ;;;
    Writer.octetString c tag.octetString ;;; encodePdu p)) (enc_v2c (mkV2cMessage c p)).
Proof.
  intros Hp. apply Writer.in_sequence_refines; [apply _|].
  apply Writer.bind_refines; [apply _|apply Writer.integer_refines|].
  apply Writer.bind_refines; [apply _|apply Writer.octetString_refines|]. by apply encodePdu_refines.
Qed.

(** A local Writer whose contents are taken at the end. *)
Lemma local_writer {T A} m ref (k : ErrorCode + Octets -> M T A) (t : T) : Writer.Refines m ref ->
  match ref with
  | Some bs => zlen bs < 2 ^ 64 -> run_local Writer.new m
      (fun _ w => if is_error (w_ec w) then k (inl (w_ec w)) else k (inr (w_buf w))) t = k (inr bs) t
  | None => run_local Writer.new m
      (fun _ w => if is_error (w_ec w) then k (inl (w_ec w)) else k (inr (w_buf w))) t =
        k (inl (make_error_code OidNotEncodable)) t
  end.
Proof.
  intros R. destruct (R Writer.new eq_refl) as (w & E & H). rewrite (run_local_done _ _ _ _ _ _ E).
  destruct ref as [bs|].
  - destruct H as [-> Hb]. cbn in *. intros Hl. by rewrite Hb.
  - by rewrite H.
Qed.

(** ** Round trips *)

Lemma seq_enc_inv r1 r2 bs : Writer.seq_enc r1 r2 = Some bs ->
  exists b1 b2, r1 = Some b1 /\ r2 = Some b2 /\ bs = b1 ++ b2.
Proof. apply Writer.seq_enc_Some. Qed.

(** Whatever is decoded has names and values that can be encoded again. *)
#[export] Instance pdu_well_formed : WellFormed p_pdu (fun p => Forall varbind_wire_ok (varbinds p)).
Proof.
  intros bs p n Hok. unfold p_pdu. destruct bs as [|t bs]; [done|]. destruct (pdu_type_of t); [|done].
  intros (c & Hc & H)%p_scope_inv; [|done]. unfold p_pdu_body in H.
  apply p_bind_inv in H as (id & i1 & j1 & _ & H & _). apply p_bind_inv in H as (st & i2 & j2 & _ & H & _).
  apply p_bind_inv in H as (ix & i3 & j3 & _ & H & _). apply p_map_inv in H as (vs & H & ->).
  eapply varbinds_well_formed; [|exact H]. eauto with snmp.
Qed.

Lemma dec_v2c_varbinds bs msg : dec_whole p_v2c bs = inr msg -> octets_ok bs ->
  Forall varbind_wire_ok (varbinds (v2c_pdu msg)).
Proof.
  unfold dec_whole. destruct (p_v2c bs) as [|[x n]] eqn:E; [done|]. destruct (_ =? _)%nat; [|done]. intros [= ->] Ho.
  apply p_scope_inv in E as (c & Hc & H); [|done].
  apply p_bind_inv in H as (v & i1 & j1 & _ & H & _). apply p_bind_inv in H as (co & i2 & j2 & _ & H & _).
  destruct (negb _); [done|]. apply p_map_inv in H as (p & H & ->). eapply pdu_well_formed; [|exact H]. eauto with snmp.
Qed.

#[export] Instance int32_codec : Codec p_int32 enc_integer int32_ok.
Proof.
  intros v bs rest Hv [= <-] Hl. apply p_content_enc; [done..|]. by apply dec_int32_enc.
Qed.

#[export] Instance octets_codec : Codec (Reader.p_prim tag.octetString) enc_octets octets_ok.
Proof.
  intros v bs rest Hv [= <-] Hl. apply p_prim_enc; [done..|]. by eapply enc_tlv_content_short.
Qed.

(** One field of a structure, then the rest of it. *)
Lemma codec_field {A B} (p : Reader.parser A) enc ok (q : A -> Reader.parser B) a b b1 b2 :
  Codec p enc ok -> ok a -> enc a = Some b1 -> zlen (b1 ++ b2) < 2 ^ 32 ->
  (zlen b2 < 2 ^ 32 -> forall rest, q a (b2 ++ rest) = inr (b, length b2)) ->
  forall rest, Reader.p_bind p q ((b1 ++ b2) ++ rest) = inr (b, length (b1 ++ b2)).
Proof.
  intros C Ha He Hl Hq rest. rewrite zlen_app in Hl.
  apply p_bind_enc with (a := a); [intros rest'; apply (C _ _ _ Ha He); lia|apply Hq; lia].
Qed.

Lemma codec_last {A B} (p : Reader.parser A) enc ok (f : A -> B) a bs : Codec p enc ok -> ok a ->
  enc a = Some bs -> zlen bs < 2 ^ 32 ->
  forall rest, Reader.p_map f p (bs ++ rest) = inr (f a, length bs).
Proof. intros C Ha He Hl rest. apply p_map_enc_app. by apply (C _ _ _ Ha He). Qed.

Lemma scope_codec {A} t (p : Reader.parser A) c a : low_tag t -> zlen (enc_tlv t c) < 2 ^ 32 ->
  (zlen c < 2 ^ 32 -> forall rest, p (c ++ rest) = inr (a, length c)) ->
  forall rest, Reader.p_scope t p (enc_tlv t c ++ rest) = inr (a, length (enc_tlv t c)).
Proof.
  intros Ht Hl Hp rest. apply p_scope_enc; [done..|]. rewrite <- (app_nil_r c) at 1. apply Hp.
  by eapply enc_tlv_content_short.
Qed.

#[export] Instance pdu_codec : Codec p_pdu enc_pdu pdu_ok.
Proof.
  intros p bs rest (H1 & H2 & H3 & H4) He Hl. unfold enc_pdu in He.
  destruct (Writer.seq_enc _ _) as [c|] eqn:Ec; [|done]. injection He as <-.
  apply seq_enc_inv in Ec as (b1 & c1 & E1 & Ec & ->).
  apply seq_enc_inv in Ec as (b2 & c2 & E2 & Ec & ->).
  apply seq_enc_inv in Ec as (b3 & c3 & E3 & E4 & ->).
  unfold p_pdu. cbn [enc_tlv app]. rewrite pdu_type_of_tag.
  apply scope_codec; [apply pdu_tag_low|done|]. clear Hl. intros Hl.
  eapply codec_field; [apply _|exact H1|done|done|]. clear Hl. intros Hl.
  eapply codec_field; [apply _|exact H2|done|done|]. clear Hl. intros Hl.
  eapply codec_field; [apply _|exact H3|done|done|]. clear Hl. intros Hl rest'.
  rewrite (codec_last _ _ _ (mkPdu _ _ _ _) _ _ varbinds_codec H4 E4 Hl). by destruct p.
Qed.

#[export] Instance v2c_codec : Codec p_v2c enc_v2c (fun m => octets_ok (v2c_community m) /\ pdu_ok (v2c_pdu m)).
Proof.
  intros m bs rest (H1 & H2) He Hl. unfold enc_v2c in He.
  destruct (Writer.seq_enc _ _) as [c|] eqn:Ec; [|done]. injection He as <-.
  apply seq_enc_inv in Ec as (b1 & c1 & E1 & Ec & ->).
  apply seq_enc_inv in Ec as (b2 & c2 & E2 & E3 & ->).
  apply scope_codec; [done..|]. clear Hl. intros Hl.
  eapply codec_field; [apply int32_codec|by instantiate (1 := versionV2c)|done|done|]. clear Hl. intros Hl.
  eapply codec_field; [apply octets_codec|exact H1|done|done|]. clear Hl. intros Hl rest'.
  change (negb (versionV2c =? versionV2c)) with false. cbv iota.
  rewrite (codec_last _ _ _ (mkV2cMessage _) _ _ pdu_codec H2 E3 Hl). by destruct m.
Qed.

(** The octets a message encodes to. *)
Definition EncodesOctets {A} (enc : A -> option Octets) (ok : A -> Prop) : Prop :=
  forall a bs, ok a -> enc a = Some bs -> zlen bs < 2 ^ 32 -> octets_ok bs.

Lemma enc_integer_octets : EncodesOctets enc_integer int32_ok.
Proof. intros v bs _ [= <-] Hl. apply enc_tlv_ok'; [done|apply enc_int32_ok|done]. Qed.

Lemma enc_octets_octets : EncodesOctets enc_octets octets_ok.
Proof. intros v bs Hv [= <-] Hl. by apply enc_tlv_ok'. Qed.

Lemma seq_enc_octets r1 r2 bs : Writer.seq_enc r1 r2 = Some bs -> zlen bs < 2 ^ 32 ->
  (forall b, r1 = Some b -> zlen b < 2 ^ 32 -> octets_ok b) ->
  (forall b, r2 = Some b -> zlen b < 2 ^ 32 -> octets_ok b) -> octets_ok bs.
Proof.
  intros (b1 & b2 & E1 & E2 & ->)%seq_enc_inv Hl H1 H2. rewrite zlen_app in Hl.
  apply octets_ok_app. split; [apply H1|apply H2]; done || lia.
Qed.

Lemma tlv_octets t r bs : byte_ok t -> enc_tlv t <$> r = Some bs -> zlen bs < 2 ^ 32 ->
  (forall b, r = Some b -> zlen b < 2 ^ 32 -> octets_ok b) -> octets_ok bs.
Proof.
  destruct r as [c|]; [|done]. intros Ht [= <-] Hl H. apply enc_tlv_ok'; [done| |done].
  apply H; [done|]. by eapply enc_tlv_content_short.
Qed.

Lemma enc_pdu_octets : EncodesOctets enc_pdu pdu_ok.
Proof.
  intros p bs (H1 & H2 & H3 & H4) He Hl. eapply tlv_octets; [|exact He|done|].
  { apply pdu_tag_byte. }
  clear He Hl. intros b He Hl. eapply seq_enc_octets; [exact He|done| |]; clear He Hl; intros c He Hl.
  { eapply enc_integer_octets; [|exact He|done]. done. }
  eapply seq_enc_octets; [exact He|done| |]; clear He Hl; intros d He Hl.
  { eapply enc_integer_octets; [|exact He|done]. done. }
  eapply seq_enc_octets; [exact He|done| |]; clear He Hl; intros e He Hl.
  { eapply enc_integer_octets; [|exact He|done]. done. }
  by eapply enc_varbinds_ok.
Qed.

Lemma enc_v2c_octets : EncodesOctets enc_v2c (fun m => octets_ok (v2c_community m) /\ pdu_ok (v2c_pdu m)).
Proof.
  intros m bs (H1 & H2) He Hl. eapply tlv_octets; [|exact He|done|]; [done|].
  clear He Hl. intros b He Hl. eapply seq_enc_octets; [exact He|done| |]; clear He Hl; intros c He Hl.
  { by eapply (enc_integer_octets versionV2c). }
  eapply seq_enc_octets; [exact He|done| |]; clear He Hl; intros d He Hl.
  { by eapply enc_octets_octets. }
  by eapply enc_pdu_octets.
Qed.

Lemma decodeV2cMessage_spec {T} bs (s : T) : octets_ok bs -> zlen bs < 2 ^ 63 ->
  decodeV2cMessage bs s =
    Done (match dec_whole p_v2c bs with inl e => inl (make_error_code e) | inr m => inr m end) s.
Proof.
  intros Ho Hl. destruct v2c_body_runs as [R S].
  exact (whole_message tag.sequence _ _ bs s eq_refl R S Ho Hl).
Qed.

Lemma codec_whole {A} (p : Reader.parser A) enc ok a bs : Codec p enc ok -> ok a -> enc a = Some bs ->
  zlen bs < 2 ^ 32 -> dec_whole p bs = inr a.
Proof.
  intros C Ha He Hl. unfold dec_whole. pose proof (C a bs [] Ha He Hl) as E. rewrite app_nil_r in E.
  by rewrite E, Nat.eqb_refl.
Qed.

(** [messageVersion] looks at the first field only. *)
Lemma messageVersion_spec {T} bs (s : T) : octets_ok bs -> zlen bs < 2 ^ 63 ->
  exists v, messageVersion bs s = Done v s /\
    match Reader.p_header bs with
    | inr (h, n) =>
        Reader.h_tag h = tag.sequence ->
        v = match p_int32 (take (Z.to_nat (Reader.h_length h)) (drop n bs)) with
            | inr (v, _) => Some v
            | inl _ => None
            end
    | inl _ => v = None
    end.
Proof.
  intros Ho Hl. destruct (Reader.new_good bs Ho Hl) as [Hi Hg].
  pose proof (Reader.enter_run tag.sequence (Reader.new bs) Hi eq_refl eq_refl) as Hen.
  rewrite Reader.view_new in Hen. unfold messageVersion, run_local, Reader.in_scope, bind.
  destruct (Reader.p_header bs) as [e|[h n]] eqn:Hh.
  - assert (exists e' pos, e' <> Ok /\ Reader.enter tag.sequence (Reader.new bs) =
      Done (zlen bs, pos) (Reader.failed_at (Reader.new bs) e' pos)) as (e' & pos & Hne & ->).
    { destruct (head bs) as [t'|]; [destruct (negb _)|]; destruct Hen as (? & pos & _ & ?); eauto. }
    rewrite (Reader.reads_sticky _ (Reader.is_error_failed (Reader.new bs) e' pos Hne)). cbn [fst snd].
    destruct (Reader.scope_close_total (zlen bs) pos (Reader.failed_at (Reader.new bs) e' pos)) as [r' ->].
    by eexists.
  - destruct bs as [|t' rest]; [done|]. cbn [head] in Hen.
    destruct (Z.eqb_spec t' tag.sequence) as [->|Hne]; cbn [negb] in Hen.
    + destruct (Reader.p_header_len _ _ _ Hh Ho) as (Hl0 & Hlen & _). rewrite Hen. cbn [fst snd].
      rewrite <- (Reader.view_new (tag.sequence :: rest)) in Hlen.
      destruct (Reader.entered_view _ _ _ Hi Hlen) as [Hi1 Hv1]. rewrite Z2Nat.id in Hi1, Hv1 by done.
      pose proof (Reader.reads_runs (Reads := int32_reads) _ Hi1 eq_refl) as R. rewrite Hv1, Reader.view_new in R.
      destruct (p_int32 _) as [e|[v k]]; [destruct R as (_ & ? & _ & ->)|destruct R as [_ ->]];
      match goal with |- context [Reader.scope_close ?a ?b ?r] =>
        destruct (Reader.scope_close_total a b r) as [r' ->] end; by eexists.
    + destruct Hen as (Hne' & pos & _ & ->).
      rewrite (Reader.reads_sticky _ (Reader.is_error_failed _ _ pos Hne')). cbn [fst snd].
      match goal with |- context [Reader.scope_close ?a ?b ?r] =>
        destruct (Reader.scope_close_total a b r) as [r' ->] end.
      eexists. split; [done|]. intros Ht. exfalso. apply Hne. revert Hh. unfold Reader.p_header.
      destruct rest as [|f rest]; [done|]. destruct (_ =? _); [done|].
      destruct (Reader.p_length f rest) as [|[len k]]; [done|]. destruct (_ <? _); [done|].
      intros [= <- _]. done.
Qed.

(** The version field of a message that a decoder accepts. *)
Lemma messageVersion_first {T A} (k : Z -> Reader.parser A) bs a n (s : T) :
  octets_ok bs -> zlen bs < 2 ^ 63 ->
  Reader.p_scope tag.sequence (Reader.p_bind p_int32 k) bs = inr (a, n) ->
  exists v rest m, messageVersion bs s = Done (Some v) s /\ k v rest = inr (a, m).
Proof.
  intros Ho Hl H. destruct (messageVersion_spec bs s Ho Hl) as (v & E & Hv).
  unfold Reader.p_scope in H. destruct bs as [|t bs]; [done|].
  destruct (Z.eqb_spec t tag.sequence) as [->|]; [|done]. cbn [negb] in H.
  destruct (Reader.p_header (tag.sequence :: bs)) as [|[h j]] eqn:Hh; [done|].
  destruct (Reader.p_bind p_int32 k (take _ _)) as [|[a' i]] eqn:Hb; [done|].
  apply p_bind_inv in Hb as (x & i1 & i2 & Hx & Hk & _). rewrite Hx in Hv.
  destruct (_ =? _)%nat; [|done]. injection H as <- _. rewrite Hv in E.
  - eauto 10.
  - revert Hh. unfold Reader.p_header. destruct bs as [|f bs]; [done|]. destruct (_ =? _); [done|].
    destruct (Reader.p_length f bs) as [|[len q]]; [done|]. destruct (_ <? _); [done|]. by intros [= <- _].
Qed.

Lemma v2c_version {T} bs msg (s : T) : octets_ok bs -> zlen bs < 2 ^ 63 -> dec_whole p_v2c bs = inr msg ->
  messageVersion bs s = Done (Some versionV2c) s.
Proof.
  intros Ho Hl. unfold dec_whole. destruct (p_v2c bs) as [|[m n]] eqn:E; [done|]. intros _.
  destruct (messageVersion_first _ _ _ _ s Ho Hl E) as (v & rest & k & -> & Hk).
  apply p_bind_inv in Hk as (c & i & j & _ & Hk & _). by destruct (Z.eqb_spec v versionV2c) as [->|].
Qed.

(** ** Properties *)

(** An SNMPv2c message survives the wire: any community and any PDU whose Oids
    are encodable is encoded, and the octets decode to that community and that
    PDU, with nothing left over; and [messageVersion] sees version 1 in them. *)
Theorem v2c_roundtrip {T} c p bs (s : T) :
  octets_ok c -> pdu_ok p -> enc_v2c (mkV2cMessage c p) = Some bs -> zlen bs < 2 ^ 32 ->
  encodeV2cMessage c p s = Done (inr bs) s /\
  decodeV2cMessage bs s = Done (inr (mkV2cMessage c p)) s /\
  messageVersion bs s = Done (Some versionV2c) s.
Proof.
  intros Hc Hp He Hl. assert (octets_ok bs) as Ho by (by eapply (enc_v2c_octets (mkV2cMessage c p))).
  split; [|split].
  - pose proof (local_writer _ _ ret s (v2c_refines c p Hp)) as R. rewrite He in R. apply R. lia.
  - rewrite decodeV2cMessage_spec by (done || lia). 
    by rewrite (codec_whole _ _ _ (mkV2cMessage c p) _ v2c_codec (conj Hc Hp) He Hl).
  - apply (v2c_version _ (mkV2cMessage c p)); [done|lia|]. exact (codec_whole _ _ _ (mkV2cMessage c p) _ v2c_codec (conj Hc Hp) He Hl).
Qed.

Lemma v2c_roundtrip_witness :
  let p := mkPdu GetBulk 7 0 25 [mkVarbind [1; 3; 6; 1; 2; 1; 2] ValNull] in
  let bs := [48; 36; 2; 1; 1; 4; 6; 112; 117; 98; 108; 105; 99; 165; 23; 2; 1; 7; 2; 1; 0; 2; 1; 25;
             48; 12; 48; 10; 6; 6; 43; 6; 1; 2; 1; 2; 5; 0] in
  encodeV2cMessage (str "public") p tt = Done (inr bs) tt /\
  decodeV2cMessage bs tt = Done (inr (mkV2cMessage (str "public") p)) tt /\
  messageVersion bs tt = Done (Some versionV2c) tt.
Proof.
  apply (v2c_roundtrip (str "public") (mkPdu GetBulk 7 0 25 [mkVarbind [1; 3; 6; 1; 2; 1; 2] ValNull]));
    [apply (bool_decide_unpack _); vm_compute; exact I| |vm_compute; reflexivity..].
  split; [|split; [|split]]; try (apply (bool_decide_unpack _); vm_compute; exact I).
  apply Forall_singleton. split; [apply (bool_decide_unpack _); vm_compute; exact I|exact I].
Defined.

(** The SNMPv2c decoder returns on every datagram, and accepts exactly those
    that are one SEQUENCE of version 1, a community and one PDU with nothing left
    over at any level; otherwise its error code is that of the first rule broken,
    never success. *)
Theorem decodeV2cMessage_total {T} bs (s : T) :
  octets_ok bs -> zlen bs < 2 ^ 63 ->
  match dec_whole p_v2c bs with
  | inl e => decodeV2cMessage bs s = Done (inl (make_error_code e)) s
  | inr m => decodeV2cMessage bs s = Done (inr m) s /\ messageVersion bs s = Done (Some versionV2c) s
  end.
Proof.
  intros Ho Hl. rewrite decodeV2cMessage_spec by done. unfold dec_whole.
  destruct (p_v2c bs) as [e|[m n]] eqn:E; [done|]. destruct (n =? length bs)%nat; [|done]. split; [done|].
  destruct (messageVersion_first _ _ _ _ s Ho Hl E) as (v & rest & j & -> & Hk).
  apply p_bind_inv in Hk as (c' & i & k & _ & Hk & _).
  by destruct (Z.eqb_spec v versionV2c) as [->|].
Qed.

Lemma decodeV2cMessage_total_witness :
  decodeV2cMessage [48; 3; 2; 1; 3] tt = Done (inl (make_error_code Truncated)) tt.
Proof.
  apply (decodeV2cMessage_total [48; 3; 2; 1; 3] tt); [|vm_compute; reflexivity].
  apply (bool_decide_unpack _). vm_compute. exact I.
Defined.

(** Encoding an SNMPv2c message can fail in one way only: with
    [OidNotEncodable], when a Varbind names or carries an Oid BER cannot express.
    No partial message is returned. *)
Theorem encodeV2cMessage_error {T} c p ec (s : T) :
  pdu_ok p -> encodeV2cMessage c p s = Done (inl ec) s ->
  ec = make_error_code OidNotEncodable /\
  exists vb, In vb (varbinds p) /\
    (Oids.isEncodable (vb_name vb) = false \/
     exists o, vb_val vb = ValOid o /\ Oids.isEncodable o = false).
Proof.
  intros Hp E. pose proof (local_writer _ _ ret s (v2c_refines c p Hp)) as R.
  unfold encodeV2cMessage in E. destruct (enc_v2c (mkV2cMessage c p)) as [bs|] eqn:Ev.
  - destruct (v2c_refines c p Hp Writer.new eq_refl) as (w & Ew & H). rewrite Ev in H.
    rewrite (run_local_done _ _ _ _ _ _ Ew) in E. destruct H as [H _]. rewrite H in E. done.
  - rewrite R in E. injection E as <-. split; [done|].
    assert (enc_varbinds (varbinds p) = None) as Hn.
    { destruct (enc_varbinds (varbinds p)) eqn:En; [|done]. exfalso. revert Ev.
      unfold enc_v2c, enc_pdu. cbn [v2c_pdu]. by rewrite En. }
    unfold enc_varbinds in Hn. destruct (mapM enc_varbind (varbinds p)) eqn:Em; [done|].
    apply mapM_None_1 in Em. apply Exists_exists in Em as (vb & Hin & Evb). exists vb. split; [done|].
    unfold enc_varbind, enc_oid in Evb. destruct (Oids.isEncodable (vb_name vb)); [|by left]. right.
    destruct (vb_val vb) as [| | |o| | | | | | |]; try done. exists o. split; [done|].
    cbn in Evb. unfold enc_oid in Evb. by destruct (Oids.isEncodable o).
Qed.

Lemma encodeV2cMessage_error_witness :
  make_error_code OidNotEncodable = make_error_code OidNotEncodable /\
  exists vb, In vb [mkVarbind [1; 3; 6] ValNull; mkVarbind [1; 40] ValNull] /\
    (Oids.isEncodable (vb_name vb) = false \/
     exists o, vb_val vb = ValOid o /\ Oids.isEncodable o = false).
Proof.
  apply (encodeV2cMessage_error (str "x")
    (mkPdu Get 1 0 0 [mkVarbind [1; 3; 6] ValNull; mkVarbind [1; 40] ValNull]) _ tt);
    [|vm_compute; reflexivity].
  split; [|split; [|split]]; try (apply (bool_decide_unpack _); vm_compute; exact I).
  apply Forall_cons_2; [|apply Forall_singleton];
    (split; [apply (bool_decide_unpack _); vm_compute; exact I|exact I]).
Defined.
