(* ===== verification/Usm.v ===== *)
(** * Usm: keys, digests and privacy of the User-based Security Model

    Models [include/snmpio/Usm.hpp] and [src/Usm.cpp].  OpenSSL is the record
    [OpenSSL] of the calls the code makes, each of which may fail; [OpenSSLLaws] is
    what its documentation promises and the theorems use.  The static salt counter
    of [nextSalt] is the state [Salt] of the functions that draw from it. *)

From S2P Require Import Prelude Errors.

Inductive AuthProtocol : Type := AuthNone | Md5 | Sha1 | Sha224 | Sha256 | Sha384 | Sha512.
Inductive PrivProtocol : Type := PrivNone | Des | Aes128 | Aes192 | Aes256 | Aes192C | Aes256C.
Inductive SecurityLevel : Type := NoAuthNoPriv | AuthNoPriv | AuthPriv.

#[export] Instance AuthProtocol_eq_dec : EqDecision AuthProtocol.
Proof. solve_decision. Defined.
#[export] Instance PrivProtocol_eq_dec : EqDecision PrivProtocol.
Proof. solve_decision. Defined.
#[export] Instance SecurityLevel_eq_dec : EqDecision SecurityLevel.
Proof. solve_decision. Defined.

(** [static_cast<std::uint8_t>(level)]: the bits of msgFlags. *)
Definition level_bits (l : SecurityLevel) : Z :=
  match l with NoAuthNoPriv => 0 | AuthNoPriv => 1 | AuthPriv => 3 end.

Definition isAuthenticated (l : SecurityLevel) : bool := negb (bool_decide (l = NoAuthNoPriv)).
Definition isEncrypted (l : SecurityLevel) : bool := bool_decide (l = AuthPriv).

Lemma encrypted_authenticates l : isEncrypted l = true -> isAuthenticated l = true.
Proof. by destruct l. Qed.

Record Credentials : Type := mkCredentials {
  userName : cstring;
  level : SecurityLevel;
  authProtocol : AuthProtocol;
  authPassword : cstring;
  privProtocol : PrivProtocol;
  privPassword : cstring }.

(** ** OpenSSL, as the code calls it

    [None] and [false] are the failures the calls report.  [EVP_CIPHER_CTX] and
    [EVP_MD_CTX] are abstract. *)
Record OpenSSL : Type := mkOpenSSL {
  MdCtx : Type;
  (** [EVP_MD_CTX_new] and [EVP_DigestInit_ex] with the digest of the protocol *)
  EVP_DigestInit : AuthProtocol -> option MdCtx;
  EVP_DigestUpdate : MdCtx -> Octets -> option MdCtx;
  EVP_DigestFinal : MdCtx -> option Octets;
  EVP_MD_get_size : AuthProtocol -> Z;
  HMAC : AuthProtocol -> Octets -> Octets -> option Octets;
  (** both loads of [LegacyProvider] succeed *)
  OSSL_PROVIDER_load : bool;
  EvpCipher : Type;
  EVP_CIPHER_fetch : string -> option EvpCipher;
  CipherCtx : Type;
  (** [EVP_CIPHER_CTX_new], [EVP_CipherInit_ex] (key, iv, encrypt) *)
  EVP_CipherInit : EvpCipher -> Octets -> Octets -> bool -> option CipherCtx;
  EVP_CIPHER_CTX_set_padding : CipherCtx -> bool -> option CipherCtx;
  (** the octets written, given an input of the [int] length said *)
  EVP_CipherUpdate : CipherCtx -> Octets -> Z -> option (CipherCtx * Octets);
  EVP_CipherFinal : CipherCtx -> option Octets }.

Definition expandedPasswordSize : Z := 1048576.
Definition chunkSize : nat := 64.
Definition desKeySize : nat := 8.
Definition desBlockSize : nat := 8.
Definition saltSize : nat := 8.
Definition aesIvSize : nat := 16.

(** [digestFor(p) == nullptr]. *)
Definition digestFor (p : AuthProtocol) : option AuthProtocol :=
  match p with AuthNone => None | _ => Some p end.

Definition cipherName (p : PrivProtocol) : option string :=
  match p with
  | PrivNone => None
  | Des => Some "DES-CBC"
  | Aes128 => Some "AES-128-CFB"
  | Aes192 | Aes192C => Some "AES-192-CFB"
  | Aes256 | Aes256C => Some "AES-256-CFB"
  end%string.

Definition privKeySize (p : PrivProtocol) : nat :=
  match p with
  | PrivNone => 0
  | Des | Aes128 => 16
  | Aes192 | Aes192C => 24
  | Aes256 | Aes256C => 32
  end.

Definition authParamsSize (p : AuthProtocol) : nat :=
  match p with
  | AuthNone => 0
  | Md5 | Sha1 => 12
  | Sha224 => 16
  | Sha256 => 24
  | Sha384 => 32
  | Sha512 => 48
  end.

Abbreviation err e := (ret (inl (make_error_code e))).

Section Usm.
Context (ssl : OpenSSL).

(** A call of OpenSSL: on failure, [ec = CryptoFailure; return {};]. *)
Definition checked {T A} (o : option A) : M T (ErrorCode + A) :=
  match o with Some a => ret (inr a) | None => err CryptoFailure end.

Definition keySize (p : AuthProtocol) : Z :=
  match digestFor p with None => 0 | Some md => EVP_MD_get_size ssl md end.

(** [begin] and [finish]. *)
Definition begin {T} (md : AuthProtocol) : M T (ErrorCode + MdCtx ssl) := checked (EVP_DigestInit ssl md).
Definition finish {T} (ctx : MdCtx ssl) : M T (ErrorCode + Octets) := checked (EVP_DigestFinal ssl ctx).
Definition update {T} (ctx : MdCtx ssl) (part : Octets) : M T (ErrorCode + MdCtx ssl) :=
  checked (EVP_DigestUpdate ssl ctx part).

Definition hashOf {T} (p : AuthProtocol) (input : Octets) : M T (ErrorCode + Octets) :=
  match digestFor p with
  | None => err UnsupportedAuthProtocol
  | Some md =>
      let+ ctx := begin md in
      let+ ctx := update ctx input in
      finish ctx
  end.

(** [for (auto& octet : chunk) { octet = password[index % password.size()]; ++index; }] *)
Fixpoint fill_chunk {T} (n : nat) (password : cstring) (index : Z) : M T (Octets * Z) :=
  match n with
  | O => ret ([], index)
  | S n' =>
      let! octet := deref (password !! Z.to_nat (index mod zlen password)) in
      let! rest := fill_chunk n' password (index + 1) in
      ret (to_byte octet :: rest.1, rest.2)
  end.

(** [for (done = 0; done < expandedPasswordSize; done += chunkSize)]. *)
Fixpoint expand_loop {T} (fuel : nat) (password : cstring) (done index : Z) (ctx : MdCtx ssl)
  : M T (ErrorCode + MdCtx ssl) :=
  match fuel with
  | O => out_of_fuel
  | S fuel' =>
      if done <? expandedPasswordSize then
        let! chunk := fill_chunk chunkSize password index in
        let+ ctx := update ctx chunk.1 in
        expand_loop fuel' password (done + Z.of_nat chunkSize) chunk.2 ctx
      else ret (inr ctx)
  end.

(** One megabyte is 16384 chunks of 64 octets, and one round more sees the end. *)
Definition expand_fuel : nat := Z.to_nat 16385.

Definition passwordToKey {T} (p : AuthProtocol) (password : cstring) : M T (ErrorCode + Octets) :=
  match digestFor p with
  | None => err UnsupportedAuthProtocol
  | Some md =>
      if bool_decide (password = []) then err EmptyPassword
      else
        let+ ctx := begin md in
        let+ ctx := expand_loop expand_fuel password 0 0 ctx in
        finish ctx
  end.

Definition localizeKey {T} (p : AuthProtocol) (masterKey engineId : Octets) : M T (ErrorCode + Octets) :=
  match digestFor p with
  | None => err UnsupportedAuthProtocol
  | Some md =>
      let+ ctx := begin md in
      let+ ctx := update ctx masterKey in
      let+ ctx := update ctx engineId in
      let+ ctx := update ctx masterKey in
      finish ctx
  end.

Definition localizedAuthKey {T} (creds : Credentials) (engineId : Octets) : M T (ErrorCode + Octets) :=
  let+ master := passwordToKey (authProtocol creds) (authPassword creds) in
  localizeKey (authProtocol creds) master engineId.

(** The body of [while (key.size() < want)]. *)
Definition extend_key {T} (creds : Credentials) (reeder : bool) (engineId key : Octets)
  : M T (ErrorCode + Octets) :=
  let+ more :=
    (if reeder then
       let+ next := passwordToKey (authProtocol creds) key in
       localizeKey (authProtocol creds) next engineId
     else hashOf (authProtocol creds) key) in
  if bool_decide (more = []) then err CryptoFailure
  else ret (inr (key ++ more)).

Fixpoint extend_loop {T} (fuel : nat) (creds : Credentials) (reeder : bool) (engineId : Octets)
    (want : nat) (key : Octets) : M T (ErrorCode + Octets) :=
  match fuel with
  | O => out_of_fuel
  | S fuel' =>
      if (length key <? want)%nat then
        let+ key := extend_key creds reeder engineId key in
        extend_loop fuel' creds reeder engineId want key
      else ret (inr key)
  end.

(** [v.resize(n, 0)]. *)
Definition resize (n : nat) (v : Octets) : Octets := take n v ++ replicate (n - length v) 0.

(** Every round adds an octet at least, so [want] rounds and the last test are enough. *)
Definition localizedPrivKey {T} (creds : Credentials) (engineId : Octets) : M T (ErrorCode + Octets) :=
  let want := privKeySize (privProtocol creds) in
  if (want =? 0)%nat then err UnsupportedPrivProtocol
  else
    let+ master := passwordToKey (authProtocol creds) (privPassword creds) in
    let+ key := localizeKey (authProtocol creds) master engineId in
    let reeder := bool_decide (privProtocol creds = Aes192C) || bool_decide (privProtocol creds = Aes256C) in
    let+ key := extend_loop (S want) creds reeder engineId want key in
    ret (inr (resize want key)).

(** ** Salts and initialisation vectors *)

Definition Salt : Type := Z.

(** [counter.fetch_add(1)] on a [std::uint64_t]. *)
Definition nextSalt : M Salt Z :=
  let! c := get_st in set_st (wrap 64 (c + 1)) ;;; ret c.

(** [out[i] = b] on a span of an array. *)
Definition store {T} (out : Octets) (i : nat) (b : Z) : M T Octets :=
  if (i <? length out)%nat then ret (<[i := b]> out) else undef.

(** [putBigEndian32(span(out).subspan(off), v)]. *)
Fixpoint put32_loop {T} (todo : nat) (out : Octets) (off : nat) (v : Z) : M T Octets :=
  match todo with
  | O => ret out
  | S todo' =>
      let i := (4 - todo)%nat in
      let! out := store out (off + i) (to_byte (Z.land (Z.shiftr v (8 * (3 - Z.of_nat i))) 0xFF)) in
      put32_loop todo' out off v
  end.

Definition putBigEndian32 {T} (out : Octets) (off : nat) (v : Z) : M T Octets := put32_loop 4 out off v.

(** [std::ranges::copy(in, out.begin() + off)]. *)
Fixpoint copy_to {T} (input : Octets) (out : Octets) (off : nat) : M T Octets :=
  match input with
  | [] => ret out
  | b :: input' => let! out := store out off b in copy_to input' out (S off)
  end.

Fixpoint des_iv {T} (todo : nat) (privKey privParams : Octets) : M T Octets :=
  match todo with
  | O => ret []
  | S todo' =>
      let i := (desBlockSize - todo)%nat in
      let! k := deref (privKey !! (desKeySize + i)%nat) in
      let! s := deref (privParams !! i) in
      let! rest := des_iv todo' privKey privParams in
      ret (Z.lxor k s :: rest)
  end.

Definition makeIv {T} (p : PrivProtocol) (privKey : Octets) (boots time : Z) (privParams : Octets)
  : M T Octets :=
  if bool_decide (p = Des) then des_iv desBlockSize privKey privParams
  else
    let iv := replicate aesIvSize 0 in
    let! iv := putBigEndian32 iv 0 (wrap 32 boots) in
    let! iv := putBigEndian32 iv 4 (wrap 32 time) in
    copy_to privParams iv 8.

(** [out.size()] octets are allocated: OpenSSL writing more is a buffer overrun. *)
Definition crypt {T} (p : PrivProtocol) (privKey iv input : Octets) (encrypt : bool)
  : M T (ErrorCode + Octets) :=
  if bool_decide (p = Des) && negb (OSSL_PROVIDER_load ssl) then err LegacyProviderUnavailable
  else
    match cipherName p ≫= EVP_CIPHER_fetch ssl with
    | None => if bool_decide (p = Des) then err LegacyProviderUnavailable else err CryptoFailure
    | Some cipher =>
        let+ ctx := checked (EVP_CipherInit ssl cipher privKey iv encrypt) in
        let+ ctx := checked (EVP_CIPHER_CTX_set_padding ssl ctx false) in
        let+ x := (if bool_decide (input = []) then ret (inr (ctx, []))
                   else checked (EVP_CipherUpdate ssl ctx input (swrap 32 (zlen input)))) in
        let+ tail := checked (EVP_CipherFinal ssl x.1) in
        if (length input <? length x.2 + length tail)%nat then undef
        else ret (inr (x.2 ++ tail))
    end.

(** Gives the ciphertext and the [privParams] it chose. *)
Definition privEncrypt (p : PrivProtocol) (privKey : Octets) (boots time : Z) (plaintext : Octets)
  : M Salt (ErrorCode + (Octets * Octets)) :=
  if (privKeySize p =? 0)%nat || (length privKey <? privKeySize p)%nat then err UnsupportedPrivProtocol
  else
    let! salt := nextSalt in
    let privParams := replicate saltSize 0 in
    let! privParams :=
      (if bool_decide (p = Des) then
         let! privParams := putBigEndian32 privParams 0 (wrap 32 boots) in
         putBigEndian32 privParams 4 (wrap 32 salt)
       else
         let! privParams := putBigEndian32 privParams 0 (wrap 32 (Z.shiftr salt 32)) in
         putBigEndian32 privParams 4 (wrap 32 salt)) in
    let! iv := makeIv p privKey boots time privParams in
    let input :=
      if negb (bool_decide (p = Des)) then plaintext
      else resize (length plaintext
             + (desBlockSize - length plaintext mod desBlockSize) mod desBlockSize) plaintext in
    let+ out := crypt p privKey iv input true in
    ret (inr (out, privParams)).

Definition privDecrypt {T} (p : PrivProtocol) (privKey : Octets) (boots time : Z)
    (privParams ciphertext : Octets) : M T (ErrorCode + Octets) :=
  if (length privKey <? privKeySize p)%nat || (privKeySize p =? 0)%nat then err UnsupportedPrivProtocol
  else if negb (length privParams =? saltSize)%nat then err DecryptionFailed
  else if bool_decide (p = Des)
            && (bool_decide (ciphertext = []) || negb (length ciphertext mod desBlockSize =? 0)%nat)
  then err DecryptionFailed
  else
    let! iv := makeIv p privKey boots time privParams in
    crypt p privKey iv ciphertext false.

Definition authDigest {T} (p : AuthProtocol) (localizedKey message : Octets) : M T (ErrorCode + Octets) :=
  match digestFor p with
  | None => err UnsupportedAuthProtocol
  | Some md =>
      let+ mac := checked (HMAC ssl md localizedKey message) in
      let width := authParamsSize p in
      if (length mac <? width)%nat then err CryptoFailure
      else ret (inr (take width mac))
  end.

End Usm.

(** ** What OpenSSL documents *)

(** The vector the cipher of a protocol takes. *)
Definition ivSize (p : PrivProtocol) : nat := if bool_decide (p = Des) then desBlockSize else aesIvSize.

(** CBC takes whole blocks; CFB any length. *)
Definition whole_blocks (p : PrivProtocol) (input : Octets) : Prop :=
  p = Des -> (length input mod desBlockSize = 0)%nat.

Class OpenSSLLaws (ssl : OpenSSL) : Type := {
  (** the digest of an octet string *)
  digest : AuthProtocol -> Octets -> Octets;
  (** a context that has absorbed these octets *)
  absorbed : MdCtx ssl -> AuthProtocol -> Octets -> Prop;
  digest_init p : p <> AuthNone -> exists c, EVP_DigestInit ssl p = Some c /\ absorbed c p [];
  digest_update c p xs ys : absorbed c p xs ->
    exists c', EVP_DigestUpdate ssl c ys = Some c' /\ absorbed c' p (xs ++ ys);
  digest_final c p xs : absorbed c p xs -> EVP_DigestFinal ssl c = Some (digest p xs);
  digest_size p xs : p <> AuthNone -> zlen (digest p xs) = EVP_MD_get_size ssl p;
  digest_octets p xs : octets_ok (digest p xs);
  md_sizes : EVP_MD_get_size ssl <$> [Md5; Sha1; Sha224; Sha256; Sha384; Sha512] = [16; 20; 28; 32; 48; 64];
  hmac_total p k m : p <> AuthNone -> exists mac, HMAC ssl p k m = Some mac /\
    zlen mac = EVP_MD_get_size ssl p /\ octets_ok mac;
  (** one pass of the cipher of a protocol: [true] encrypts *)
  pass : PrivProtocol -> Octets -> Octets -> bool -> Octets -> Octets;
  cipher_total p name : cipherName p = Some name -> (p = Des -> OSSL_PROVIDER_load ssl = true) ->
    exists cipher, EVP_CIPHER_fetch ssl name = Some cipher /\
    forall key iv dir, (privKeySize p <= length key)%nat -> length iv = ivSize p ->
    exists c0 c1, EVP_CipherInit ssl cipher key iv dir = Some c0 /\
      EVP_CIPHER_CTX_set_padding ssl c0 false = Some c1 /\ EVP_CipherFinal ssl c1 = Some [] /\
      forall input, input <> [] -> whole_blocks p input -> zlen input < 2 ^ 31 ->
        exists c2, EVP_CipherUpdate ssl c1 input (zlen input) = Some (c2, pass p key iv dir input) /\
          EVP_CipherFinal ssl c2 = Some [];
  pass_length p key iv dir x : length (pass p key iv dir x) = length x;
  pass_octets p key iv dir x : octets_ok x -> octets_ok (pass p key iv dir x);
  pass_inverse p key iv x : octets_ok x -> whole_blocks p x ->
    pass p key iv false (pass p key iv true x) = x }.

Section Theory.
Context {ssl : OpenSSL} {L : OpenSSLLaws ssl}.

Lemma digestFor_some p : p <> AuthNone -> digestFor p = Some p.
Proof. by destruct p. Qed.

Lemma begin_run {T} p (s : T) : p <> AuthNone ->
  exists c, begin ssl p s = Done (inr c) s /\ absorbed c p [].
Proof.
  intros Hp. destruct (digest_init p Hp) as (c & E & Ha). exists c. unfold begin. by rewrite E.
Qed.

Lemma update_run {T} c p xs ys (s : T) : absorbed c p xs ->
  exists c', update ssl c ys s = Done (inr c') s /\ absorbed c' p (xs ++ ys).
Proof.
  intros Ha. destruct (digest_update c p xs ys Ha) as (c' & E & Ha'). exists c'. unfold update. by rewrite E.
Qed.

Lemma finish_run {T} c p xs (s : T) : absorbed c p xs -> finish ssl c s = Done (inr (digest p xs)) s.
Proof. intros Ha. unfold finish. by rewrite (digest_final c p xs Ha). Qed.

Lemma hashOf_run {T} p x (s : T) : p <> AuthNone -> hashOf ssl p x s = Done (inr (digest p x)) s.
Proof.
  intros Hp. unfold hashOf. rewrite digestFor_some by done.
  destruct (begin_run p s Hp) as (c & E & Ha). rewrite (bind_sum_inr _ _ _ _ _ E).
  destruct (update_run c p [] x s Ha) as (c' & E' & Ha'). rewrite (bind_sum_inr _ _ _ _ _ E').
  by apply finish_run.
Qed.

Lemma localizeKey_run {T} p key engine (s : T) : p <> AuthNone ->
  localizeKey ssl p key engine s = Done (inr (digest p (key ++ engine ++ key))) s.
Proof.
  intros Hp. unfold localizeKey. rewrite digestFor_some by done.
  destruct (begin_run p s Hp) as (c & E & Ha). rewrite (bind_sum_inr _ _ _ _ _ E).
  destruct (update_run c p [] key s Ha) as (c1 & E1 & Ha1). rewrite (bind_sum_inr _ _ _ _ _ E1).
  destruct (update_run c1 p _ engine s Ha1) as (c2 & E2 & Ha2). rewrite (bind_sum_inr _ _ _ _ _ E2).
  destruct (update_run c2 p _ key s Ha2) as (c3 & E3 & Ha3). rewrite (bind_sum_inr _ _ _ _ _ E3).
  rewrite (finish_run c3 p _ s Ha3). by rewrite <- app_assoc.
Qed.

(** ** The password, repeated *)

(** [n] octets of the endless repetition of [password], from position [from]. *)
Definition cycle (password : cstring) (from n : Z) : Octets :=
  (fun i => default 0 (password !! Z.to_nat (i mod zlen password))) <$> seqZ from n.

Lemma cycle_app password from n m : 0 <= n -> 0 <= m ->
  cycle password from (n + m) = cycle password from n ++ cycle password (from + n) m.
Proof. intros Hn Hm. unfold cycle. by rewrite seqZ_app, fmap_app. Qed.

Lemma cycle_cons password from n : 0 < n ->
  cycle password from n =
    default 0 (password !! Z.to_nat (from mod zlen password)) :: cycle password (from + 1) (n - 1).
Proof.
  intros Hn. unfold cycle. rewrite seqZ_cons by done. cbn. unfold Z.succ, Z.pred. done.
Qed.

Lemma cycle_nil password from : cycle password from 0 = [].
Proof. done. Qed.

Lemma fill_chunk_run {T} n password index (s : T) : password <> [] -> octets_ok password ->
  fill_chunk n password index s = Done (cycle password index (Z.of_nat n), index + Z.of_nat n) s.
Proof.
  intros Hne Hok. revert index. induction n as [|n IH]; intros index; cbn [fill_chunk].
  - rewrite cycle_nil, Z.add_0_r. done.
  - assert (0 < zlen password) by (destruct password; [done|cbn; lia]).
    pose proof (Z.mod_pos_bound index (zlen password) ltac:(lia)).
    destruct (lookup_lt_is_Some_2 password (Z.to_nat (index mod zlen password))) as [b Hb]; [lia|].
    rewrite cycle_cons by lia. rewrite Hb. rewrite (bind_done _ _ s b s) by done.
    unfold bind. rewrite IH. unfold ret. cbn [fst snd default].
    rewrite to_byte_id by eauto with snmp. do 2 f_equal; [|lia]. f_equal. f_equal. lia.
Qed.

Lemma expand_loop_run {T} fuel password done c p xs (s : T) : password <> [] -> octets_ok password ->
  absorbed c p xs -> 0 <= done <= expandedPasswordSize ->
  (expandedPasswordSize - done) mod 64 = 0 -> (expandedPasswordSize - done) / 64 < Z.of_nat fuel ->
  exists c', expand_loop ssl fuel password done done c s = Done (inr c') s /\
    absorbed c' p (xs ++ cycle password done (expandedPasswordSize - done)).
Proof.
  intros Hne Hok. revert done c xs. induction fuel as [|fuel IH]; intros d c xs Ha Hd Hm Hf.
  { pose proof (Z.div_pos (expandedPasswordSize - d) 64). lia. }
  cbn [expand_loop]. destruct (Z.ltb_spec d expandedPasswordSize) as [Hlt|Hge].
  - rewrite (bind_done _ _ _ _ _ (fill_chunk_run chunkSize password d s Hne Hok)). cbn [fst snd].
    destruct (update_run c p xs (cycle password d (Z.of_nat chunkSize)) s Ha) as (c1 & E1 & Ha1).
    rewrite (bind_sum_inr _ _ _ _ _ E1). unfold chunkSize in *. change (Z.of_nat 64) with 64 in *.
    pose proof (Z.div_mod (expandedPasswordSize - d) 64 ltac:(lia)) as Hdm.
    set (q := (expandedPasswordSize - d) / 64) in *.
    assert (expandedPasswordSize - (d + 64) = 64 * (q - 1)) as Eq by lia.
    destruct (IH (d + 64) c1 _ Ha1) as (c' & E' & Ha').
    + lia.
    + rewrite Eq, Z.mul_comm. apply Z.mod_mul. lia.
    + rewrite Eq, Z.mul_comm, Z.div_mul by lia. lia.
    + exists c'. split; [done|]. rewrite <- app_assoc, <- cycle_app in Ha' by lia.
      replace (64 + (expandedPasswordSize - (d + 64))) with (expandedPasswordSize - d) in Ha' by lia. done.
  - exists c. split; [done|]. replace (expandedPasswordSize - d) with 0 by lia.
    by rewrite cycle_nil, app_nil_r.
Qed.

Lemma expand_fuel_rounds : Z.of_nat expand_fuel = 16385.
Proof. unfold expand_fuel. apply Z2Nat.id. lia. Qed.

#[local] Opaque expand_fuel cycle.

Lemma passwordToKey_run {T} p password (s : T) : p <> AuthNone -> password <> [] -> octets_ok password ->
  passwordToKey ssl p password s = Done (inr (digest p (cycle password 0 expandedPasswordSize))) s.
Proof.
  intros Hp Hne Hok. unfold passwordToKey. rewrite digestFor_some, bool_decide_false by done.
  destruct (begin_run p s Hp) as (c & E & Ha). rewrite (bind_sum_inr _ _ _ _ _ E).
  destruct (expand_loop_run expand_fuel password 0 c p [] s Hne Hok Ha) as (c' & E' & Ha').
  { by split. } { done. } { by rewrite expand_fuel_rounds. }
  rewrite (bind_sum_inr _ _ _ _ _ E'). rewrite Z.sub_0_r, app_nil_l in Ha'. exact (finish_run _ _ _ s Ha').
Qed.

(** ** Privacy keys *)

Lemma md_size_cases p : p <> AuthNone ->
  16 <= EVP_MD_get_size ssl p <= 64 /\ Z.of_nat (authParamsSize p) <= EVP_MD_get_size ssl p.
Proof.
  intros Hp. pose proof md_sizes as H. cbn in H. injection H as H1 H2 H3 H4 H5 H6.
  destruct p; [done|..]; cbn [authParamsSize]; lia.
Qed.

Definition localized (p : AuthProtocol) (password : cstring) (engineId : Octets) : Octets :=
  let master := digest p (cycle password 0 expandedPasswordSize) in
  digest p (master ++ engineId ++ master).

(** The extension of a short key: Reeder's, or Blumenthal's. *)
Definition extension (p : AuthProtocol) (reeder : bool) (engineId key : Octets) : Octets :=
  if reeder then localized p key engineId else digest p key.

Lemma digest_length p x : p <> AuthNone -> (16 <= length (digest p x) <= 64)%nat.
Proof.
  intros Hp. pose proof (digest_size p x Hp). pose proof (md_size_cases p Hp) as [? _]. lia.
Qed.

Lemma digest_nonempty p x : p <> AuthNone -> digest p x <> [].
Proof. intros Hp E. pose proof (digest_length p x Hp) as H. rewrite E in H. cbn in H. lia. Qed.

Lemma extension_length p reeder engineId key : p <> AuthNone ->
  (16 <= length (extension p reeder engineId key) <= 64)%nat.
Proof. intros Hp. unfold extension, localized. destruct reeder; by apply digest_length. Qed.

Lemma extend_key_run {T} creds reeder engineId key (s : T) :
  authProtocol creds <> AuthNone -> key <> [] -> octets_ok key ->
  extend_key ssl creds reeder engineId key s =
    Done (inr (key ++ extension (authProtocol creds) reeder engineId key)) s.
Proof.
  intros Hp Hne Hok. unfold extend_key.
  pose proof (extension_length _ reeder engineId key Hp) as Hlen.
  assert (forall x, (16 <= length x <= 64)%nat -> bool_decide (x = @nil Z) = false) as Hnz.
  { intros x Hx. apply bool_decide_false. intros ->. cbn in Hx. lia. }
  unfold extension in *. destruct reeder.
  - erewrite bind_sum_inr; [|erewrite bind_sum_inr; [apply localizeKey_run; done|by apply passwordToKey_run]].
    fold (localized (authProtocol creds) key engineId). by rewrite Hnz.
  - erewrite bind_sum_inr; [|by apply hashOf_run]. by rewrite Hnz.
Qed.

(** One extension is always enough: the shortest digest has 16 octets, the longest key 32. *)
Lemma extend_loop_run {T} fuel creds reeder engineId want key (s : T) :
  authProtocol creds <> AuthNone -> octets_ok key -> (16 <= length key)%nat -> (want <= 32)%nat ->
  (2 <= fuel)%nat ->
  extend_loop ssl fuel creds reeder engineId want key s =
    Done (inr (if (length key <? want)%nat
               then key ++ extension (authProtocol creds) reeder engineId key else key)) s.
Proof.
  intros Hp Hok Hlen Hw Hf. destruct fuel as [|[|fuel]]; [lia..|]. cbn [extend_loop].
  destruct (Nat.ltb_spec (length key) want) as [Hlt|]; [|done].
  assert (key <> []) by (intros ->; cbn in Hlen; lia).
  erewrite bind_sum_inr; [|by apply extend_key_run].
  pose proof (extension_length _ reeder engineId key Hp). rewrite length_app.
  by destruct (Nat.ltb_spec (length key + length (extension (authProtocol creds) reeder engineId key)) want); [lia|].
Qed.

Lemma privKeySize_le p : (privKeySize p <= 32)%nat.
Proof. destruct p; cbn; lia. Qed.

Lemma resize_short n v : (n <= length v)%nat -> resize n v = take n v.
Proof. intros H. unfold resize. replace (n - length v)%nat with 0%nat by lia. apply app_nil_r. Qed.

(** The Localized Key of a password, or why there is none. *)
Definition derived_auth (p : AuthProtocol) (password : cstring) (engineId : Octets) : ErrorCode + Octets :=
  if bool_decide (p = AuthNone) then inl (make_error_code UnsupportedAuthProtocol)
  else if bool_decide (password = []) then inl (make_error_code EmptyPassword)
  else inr (localized p password engineId).

(** The privacy key: as much of the Localized Key and its extension as the cipher takes. *)
Definition derived_priv (p : AuthProtocol) (password : cstring) (priv : PrivProtocol) (engineId : Octets)
  : ErrorCode + Octets :=
  if bool_decide (priv = PrivNone) then inl (make_error_code UnsupportedPrivProtocol)
  else match derived_auth p password engineId with
       | inl ec => inl ec
       | inr short =>
           let reeder := bool_decide (priv = Aes192C \/ priv = Aes256C) in
           inr (take (privKeySize priv) (short ++ extension p reeder engineId short))
       end.

Lemma passwordToKey_cases {T} p password (s : T) : octets_ok password -> passwordToKey ssl p password s =
  Done (if bool_decide (p = AuthNone) then inl (make_error_code UnsupportedAuthProtocol)
        else if bool_decide (password = []) then inl (make_error_code EmptyPassword)
        else inr (digest p (cycle password 0 expandedPasswordSize))) s.
Proof.
  intros Hok. case_bool_decide as Hp; [by subst p|]. case_bool_decide as Hne; [|by apply passwordToKey_run].
  unfold passwordToKey. by rewrite digestFor_some, bool_decide_true.
Qed.

Lemma derived_priv_length auth pw priv eid key : derived_priv auth pw priv eid = inr key ->
  length key = privKeySize priv.
Proof.
  unfold derived_priv, derived_auth. case_bool_decide; [done|]. case_bool_decide as Ha; [done|]. case_bool_decide; [done|].
  intros [= <-]. rewrite length_take, length_app. pose proof (privKeySize_le priv).
  set (short := localized _ _ _). set (reeder := bool_decide _).
  assert (16 <= length short)%nat by (unfold short, localized; by apply digest_length).
  pose proof (extension_length auth reeder eid short Ha). lia.
Qed.

Lemma localizedAuthKey_run {T} creds engineId (s : T) : octets_ok (authPassword creds) ->
  localizedAuthKey ssl creds engineId s = Done (derived_auth (authProtocol creds) (authPassword creds) engineId) s.
Proof.
  intros Hok. unfold localizedAuthKey, derived_auth. pose proof (passwordToKey_cases (authProtocol creds) _ s Hok) as E.
  case_bool_decide; [by rewrite (bind_sum_inl _ _ _ _ _ E)|]. case_bool_decide; [by rewrite (bind_sum_inl _ _ _ _ _ E)|].
  rewrite (bind_sum_inr _ _ _ _ _ E). by apply localizeKey_run.
Qed.

Lemma localizedPrivKey_run {T} creds engineId (s : T) : octets_ok (privPassword creds) ->
  localizedPrivKey ssl creds engineId s =
    Done (derived_priv (authProtocol creds) (privPassword creds) (privProtocol creds) engineId) s.
Proof.
  intros Hok. unfold localizedPrivKey, derived_priv.
  destruct (decide (privProtocol creds = PrivNone)) as [Hp|Hp].
  { rewrite Hp. reflexivity. }
  rewrite (bool_decide_false (privProtocol creds = PrivNone)) by done.
  assert ((privKeySize (privProtocol creds) =? 0)%nat = false) as -> by (by destruct (privProtocol creds)).
  pose proof (passwordToKey_cases (authProtocol creds) _ s Hok) as E. unfold derived_auth.
  destruct (decide (authProtocol creds = AuthNone)) as [Ha|Ha];
    [rewrite (bool_decide_true (authProtocol creds = AuthNone)) in E |- * by done; by rewrite (bind_sum_inl _ _ _ _ _ E)|].
  rewrite (bool_decide_false (authProtocol creds = AuthNone)) in E |- * by done.
  destruct (decide (privPassword creds = [])) as [He|He];
    [rewrite (bool_decide_true (privPassword creds = [])) in E |- * by done; by rewrite (bind_sum_inl _ _ _ _ _ E)|].
  rewrite (bool_decide_false (privPassword creds = [])) in E |- * by done.
  rewrite (bind_sum_inr _ _ _ _ _ E). erewrite bind_sum_inr; [|by apply localizeKey_run].
  fold (localized (authProtocol creds) (privPassword creds) engineId). set (short := localized _ _ _).
  rewrite bool_decide_or. set (reeder := _ || _).
  assert (16 <= length short)%nat by (unfold short, localized; by apply digest_length).
  pose proof (privKeySize_le (privProtocol creds)).
  pose proof (extension_length (authProtocol creds) reeder engineId short Ha).
  assert (octets_ok short) by (apply digest_octets).
  assert (2 <= S (privKeySize (privProtocol creds)))%nat by (destruct (privProtocol creds); cbn; done || lia).
  erewrite bind_sum_inr; [|apply extend_loop_run; [done|done|lia|lia|done]].
  set (want := privKeySize (privProtocol creds)) in *. destruct (Nat.ltb_spec (length short) want).
  - by rewrite resize_short by (rewrite length_app; lia).
  - by rewrite resize_short, take_app_le by done.
Qed.

(** ** Salts and vectors *)

Lemma store_run {T} out i b (s : T) : (i < length out)%nat -> store out i b s = Done (<[i := b]> out) s.
Proof. intros H. unfold store. by destruct (Nat.ltb_spec i (length out)); [|lia]. Qed.

Lemma putBigEndian32_run {T} pre a b c d post v (s : T) : 0 <= v ->
  putBigEndian32 (pre ++ a :: b :: c :: d :: post) (length pre) v s =
    Done (pre ++ be_bytes 4 v ++ post) s.
Proof.
  intros Hv. assert (forall i, (i < 4)%nat -> (length pre + i < length (pre ++ a :: b :: c :: d :: post))%nat) as Hl
    by (intros i Hi; rewrite length_app; cbn [length]; lia).
  assert (forall k, 0 <= k -> to_byte (Z.land (Z.shiftr v (8 * k)) 255) = v / 256 ^ k mod 256) as Hb.
  { intros k Hk. rewrite shiftr_land_byte by done. apply to_byte_id. apply Z.mod_pos_bound. lia. }
  unfold putBigEndian32. cbn [put32_loop]. cbn [Nat.sub]. change 0xFF with 255.
  rewrite !Hb by lia. change (3 - Z.of_nat 0) with 3. change (3 - Z.of_nat 1) with 2.
  change (3 - Z.of_nat 2) with 1. change (3 - Z.of_nat 3) with 0. cbn [be_bytes].
  change (Z.of_nat 3) with 3. change (Z.of_nat 2) with 2. change (Z.of_nat 1) with 1. change (Z.of_nat 0) with 0.
  generalize (v / 256 ^ 3 mod 256) (v / 256 ^ 2 mod 256) (v / 256 ^ 1 mod 256) (v / 256 ^ 0 mod 256).
  intros x3 x2 x1 x0. unfold bind. rewrite store_run by (apply Hl; lia).
  rewrite Nat.add_0_r, insert_middle. do 3 (rewrite store_run by (rewrite ?length_insert, length_app; cbn [length]; lia)).
  unfold ret. f_equal.
  rewrite !insert_app_r. done.
Qed.

Lemma copy_to_run {T} input pre mid post (s : T) : length mid = length input ->
  copy_to input (pre ++ mid ++ post) (length pre) s = Done (pre ++ input ++ post) s.
Proof.
  revert pre mid. induction input as [|b input IH]; intros pre mid Hl.
  - by destruct mid.
  - destruct mid as [|m mid]; [done|]. cbn [copy_to app]. unfold bind.
    rewrite store_run by (rewrite length_app; cbn; lia). rewrite insert_middle.
    replace (pre ++ b :: mid ++ post) with ((pre ++ [b]) ++ mid ++ post) by (by rewrite <- app_assoc).
    replace (S (length pre)) with (length (pre ++ [b])) by (rewrite length_app; cbn; lia).
    rewrite IH by (cbn in Hl; lia). by rewrite <- app_assoc.
Qed.

(** RFC 3414 8.1.1.1 and RFC 3826 3.1.2.1: the vector of a message. *)
Definition iv_of (p : PrivProtocol) (key : Octets) (boots time : Z) (privParams : Octets) : Octets :=
  if bool_decide (p = Des) then zip_with Z.lxor (take 8 (drop 8 key)) privParams
  else be_bytes 4 (wrap 32 boots) ++ be_bytes 4 (wrap 32 time) ++ privParams.

Lemma des_iv_run {T} todo key params (s : T) : (todo <= 8)%nat -> (16 <= length key)%nat ->
  length params = 8%nat ->
  des_iv todo key params s =
    Done (zip_with Z.lxor (take todo (drop (16 - todo) key)) (drop (8 - todo) params)) s.
Proof.
  intros Ht Hk Hp. induction todo as [|todo IH]; [done|]. cbn [des_iv].
  unfold desKeySize, desBlockSize.
  destruct (lookup_lt_is_Some_2 key (8 + (8 - S todo))%nat) as [k Ek]; [lia|].
  destruct (lookup_lt_is_Some_2 params (8 - S todo)%nat) as [b Eb]; [lia|].
  rewrite Ek, Eb. unfold bind, deref, ret. rewrite IH by lia.
  replace (16 - S todo)%nat with (8 + (8 - S todo))%nat by lia.
  rewrite (drop_S key k _ Ek), (drop_S params b _ Eb). cbn [take zip_with].
  by replace (S (8 + (8 - S todo)))%nat with (16 - todo)%nat by lia;
     replace (S (8 - S todo))%nat with (8 - todo)%nat by lia.
Qed.

Lemma wrap32_nonneg z : 0 <= wrap 32 z.
Proof. apply Z.mod_pos_bound. lia. Qed.

Lemma makeIv_run {T} p key boots time params (s : T) : (16 <= length key)%nat -> length params = 8%nat ->
  makeIv p key boots time params s = Done (iv_of p key boots time params) s /\
  length (iv_of p key boots time params) = ivSize p.
Proof.
  intros Hk Hp. unfold makeIv, iv_of, ivSize. destruct (bool_decide (p = Des)).
  - rewrite des_iv_run by (unfold desBlockSize; lia). cbn [Nat.sub desBlockSize].
    rewrite drop_0. split; [done|]. rewrite length_zip_with, length_take, length_drop, Hp. unfold desBlockSize. lia.
  - split; [|rewrite !length_app, !length_be_bytes, Hp; done]. unfold bind.
    rewrite (putBigEndian32_run [] 0 0 0 0 (replicate 12 0) (wrap 32 boots)) by apply wrap32_nonneg.
    pose proof (length_be_bytes 4 (wrap 32 boots)) as L1. cbn [app].
    rewrite <- L1 at 2.
    rewrite (putBigEndian32_run (be_bytes 4 (wrap 32 boots)) 0 0 0 0 (replicate 8 0) (wrap 32 time))
      by apply wrap32_nonneg.
    pose proof (length_be_bytes 4 (wrap 32 time)) as L2.
    replace 8%nat with (length (be_bytes 4 (wrap 32 boots) ++ be_bytes 4 (wrap 32 time)))
      by (by rewrite length_app, L1, L2).
    rewrite app_assoc, <- (app_nil_r (replicate _ 0)), copy_to_run.
    + by rewrite app_nil_r, <- app_assoc.
    + by rewrite length_replicate, length_app, L1, L2, Hp.
Qed.

Lemma swrap32_small n : 0 <= n < 2 ^ 31 -> swrap 32 n = n.
Proof. intros H. apply swrap_small; lia. Qed.

Lemma crypt_run {T} p key iv input dir (s : T) : p <> PrivNone ->
  (p = Des -> OSSL_PROVIDER_load ssl = true) -> (privKeySize p <= length key)%nat ->
  length iv = ivSize p -> whole_blocks p input -> zlen input < 2 ^ 31 ->
  crypt ssl p key iv input dir s = Done (inr (pass p key iv dir input)) s.
Proof.
  intros Hp Hleg Hk Hiv Hw Hl. unfold crypt.
  assert (bool_decide (p = Des) && negb (OSSL_PROVIDER_load ssl) = false) as ->.
  { case_bool_decide; [by rewrite Hleg|done]. }
  destruct (cipherName p) as [name|] eqn:En; [|by destruct p].
  destruct (cipher_total p name En Hleg) as (cipher & Ec & Hinit).
  destruct (Hinit key iv dir Hk Hiv) as (c0 & c1 & E0 & E1 & Ef & Hup).
  cbn [mbind option_bind]. rewrite Ec, E0. unfold bind_sum, bind, checked, ret. rewrite E1.
  pose proof (pass_length p key iv dir input) as Hpl. case_bool_decide as Hin.
  - subst input. cbn [fst snd length Nat.add app]. rewrite Ef. cbn.
    by destruct (pass p key iv dir []).
  - destruct (Hup input Hin Hw Hl) as (c2 & E2 & Ef2). rewrite swrap32_small by lia. rewrite E2.
    cbn [fst snd]. rewrite Ef2. cbn [length]. rewrite Nat.add_0_r, Hpl, app_nil_r.
    by destruct (Nat.ltb_spec (length input) (length input)); [lia|].
Qed.

(** What is encrypted: for DES, padded with zeros to whole blocks. *)
Definition padded (p : PrivProtocol) (plaintext : Octets) : Octets :=
  plaintext ++ (if bool_decide (p = Des)
                then replicate ((8 - length plaintext mod 8) mod 8)%nat 0 else []).

Lemma padded_whole p plaintext : whole_blocks p (padded p plaintext).
Proof.
  intros ->. unfold padded. rewrite bool_decide_true by done.
  rewrite length_app, length_replicate. unfold desBlockSize.
  pose proof (Nat.mod_upper_bound (length plaintext) 8 ltac:(lia)).
  pose proof (Nat.div_mod (length plaintext) 8 ltac:(lia)) as Hd.
  set (r := (length plaintext mod 8)%nat) in *. set (q := (length plaintext / 8)%nat) in *.
  destruct (decide (r = 0%nat)) as [Hr|Hr].
  - rewrite Hr. change ((8 - 0) mod 8)%nat with 0%nat. replace (length plaintext + 0)%nat with (q * 8)%nat by lia. by rewrite Nat.Div0.mod_mul.
  - rewrite (Nat.mod_small (8 - r)) by lia.
    replace (length plaintext + (8 - r))%nat with ((q + 1) * 8)%nat by lia. by rewrite Nat.Div0.mod_mul.
Qed.

Lemma padded_octets p plaintext : octets_ok plaintext -> octets_ok (padded p plaintext).
Proof.
  intros H. unfold padded. apply octets_ok_app. split; [done|].
  destruct (bool_decide _); [apply octets_ok_zeros|constructor].
Qed.

(** The [msgPrivacyParameters] a salt gives. *)
Definition salt_params (p : PrivProtocol) (boots salt : Z) : Octets :=
  (if bool_decide (p = Des) then be_bytes 4 (wrap 32 boots) else be_bytes 4 (wrap 32 (Z.shiftr salt 32)))
    ++ be_bytes 4 (wrap 32 salt).

Lemma length_salt_params p boots salt : length (salt_params p boots salt) = 8%nat.
Proof. unfold salt_params. by destruct (bool_decide _). Qed.

Lemma salt_params_run {T} p boots salt (s : T) :
  (if bool_decide (p = Des) then
     let! privParams := putBigEndian32 (replicate saltSize 0) 0 (wrap 32 boots) in
     putBigEndian32 privParams 4 (wrap 32 salt)
   else
     let! privParams := putBigEndian32 (replicate saltSize 0) 0 (wrap 32 (Z.shiftr salt 32)) in
     putBigEndian32 privParams 4 (wrap 32 salt)) s = Done (salt_params p boots salt) s.
Proof.
  assert (forall v w, 0 <= v -> 0 <= w ->
    (let! privParams := putBigEndian32 (replicate saltSize 0) 0 v in putBigEndian32 privParams 4 w) s =
      Done (be_bytes 4 v ++ be_bytes 4 w) s) as H.
  { intros v w Hv Hw. unfold bind. rewrite (putBigEndian32_run [] 0 0 0 0 (replicate 4 0) v) by done.
    cbn [app]. rewrite <- (length_be_bytes 4 v) at 2.
    rewrite (putBigEndian32_run (be_bytes 4 v) 0 0 0 0 [] w) by done. by rewrite app_nil_r. }
  unfold salt_params. destruct (bool_decide _); apply H; apply wrap32_nonneg.
Qed.

(** ** Encryption and decryption *)

Definition key_fits (p : PrivProtocol) (key : Octets) : Prop :=
  p <> PrivNone /\ (privKeySize p <= length key)%nat.

Lemma key_fits_guard p key : key_fits p key ->
  (privKeySize p =? 0)%nat = false /\ (length key <? privKeySize p)%nat = false /\ (16 <= length key)%nat.
Proof.
  intros [Hp Hk]. destruct (Nat.eqb_spec (privKeySize p) 0), (Nat.ltb_spec (length key) (privKeySize p));
    destruct p; cbn in *; done || lia || (repeat split; lia).
Qed.

Lemma padded_resize plaintext :
  resize (length plaintext + (desBlockSize - length plaintext mod desBlockSize) mod desBlockSize) plaintext =
    padded Des plaintext.
Proof.
  unfold resize, padded, desBlockSize. rewrite bool_decide_true, take_ge by (done || lia). f_equal. f_equal. lia.
Qed.

Lemma privEncrypt_run p key boots time plaintext c : key_fits p key ->
  (p = Des -> OSSL_PROVIDER_load ssl = true) -> zlen (padded p plaintext) < 2 ^ 31 ->
  let params := salt_params p boots c in
  privEncrypt ssl p key boots time plaintext c =
    Done (inr (pass p key (iv_of p key boots time params) true (padded p plaintext), params)) (wrap 64 (c + 1)).
Proof.
  intros Hk Hleg Hl params. pose proof (key_fits_guard p key Hk) as (G1 & G2 & H16).
  unfold privEncrypt. rewrite G1, G2. cbn [orb].
  rewrite (bind_done _ _ c c (wrap 64 (c + 1))) by done. cbn zeta.
  rewrite (bind_done _ _ _ _ _ (salt_params_run p boots c (wrap 64 (c + 1)))). fold params.
  destruct (makeIv_run p key boots time params (wrap 64 (c + 1)) H16 (length_salt_params p boots c)) as [Ei Hi].
  rewrite (bind_done _ _ _ _ _ Ei).
  assert ((if negb (bool_decide (p = Des)) then plaintext else
    resize (length plaintext + (desBlockSize - length plaintext mod desBlockSize) mod desBlockSize) plaintext)
    = padded p plaintext) as ->.
  { case_bool_decide as Hd; cbn [negb]; [subst p; apply padded_resize|].
    unfold padded. by rewrite bool_decide_false, app_nil_r. }
  destruct Hk as [Hp Hk].
  erewrite bind_sum_inr; [|apply crypt_run; try done; apply padded_whole]. done.
Qed.

Lemma privDecrypt_run {T} p key boots time params c (s : T) : key_fits p key ->
  (p = Des -> OSSL_PROVIDER_load ssl = true) -> length params = 8%nat ->
  whole_blocks p c -> (p = Des -> c <> []) -> zlen c < 2 ^ 31 ->
  privDecrypt ssl p key boots time params c s =
    Done (inr (pass p key (iv_of p key boots time params) false c)) s.
Proof.
  intros Hk Hleg Hp Hw Hne Hl. pose proof (key_fits_guard p key Hk) as (G1 & G2 & H16).
  unfold privDecrypt. rewrite G1, G2, Hp. cbn [orb negb Nat.eqb saltSize].
  assert (bool_decide (p = Des) && (bool_decide (c = []) || negb (length c mod desBlockSize =? 0)%nat) = false) as ->.
  { case_bool_decide as Hd; [|done]. rewrite bool_decide_false by auto. by rewrite Hw. }
  destruct (makeIv_run p key boots time params s H16 Hp) as [Ei Hi]. rewrite (bind_done _ _ _ _ _ Ei).
  destruct Hk as [Hpn Hk]. by apply crypt_run.
Qed.

Lemma authDigest_run {T} p key m (s : T) : p <> AuthNone ->
  exists mac, HMAC ssl p key m = Some mac /\
    authDigest ssl p key m s = Done (inr (take (authParamsSize p) mac)) s /\
    length (take (authParamsSize p) mac) = authParamsSize p /\ octets_ok (take (authParamsSize p) mac).
Proof.
  intros Hp. destruct (hmac_total p key m Hp) as (mac & E & Hl & Hok).
  pose proof (md_size_cases p Hp) as [_ Hw]. exists mac. split; [done|].
  unfold authDigest. rewrite digestFor_some, E by done. unfold checked.
  erewrite bind_sum_inr by done. destruct (Nat.ltb_spec (length mac) (authParamsSize p)); [lia|].
  split; [done|]. rewrite length_take. split; [lia|]. eauto with snmp.
Qed.

Lemma privDecrypt_cases {T} p key boots time params c (s : T) :
  zlen c < 2 ^ 31 ->
  privDecrypt ssl p key boots time params c s =
    Done (if (length key <? privKeySize p)%nat || bool_decide (p = PrivNone)
          then inl (make_error_code UnsupportedPrivProtocol)
          else if negb (length params =? 8)%nat then inl (make_error_code DecryptionFailed)
          else if bool_decide (p = Des) && (bool_decide (c = []) || negb (length c mod 8 =? 0)%nat)
          then inl (make_error_code DecryptionFailed)
          else if bool_decide (p = Des) && negb (OSSL_PROVIDER_load ssl)
          then inl (make_error_code LegacyProviderUnavailable)
          else inr (pass p key (iv_of p key boots time params) false c)) s.
Proof.
  intros Hl. destruct (decide (key_fits p key)) as [Hk|Hk].
  - pose proof (key_fits_guard p key Hk) as (G1 & G2 & H16). rewrite G2.
    rewrite (bool_decide_false (p = PrivNone)) by (by destruct Hk). cbn [orb].
    destruct (Nat.eqb_spec (length params) 8) as [Hp|Hp]; cbn [negb].
    2: { unfold privDecrypt. rewrite G1, G2. cbn [orb]. by destruct (Nat.eqb_spec (length params) saltSize). }
    destruct (bool_decide (p = Des) && _) eqn:Hd.
    { unfold privDecrypt. rewrite G1, G2, Hp. cbn [orb negb Nat.eqb saltSize]. unfold desBlockSize. by rewrite Hd. }
    destruct (bool_decide (p = Des) && negb (OSSL_PROVIDER_load ssl)) eqn:Hg.
    { unfold privDecrypt. rewrite G1, G2, Hp. cbn [orb negb Nat.eqb saltSize]. unfold desBlockSize. rewrite Hd.
      rewrite (bind_done _ _ _ _ _ (proj1 (makeIv_run p key boots time params s H16 Hp))).
      unfold crypt. by rewrite Hg. }
    rewrite privDecrypt_run; [done|done| |done| | |done];
      intros ->; rewrite bool_decide_true in * by done; cbn [andb] in *.
    + by destruct (OSSL_PROVIDER_load ssl).
    + apply orb_false_iff in Hd as [_ Hd]. apply negb_false_iff in Hd. by apply Nat.eqb_eq in Hd.
    + apply orb_false_iff in Hd as [Hd _]. by apply bool_decide_eq_false in Hd.
  - unfold privDecrypt. assert ((length key <? privKeySize p)%nat || (privKeySize p =? 0)%nat = true) as ->.
    { unfold key_fits in Hk. destruct (Nat.ltb_spec (length key) (privKeySize p)); [done|].
      cbn [orb]. destruct p; cbn in *; try done; exfalso; apply Hk; done. }
    assert ((length key <? privKeySize p)%nat || bool_decide (p = PrivNone) = true) as ->; [|done].
    unfold key_fits in Hk. destruct (Nat.ltb_spec (length key) (privKeySize p)); [done|].
    cbn [orb]. apply bool_decide_true. destruct (decide (p = PrivNone)); [done|]. exfalso. by apply Hk.
Qed.

Lemma privDecrypt_outcome {T} p key boots time params c (s : T) : octets_ok c -> zlen c < 2 ^ 31 ->
  exists r, privDecrypt ssl p key boots time params c s = Done r s /\
    match r with
    | inl ec => In ec (make_error_code <$> [DecryptionFailed; UnsupportedPrivProtocol; LegacyProviderUnavailable])
    | inr plain => octets_ok plain /\ zlen plain < 2 ^ 31
    end.
Proof.
  intros Ho Hl. rewrite privDecrypt_cases by done. eexists. split; [done|].
  destruct (_ || _); [by right; left|]. destruct (negb _); [by left|]. destruct (bool_decide (p = Des) && _); [by left|].
  destruct (_ && _); [by right; right; left|]. split; [by apply pass_octets|]. by rewrite pass_length.
Qed.

End Theory.

(** ** Successive salts *)

(** Messages encrypted one after the other, and the parameters each was given. *)
Fixpoint encrypt_all (ssl : OpenSSL) (p : PrivProtocol) (key : Octets) (boots : Z)
    (msgs : list (Z * Octets)) : M Salt (ErrorCode + list Octets) :=
  match msgs with
  | [] => ret (inr [])
  | (time, plaintext) :: msgs' =>
      let+ x := privEncrypt ssl p key boots time plaintext in
      let+ rest := encrypt_all ssl p key boots msgs' in
      ret (inr (x.2 :: rest))
  end.

#[export] Instance checked_const {T A} (o : option A) : Const (S := T) (checked o).
Proof. destruct o; apply _. Qed.

#[export] Instance store_const {T} out i b : Const (store (T := T) out i b).
Proof. unfold store. apply _. Qed.

#[export] Instance put32_loop_const {T} todo out off v : Const (put32_loop (T := T) todo out off v).
Proof. revert out. induction todo as [|todo IH]; intros out; cbn [put32_loop]; apply _. Qed.

#[export] Instance putBigEndian32_const {T} out off v : Const (putBigEndian32 (T := T) out off v).
Proof. apply _. Qed.

#[export] Instance copy_to_const {T} input out off : Const (copy_to (T := T) input out off).
Proof. revert out off. induction input as [|b input IH]; intros out off; cbn [copy_to]; apply _. Qed.

#[export] Instance des_iv_const {T} todo key params : Const (des_iv (T := T) todo key params).
Proof. induction todo as [|todo IH]; cbn [des_iv]; apply _. Qed.

#[export] Instance makeIv_const {T} p key boots time params : Const (makeIv (T := T) p key boots time params).
Proof. unfold makeIv. apply _. Qed.

#[export] Instance crypt_const {T} ssl p key iv input dir : Const (crypt (T := T) ssl p key iv input dir).
Proof. unfold crypt. destruct (_ ≫= _); apply _. Qed.

#[export] Instance privDecrypt_const {T} ssl p key boots time params c :
  Const (privDecrypt (T := T) ssl p key boots time params c).
Proof. unfold privDecrypt. apply _. Qed.

#[export] Instance authDigest_const {T} ssl p key m : Const (authDigest (T := T) ssl p key m).
Proof. unfold authDigest. destruct (digestFor p); apply _. Qed.

Lemma privEncrypt_params ssl p key boots time plaintext c out params c' :
  privEncrypt ssl p key boots time plaintext c = Done (inr (out, params)) c' ->
  params = salt_params p boots c /\ c' = wrap 64 (c + 1).
Proof.
  unfold privEncrypt. destruct (_ || _); [done|]. rewrite (bind_done _ _ c c (wrap 64 (c + 1))) by done.
  cbn zeta. rewrite (bind_done _ _ _ _ _ (salt_params_run p boots c (wrap 64 (c + 1)))).
  unfold bind_sum, bind, ret.
  destruct (makeIv (T := Salt) p key boots time (salt_params p boots c) (wrap 64 (c + 1)))
    as [iv c1| |] eqn:Ei; try done.
  pose proof (const_state _ _ _ Ei) as ->.
  match goal with |- context [crypt (T := Salt) ?a ?b ?c ?d ?e ?f ?g] =>
    destruct (crypt (T := Salt) a b c d e f g) as [[e'|x] c2| |] eqn:Ec end; try done.
  intros [= <- <- <-]. split; [done|]. by apply const_state in Ec.
Qed.

(** A salt in the parameters: all 64 bits of it, or for DES the low 32. *)
Lemma salt_params_inj p boots c1 c2 : salt_params p boots c1 = salt_params p boots c2 ->
  0 <= c1 < 2 ^ 64 -> 0 <= c2 < 2 ^ 64 ->
  if bool_decide (p = Des) then c1 mod 2 ^ 32 = c2 mod 2 ^ 32 else c1 = c2.
Proof.
  intros H H1 H2. unfold salt_params in H.
  assert (forall a b, be_bytes 4 (wrap 32 a) = be_bytes 4 (wrap 32 b) -> wrap 32 a = wrap 32 b) as Hinj.
  { intros a b E. apply (f_equal be_value) in E. rewrite !be_value_be_bytes in E.
    rewrite !Z.mod_small in E by (apply Z.mod_pos_bound; lia). done. }
  apply app_inj_2 in H as [Ha Hb]; [|done]. apply Hinj in Hb. unfold wrap in Hb.
  destruct (bool_decide (p = Des)); [done|]. apply Hinj in Ha. unfold wrap in Ha.
  rewrite !Z.shiftr_div_pow2, !(Z.mod_small (_ / _)) in Ha
    by (lia || (split; [apply Z.div_pos; lia|apply Z.div_lt_upper_bound; lia])).
  rewrite (Z.div_mod c1 (2 ^ 32)), (Z.div_mod c2 (2 ^ 32)) by lia. congruence.
Qed.

Lemma encrypt_all_params ssl p key boots msgs c params c' : 0 <= c < 2 ^ 64 ->
  encrypt_all ssl p key boots msgs c = Done (inr params) c' ->
  params = (fun k => salt_params p boots (wrap 64 (c + k))) <$> seqZ 0 (zlen msgs).
Proof.
  revert c params c'. induction msgs as [|[time plaintext] msgs IH]; intros c params c' Hc; cbn [encrypt_all].
  { unfold ret. by intros [= <- _]. }
  unfold bind_sum, bind, ret. destruct (privEncrypt ssl p key boots time plaintext c) as [[e|[out q]] c1| |] eqn:E; try done.
  apply privEncrypt_params in E as [-> ->].
  destruct (encrypt_all ssl p key boots msgs (wrap 64 (c + 1))) as [[e|rest] c2| |] eqn:Er; try done.
  intros [= <- _]. apply IH in Er; [|apply Z.mod_pos_bound; lia]. cbn [snd length].
  rewrite Nat2Z.inj_succ, seqZ_cons by lia. cbn [fmap list_fmap]. f_equal.
  - f_equal. rewrite Z.add_0_r. symmetry. by apply wrap_small.
  - rewrite Er, Z.pred_succ. rewrite <- (fmap_add_seqZ 1 0), <- list_fmap_compose.
    apply list_fmap_ext. intros i k _. cbn. f_equal. unfold wrap. rewrite Zplus_mod_idemp_l. f_equal. lia.
Qed.

(** Numbers less than [m] apart have different remainders. *)
Lemma mod_window m c i j : 0 < m -> - m < i - j < m -> (c + i) mod m = (c + j) mod m -> i = j.
Proof.
  intros Hm Hij E. pose proof (Z.div_mod (c + i) m ltac:(lia)). pose proof (Z.div_mod (c + j) m ltac:(lia)).
  assert (i - j = m * ((c + i) / m - (c + j) / m)) as Hd by lia.
  destruct (Z.eq_dec ((c + i) / m) ((c + j) / m)); [lia|]. nia.
Qed.

(** ** A concrete library, for the examples

    Its digest is a checksum and its cipher an exclusive or: neither is secure, and
    both satisfy the laws. *)
Module Toy.

Definition md_size (p : AuthProtocol) : Z :=
  match p with
  | AuthNone => 0 | Md5 => 16 | Sha1 => 20 | Sha224 => 28 | Sha256 => 32 | Sha384 => 48 | Sha512 => 64
  end.

Definition checksum (p : AuthProtocol) (xs : Octets) : Octets :=
  replicate (Z.to_nat (md_size p)) (to_byte (fold_left Z.add xs 0)).

Definition mask (key iv : Octets) : Z := to_byte (fold_left Z.add (key ++ iv) 0).

Definition ssl : OpenSSL := {|
  MdCtx := AuthProtocol * Octets;
  EVP_DigestInit p := Some (p, []);
  EVP_DigestUpdate c ys := Some (c.1, c.2 ++ ys);
  EVP_DigestFinal c := Some (checksum c.1 c.2);
  EVP_MD_get_size := md_size;
  HMAC p k m := Some (checksum p (k ++ m));
  OSSL_PROVIDER_load := true;
  EvpCipher := unit;
  EVP_CIPHER_fetch _ := Some tt;
  CipherCtx := Z;
  EVP_CipherInit _ key iv _ := Some (mask key iv);
  EVP_CIPHER_CTX_set_padding c _ := Some c;
  EVP_CipherUpdate c input _ := Some (c, Z.lxor c <$> input);
  EVP_CipherFinal _ := Some [] |}.

Lemma checksum_length p x : zlen (checksum p x) = md_size p.
Proof. unfold checksum. rewrite length_replicate. apply Z2Nat.id. by destruct p. Qed.

Lemma checksum_octets p x : octets_ok (checksum p x).
Proof. apply Forall_replicate, to_byte_ok. Qed.

Lemma lxor_octet a b : byte_ok a -> byte_ok b -> byte_ok (Z.lxor a b).
Proof.
  unfold byte_ok. intros Ha Hb. rewrite <- (Z.mod_small a (2 ^ 8)), <- (Z.mod_small b (2 ^ 8)) by done.
  assert (Z.lxor (a mod 2 ^ 8) (b mod 2 ^ 8) = Z.lxor a b mod 2 ^ 8) as ->.
  { apply Z.bits_inj'. intros n Hn. rewrite Z.lxor_spec. destruct (Z.lt_ge_cases n 8).
    - by rewrite !Z.mod_pow2_bits_low, Z.lxor_spec by lia.
    - by rewrite !Z.mod_pow2_bits_high by lia. }
  by apply (Z.mod_pos_bound _ 256).
Qed.

#[export] Instance laws : OpenSSLLaws ssl.
Proof.
  refine (Build_OpenSSLLaws ssl checksum (fun c p xs => c = (p, xs)) _ _ _ _ _ _ _
    (fun _ key iv _ x => Z.lxor (mask key iv) <$> x) _ _ _ _).
  - intros p _. eexists. done.
  - intros c p xs ys ->. eexists. done.
  - intros c p xs ->. done.
  - intros p xs _. apply checksum_length.
  - apply checksum_octets.
  - done.
  - intros p k m _. eexists. split; [done|]. split; [apply checksum_length|apply checksum_octets].
  - intros p name _ _. exists tt. split; [done|]. intros key iv dir _ _.
    do 2 eexists. do 3 (split; [done|]). intros input _ _ _. eexists. done.
  - intros. apply length_fmap.
  - intros p key iv dir x Hx. apply Forall_fmap. eapply Forall_impl; [|exact Hx].
    intros b Hb. apply lxor_octet; [apply to_byte_ok|done].
  - intros p key iv x _ _. rewrite <- list_fmap_compose. rewrite <- (list_fmap_id x) at 2.
    apply list_fmap_ext. intros i b _. cbn. by rewrite <- Z.lxor_assoc, Z.lxor_nilpotent, Z.lxor_0_l.
Defined.

End Toy.

(** ** Properties *)

Section Properties.
Context {ssl : OpenSSL} {L : OpenSSLLaws ssl}.

(** C36: a privacy payload opens.  With any key long enough for the protocol, what
    [privEncrypt] produced, [privDecrypt] turns back into the plaintext, for DES
    followed by fewer than eight zero octets of padding, from the engine boots and
    time and the 8-octet [privParams] the message carries, and the salt counter
    moves on. *)
Theorem priv_roundtrip {T} p key boots time plaintext c (s : T) :
  key_fits p key -> (p = Des -> OSSL_PROVIDER_load ssl = true) ->
  octets_ok plaintext -> zlen (padded p plaintext) < 2 ^ 31 -> (p = Des -> plaintext <> []) ->
  exists ciphertext params,
    privEncrypt ssl p key boots time plaintext c = Done (inr (ciphertext, params)) (wrap 64 (c + 1)) /\
    length params = saltSize /\ length ciphertext = length (padded p plaintext) /\
    privDecrypt ssl p key boots time params ciphertext s = Done (inr (padded p plaintext)) s.
Proof.
  intros Hk Hleg Hok Hl Hne. do 2 eexists. split; [by apply privEncrypt_run|].
  set (params := salt_params p boots c). split; [apply length_salt_params|]. split; [apply pass_length|].
  rewrite privDecrypt_run; [|done|done|apply length_salt_params|..].
  - by rewrite pass_inverse by (apply padded_octets || apply padded_whole; done).
  - intros Hd. rewrite pass_length. by apply padded_whole.
  - intros Hd E. apply (f_equal length) in E. rewrite pass_length in E.
    unfold padded in E. rewrite length_app in E. specialize (Hne Hd). destruct plaintext; [done|cbn in E; lia].
  - by rewrite pass_length.
Qed.

(** Decryption never reads outside what the network sent.  For every protocol,
    key, [privParams] and ciphertext, [privDecrypt] returns: a key that is too
    short or a protocol without a cipher is [UnsupportedPrivProtocol], privacy
    parameters that are not 8 octets and DES payloads that are empty or not whole
    blocks are [DecryptionFailed], DES without the legacy provider is
    [LegacyProviderUnavailable], and otherwise there is a plaintext as long as the
    ciphertext. *)
Theorem privDecrypt_total {T} p key boots time params c (s : T) :
  zlen c < 2 ^ 31 ->
  privDecrypt ssl p key boots time params c s =
    Done (if (length key <? privKeySize p)%nat || bool_decide (p = PrivNone)
          then inl (make_error_code UnsupportedPrivProtocol)
          else if negb (length params =? 8)%nat then inl (make_error_code DecryptionFailed)
          else if bool_decide (p = Des) && (bool_decide (c = []) || negb (length c mod 8 =? 0)%nat)
          then inl (make_error_code DecryptionFailed)
          else if bool_decide (p = Des) && negb (OSSL_PROVIDER_load ssl)
          then inl (make_error_code LegacyProviderUnavailable)
          else inr (pass p key (iv_of p key boots time params) false c)) s.
Proof. apply privDecrypt_cases. Qed.

(** C37: [passwordToKey] is RFC 3414 A.2: the 64-octet chunks it feeds to the digest
    are together exactly the password repeated to 1,048,576 octets, whatever its
    length; a protocol without a hash and an empty password are refused. *)
Theorem passwordToKey_expands {T} p password (s : T) :
  octets_ok password ->
  passwordToKey ssl p password s =
    Done (if bool_decide (p = AuthNone) then inl (make_error_code UnsupportedAuthProtocol)
          else if bool_decide (password = []) then inl (make_error_code EmptyPassword)
          else inr (digest p (cycle password 0 1048576))) s.
Proof.
  exact (passwordToKey_cases p password s).
Qed.

(** [localizedPrivKey] gives exactly the octets the cipher takes.  Its loop ends
    after at most one extension, Reeder's or Blumenthal's as the protocol says and
    never the other, and the key is a prefix of the localized key followed by that
    extension. *)
Theorem localizedPrivKey_size {T} creds engineId (s : T) :
  privProtocol creds <> PrivNone -> authProtocol creds <> AuthNone ->
  privPassword creds <> [] -> octets_ok (privPassword creds) ->
  exists key, localizedPrivKey ssl creds engineId s = Done (inr key) s /\
    length key = privKeySize (privProtocol creds) /\
    let short := localized (authProtocol creds) (privPassword creds) engineId in
    let reeder := bool_decide (privProtocol creds = Aes192C \/ privProtocol creds = Aes256C) in
    key `prefix_of` short ++ extension (authProtocol creds) reeder engineId short.
Proof.
  intros Hp Ha Hne Hok. rewrite localizedPrivKey_run by done. unfold derived_priv, derived_auth.
  rewrite !bool_decide_false by done. eexists. split; [done|]. split; [|apply prefix_take].
  rewrite length_take, length_app. pose proof (privKeySize_le (privProtocol creds)).
  set (short := localized _ _ _). set (reeder := bool_decide _).
  assert (16 <= length short)%nat by (unfold short, localized; by apply digest_length).
  pose proof (extension_length (authProtocol creds) reeder engineId short Ha). lia.
Qed.

(** The digest in a message is exactly as wide as [authParamsSize] says, for
    every protocol that has one, so the placeholder it replaces is the right size. *)
Theorem authDigest_width {T} p key m (s : T) :
  exists r, authDigest ssl p key m s = Done r s /\
    match r with
    | inl ec => p = AuthNone /\ ec = make_error_code UnsupportedAuthProtocol
    | inr d => p <> AuthNone /\ length d = authParamsSize p /\ octets_ok d
    end.
Proof.
  destruct (decide (p = AuthNone)) as [->|Hp]; [by eexists|].
  destruct (authDigest_run p key m s Hp) as (mac & _ & -> & Hw & Hok). by eexists.
Qed.

End Properties.


Lemma priv_roundtrip_witness :
  exists ciphertext params,
    privEncrypt Toy.ssl Des (replicate 16 7) 3 5 [1; 2; 3] 41 = Done (inr (ciphertext, params)) 42 /\
    length params = 8%nat /\ length ciphertext = 8%nat /\
    privDecrypt Toy.ssl Des (replicate 16 7) 3 5 params ciphertext tt = Done (inr [1; 2; 3; 0; 0; 0; 0; 0]) tt.
Proof.
  apply (priv_roundtrip (L := Toy.laws) Des (replicate 16 7) 3 5 [1; 2; 3] 41 tt);
    [split; [discriminate|vm_compute; lia]|reflexivity| |vm_compute; reflexivity|discriminate].
  apply (bool_decide_unpack _). vm_compute. exact I.
Defined.

Lemma privDecrypt_total_witness :
  privDecrypt Toy.ssl Aes128 (replicate 16 7) 3 5 [1; 2; 3] [9; 9] tt =
    Done (inl (make_error_code DecryptionFailed)) tt.
Proof.
  apply (privDecrypt_total (L := Toy.laws) Aes128 (replicate 16 7) 3 5 [1; 2; 3] [9; 9] tt).
  vm_compute. reflexivity.
Defined.

Lemma passwordToKey_expands_witness :
  passwordToKey Toy.ssl Sha256 (str "maplesyrup") tt =
    Done (inr (digest (OpenSSLLaws := Toy.laws) Sha256 (cycle (str "maplesyrup") 0 1048576))) tt.
Proof.
  apply (passwordToKey_expands (L := Toy.laws) Sha256 (str "maplesyrup") tt).
  apply (bool_decide_unpack _). vm_compute. exact I.
Defined.

Lemma localizedPrivKey_size_witness :
  let creds := mkCredentials (str "u") AuthPriv Md5 (str "authpass") Aes256C (str "privpass") in
  exists key, localizedPrivKey Toy.ssl creds [1; 2; 3; 4; 5] tt = Done (inr key) tt /\ length key = 32%nat.
Proof.
  destruct (localizedPrivKey_size (L := Toy.laws)
    (mkCredentials (str "u") AuthPriv Md5 (str "authpass") Aes256C (str "privpass")) [1; 2; 3; 4; 5] tt)
    as (key & E & Hl & _); [discriminate..| |].
  - apply (bool_decide_unpack _). vm_compute. exact I.
  - exists key. split; [exact E|exact Hl].
Defined.

Lemma authDigest_width_witness :
  exists r, authDigest Toy.ssl Sha512 [1; 2] [3] tt = Done r tt /\
    match r with
    | inl ec => Sha512 = AuthNone /\ ec = make_error_code UnsupportedAuthProtocol
    | inr d => Sha512 <> AuthNone /\ length d = 48%nat /\ octets_ok d
    end.
Proof. apply (authDigest_width (L := Toy.laws) Sha512 [1; 2] [3] tt). Defined.

