(* ===== verification/V3Message.v ===== *)
(** * V3Message: the SNMPv3 message

    Models [include/snmpio/V3Message.hpp] and [src/V3Message.cpp].  A message is
    built in five Writers, one inside the other, and the digest is copied over a
    placeholder at an offset computed from their sizes; it is taken apart by two
    Readers, the second over the security parameters of the first. *)

From S2P Require Import Prelude Errors Oids Values Ber BerWriter BerReader BerRoundtrip Pdu Usm.

Definition versionV3 : Z := 3.
Definition securityModelUsm : Z := 3.
Definition defaultMaxMessageSize : Z := 65507.

Record V3Header : Type := mkV3Header {
  msgId : Z;
  maxSize : Z;
  h_level : SecurityLevel;
  reportable : bool;
  securityModel : Z }.

Record UsmParameters : Type := mkUsmParameters {
  u_engineId : Octets;
  u_boots : Z;
  u_time : Z;
  u_userName : cstring;
  u_authParams : Octets;
  u_privParams : Octets }.

Record ScopedPdu : Type := mkScopedPdu {
  contextEngineId : Octets;
  contextName : cstring;
  s_pdu : Pdu }.

(** [Pdu p;], as its default member initialisers make it. *)
Definition default_pdu : Pdu := mkPdu Get 0 0 0 [].
Definition default_scoped : ScopedPdu := mkScopedPdu [] [] default_pdu.

Record V3Message : Type := mkV3Message {
  header : V3Header;
  security : UsmParameters;
  scoped : ScopedPdu;
  encryptedPdu : Octets;
  authParamsOffset : Z }.

Definition reportableFlag : Z := 0x04.
Definition securityLevelMask : Z := 0x03.
Definition privWithoutAuth : Z := 0x02.

Definition encodeFlags (h : V3Header) : Z :=
  let flags := level_bits (h_level h) in
  if reportable h then Z.lor flags reportableFlag else flags.

Definition encodeUsmContent (usm : UsmParameters) (authWidth : nat) (privParams : Octets) : M Writer Z :=
  Writer.octetString (u_engineId usm) tag.octetString ;;;
  Writer.integer (u_boots usm) tag.integer ;;;
  Writer.integer (u_time usm) tag.integer ;;;
  Writer.octetString (u_userName usm) tag.octetString ;;;
  let blank := replicate authWidth 0 in
  let! authOffset := gets (fun w => wrap 64 (zlen (w_buf w) + 2)) in
  Writer.octetString blank tag.octetString ;;;
  Writer.octetString privParams tag.octetString ;;;
  ret authOffset.

Definition encodeScopedPdu (s : ScopedPdu) : M Writer unit :=
  Writer.in_sequence (
    Writer.octetString (contextEngineId s) tag.octetString ;;;
    Writer.octetString (contextName s) tag.octetString ;;;
    encodePdu (s_pdu s)).

Definition decodeScopedPdu : M Reader (option ScopedPdu) :=
  let? s := Reader.in_scope tag.sequence (
    let! engine := Reader.octetString tag.octetString in
    let! context := Reader.octetString tag.octetString in
    match engine, context with
    | Some engine, Some context =>
        let! pdu := decodePdu in
        match pdu with
        | None => ret None
        | Some pdu => ret (Some (mkScopedPdu engine context pdu))
        end
    | _, _ => ret None
    end) in
  Reader.unless_failed s.

(** [for (const auto& stage : {...}) if (stage) ...]. *)
Fixpoint first_error (stages : list ErrorCode) : option ErrorCode :=
  match stages with
  | [] => None
  | stage :: stages' => if is_error stage then Some stage else first_error stages'
  end.

Section Message.
Context (ssl : OpenSSL).

(** [offset += a.size() - b.size()] on [std::size_t]. *)
Definition shifted (offset : Z) (a b : Octets) : Z := wrap 64 (offset + (zlen a - zlen b)).

(** The stages after the ScopedPDU has been encoded, and encrypted if it is to be. *)
Definition assemble (hdr : V3Header) (usm : UsmParameters) (auth : AuthProtocol)
    (localizedKey : Octets) (encrypt authenticate : bool) (authWidth : nat)
    (scopedContent : Writer) (ciphertext privParams : Octets) : M Salt (ErrorCode + Octets) :=
  run_local Writer.new (encodeUsmContent usm authWidth (if encrypt then privParams else u_privParams usm))
  (fun authOffset usmContent =>
  run_local Writer.new (Writer.tlv tag.sequence (w_buf usmContent)) (fun _ usmParams =>
  let authOffset := shifted authOffset (w_buf usmParams) (w_buf usmContent) in
  run_local Writer.new (
    Writer.integer versionV3 tag.integer ;;;
    Writer.in_sequence (
      Writer.integer (msgId hdr) tag.integer ;;;
      Writer.integer (maxSize hdr) tag.integer ;;;
      Writer.octetString [encodeFlags hdr] tag.octetString ;;;
      Writer.integer (securityModel hdr) tag.integer) ;;;
    Writer.octetString (w_buf usmParams) tag.octetString) (fun _ body =>
  let authOffset := shifted authOffset (w_buf body) (w_buf usmParams) in
  run_local body (if encrypt then Writer.octetString ciphertext tag.octetString
                  else Writer.raw (w_buf scopedContent)) (fun _ body =>
  run_local Writer.new (Writer.tlv tag.sequence (w_buf body)) (fun _ w =>
  let authOffset := shifted authOffset (w_buf w) (w_buf body) in
  match first_error [w_ec scopedContent; w_ec usmContent; w_ec usmParams; w_ec body; w_ec w] with
  | Some ec => ret (inl ec)
  | None =>
      let out := w_buf w in
      if negb authenticate then ret (inr out)
      else
        let+ d := authDigest ssl auth localizedKey out in
        let! out := copy_to d out (Z.to_nat authOffset) in
        ret (inr out)
  end))))).

Definition encodeV3Message (hdr : V3Header) (usm : UsmParameters) (scoped : ScopedPdu)
    (auth : AuthProtocol) (localizedKey : Octets) (priv : PrivProtocol) (privKey : Octets)
  : M Salt (ErrorCode + Octets) :=
  let encrypt := isEncrypted (h_level hdr) in
  if encrypt && bool_decide (priv = PrivNone) then err UnsupportedPrivProtocol
  else
    let authenticate := isAuthenticated (h_level hdr) in
    if authenticate && bool_decide (auth = AuthNone) then err UnsupportedAuthProtocol
    else
      let authWidth := if authenticate then authParamsSize auth else 0%nat in
      run_local Writer.new (encodeScopedPdu scoped) (fun _ scopedContent =>
      let+ x := (if encrypt
                 then privEncrypt ssl priv privKey (u_boots usm) (u_time usm) (w_buf scopedContent)
                 else ret (inr ([], []))) in
      assemble hdr usm auth localizedKey encrypt authenticate authWidth scopedContent x.1 x.2).

(** [static_cast<SecurityLevel>(bits)] on two bits that are not [privWithoutAuth]. *)
Definition level_of_bits (bits : Z) : SecurityLevel :=
  if bits =? 0 then NoAuthNoPriv else if bits =? 1 then AuthNoPriv else AuthPriv.

Definition decodeHeader : M Reader (ErrorCode + V3Header) :=
  Reader.in_scope tag.sequence (
    let! msgId := Reader.integer tag.integer in
    let! maxSize := Reader.integer tag.integer in
    let! flags := Reader.octetString tag.octetString in
    let! model := Reader.integer tag.integer in
    match msgId, maxSize, flags, model with
    | Some msgId, Some maxSize, Some flags, Some model =>
        match flags with
        | [front] =>
            if Z.land front securityLevelMask =? privWithoutAuth then err BadMessageFlags
            else ret (inr (mkV3Header msgId maxSize (level_of_bits (Z.land front securityLevelMask))
                                      (negb (Z.land front reportableFlag =? 0)) model))
        | _ => err BadMessageFlags
        end
    | _, _, _, _ => reader_error
    end).

(** The Reader [sub] over the security parameters: the six fields, and where the
    digest is, relative to them. *)
Definition decodeUsm {T} (params : Octets) : M T (ErrorCode + (UsmParameters * Z)) :=
  run_local (Reader.new params)
    (let+ result := Reader.in_scope tag.sequence (
       let! engineId := Reader.octetString tag.octetString in
       let! boots := Reader.integer tag.integer in
       let! time := Reader.integer tag.integer in
       let! userName := Reader.octetString tag.octetString in
       let! authParams := Reader.octetString tag.octetString in
       let! afterAuthParams := gets r_pos in
       let! privParams := Reader.octetString tag.octetString in
       match engineId, boots, time, userName, authParams, privParams with
       | Some engineId, Some boots, Some time, Some userName, Some authParams, Some privParams =>
           ret (inr (mkUsmParameters engineId boots time userName authParams privParams,
                     afterAuthParams - zlen authParams))
       | _, _, _, _, _, _ => reader_error
       end) in
     let! all := Reader.finish in
     if negb all then reader_error else ret (inr result))
    (fun result _ => ret result).

Definition decodeV3Message {T} (datagram : Octets) : M T (ErrorCode + V3Message) :=
  run_local (Reader.new datagram)
    (let+ msg := Reader.in_scope tag.sequence (
       let! version := Reader.integer tag.integer in
       match version with
       | None => reader_error
       | Some version =>
           if negb (version =? versionV3) then err BadVersion
           else
             let+ header := decodeHeader in
             let! r := get_st in
             if negb (Reader.ok r) then reader_error
             else if negb (securityModel header =? securityModelUsm) then err UnsupportedSecurityModel
             else
               let! params := Reader.octetStringView tag.octetString in
               match params with
               | None => reader_error
               | Some params =>
                   let paramsBase := Reader.s_off params in
                   let+ usm := decodeUsm (Reader.s_bytes params) in
                   let authParamsOffset := wrap 64 (paramsBase + usm.2) in
                   if isEncrypted (h_level header) then
                     let! encrypted := Reader.octetString tag.octetString in
                     match encrypted with
                     | None => reader_error
                     | Some encrypted =>
                         ret (inr (mkV3Message header usm.1 default_scoped encrypted authParamsOffset))
                     end
                   else
                     let! scoped := decodeScopedPdu in
                     match scoped with
                     | None => reader_error
                     | Some scoped => ret (inr (mkV3Message header usm.1 scoped [] authParamsOffset))
                     end
               end
       end) in
     let! all := Reader.finish in
     if negb all then reader_error else ret (inr msg))
    (fun result _ => ret result).

(** Gives the message with its ScopedPDU in place. *)
Definition decryptScopedPdu {T} (msg : V3Message) (priv : PrivProtocol) (privKey : Octets)
  : M T (ErrorCode + V3Message) :=
  let+ plain := privDecrypt ssl priv privKey (u_boots (security msg)) (u_time (security msg))
                  (u_privParams (security msg)) (encryptedPdu msg) in
  run_local (Reader.new plain) decodeScopedPdu (fun scoped _ =>
    match scoped with
    | None => err DecryptionFailed
    | Some scoped =>
        ret (inr (mkV3Message (header msg) (security msg) scoped (encryptedPdu msg) (authParamsOffset msg)))
    end).

(** [std::fill_n(v.begin() + off, n, 0)]. *)
Definition fill_zeros {T} (off n : nat) (v : Octets) : M T Octets := copy_to (replicate n 0) v off.

(** [inl] is [false] with its [ec]. *)
Definition verifyAuth {T} (datagram : Octets) (msg : V3Message) (auth : AuthProtocol)
    (localizedKey : Octets) : M T (ErrorCode + unit) :=
  let authParams := u_authParams (security msg) in
  if negb (isAuthenticated (h_level (header msg))) || negb (length authParams =? authParamsSize auth)%nat
  then err AuthFailed
  else if wrap 64 (authParamsOffset msg + zlen authParams) >? zlen datagram then err AuthFailed
  else
    let! blanked := fill_zeros (Z.to_nat (authParamsOffset msg)) (length authParams) datagram in
    let+ expected := authDigest ssl auth localizedKey blanked in
    if negb (length expected =? length authParams)%nat || negb (bool_decide (expected = authParams))
    then err AuthFailed
    else ret (inr tt).

End Message.

(** ** Reference decoders *)

Definition p_octets : Reader.parser Octets := Reader.p_prim tag.octetString.

Definition p_scoped_body : Reader.parser ScopedPdu :=
  Reader.p_bind p_octets (fun engine => Reader.p_bind p_octets (fun context =>
    Reader.p_map (mkScopedPdu engine context) p_pdu)).

Definition p_scoped : Reader.parser ScopedPdu := Reader.p_scope tag.sequence p_scoped_body.

(** msgFlags: exactly one octet, and never privacy without authentication. *)
Definition p_header_fields : Reader.parser V3Header :=
  Reader.p_bind p_int32 (fun msgId => Reader.p_bind p_int32 (fun maxSize =>
  Reader.p_bind p_octets (fun flags => Reader.p_bind p_int32 (fun model =>
    match flags with
    | [front] =>
        if Z.land front 3 =? 2 then Reader.p_fail BadMessageFlags
        else Reader.p_ret (mkV3Header msgId maxSize (level_of_bits (Z.land front 3))
                             (negb (Z.land front 4 =? 0)) model)
    | _ => Reader.p_fail BadMessageFlags
    end)))).

Definition p_usm : parser_at (UsmParameters * Z) :=
  p_bind_at p_octets (fun engineId => p_bind_at p_int32 (fun boots => p_bind_at p_int32 (fun time =>
  p_bind_at p_octets (fun userName => p_bind_at p_octets (fun authParams => fun after =>
  Reader.p_map (fun privParams =>
    (mkUsmParameters engineId boots time userName authParams privParams, after - zlen authParams))
    p_octets))))).

(** The security parameters, and where in them the digest is. *)
Definition dec_usm (params : Octets) : Errc + (UsmParameters * Z) :=
  dec_whole (p_scope_at tag.sequence p_usm 0) params.

(** msgData: what msgFlags says it is. *)
Definition p_data (level : SecurityLevel) : Reader.parser (ScopedPdu * Octets) :=
  if isEncrypted level then Reader.p_map (fun e => (default_scoped, e)) p_octets
  else Reader.p_map (fun s => (s, [])) p_scoped.

Definition p_payload (hdr : V3Header) : parser_at V3Message := fun pos bs =>
  match p_octets bs with
  | inl e => inl e
  | inr (c, n) =>
      match dec_usm c with
      | inl e => inl e
      | inr (usm, rel) =>
          match p_data (h_level hdr) (drop n bs) with
          | inl e => inl e
          | inr (data, m) =>
              inr (mkV3Message hdr usm data.1 data.2 (pos + Z.of_nat n - zlen c + rel), (n + m)%nat)
          end
      end
  end.

Definition p_v3_body : parser_at V3Message :=
  p_bind_at p_int32 (fun version =>
    if negb (version =? versionV3) then fun _ => Reader.p_fail BadVersion
    else p_bind_at (Reader.p_scope tag.sequence p_header_fields) (fun hdr =>
      if negb (securityModel hdr =? securityModelUsm) then fun _ => Reader.p_fail UnsupportedSecurityModel
      else p_payload hdr)).

Definition dec_v3 (datagram : Octets) : Errc + V3Message :=
  dec_whole (p_scope_at tag.sequence p_v3_body 0) datagram.

(** ** The decoders refine them *)

#[export] Instance p_octets_reads : Reader.Reads (Reader.octetString tag.octetString) p_octets :=
  Reader.octetString_reads tag.octetString.

#[export] Instance decodeScopedPdu_reads : Reader.Reads decodeScopedPdu p_scoped.
Proof.
  apply Reader.scoped_reads; [done|].
  apply seq_reads_then; [apply _|sticky_tac|intros engine].
  apply seq_reads_then; [apply _|sticky_tac|intros context].
  apply seq_reads; [apply _|intros pdu; apply Reader.ret_runs|sticky_tac].
Qed.

Lemma if_failE {A} (b : bool) e (m : M Reader (ErrorCode + A)) p : e <> Ok -> RunsE m p ->
  RunsE (if b then err e else m) (if b then fun _ => Reader.p_fail e else p).
Proof. intros He R. destruct b; [by apply failE|done]. Qed.

Lemma header_fields_runs :
  let m := (
    let! msgId := Reader.integer tag.integer in
    let! maxSize := Reader.integer tag.integer in
    let! flags := Reader.octetString tag.octetString in
    let! model := Reader.integer tag.integer in
    match msgId, maxSize, flags, model with
    | Some msgId, Some maxSize, Some flags, Some model =>
        match flags with
        | [front] =>
            if Z.land front securityLevelMask =? privWithoutAuth then err BadMessageFlags
            else ret (inr (mkV3Header msgId maxSize (level_of_bits (Z.land front securityLevelMask))
                                      (negb (Z.land front reportableFlag =? 0)) model))
        | _ => err BadMessageFlags
        end
    | _, _, _, _ => reader_error
    end) in
  RunsE m (fun _ => p_header_fields) /\ StickyE m.
Proof.
  split; [|stickyE_tac].
  apply (seqE _ p_int32 _ (fun _ _ => _)); [apply _|stickyE_tac|intros id].
  apply (seqE _ p_int32 _ (fun _ _ => _)); [apply _|stickyE_tac|intros size].
  apply (seqE _ p_octets _ (fun _ _ => _)); [apply _|stickyE_tac|intros flags].
  apply (seqE _ p_int32 _ (fun _ _ => _)); [apply _|stickyE_tac|intros model].
  destruct flags as [|front [|? ?]]; [by apply failE| |by apply failE].
  unfold securityLevelMask, privWithoutAuth, reportableFlag.
  destruct (Z.land front 3 =? 2); [by apply failE|apply retE].
Qed.

Ltac stickyG Hg := repeat first [apply seqE_sticky; [eapply Reader.reads_sticky|]; cbn beta iota
                                | apply Hg; intros ?; cbn beta iota]; apply reader_error_sticky.

Lemma usm_fields_runs :
  let m := (
    let! engineId := Reader.octetString tag.octetString in
    let! boots := Reader.integer tag.integer in
    let! time := Reader.integer tag.integer in
    let! userName := Reader.octetString tag.octetString in
    let! authParams := Reader.octetString tag.octetString in
    let! afterAuthParams := gets r_pos in
    let! privParams := Reader.octetString tag.octetString in
    match engineId, boots, time, userName, authParams, privParams with
    | Some engineId, Some boots, Some time, Some userName, Some authParams, Some privParams =>
        ret (inr (mkUsmParameters engineId boots time userName authParams privParams,
                  afterAuthParams - zlen authParams))
    | _, _, _, _, _, _ => reader_error
    end) in
  RunsE m p_usm /\ StickyE m.
Proof.
  assert (forall {A} (k : Z -> M Reader (ErrorCode + A)), (forall pos, StickyE (k pos)) ->
    StickyE (let! pos := gets r_pos in k pos)) as Hg.
  { intros A k Hk r He. unfold bind, gets. by apply Hk. }
  split; [|stickyG Hg].
  apply seqE; [apply _|stickyG Hg|intros engineId]. apply seqE; [apply _|stickyG Hg|intros boots].
  apply seqE; [apply _|stickyG Hg|intros time]. apply seqE; [apply _|stickyG Hg|intros userName].
  apply seqE; [apply _|stickyG Hg|intros authParams].
  intros r Hi He. unfold bind at 1, gets.
  apply (seqE (Reader.octetString tag.octetString) p_octets _ (fun pr _ => Reader.p_ret _));
    [apply _|stickyE_tac|intros pr; apply retE|done|done].
Qed.

Lemma decodeUsm_run {T} params (s : T) : octets_ok params -> zlen params < 2 ^ 63 ->
  decodeUsm params s =
    Done (match dec_usm params with inl e => inl (make_error_code e) | inr x => inr x end) s.
Proof.
  intros Ho Hl. destruct usm_fields_runs as [R S]. exact (whole_message tag.sequence _ _ params s eq_refl R S Ho Hl).
Qed.

(** ** Where the digest is *)

(** [bs] is what the buffer [B] holds at [pos]. *)
Definition at_pos (B : Octets) (pos : Z) (bs : Octets) : Prop :=
  0 <= pos /\ pos + zlen bs <= zlen B /\ take (length bs) (drop (Z.to_nat pos) B) = bs.

Lemma at_pos_whole B : at_pos B 0 B.
Proof. split; [lia|]. split; [lia|]. by rewrite drop_0, firstn_all. Qed.

Lemma at_pos_sub B pos bs n k : at_pos B pos bs -> (n + k <= length bs)%nat ->
  at_pos B (pos + Z.of_nat n) (take k (drop n bs)).
Proof.
  intros (H0 & H1 & H2) Hn. assert (length (take k (drop n bs)) = k) as Hl
    by (rewrite length_take, length_drop; lia).
  unfold at_pos. rewrite Hl. split; [lia|]. split; [lia|].
  replace (Z.to_nat (pos + Z.of_nat n)) with (Z.to_nat pos + n)%nat by lia.
  rewrite <- drop_drop. rewrite <- H2. replace (length bs) with (n + (length bs - n))%nat by lia.
  rewrite <- take_drop_commute, take_take. f_equal. lia.
Qed.

Lemma at_pos_drop B pos bs n : at_pos B pos bs -> (n <= length bs)%nat ->
  at_pos B (pos + Z.of_nat n) (drop n bs).
Proof.
  intros H Hn. pose proof (at_pos_sub B pos bs n (length bs - n) H ltac:(lia)) as Hs.
  rewrite take_ge in Hs; [done|]. rewrite length_drop. lia.
Qed.

Lemma at_pos_trans B C pos off bs : at_pos B pos C -> at_pos C off bs -> at_pos B (pos + off) bs.
Proof.
  intros HB HC. pose proof HC as (H0 & H1 & H2).
  pose proof (at_pos_sub B pos C (Z.to_nat off) (length bs) HB ltac:(lia)) as H.
  rewrite H2 in H. replace (Z.of_nat (Z.to_nat off)) with off in H by lia. done.
Qed.

(** The content of a primitive element is the end of the element. *)
Lemma p_prim_at B pos t bs c n : Reader.p_prim t bs = inr (c, n) -> octets_ok bs -> at_pos B pos bs ->
  (n <= length bs)%nat /\ at_pos B (pos + Z.of_nat n - zlen c) c.
Proof.
  unfold Reader.p_prim. destruct bs as [|b bs]; [done|]. destruct (negb _); [done|]. destruct (isConstructed t); [done|].
  destruct (Reader.p_header (b :: bs)) as [|[h k]] eqn:Hh; [done|]. intros [= <- <-] Hok H.
  destruct (Reader.p_header_len _ _ _ Hh Hok) as (H0 & H1 & _). split; [done|].
  rewrite length_take, length_drop, Nat.min_l by lia.
  replace (pos + Z.of_nat (k + Z.to_nat (Reader.h_length h)) - Z.of_nat (Z.to_nat (Reader.h_length h)))
    with (pos + Z.of_nat k) by lia.
  by apply at_pos_sub.
Qed.

Lemma p_content_at B pos {A} t (dec : Octets -> Errc + A) bs a n : Reader.p_content t dec bs = inr (a, n) ->
  octets_ok bs -> at_pos B pos bs -> (n <= length bs)%nat.
Proof. intros (c & Hc & _)%p_content_inv Hok H. by destruct (p_prim_at B pos _ _ _ _ Hc Hok H). Qed.

Lemma p_bind_at_inv {A B} (p : Reader.parser A) (k : A -> parser_at B) pos bs b n : p_bind_at p k pos bs = inr (b, n) ->
  exists a i j, p bs = inr (a, i) /\ k a (pos + Z.of_nat i) (drop i bs) = inr (b, j) /\ n = (i + j)%nat.
Proof.
  unfold p_bind_at. destruct (p bs) as [|[a i]]; [done|].
  destruct (k a _ (drop i bs)) as [|[b' j]] eqn:E; [done|]. intros [= <- <-]. eauto 10.
Qed.

Lemma p_scope_at_inv {A} t (p : parser_at A) pos bs a n B : p_scope_at t p pos bs = inr (a, n) ->
  octets_ok bs -> at_pos B pos bs ->
  exists q c, octets_ok c /\ at_pos B q c /\ p q c = inr (a, length c) /\ (n <= length bs)%nat.
Proof.
  unfold p_scope_at. destruct bs as [|b bs]; [done|]. destruct (negb _); [done|].
  destruct (Reader.p_header (b :: bs)) as [|[h k]] eqn:Hh; [done|]. intros H Hok Hat.
  destruct (Reader.p_header_len _ _ _ Hh Hok) as (? & Hl & ?).
  exists (pos + Z.of_nat k), (take (Z.to_nat (Reader.h_length h)) (drop k (b :: bs))).
  split; [eauto with snmp|]. split; [by apply at_pos_sub|].
  destruct (p _ (take _ _)) as [|[a' j]]; [done|].
  destruct (Nat.eqb_spec j (Z.to_nat (Reader.h_length h))) as [Hj|]; [|done]. injection H as <- <-.
  rewrite length_take, length_drop. split; [do 2 f_equal; lia|lia].
Qed.

Lemma p_usm_at B pos bs u off n : p_usm pos bs = inr ((u, off), n) -> octets_ok bs -> at_pos B pos bs ->
  at_pos B off (u_authParams u).
Proof.
  intros H Ho Ha. unfold p_usm in H.
  apply p_bind_at_inv in H as (e & i1 & j1 & E1 & H & _).
  destruct (p_prim_at B pos _ _ _ _ E1 Ho Ha) as [L1 _].
  pose proof (at_pos_drop _ _ _ _ Ha L1) as A1. assert (octets_ok (drop i1 bs)) as O1 by eauto with snmp.
  apply p_bind_at_inv in H as (bt & i2 & j2 & E2 & H & _).
  pose proof (p_content_at _ _ _ _ _ _ _ E2 O1 A1) as L2.
  pose proof (at_pos_drop _ _ _ _ A1 L2) as A2. assert (octets_ok (drop i2 (drop i1 bs))) as O2 by eauto with snmp.
  apply p_bind_at_inv in H as (tm & i3 & j3 & E3 & H & _).
  pose proof (p_content_at _ _ _ _ _ _ _ E3 O2 A2) as L3.
  pose proof (at_pos_drop _ _ _ _ A2 L3) as A3.
  assert (octets_ok (drop i3 (drop i2 (drop i1 bs)))) as O3 by eauto with snmp.
  apply p_bind_at_inv in H as (un & i4 & j4 & E4 & H & _).
  destruct (p_prim_at _ _ _ _ _ _ E4 O3 A3) as [L4 _].
  pose proof (at_pos_drop _ _ _ _ A3 L4) as A4.
  assert (octets_ok (drop i4 (drop i3 (drop i2 (drop i1 bs))))) as O4 by eauto with snmp.
  apply p_bind_at_inv in H as (ap & i5 & j5 & E5 & H & _).
  destruct (p_prim_at _ _ _ _ _ _ E5 O4 A4) as [_ A5].
  apply p_map_inv in H as (pr & _ & [= -> ->]). done.
Qed.

Lemma dec_usm_at c u rel : dec_usm c = inr (u, rel) -> octets_ok c -> at_pos c rel (u_authParams u).
Proof.
  unfold dec_usm, dec_whole. destruct (p_scope_at _ _ _ _) as [|[x n]] eqn:E; [done|].
  destruct (_ =? _)%nat; [|done]. intros [= ->] Ho.
  destruct (p_scope_at_inv _ _ _ _ _ _ c E Ho (at_pos_whole c)) as (q & d & Od & Ad & H & _).
  by eapply p_usm_at.
Qed.

(** ** The whole message *)

Lemma dec_usm_error c : octets_ok c -> zlen c < 2 ^ 63 -> dec_usm c <> inl Ok.
Proof. intros Ho Hl. destruct usm_fields_runs as [R S]. exact (whole_error tag.sequence _ _ c eq_refl R S Ho Hl). Qed.

Lemma data_runs hdr u off :
  RunsE (if isEncrypted (h_level hdr) then
           let! encrypted := Reader.octetString tag.octetString in
           match encrypted with
           | None => reader_error
           | Some encrypted => ret (inr (mkV3Message hdr u default_scoped encrypted off))
           end
         else
           let! scoped := decodeScopedPdu in
           match scoped with
           | None => reader_error
           | Some scoped => ret (inr (mkV3Message hdr u scoped [] off))
           end)
        (fun _ => Reader.p_map (fun data => mkV3Message hdr u data.1 data.2 off) (p_data (h_level hdr))).
Proof.
  unfold p_data. destruct (isEncrypted (h_level hdr)).
  - intros r Hi He. pose proof (seqE (Reader.octetString tag.octetString) p_octets
      (fun o => match o with None => reader_error
                | Some e => ret (inr (mkV3Message hdr u default_scoped e off)) end)
      (fun e _ => Reader.p_ret (mkV3Message hdr u default_scoped e off)) _ reader_error_sticky
      (fun e => retE _) r Hi He) as R.
    unfold p_bind_at, Reader.p_map, Reader.p_bind, Reader.p_ret in *.
    destruct (p_octets (Reader.view r)) as [|[e n]]; [done|]. by rewrite (Nat.add_0_r (n + 0)).
  - intros r Hi He. pose proof (seqE decodeScopedPdu p_scoped
      (fun o => match o with None => reader_error
                | Some s => ret (inr (mkV3Message hdr u s [] off)) end)
      (fun s _ => Reader.p_ret (mkV3Message hdr u s [] off)) _ reader_error_sticky
      (fun s => retE _) r Hi He) as R.
    unfold p_bind_at, Reader.p_map, Reader.p_bind, Reader.p_ret in *.
    destruct (p_scoped (Reader.view r)) as [|[s n]]; [done|]. by rewrite (Nat.add_0_r (n + 0)).
Qed.

Lemma payload_runs hdr :
  RunsE (let! params := Reader.octetStringView tag.octetString in
         match params with
         | None => reader_error
         | Some params =>
             let paramsBase := Reader.s_off params in
             let+ usm := decodeUsm (Reader.s_bytes params) in
             let authParamsOffset := wrap 64 (paramsBase + usm.2) in
             if isEncrypted (h_level hdr) then
               let! encrypted := Reader.octetString tag.octetString in
               match encrypted with
               | None => reader_error
               | Some encrypted => ret (inr (mkV3Message hdr usm.1 default_scoped encrypted authParamsOffset))
               end
             else
               let! scoped := decodeScopedPdu in
               match scoped with
               | None => reader_error
               | Some scoped => ret (inr (mkV3Message hdr usm.1 scoped [] authParamsOffset))
               end
         end) (p_payload hdr).
Proof.
  intros r Hi He. pose proof (Reader.primitiveContent_run tag.octetString r Hi He) as R. unfold p_payload.
  fold p_octets in R. unfold Reader.octetStringView. destruct (p_octets (Reader.view r)) as [e|[c n]].
  { destruct R as (Hne & pos & _ & E). rewrite (bind_done _ _ _ _ _ E). split; [done|]. by eexists. }
  destruct R as (Hn & Hc & Hcn & E). rewrite (bind_done _ _ _ _ _ E). cbn [Reader.s_off Reader.s_bytes]. cbn zeta.
  assert (zlen c <= zlen (Reader.view r) /\ zlen (Reader.view r) < 2 ^ 63 /\ 0 <= r_pos r /\
    r_pos r + Z.of_nat n < 2 ^ 63) as (Hc1 & Hv63 & Hpos & Hp63).
  { rewrite Reader.zlen_view by done. pose proof (Reader.zlen_view r Hi). destruct Hi as (_ & ? & ?). lia. }
  pose proof (decodeUsm_run c (Reader.moved r n) Hc ltac:(lia)) as Eu.
  pose proof (dec_usm_error c Hc ltac:(lia)) as Hune. destruct (dec_usm c) as [e|[u rel]] eqn:Hu.
  { rewrite (bind_sum_inl _ _ _ _ _ Eu). split; [congruence|]. by eexists. }
  rewrite (bind_sum_inr _ _ _ _ _ Eu). cbn [fst snd].
  destruct (dec_usm_at c u rel Hu Hc) as (Hr0 & Hr1 & _). rewrite wrap_small by lia.
  pose proof (data_runs hdr u (r_pos r + Z.of_nat n - zlen c + rel) (Reader.moved r n)
    (Reader.inv_moved r n Hi Hn) He) as Rd. rewrite Reader.view_moved in Rd by done.
  unfold Reader.p_map, Reader.p_bind in Rd. destruct (p_data (h_level hdr) (drop n (Reader.view r))) as [e|[d m]].
  { exact Rd. }
  cbn in Rd. destruct Rd as [Hm Ed]. rewrite Nat.add_0_r, length_drop in *. rewrite Reader.moved_moved in Ed.
  split; [lia|exact Ed].
Qed.

Lemma v3_body_runs :
  let m := (
    let! version := Reader.integer tag.integer in
    match version with
    | None => reader_error
    | Some version =>
        if negb (version =? versionV3) then err BadVersion
        else
          let+ header := decodeHeader in
          let! r := get_st in
          if negb (Reader.ok r) then reader_error
          else if negb (securityModel header =? securityModelUsm) then err UnsupportedSecurityModel
          else
            let! params := Reader.octetStringView tag.octetString in
            match params with
            | None => reader_error
            | Some params =>
                let paramsBase := Reader.s_off params in
                let+ usm := decodeUsm (Reader.s_bytes params) in
                let authParamsOffset := wrap 64 (paramsBase + usm.2) in
                if isEncrypted (h_level header) then
                  let! encrypted := Reader.octetString tag.octetString in
                  match encrypted with
                  | None => reader_error
                  | Some encrypted =>
                      ret (inr (mkV3Message header usm.1 default_scoped encrypted authParamsOffset))
                  end
                else
                  let! scoped := decodeScopedPdu in
                  match scoped with
                  | None => reader_error
                  | Some scoped => ret (inr (mkV3Message header usm.1 scoped [] authParamsOffset))
                  end
            end
    end) in
  RunsE m p_v3_body /\ StickyE m.
Proof.
  split; [|stickyE_tac]. apply seqE; [apply _|stickyE_tac|intros version].
  apply if_failE; [done|]. destruct header_fields_runs as [R S].
  apply inner_scopeE; [done|exact R|exact S|]. intros hdr. apply if_failE; [done|]. apply payload_runs.
Qed.

Lemma decodeV3Message_run {T} bs (s : T) : octets_ok bs -> zlen bs < 2 ^ 63 ->
  decodeV3Message bs s =
    Done (match dec_v3 bs with inl e => inl (make_error_code e) | inr m => inr m end) s.
Proof.
  intros Ho Hl. destruct v3_body_runs as [R S]. exact (whole_message tag.sequence _ _ bs s eq_refl R S Ho Hl).
Qed.

(** A message the decoder accepts has version 3. *)
Lemma v3_version {T} bs msg (t : T) : dec_v3 bs = inr msg -> octets_ok bs -> zlen bs < 2 ^ 63 ->
  messageVersion bs t = Done (Some versionV3) t.
Proof.
  intros H Ho Hl. destruct (messageVersion_spec bs t Ho Hl) as (v & E & Hv).
  unfold dec_v3, dec_whole, p_scope_at in H. destruct bs as [|b bs]; [done|].
  destruct (Z.eqb_spec b tag.sequence) as [->|]; [|done]. cbn [negb] in H.
  destruct (Reader.p_header (tag.sequence :: bs)) as [|[hd j]] eqn:Hh; [done|].
  destruct (p_v3_body _ (take _ _)) as [|[a' i]] eqn:Hb; [done|].
  apply p_bind_at_inv in Hb as (x & i1 & i2 & Hx & Hk & _). rewrite Hx in Hv.
  destruct (Z.eqb_spec x versionV3) as [->|]; [|done]. rewrite E, Hv; [done|].
  revert Hh. unfold Reader.p_header. destruct bs as [|f bs]; [done|]. destruct (_ =? _); [done|].
  destruct (Reader.p_length f bs) as [|[len q]]; [done|]. destruct (_ <? _); [done|]. by intros [= <- _].
Qed.

(** The digest of a decoded message is in the datagram, where it says. *)
Lemma dec_v3_at bs msg : dec_v3 bs = inr msg -> octets_ok bs ->
  at_pos bs (authParamsOffset msg) (u_authParams (security msg)).
Proof.
  unfold dec_v3, dec_whole. destruct (p_scope_at _ _ _ _) as [|[x n]] eqn:E; [done|].
  destruct (_ =? _)%nat; [|done]. intros [= ->] Ho.
  destruct (p_scope_at_inv _ _ _ _ _ _ bs E Ho (at_pos_whole bs)) as (q & d & Od & Ad & H & _).
  unfold p_v3_body in H. apply p_bind_at_inv in H as (v & i1 & j1 & E1 & H & _).
  pose proof (p_content_at _ _ _ _ _ _ _ E1 Od Ad) as L1. pose proof (at_pos_drop _ _ _ _ Ad L1) as A1.
  assert (octets_ok (drop i1 d)) as O1 by eauto with snmp.
  destruct (negb _); [done|]. apply p_bind_at_inv in H as (h & i2 & j2 & E2 & H & _).
  destruct (p_scope_at_inv tag.sequence (fun _ => p_header_fields) _ _ _ _ _ E2 O1 A1) as (_ & _ & _ & _ & _ & L2).
  pose proof (at_pos_drop _ _ _ _ A1 L2) as A2. assert (octets_ok (drop i2 (drop i1 d))) as O2 by eauto with snmp.
  destruct (negb _); [done|]. unfold p_payload in H.
  destruct (p_octets _) as [|[c k]] eqn:E3; [done|]. destruct (dec_usm c) as [|[u rel]] eqn:E4; [done|].
  destruct (p_data _ _) as [|[data m]]; [done|]. injection H as <- _. cbn [security authParamsOffset].
  destruct (p_prim_at _ _ _ _ _ _ E3 O2 A2) as [_ A3]. apply (at_pos_trans _ _ _ _ _ A3).
  apply dec_usm_at; [done|]. by destruct (p_prim_inv _ _ _ _ E3 O2).
Qed.

(** What a decoded message holds came from the datagram. *)
Lemma p_data_wf level bs x n : p_data level bs = inr (x, n) -> octets_ok bs ->
  octets_ok x.2 /\ (length x.2 <= length bs)%nat.
Proof.
  unfold p_data. destruct (isEncrypted level); intros H Ho.
  - apply p_map_inv in H as (c & Hc & ->). cbn [snd]. destruct (p_prim_inv _ _ _ _ Hc Ho) as [? Hl].
    destruct (p_prim_at bs 0 _ _ _ _ Hc Ho (at_pos_whole bs)) as [Hn _]. split; [done|lia].
  - apply p_map_inv in H as (s & _ & ->). cbn. split; [constructor|lia].
Qed.

Lemma p_int32_ok bs v n : p_int32 bs = inr (v, n) -> int32_ok v.
Proof. intros (c & _ & Hd)%p_content_inv. by eapply dec_int32_ok. Qed.

Lemma header_fields_ok bs h n : p_header_fields bs = inr (h, n) -> int32_ok (msgId h) /\ int32_ok (maxSize h).
Proof.
  unfold p_header_fields. intros (id & i1 & j1 & E1 & H & _)%p_bind_inv. apply p_bind_inv in H as (sz & i2 & j2 & E2 & H & _).
  apply p_bind_inv in H as (f & i3 & j3 & _ & H & _). apply p_bind_inv in H as (m & i4 & j4 & _ & H & _).
  destruct f as [|front [|? ?]]; [done| |done]. destruct (_ =? 2); [done|]. injection H as <- _. cbn.
  split; by eapply p_int32_ok.
Qed.

(** A decoded message, part by part: the header, the security parameters out of [c], the
    data out of [rest]. *)
Record parted (bs : Octets) (msg : V3Message) (c rest : Octets) : Prop := {
  pt_header : int32_ok (msgId (header msg)) /\ int32_ok (maxSize (header msg)) /\
    securityModel (header msg) = securityModelUsm;
  pt_params : octets_ok c /\ (length c <= length bs)%nat;
  pt_usm : exists rel, dec_usm c = inr (security msg, rel);
  pt_rest : octets_ok rest /\ (length rest <= length bs)%nat;
  pt_data : exists n, p_data (h_level (header msg)) rest = inr (scoped msg, encryptedPdu msg, n) }.

Lemma dec_v3_parts bs msg : dec_v3 bs = inr msg -> octets_ok bs -> exists c rest, parted bs msg c rest.
Proof.
  unfold dec_v3, dec_whole. destruct (p_scope_at _ _ _ _) as [|[x n]] eqn:E; [done|].
  destruct (_ =? _)%nat; [|done]. intros [= ->] Ho.
  destruct (p_scope_at_inv _ _ _ _ _ _ bs E Ho (at_pos_whole bs)) as (q & d & Od & (Hd0 & Hd1 & _) & H & _).
  unfold p_v3_body in H. apply p_bind_at_inv in H as (v & i1 & j1 & E1 & H & _). destruct (negb _); [done|].
  apply p_bind_at_inv in H as (h & i2 & j2 & E2 & H & _). destruct (Z.eqb_spec (securityModel h) securityModelUsm) as [Hm|]; [|done].
  cbn [negb] in H. unfold p_payload in H. destruct (p_octets _) as [|[c k]] eqn:E3; [done|]. destruct (dec_usm c) as [|[u rel]] eqn:E4; [done|].
  destruct (p_data (h_level h) _) as [|[[sc en] m]] eqn:E5; [done|]. injection H as <- _.
  assert (octets_ok (drop i2 (drop i1 d))) as O3 by eauto with snmp. destruct (p_prim_inv _ _ _ _ E3 O3) as [Oc Hcn].
  destruct (p_prim_at _ 0 _ _ _ _ E3 O3 (at_pos_whole _)) as [_ (_ & Hc & _)].
  apply p_scope_inv in E2 as (hd & Hhd & E2); [|eauto with snmp].
  exists c, (drop k (drop i2 (drop i1 d))). split; cbn.
  - destruct (header_fields_ok _ _ _ E2). done.
  - split; [done|]. rewrite !length_drop in Hc. lia.
  - by exists rel.
  - split; [eauto with snmp|]. rewrite !length_drop. lia.
  - by exists m.
Qed.

(** The pair of a decoded message fits 32 bits; so do the engineID's octets theirs. *)
Lemma dec_v3_usm bs msg : dec_v3 bs = inr msg -> octets_ok bs ->
  int32_ok (u_boots (security msg)) /\ int32_ok (u_time (security msg)) /\
  octets_ok (u_engineId (security msg)) /\ zlen (u_engineId (security msg)) <= zlen bs.
Proof.
  intros Hd Ho. destruct (dec_v3_parts bs msg Hd Ho) as (c & rest & [_ [Oc Hcl] [rel E4] _ _]). clear Hd.
  revert E4. unfold dec_usm, dec_whole. destruct (p_scope_at _ _ _ _) as [|[x n]] eqn:E; [done|].
  destruct (_ =? _)%nat; [|done]. intros [= ->].
  destruct (p_scope_at_inv _ _ _ _ _ _ c E Oc (at_pos_whole c)) as (q & d & Od & (Hd0 & Hd1 & _) & H & _). unfold p_usm in H.
  apply p_bind_at_inv in H as (e & i1 & j1 & E1 & H & _). apply p_bind_at_inv in H as (bt & i2 & j2 & E2 & H & _).
  apply p_bind_at_inv in H as (tm & i3 & j3 & E3 & H & _). apply p_bind_at_inv in H as (un & i4 & j4 & _ & H & _).
  apply p_bind_at_inv in H as (ap & i5 & j5 & _ & H & _). apply p_map_inv in H as (pr & _ & [= -> _]). cbn.
  split; [by eapply p_int32_ok|]. split; [by eapply p_int32_ok|].
  destruct (p_prim_inv _ _ _ _ E1 Od) as [He Hen]. destruct (p_prim_at _ 0 _ _ _ _ E1 Od (at_pos_whole _)) as [_ (_ & Hx & _)].
  split; [done|lia].
Qed.

(** All six security fields, and the octets they take. *)
Lemma dec_v3_security bs msg : dec_v3 bs = inr msg -> octets_ok bs ->
  octets_ok (u_userName (security msg)) /\ octets_ok (u_authParams (security msg)) /\ octets_ok (u_privParams (security msg)) /\
  zlen (u_userName (security msg)) <= zlen bs /\ zlen (u_privParams (security msg)) <= zlen bs.
Proof.
  intros Hd Ho. destruct (dec_v3_parts bs msg Hd Ho) as (c & rest & [_ [Oc Hcl] [rel E4] _ _]). clear Hd.
  revert E4. unfold dec_usm, dec_whole. destruct (p_scope_at _ _ _ _) as [|[x n]] eqn:E; [done|].
  destruct (_ =? _)%nat; [|done]. intros [= ->].
  destruct (p_scope_at_inv _ _ _ _ _ _ c E Oc (at_pos_whole c)) as (q & d & Od & (Hd0 & Hd1 & _) & H & _). unfold p_usm in H.
  apply p_bind_at_inv in H as (e & i1 & j1 & _ & H & _). apply p_bind_at_inv in H as (bt & i2 & j2 & _ & H & _).
  apply p_bind_at_inv in H as (tm & i3 & j3 & _ & H & _). apply p_bind_at_inv in H as (un & i4 & j4 & E1 & H & _).
  apply p_bind_at_inv in H as (ap & i5 & j5 & E2 & H & _). apply p_map_inv in H as (pr & E3 & [= -> _]). cbn.
  assert (forall bs' x k, p_octets bs' = inr (x, k) -> octets_ok bs' -> (length bs' <= length bs)%nat ->
    octets_ok x /\ zlen x <= zlen bs) as Hf.
  { intros bs' x k Ex Ox Hlx. destruct (p_prim_at _ 0 _ _ _ _ Ex Ox (at_pos_whole _)) as [_ (_ & Hx & _)].
    destruct (p_prim_inv _ _ _ _ Ex Ox) as [? ?]. split; [done|lia]. }
  apply Hf in E1; [|eauto 10 with snmp|rewrite !length_drop; lia]. apply Hf in E2; [|eauto 10 with snmp|rewrite !length_drop; lia].
  apply Hf in E3; [|eauto 10 with snmp|rewrite !length_drop; lia]. intuition.
Qed.

Lemma dec_v3_wf bs msg : dec_v3 bs = inr msg -> octets_ok bs ->
  octets_ok (encryptedPdu msg) /\ zlen (encryptedPdu msg) <= zlen bs.
Proof.
  intros Hd Ho. destruct (dec_v3_parts bs msg Hd Ho) as (c & rest & [_ _ _ [Or Hr] [n E]]).
  apply p_data_wf in E as [? Hl]; [|done]. cbn in Hl. split; [done|lia].
Qed.

(** Whatever PDU is decoded has names and values that can be encoded again. *)
Definition wire_scoped (s : ScopedPdu) : Prop := Forall varbind_wire_ok (varbinds (s_pdu s)).

#[export] Instance scoped_well_formed : WellFormed p_scoped wire_scoped.
Proof.
  intros bs s n Hok (c & Hc & H)%p_scope_inv; [|done]. unfold p_scoped_body in H.
  apply p_bind_inv in H as (e & i1 & j1 & _ & H & _). apply p_bind_inv in H as (x & i2 & j2 & _ & H & _).
  apply p_map_inv in H as (p & H & ->). eapply pdu_well_formed; [|exact H]. eauto with snmp.
Qed.

Lemma dec_v3_varbinds bs msg : dec_v3 bs = inr msg -> octets_ok bs -> wire_scoped (scoped msg).
Proof.
  intros Hd Ho. destruct (dec_v3_parts bs msg Hd Ho) as (c & rest & [_ _ _ [Or _] [n E]]). unfold p_data in E.
  destruct (isEncrypted _); apply p_map_inv in E as (y & E & [= -> _]); [by apply Forall_nil|].
  by eapply scoped_well_formed.
Qed.

(** ** The reference encoding *)

Definition tlv_int (v : Z) : Octets := enc_tlv tag.integer (enc_int32 v).
Definition tlv_oct (v : Octets) : Octets := enc_tlv tag.octetString v.

(** Tag and length of an element whose content has [n] octets. *)
Definition hd (t n : Z) : Octets := t :: enc_len n.

Definition enc_header (h : V3Header) : Octets :=
  enc_tlv tag.sequence (tlv_int (msgId h) ++ tlv_int (maxSize h) ++ tlv_oct [encodeFlags h] ++
                        tlv_int (securityModel h)).

Definition usm_before (u : UsmParameters) : Octets :=
  tlv_oct (u_engineId u) ++ tlv_int (u_boots u) ++ tlv_int (u_time u) ++ tlv_oct (u_userName u).

Definition usm_content (u : UsmParameters) : Octets :=
  usm_before u ++ tlv_oct (u_authParams u) ++ tlv_oct (u_privParams u).

Definition enc_usm (u : UsmParameters) : Octets := enc_tlv tag.sequence (usm_content u).

Definition v3_content (h : V3Header) (u : UsmParameters) (data : Octets) : Octets :=
  tlv_int versionV3 ++ enc_header h ++ tlv_oct (enc_usm u) ++ data.

Definition enc_v3 (h : V3Header) (u : UsmParameters) (data : Octets) : Octets :=
  enc_tlv tag.sequence (v3_content h u data).

(** What precedes the digest, and what follows it. *)
Definition v3_before (h : V3Header) (u : UsmParameters) (data : Octets) : Octets :=
  hd tag.sequence (zlen (v3_content h u data)) ++ tlv_int versionV3 ++ enc_header h ++
  hd tag.octetString (zlen (enc_usm u)) ++ hd tag.sequence (zlen (usm_content u)) ++
  usm_before u ++ hd tag.octetString (zlen (u_authParams u)).

Definition v3_after (u : UsmParameters) (data : Octets) : Octets := tlv_oct (u_privParams u) ++ data.

Definition with_params (u : UsmParameters) (authParams privParams : Octets) : UsmParameters :=
  mkUsmParameters (u_engineId u) (u_boots u) (u_time u) (u_userName u) authParams privParams.

Definition enc_scoped (s : ScopedPdu) : option Octets :=
  enc_tlv tag.sequence <$>
    Writer.seq_enc (enc_octets (contextEngineId s))
      (Writer.seq_enc (enc_octets (contextName s)) (enc_pdu (s_pdu s))).

Lemma enc_tlv_hd t c : enc_tlv t c = hd t (zlen c) ++ c.
Proof. done. Qed.

Lemma enc_v3_split h u data :
  enc_v3 h u data = v3_before h u data ++ u_authParams u ++ v3_after u data.
Proof.
  unfold v3_before, v3_after. unfold enc_v3. rewrite enc_tlv_hd. rewrite <- !app_assoc. f_equal.
  unfold v3_content. do 2 f_equal. unfold tlv_oct at 1, enc_usm at 1. rewrite !enc_tlv_hd, <- !app_assoc.
  do 2 f_equal. unfold usm_content at 1. unfold tlv_oct at 1. rewrite enc_tlv_hd, <- !app_assoc. done.
Qed.

Lemma zlen_tlv t c c' : zlen c = zlen c' -> zlen (enc_tlv t c) = zlen (enc_tlv t c').
Proof. intros H. rewrite !length_enc_tlv. by rewrite H. Qed.

(** The octets before the digest depend on its width only. *)
Lemma v3_before_width h u a a' p data : length a = length a' ->
  v3_before h (with_params u a p) data = v3_before h (with_params u a' p) data.
Proof.
  intros Hl. assert (zlen a = zlen a') as Hz by lia.
  assert (zlen (usm_content (with_params u a p)) = zlen (usm_content (with_params u a' p))) as H1.
  { unfold usm_content. rewrite !zlen_app. cbn [with_params u_authParams u_privParams].
    change (usm_before (with_params u a p)) with (usm_before u).
    change (usm_before (with_params u a' p)) with (usm_before u).
    unfold tlv_oct at 1 3. by rewrite (zlen_tlv _ a a' Hz). }
  assert (zlen (enc_usm (with_params u a p)) = zlen (enc_usm (with_params u a' p))) as H2.
  { unfold enc_usm. by apply zlen_tlv. }
  assert (zlen (v3_content h (with_params u a p) data) = zlen (v3_content h (with_params u a' p) data)) as H3.
  { unfold v3_content. rewrite !zlen_app. unfold tlv_oct. by rewrite (zlen_tlv _ _ _ H2). }
  unfold v3_before. rewrite H1, H2, H3. cbn [with_params u_authParams]. by rewrite Hz.
Qed.

Lemma zlen_hd t n : zlen (hd t n) = 1 + zlen (enc_len n).
Proof. unfold hd. apply zlen_cons. Qed.

Lemma zlen_tlv_hd t c : zlen (enc_tlv t c) = zlen (hd t (zlen c)) + zlen c.
Proof. by rewrite enc_tlv_hd, zlen_app. Qed.

(** ** Encoding *)

(** An append to a Writer that has not failed. *)
Lemma append_run m bs buf : Writer.Refines m (Some bs) -> zlen (buf ++ bs) < 2 ^ 64 ->
  m (mkWriter buf no_error) = Done tt (mkWriter (buf ++ bs) no_error).
Proof. intros R Hl. by apply (Writer.refines_run _ _ (mkWriter buf no_error)). Qed.

Lemma encodeUsmContent_run u width p : let u' := with_params u (replicate width 0) p in
  (width < 128)%nat -> zlen (usm_content u') < 2 ^ 63 ->
  encodeUsmContent u width p Writer.new =
    Done (zlen (usm_before u ++ hd tag.octetString (Z.of_nat width))) (mkWriter (usm_content u') no_error).
Proof.
  intros u' Hw Hl. unfold usm_content in *. rewrite !zlen_app in Hl.
  cbn [with_params u_authParams u_privParams u'] in Hl. change (usm_before u') with (usm_before u) in *.
  unfold encodeUsmContent.
  assert (forall A m bs buf (k : M Writer A), Writer.Refines m (Some bs) -> zlen (buf ++ bs) < 2 ^ 64 ->
    (m ;;; k) (mkWriter buf no_error) = k (mkWriter (buf ++ bs) no_error)) as Hstep.
  { intros A m bs buf k R Hb. by rewrite (bind_done _ _ _ _ _ (append_run m bs buf R Hb)). }
  assert (zlen (usm_before u) = zlen (tlv_oct (u_engineId u)) + zlen (tlv_int (u_boots u)) +
    zlen (tlv_int (u_time u)) + zlen (tlv_oct (u_userName u))) as Hub
    by (unfold usm_before; rewrite !zlen_app; lia).
  unfold Writer.new. rewrite (Hstep _ _ (tlv_oct (u_engineId u))); [|apply _|rewrite !zlen_app; cbn [length]; lia].
  rewrite (Hstep _ _ (tlv_int (u_boots u))); [|apply _|rewrite !zlen_app; cbn [length]; lia].
  rewrite (Hstep _ _ (tlv_int (u_time u))); [|apply _|rewrite !zlen_app; cbn [length]; lia].
  rewrite (Hstep _ _ (tlv_oct (u_userName u))); [|apply _|rewrite !zlen_app; cbn [length]; lia].
  cbn [app]. replace (((tlv_oct (u_engineId u) ++ tlv_int (u_boots u)) ++ tlv_int (u_time u)) ++ tlv_oct (u_userName u))
    with (usm_before u) by (unfold usm_before; by rewrite <- !app_assoc).
  cbn zeta. rewrite (bind_done _ _ _ (wrap 64 (zlen (usm_before u) + 2)) (mkWriter (usm_before u) no_error)) by done.
  rewrite (Hstep _ _ (tlv_oct (replicate width 0))); [|apply _|rewrite !zlen_app; lia].
  rewrite (Hstep _ _ (tlv_oct p)); [|apply _|rewrite !zlen_app; lia].
  unfold ret. rewrite <- !app_assoc. f_equal. rewrite zlen_app, zlen_hd, enc_len_short by lia.
  rewrite wrap_small by lia. done.
Qed.

Lemma local_append {T A} m bs buf (k : unit -> Writer -> M T A) t : Writer.Refines m (Some bs) ->
  zlen (buf ++ bs) < 2 ^ 64 ->
  run_local (mkWriter buf no_error) m k t = k tt (mkWriter (buf ++ bs) no_error) t.
Proof. intros R Hl. by rewrite (run_local_done _ _ _ _ _ _ (append_run m bs buf R Hl)). Qed.

Lemma body_refines h u :
  Writer.Refines (
    Writer.integer versionV3 tag.integer ;;;
    Writer.in_sequence (
      Writer.integer (msgId h) tag.integer ;;;
      Writer.integer (maxSize h) tag.integer ;;;
      Writer.octetString [encodeFlags h] tag.octetString ;;;
      Writer.integer (securityModel h) tag.integer) ;;;
    Writer.octetString u tag.octetString) (Some (tlv_int versionV3 ++ enc_header h ++ tlv_oct u)).
Proof.
  assert (Writer.Refines (Writer.in_sequence (
      Writer.integer (msgId h) tag.integer ;;;
      Writer.integer (maxSize h) tag.integer ;;;
      Writer.octetString [encodeFlags h] tag.octetString ;;;
      Writer.integer (securityModel h) tag.integer)) (Some (enc_header h))) as Hh.
  { apply (Writer.in_sequence_refines _ (Some _)); [apply _|].
    apply (Writer.bind_refines _ _ (Some _) (Some _)); [apply _..|].
    apply (Writer.bind_refines _ _ (Some _) (Some _)); [apply _..|].
    apply (Writer.bind_refines _ _ (Some _) (Some _)); apply _. }
  apply (Writer.bind_refines _ _ (Some _) (Some _)); [|apply _|].
  { apply Writer.bind_good; [apply Writer.in_sequence_good|]; apply _. }
  apply (Writer.bind_refines _ _ (Some _) (Some _)); [apply _|exact Hh|apply _].
Qed.

Lemma first_error_none : first_error [no_error; no_error; no_error; no_error; no_error] = None.
Proof. done. Qed.

Lemma assemble_run ssl h u auth key (encrypt authenticate : bool) width sc ct pp c :
  let u' := with_params u (replicate width 0) (if encrypt then pp else u_privParams u) in
  let data := if encrypt then tlv_oct ct else sc in
  (width < 128)%nat -> zlen (enc_v3 h u' data) < 2 ^ 63 ->
  assemble ssl h u auth key encrypt authenticate width (mkWriter sc no_error) ct pp c =
    (if negb authenticate then ret (inr (enc_v3 h u' data))
     else
       let+ d := authDigest ssl auth key (enc_v3 h u' data) in
       let! out := copy_to d (enc_v3 h u' data) (length (v3_before h u' data)) in
       ret (inr out)) c.
Proof.
  intros u' data Hw Hl.
  assert (zlen (usm_content u') = zlen (usm_before u) + zlen (tlv_oct (replicate width 0)) +
    zlen (tlv_oct (u_privParams u'))) as Huc.
  { unfold usm_content. rewrite !zlen_app. change (usm_before u') with (usm_before u).
    change (u_authParams u') with (replicate width 0). lia. }
  assert (zlen (tlv_oct (replicate width 0)) = zlen (hd tag.octetString (Z.of_nat width)) + Z.of_nat width) as Hbl.
  { unfold tlv_oct. rewrite zlen_tlv_hd, length_replicate. done. }
  assert (zlen (enc_usm u') = zlen (hd tag.sequence (zlen (usm_content u'))) + zlen (usm_content u')) as E1
    by apply zlen_tlv_hd.
  assert (zlen (tlv_oct (enc_usm u')) = zlen (hd tag.octetString (zlen (enc_usm u'))) + zlen (enc_usm u')) as E2
    by apply zlen_tlv_hd.
  assert (zlen (enc_v3 h u' data) = zlen (hd tag.sequence (zlen (v3_content h u' data))) +
    zlen (v3_content h u' data)) as E3 by apply zlen_tlv_hd.
  assert (zlen (v3_content h u' data) = zlen (tlv_int versionV3) + zlen (enc_header h) +
    zlen (tlv_oct (enc_usm u')) + zlen data) as E4 by (unfold v3_content; rewrite !zlen_app; lia).
  unfold assemble. erewrite run_local_done; [|apply encodeUsmContent_run; [done|fold u'; lia]].
  fold u'. cbn [w_buf w_ec]. unfold Writer.new.
  rewrite (local_append _ (enc_usm u') []); [|apply _|rewrite zlen_app; cbn [length]; lia].
  rewrite app_nil_l. cbn [w_buf w_ec]. cbn zeta.
  rewrite (local_append _ _ [] _ _ (body_refines h (enc_usm u'))) by (rewrite !zlen_app; cbn [length]; lia).
  rewrite app_nil_l. cbn [w_buf w_ec]. rewrite (local_append _ data).
  2: { destruct encrypt; apply _. }
  2: { rewrite !zlen_app. lia. }
  cbn [w_buf w_ec]. replace ((tlv_int versionV3 ++ enc_header h ++ tlv_oct (enc_usm u')) ++ data)
    with (v3_content h u' data) by (unfold v3_content; by rewrite <- !app_assoc).
  rewrite (local_append _ (enc_v3 h u' data) []); [|apply _|rewrite zlen_app; cbn [length]; lia].
  rewrite app_nil_l. cbn [w_buf w_ec]. rewrite first_error_none. cbn zeta.
  match goal with |- context [copy_to _ _ (Z.to_nat ?z)] => assert (z = zlen (v3_before h u' data)) as -> end;
    [|rewrite Nat2Z.id; done].
  unfold shifted, v3_before. change (usm_before u') with (usm_before u).
  change (u_authParams u') with (replicate width 0). rewrite length_replicate, !zlen_app.
  rewrite (wrap_small 64 (_ + (zlen (enc_usm u') - _))) by lia.
  rewrite (wrap_small 64 (_ + (zlen (tlv_int versionV3) + _ - _))) by lia.
  rewrite wrap_small by lia. lia.
Qed.

(** ** Decoding what was encoded *)

Lemma p_bind_at_enc {A B} (p : Reader.parser A) (k : A -> parser_at B) pos b1 rest a r :
  p (b1 ++ rest) = inr (a, length b1) -> k a (pos + zlen b1) rest = r ->
  p_bind_at p k pos (b1 ++ rest) =
    match r with inl e => inl e | inr (b, m) => inr (b, (length b1 + m)%nat) end.
Proof. intros Hp <-. unfold p_bind_at. by rewrite Hp, drop_length_app. Qed.

Lemma p_scope_at_enc {A} t c (p : parser_at A) pos a rest : low_tag t -> zlen c < 2 ^ 32 ->
  p (pos + zlen (hd t (zlen c))) c = inr (a, length c) ->
  p_scope_at t p pos (enc_tlv t c ++ rest) = inr (a, length (enc_tlv t c)).
Proof.
  intros Ht Hl Hp. unfold p_scope_at. rewrite p_header_enc by done. cbn [Reader.h_length].
  rewrite drop_header, Nat2Z.id, take_length_app.
  replace (Z.of_nat (1 + length (enc_len (zlen c)))) with (zlen (hd t (zlen c))) by (rewrite zlen_hd; lia).
  rewrite Hp, Nat.eqb_refl, enc_tlv_length. cbn [enc_tlv app]. by rewrite Z.eqb_refl.
Qed.

Lemma p_int32_enc v rest : int32_ok v -> p_int32 (tlv_int v ++ rest) = inr (v, length (tlv_int v)).
Proof.
  intros Hv. apply (codec v (tlv_int v) rest Hv eq_refl). unfold tlv_int.
  rewrite length_enc_tlv. unfold enc_int32.
  pose proof (strip_padding_length (if v <? 0 then 255 else 0) (v <? 0) (be_bytes 4 v)) as H.
  rewrite length_be_bytes in H. rewrite enc_len_short by lia. cbn [length]. lia.
Qed.

Lemma p_octets_enc v rest : zlen v < 2 ^ 32 -> p_octets (tlv_oct v ++ rest) = inr (v, length (tlv_oct v)).
Proof. intros Hl. by apply p_prim_enc. Qed.

Lemma flags_roundtrip h :
  Z.land (encodeFlags h) 3 = level_bits (h_level h) /\
  (Z.land (encodeFlags h) 3 =? 2) = false /\
  level_of_bits (Z.land (encodeFlags h) 3) = h_level h /\
  negb (Z.land (encodeFlags h) 4 =? 0) = reportable h.
Proof. unfold encodeFlags. by destruct (h_level h), (reportable h). Qed.

Definition header_ok (h : V3Header) : Prop :=
  int32_ok (msgId h) /\ int32_ok (maxSize h) /\ securityModel h = securityModelUsm.

Definition usm_ok (u : UsmParameters) : Prop :=
  octets_ok (u_engineId u) /\ int32_ok (u_boots u) /\ int32_ok (u_time u) /\ octets_ok (u_userName u) /\
  octets_ok (u_authParams u) /\ octets_ok (u_privParams u).

Lemma enc_tlv_bound t c : zlen c < 2 ^ 32 -> zlen (enc_tlv t c) <= zlen c + 6.
Proof.
  intros Hl. rewrite length_enc_tlv. enough (zlen (enc_len (zlen c)) <= 5) by lia.
  unfold enc_len. destruct (zlen c <? 128); [cbn; lia|]. cbn [length].
  pose proof (be_min_length (zlen c) 4 ltac:(lia) ltac:(lia)). lia.
Qed.

Lemma tlv_int_bound v : zlen (tlv_int v) <= 10.
Proof.
  unfold tlv_int. pose proof (strip_padding_length (if v <? 0 then 255 else 0) (v <? 0) (be_bytes 4 v)) as H.
  rewrite length_be_bytes in H. fold (enc_int32 v) in H.
  pose proof (enc_tlv_bound tag.integer (enc_int32 v)). lia.
Qed.

Lemma enc_header_content h : header_ok h -> forall rest,
  Reader.p_scope tag.sequence p_header_fields (enc_header h ++ rest) = inr (h, length (enc_header h)).
Proof.
  intros (H1 & H2 & H3) rest. unfold enc_header.
  pose proof (tlv_int_bound (msgId h)). pose proof (tlv_int_bound (maxSize h)).
  pose proof (tlv_int_bound (securityModel h)).
  pose proof (enc_tlv_bound tag.octetString [encodeFlags h] ltac:(cbn; lia)) as Hf. fold (tlv_oct [encodeFlags h]) in Hf.
  cbn [length] in Hf.
  set (c := tlv_int (msgId h) ++ tlv_int (maxSize h) ++ tlv_oct [encodeFlags h] ++ tlv_int (securityModel h)).
  assert (zlen c < 2 ^ 32) as Hc by (subst c; rewrite !zlen_app; lia).
  apply (p_scope_at_enc tag.sequence c (fun _ => p_header_fields) 0); [done..|]. subst c.
  destruct (flags_roundtrip h) as (_ & F1 & F2 & F3).
  unfold p_header_fields, Reader.p_bind.
  rewrite (p_int32_enc (msgId h)) by done. rewrite drop_length_app, (p_int32_enc (maxSize h)) by done.
  rewrite drop_length_app, p_octets_enc by (cbn; lia). rewrite drop_length_app.
  rewrite <- (app_nil_r (tlv_int (securityModel h))) at 1. rewrite p_int32_enc by (by rewrite H3).
  rewrite F1, F2, F3. unfold Reader.p_ret. rewrite !length_app, Nat.add_0_r. by destruct h.
Qed.

Lemma p_usm_enc pos u : usm_ok u -> zlen (usm_content u) < 2 ^ 32 ->
  p_usm pos (usm_content u) =
    inr ((u, pos + zlen (usm_before u) + zlen (hd tag.octetString (zlen (u_authParams u)))),
         length (usm_content u)).
Proof.
  intros (H1 & H2 & H3 & H4 & H5 & H6) Hl. unfold usm_content, usm_before in *. rewrite <- !app_assoc in *.
  rewrite !zlen_app in Hl. pose proof (zlen_tlv_hd tag.octetString (u_engineId u)).
  pose proof (zlen_tlv_hd tag.octetString (u_userName u)). pose proof (zlen_tlv_hd tag.octetString (u_authParams u)) as Ha.
  pose proof (zlen_tlv_hd tag.octetString (u_privParams u)). fold (tlv_oct (u_authParams u)) in *.
  fold (tlv_oct (u_engineId u)) in *. fold (tlv_oct (u_userName u)) in *. fold (tlv_oct (u_privParams u)) in *.
  unfold p_usm. erewrite p_bind_at_enc; [|apply p_octets_enc; lia|].
  2: { erewrite p_bind_at_enc; [|by apply p_int32_enc|].
    2: { erewrite p_bind_at_enc; [|by apply p_int32_enc|].
      2: { erewrite p_bind_at_enc; [|apply p_octets_enc; lia|].
        2: { erewrite p_bind_at_enc; [|apply p_octets_enc; lia|].
          2: { apply p_map_enc. rewrite <- (app_nil_r (tlv_oct (u_privParams u))) at 1.
               apply p_octets_enc. lia. }
          reflexivity. }
        reflexivity. }
      reflexivity. }
    reflexivity. }
  rewrite !length_app. repeat f_equal; [by destruct u|]. rewrite !Nat2Z.inj_add. lia.
Qed.

Lemma dec_usm_enc u : usm_ok u -> zlen (enc_usm u) < 2 ^ 32 ->
  dec_usm (enc_usm u) =
    inr (u, zlen (hd tag.sequence (zlen (usm_content u))) + zlen (usm_before u) +
            zlen (hd tag.octetString (zlen (u_authParams u)))).
Proof.
  intros Hu Hl. pose proof (enc_tlv_content_short _ _ _ Hl) as Hc. unfold dec_usm, dec_whole, enc_usm.
  rewrite <- (app_nil_r (enc_tlv _ _)) at 1.
  erewrite p_scope_at_enc; [|done|done|by apply p_usm_enc]. rewrite Nat.eqb_refl. done.
Qed.

Lemma dec_v3_enc h u data x : header_ok h -> usm_ok u -> zlen (enc_v3 h u data) < 2 ^ 32 ->
  p_data (h_level h) data = inr (x, length data) ->
  dec_v3 (enc_v3 h u data) = inr (mkV3Message h u x.1 x.2 (zlen (v3_before h u data))).
Proof.
  intros Hh Hu Hl Hd. pose proof (enc_tlv_content_short _ _ _ Hl) as Hc.
  assert (zlen (enc_usm u) < 2 ^ 32 /\ zlen (tlv_oct (enc_usm u)) =
    zlen (hd tag.octetString (zlen (enc_usm u))) + zlen (enc_usm u)) as [Hul Eu].
  { unfold v3_content in Hc. rewrite !zlen_app in Hc. pose proof (zlen_tlv_hd tag.octetString (enc_usm u)) as E.
    fold (tlv_oct (enc_usm u)) in E. lia. }
  unfold dec_v3, dec_whole, enc_v3. rewrite <- (app_nil_r (enc_tlv _ _)) at 1.
  erewrite p_scope_at_enc; [rewrite Nat.eqb_refl; reflexivity|done|done|].
  unfold v3_content at 2, p_v3_body. erewrite p_bind_at_enc; [|by apply p_int32_enc|].
  2: { change (negb (versionV3 =? versionV3)) with false. cbv iota.
       erewrite p_bind_at_enc; [|by apply enc_header_content|reflexivity]. reflexivity. }
  destruct Hh as (_ & _ & Hm). rewrite Hm. change (negb (securityModelUsm =? securityModelUsm)) with false. cbv iota.
  unfold p_payload. rewrite p_octets_enc by done. rewrite dec_usm_enc by done. rewrite drop_length_app, Hd.
  f_equal. f_equal; [|unfold v3_content; rewrite !length_app; lia]. f_equal.
  unfold v3_before. rewrite !zlen_app. lia.
Qed.

(** ** The ScopedPDU *)

Definition scoped_ok (s : ScopedPdu) : Prop :=
  octets_ok (contextEngineId s) /\ octets_ok (contextName s) /\ pdu_ok (s_pdu s).

#[export] Instance scoped_pdu_codec : Codec p_scoped enc_scoped scoped_ok.
Proof.
  intros s bs rest (H1 & H2 & H3) He Hl. unfold enc_scoped in He.
  destruct (Writer.seq_enc _ _) as [c|] eqn:Ec; [|done]. injection He as <-.
  apply seq_enc_inv in Ec as (b1 & c1 & E1 & Ec & ->).
  apply seq_enc_inv in Ec as (b2 & c2 & E2 & E3 & ->).
  apply scope_codec; [done..|]. clear Hl. intros Hl.
  eapply codec_field; [apply octets_codec|exact H1|done|done|]. clear Hl. intros Hl.
  eapply codec_field; [apply octets_codec|exact H2|done|done|]. clear Hl. intros Hl rest'.
  rewrite (codec_last _ _ _ (mkScopedPdu _ _) _ _ pdu_codec H3 E3 Hl). by destruct s.
Qed.

Lemma enc_scoped_octets : EncodesOctets enc_scoped scoped_ok.
Proof.
  intros s bs (H1 & H2 & H3) He Hl. eapply tlv_octets; [|exact He|done|]; [done|].
  clear He Hl. intros b He Hl. eapply seq_enc_octets; [exact He|done| |]; clear He Hl; intros c He Hl.
  { eapply enc_octets_octets; [|exact He|done]. done. }
  eapply seq_enc_octets; [exact He|done| |]; clear He Hl; intros d He Hl.
  { eapply enc_octets_octets; [|exact He|done]. done. }
  by eapply enc_pdu_octets.
Qed.

Lemma encodeScopedPdu_refines s : scoped_ok s -> Writer.Refines (encodeScopedPdu s) (enc_scoped s).
Proof.
  intros (_ & _ & Hp). apply Writer.in_sequence_refines; [apply _|].
  do 2 (apply Writer.bind_refines; [apply _|apply Writer.octetString_refines|]). by apply encodePdu_refines.
Qed.

Lemma enc_scoped_pos s sc : enc_scoped s = Some sc -> (0 < length sc)%nat.
Proof. unfold enc_scoped. destruct (Writer.seq_enc _ _) as [c|]; [|done]. intros [= <-]. apply enc_tlv_nonempty. Qed.

(** The octets of the reference encoding are octets. *)
Lemma tlv_octets_ok t c : byte_ok t -> octets_ok c -> zlen c < 2 ^ 32 -> octets_ok (enc_tlv t c).
Proof. intros Ht Hc Hl. apply enc_tlv_ok; [done..|lia]. Qed.

Lemma tlv_int_ok v : octets_ok (tlv_int v).
Proof.
  apply tlv_octets_ok; [done|apply enc_int32_ok|]. pose proof (tlv_int_bound v) as H.
  unfold tlv_int in H. rewrite length_enc_tlv in H. lia.
Qed.

Lemma enc_v3_ok h u data : usm_ok u -> octets_ok data -> zlen (enc_v3 h u data) < 2 ^ 32 ->
  octets_ok (enc_v3 h u data).
Proof.
  intros (H1 & H2 & H3 & H4 & H5 & H6) Hd Hl. pose proof (enc_tlv_content_short _ _ _ Hl) as Hc.
  apply tlv_octets_ok; [done| |done]. unfold v3_content in *. rewrite !zlen_app in Hc.
  pose proof (zlen_tlv_hd tag.octetString (enc_usm u)) as Eu. fold (tlv_oct (enc_usm u)) in Eu.
  assert (zlen (enc_usm u) = zlen (hd tag.sequence (zlen (usm_content u))) + zlen (usm_content u)) as Eu' by apply zlen_tlv_hd.
  assert (zlen (usm_content u) = zlen (tlv_oct (u_engineId u)) + zlen (tlv_int (u_boots u)) +
    zlen (tlv_int (u_time u)) + zlen (tlv_oct (u_userName u)) + zlen (tlv_oct (u_authParams u)) +
    zlen (tlv_oct (u_privParams u))) as Ec by (unfold usm_content, usm_before; rewrite !zlen_app; lia).
  assert (forall v, octets_ok v -> zlen (tlv_oct v) < 2 ^ 32 -> octets_ok (tlv_oct v)) as Ho.
  { intros v Hv Hvl. apply tlv_octets_ok; [done..|]. by eapply enc_tlv_content_short. }
  repeat (apply octets_ok_app; split); try apply tlv_int_ok; try done.
  - apply tlv_octets_ok; [done| |].
    + repeat (apply octets_ok_app; split); try apply tlv_int_ok. apply Ho; [|vm_compute; done].
      apply Forall_singleton. unfold encodeFlags. by destruct (h_level h), (reportable h).
    + pose proof (zlen_tlv_hd tag.sequence (tlv_int (msgId h) ++ tlv_int (maxSize h) ++
        tlv_oct [encodeFlags h] ++ tlv_int (securityModel h))) as Eh. fold (enc_header h) in Eh. lia.
  - apply Ho; [|lia]. apply tlv_octets_ok; [done| |lia]. unfold usm_content, usm_before.
    repeat (apply octets_ok_app; split); try apply tlv_int_ok; apply Ho; done || lia.
Qed.

(** ** Sending and receiving *)

(** One digest copied over another of the same width. *)
Lemma enc_v3_replace {T} h u a a' p data (s : T) : length a = length a' ->
  copy_to a' (enc_v3 h (with_params u a p) data) (length (v3_before h (with_params u a p) data)) s =
    Done (enc_v3 h (with_params u a' p) data) s.
Proof.
  intros Hl. rewrite !enc_v3_split. cbn [with_params u_authParams].
  rewrite copy_to_run by done. by rewrite (v3_before_width h u a a').
Qed.

Lemma fill_zeros_run {T} off n bs (t : T) : (off + n <= length bs)%nat ->
  fill_zeros off n bs t = Done (take off bs ++ replicate n 0 ++ drop (off + n) bs) t.
Proof.
  intros Hl. unfold fill_zeros. assert (length (take off bs) = off) as Hto by (rewrite length_take; lia).
  rewrite <- Hto at 1. rewrite <- (take_drop off bs) at 1. rewrite <- (take_drop n (drop off bs)) at 1.
  rewrite copy_to_run, drop_drop; [done|]. rewrite length_take, length_drop, length_replicate. lia.
Qed.

Section Laws.
Context {ssl : OpenSSL} {L : OpenSSLLaws ssl}.

(** The digest of a message whose digest is blank, put in its place. *)
Lemma sign_run h u p data auth key : auth <> AuthNone ->
  let w := authParamsSize auth in
  exists d, length d = w /\ octets_ok d /\ forall T (s : T),
    authDigest ssl auth key (enc_v3 h (with_params u (replicate w 0) p) data) s = Done (inr d) s /\
    (let! out := copy_to d (enc_v3 h (with_params u (replicate w 0) p) data)
                   (length (v3_before h (with_params u (replicate w 0) p) data)) in
     ret (inr (A := ErrorCode) out)) s = Done (inr (enc_v3 h (with_params u d p) data)) s.
Proof.
  intros Ha w. destruct (authDigest_run auth key (enc_v3 h (with_params u (replicate w 0) p) data) tt Ha)
    as (mac & Em & _ & Hl & Ho). fold w in Hl, Ho. exists (take w mac). do 2 (split; [done|]). intros T s. split.
  - destruct (authDigest_run auth key (enc_v3 h (with_params u (replicate w 0) p) data) s Ha)
      as (mac' & Em' & E & _). rewrite Em in Em'. injection Em' as ->. exact E.
  - rewrite (bind_done _ _ _ _ _ (enc_v3_replace h u (replicate w 0) (take w mac) p data s
      ltac:(by rewrite length_replicate, Hl))). done.
Qed.

Lemma authParamsSize_bound auth : (authParamsSize auth <= 48)%nat.
Proof. destruct auth; cbn; lia. Qed.

(** [verifyAuth] on a message as it was decoded from the datagram. *)
Lemma verifyAuth_run {T} h u p data d auth key x (s : T) : auth <> AuthNone ->
  isAuthenticated (h_level h) = true -> length d = authParamsSize auth ->
  zlen (enc_v3 h (with_params u d p) data) < 2 ^ 63 ->
  authDigest ssl auth key (enc_v3 h (with_params u (replicate (authParamsSize auth) 0) p) data) s = Done (inr d) s ->
  verifyAuth ssl (enc_v3 h (with_params u d p) data)
    (mkV3Message h (with_params u d p) x.1 x.2 (zlen (v3_before h (with_params u d p) data))) auth key s =
    Done (inr tt) s.
Proof.
  intros Ha Hlv Hd Hl E. unfold verifyAuth. cbn [security with_params u_authParams header authParamsOffset].
  rewrite Hlv, Hd, Nat.eqb_refl. cbn [negb orb].
  assert (zlen (enc_v3 h (with_params u d p) data) = zlen (v3_before h (with_params u d p) data) +
    (zlen d + zlen (v3_after (with_params u d p) data))) as Ez
    by (rewrite enc_v3_split, !zlen_app; done).
  rewrite wrap_small, Z.gtb_ltb by lia.
  destruct (Z.ltb_spec (zlen (enc_v3 h (with_params u d p) data))
    (zlen (v3_before h (with_params u d p) data) + Z.of_nat (authParamsSize auth))); [lia|].
  pose proof (enc_v3_replace h u d (replicate (authParamsSize auth) 0) p data s
    ltac:(by rewrite length_replicate)) as Ec. 
  unfold fill_zeros. rewrite Nat2Z.id, (bind_done _ _ _ _ _ Ec), (bind_sum_inr _ _ _ _ _ E), Hd, Nat.eqb_refl.
  by rewrite bool_decide_true.
Qed.

Lemma decrypt_run {T} h u e off priv key sc s plain (st : T) : key_fits priv key ->
  scoped_ok s -> enc_scoped s = Some sc -> zlen plain < 2 ^ 31 -> octets_ok plain ->
  sc `prefix_of` plain ->
  privDecrypt ssl priv key (u_boots u) (u_time u) (u_privParams u) e st = Done (inr plain) st ->
  decryptScopedPdu ssl (mkV3Message h u default_scoped e off) priv key st =
    Done (inr (mkV3Message h u s e off)) st.
Proof.
  intros Hk Hs He Hl Ho [pad ->] E. unfold decryptScopedPdu. cbn [security encryptedPdu header authParamsOffset].
  rewrite (bind_sum_inr _ _ _ _ _ E). destruct (Reader.new_good (sc ++ pad) Ho ltac:(lia)) as [Hi _].
  pose proof (Reader.reads_runs (Reads := decodeScopedPdu_reads) _ Hi eq_refl) as R. rewrite Reader.view_new in R.
  rewrite zlen_app in Hl. rewrite (codec s sc pad Hs He) in R by lia. destruct R as [_ R].
  by rewrite (run_local_done _ _ _ _ _ _ R).
Qed.

Lemma enc_v3_bound h u data : zlen (u_authParams u) <= 48 ->
  zlen (u_engineId u) + zlen (u_userName u) + zlen (u_privParams u) + zlen data < 2 ^ 25 ->
  zlen (enc_v3 h u data) <= zlen (u_engineId u) + zlen (u_userName u) + zlen (u_privParams u) + zlen data + 180.
Proof.
  intros Ha Hl. pose proof (tlv_int_bound (u_boots u)). pose proof (tlv_int_bound (u_time u)).
  pose proof (enc_tlv_bound tag.octetString (u_engineId u) ltac:(lia)) as B1.
  pose proof (enc_tlv_bound tag.octetString (u_userName u) ltac:(lia)) as B2.
  pose proof (enc_tlv_bound tag.octetString (u_authParams u) ltac:(lia)) as B3.
  pose proof (enc_tlv_bound tag.octetString (u_privParams u) ltac:(lia)) as B4.
  assert (zlen (usm_content u) <= zlen (u_engineId u) + zlen (u_userName u) + zlen (u_privParams u) + 92) as B5.
  { unfold usm_content, usm_before, tlv_oct. rewrite !zlen_app. lia. }
  pose proof (enc_tlv_bound tag.sequence (usm_content u) ltac:(lia)) as B6. fold (enc_usm u) in B6.
  pose proof (enc_tlv_bound tag.octetString (enc_usm u) ltac:(lia)) as B7. fold (tlv_oct (enc_usm u)) in B7.
  pose proof (tlv_int_bound (msgId h)). pose proof (tlv_int_bound (maxSize h)).
  pose proof (tlv_int_bound (securityModel h)). pose proof (tlv_int_bound versionV3).
  pose proof (enc_tlv_bound tag.octetString [encodeFlags h] ltac:(cbn; lia)) as B8. fold (tlv_oct [encodeFlags h]) in B8.
  cbn [length] in B8. assert (zlen (enc_header h) <= 60) as B9.
  { unfold enc_header. etransitivity; [apply enc_tlv_bound|]; rewrite !zlen_app; lia. }
  unfold enc_v3. etransitivity; [apply enc_tlv_bound|]; unfold v3_content; rewrite !zlen_app; lia.
Qed.

(** [verifyAuth] returns on whatever was decoded, with any protocol. *)
Lemma verifyAuth_total {T} bs msg auth key (t : T) : octets_ok bs -> zlen bs < 2 ^ 63 ->
  dec_v3 bs = inr msg -> exists r, verifyAuth ssl bs msg auth key t = Done r t.
Proof.
  intros Ho Hl E. destruct (dec_v3_at bs msg E Ho) as (H0 & H1 & H2). unfold verifyAuth.
  destruct (_ || _); [by eexists|]. rewrite wrap_small, Z.gtb_ltb by lia.
  destruct (Z.ltb_spec (zlen bs) (authParamsOffset msg + zlen (u_authParams (security msg)))); [lia|].
  set (off := Z.to_nat (authParamsOffset msg)). set (a := u_authParams (security msg)) in *.
  rewrite (bind_done _ _ _ _ _ (fill_zeros_run off (length a) bs t ltac:(lia))). set (x := _ ++ _).
  destruct (decide (auth = AuthNone)) as [->|Ha].
  - by eexists.
  - destruct (authDigest_run auth key x t Ha) as (mac & _ & Ed & _). rewrite (bind_sum_inr _ _ _ _ _ Ed).
    destruct (_ || _); by eexists.
Qed.

(** Decryption of a payload returns. *)
Lemma decryptScopedPdu_total {T} msg priv key (t : T) : octets_ok (encryptedPdu msg) ->
  zlen (encryptedPdu msg) < 2 ^ 31 -> exists r, decryptScopedPdu ssl msg priv key t = Done r t /\
  match r with inr msg' => header msg' = header msg /\ security msg' = security msg | inl _ => True end.
Proof.
  intros Ho Hl. unfold decryptScopedPdu.
  destruct (privDecrypt_outcome priv key (u_boots (security msg)) (u_time (security msg))
    (u_privParams (security msg)) (encryptedPdu msg) t Ho Hl) as ([ec|plain] & E & H).
  - rewrite (bind_sum_inl _ _ _ _ _ E). by eexists.
  - rewrite (bind_sum_inr _ _ _ _ _ E). destruct H as [Hp Hpl]. destruct (Reader.new_good plain Hp ltac:(lia)) as [Hi _].
    pose proof (Reader.reads_runs (Reads := decodeScopedPdu_reads) _ Hi eq_refl) as R. rewrite Reader.view_new in R.
    destruct (p_scoped plain) as [e|[s n]].
    + destruct R as (_ & pos & _ & R). rewrite (run_local_done _ _ _ _ _ _ R). by eexists.
    + destruct R as [_ R]. rewrite (run_local_done _ _ _ _ _ _ R). by eexists.
Qed.

(** The payload of a message: encrypted or not, what it decodes to, and how it opens. *)
Lemma payload_run {T} level priv pkey boots time u_pp sc s c (t : T) :
  scoped_ok s -> enc_scoped s = Some sc -> octets_ok sc -> zlen sc < 2 ^ 24 -> octets_ok u_pp ->
  (isEncrypted level = true -> key_fits priv pkey /\ (priv = Des -> OSSL_PROVIDER_load ssl = true)) ->
  exists ct pp c', let encrypt := isEncrypted level in
    let p := if encrypt then pp else u_pp in
    let data := if encrypt then tlv_oct ct else sc in
    (if encrypt then privEncrypt ssl priv pkey boots time sc else ret (inr ([], []))) c = Done (inr (ct, pp)) c' /\
    octets_ok p /\ zlen p <= zlen u_pp + 8 /\ octets_ok data /\ zlen data <= zlen sc + 20 /\
    exists x, p_data level data = inr (x, length data) /\
      (if encrypt then x = (default_scoped, ct) /\ exists pad, octets_ok (sc ++ pad) /\ zlen (sc ++ pad) < 2 ^ 31 /\
         privDecrypt ssl priv pkey boots time pp ct t = Done (inr (sc ++ pad)) t
       else x = (s, [])).
Proof.
  intros Hs He Ho Hl Hpp Henc. unfold p_data. destruct (isEncrypted level).
  - destruct (Henc eq_refl) as [Hk Hleg].
    assert (exists pad, padded priv sc = sc ++ pad /\ zlen pad <= 7) as (pad & Epad & Hpad).
    { unfold padded. eexists. split; [done|]. case_bool_decide; [|cbn; lia].
      rewrite length_replicate. pose proof (Nat.mod_upper_bound (8 - length sc mod 8) 8 ltac:(lia)). lia. }
    pose proof (padded_octets priv sc Ho) as Hop. rewrite Epad in Hop.
    assert (zlen (sc ++ pad) < 2 ^ 31) as Hl' by (rewrite zlen_app; lia).
    assert (length (padded priv sc) = length (sc ++ pad)) as Hlen by (by rewrite Epad).
    do 3 eexists. cbn zeta. split; [apply privEncrypt_run; [done|done|by rewrite Epad]|].
    set (pp := salt_params priv boots c). set (ct := pass _ _ _ _ _).
    assert (length ct = length (sc ++ pad)) as Hct by (subst ct; by rewrite pass_length).
    assert (octets_ok pp) as Hppok by (apply octets_ok_app; split; [destruct (bool_decide _)|]; apply be_bytes_ok).
    assert (octets_ok ct) as Hcto by (apply pass_octets; by rewrite Epad).
    pose proof (length_salt_params priv boots c) as Hpl. fold pp in Hpl.
    split; [done|]. split; [lia|]. rewrite zlen_app in Hl'. rewrite length_app in Hct.
    split; [apply tlv_octets_ok; done || lia|].
    split; [pose proof (enc_tlv_bound tag.octetString ct ltac:(lia)) as Hb; unfold tlv_oct; lia|].
    eexists. split; [apply p_map_enc; rewrite <- (app_nil_r (tlv_oct ct)) at 1; apply p_octets_enc; lia|].
    split; [done|]. exists pad. split; [done|]. split; [rewrite zlen_app; lia|].
    rewrite privDecrypt_run; [|done|done|done|..].
    + subst ct. rewrite pass_inverse; [by rewrite Epad| |apply padded_whole]. by apply padded_octets.
    + intros Hd. unfold ct. rewrite pass_length. by apply padded_whole.
    + intros _ E. rewrite E in Hct. cbn in Hct. apply enc_scoped_pos in He. lia.
    + lia.
  - exists [], [], c. cbn zeta. split; [done|]. split; [done|]. split; [lia|]. split; [done|]. split; [lia|].
    exists (s, []). split; [|done]. apply (p_map_enc (fun s => (s, []))). pose proof (codec s sc [] Hs He ltac:(lia)) as E.
    by rewrite app_nil_r in E.
Qed.

(** [encodeV3Message], given how its payload is sealed. *)
Lemma encode_run h u s auth key priv pkey sc ct pp c c' :
  let encrypt := isEncrypted (h_level h) in
  let p := if encrypt then pp else u_privParams u in
  let data := if encrypt then tlv_oct ct else sc in
  let w := if isAuthenticated (h_level h) then authParamsSize auth else 0%nat in
  scoped_ok s -> enc_scoped s = Some sc -> zlen sc < 2 ^ 24 ->
  (encrypt = true -> priv <> PrivNone) -> (isAuthenticated (h_level h) = true -> auth <> AuthNone) ->
  (if encrypt then privEncrypt ssl priv pkey (u_boots u) (u_time u) sc else ret (inr ([], []))) c =
    Done (inr (ct, pp)) c' ->
  (forall a, length a = w -> zlen (enc_v3 h (with_params u a p) data) < 2 ^ 32) ->
  exists d, length d = w /\ octets_ok d /\
    encodeV3Message ssl h u s auth key priv pkey c = Done (inr (enc_v3 h (with_params u d p) data)) c' /\
    (isAuthenticated (h_level h) = true -> forall T (t : T),
     authDigest ssl auth key (enc_v3 h (with_params u (replicate (authParamsSize auth) 0) p) data) t = Done (inr d) t).
Proof.
  intros encrypt p data w Hs He Hl Hpriv Hauth Ep Hb.
  assert ((w < 128)%nat) as Hw by (subst w; pose proof (authParamsSize_bound auth); destruct (isAuthenticated _); lia).
  assert (encodeV3Message ssl h u s auth key priv pkey c =
    (if negb (isAuthenticated (h_level h)) then ret (inr (enc_v3 h (with_params u (replicate w 0) p) data))
     else
       let+ d := authDigest ssl auth key (enc_v3 h (with_params u (replicate w 0) p) data) in
       let! out := copy_to d (enc_v3 h (with_params u (replicate w 0) p) data)
                     (length (v3_before h (with_params u (replicate w 0) p) data)) in
       ret (inr out)) c') as E.
  { unfold encodeV3Message. fold encrypt.
    assert (encrypt && bool_decide (priv = PrivNone) = false) as ->.
    { destruct encrypt; [|done]. by rewrite bool_decide_false by auto. }
    assert (isAuthenticated (h_level h) && bool_decide (auth = AuthNone) = false) as ->.
    { destruct (isAuthenticated (h_level h)); [|done]. by rewrite bool_decide_false by auto. }
    cbn zeta. pose proof (encodeScopedPdu_refines s Hs) as R. rewrite He in R.
    unfold Writer.new. rewrite (local_append _ sc [] _ _ R) by (cbn [app]; lia). rewrite app_nil_l.
    rewrite (bind_sum_inr _ _ _ _ _ Ep). cbn [fst snd]. apply assemble_run; [done|].
    specialize (Hb (replicate w 0) ltac:(apply length_replicate)). fold encrypt p data w. lia. }
  rewrite E. subst w. destruct (isAuthenticated (h_level h)); cbn [negb].
  - destruct (sign_run h u p data auth key (Hauth eq_refl)) as (d & Hd & Hdo & Hrun). exists d.
    split; [done|]. split; [done|]. destruct (Hrun _ c') as [E1 E2].
    split; [by rewrite (bind_sum_inr _ _ _ _ _ E1)|]. intros _ T t. apply Hrun.
  - exists []. split; [done|]. split; [constructor|]. split; [done|]. discriminate.
Qed.

End Laws.
(** ** Properties *)

Section Properties.
Context {ssl : OpenSSL} {L : OpenSSLLaws ssl}.

(** A message that was encoded, as its receiver sees it. *)
Lemma encoded_decodes {T} h u s auth key priv pkey sc c (t : T) :
  header_ok h -> usm_ok u -> scoped_ok s -> enc_scoped s = Some sc ->
  zlen sc + zlen (u_engineId u) + zlen (u_userName u) + zlen (u_privParams u) < 2 ^ 24 ->
  (isAuthenticated (h_level h) = true -> auth <> AuthNone) ->
  (isEncrypted (h_level h) = true -> key_fits priv pkey /\ (priv = Des -> OSSL_PROVIDER_load ssl = true)) ->
  exists out c' msg,
    encodeV3Message ssl h u s auth key priv pkey c = Done (inr out) c' /\
    octets_ok out /\ zlen out <= zlen sc + zlen (u_engineId u) + zlen (u_userName u) + zlen (u_privParams u) + 208 /\
    dec_v3 out = inr msg /\ header msg = h /\
    security msg = with_params u (u_authParams (security msg)) (u_privParams (security msg)) /\
    (isAuthenticated (h_level h) = true -> verifyAuth ssl out msg auth key t = Done (inr tt) t) /\
    (if isEncrypted (h_level h)
     then scoped msg = default_scoped /\
          exists msg', decryptScopedPdu ssl msg priv pkey t = Done (inr msg') t /\ scoped msg' = s
     else scoped msg = s /\ u_privParams (security msg) = u_privParams u).
Proof.
  intros Hh Hu Hs He Hsz Hauth Henc. assert (octets_ok sc) as Hosc by (eapply enc_scoped_octets; [done..|lia]).
  assert (octets_ok (u_privParams u)) as Hopp by apply Hu.
  destruct (payload_run (h_level h) priv pkey (u_boots u) (u_time u) (u_privParams u) sc s c t
    Hs He Hosc ltac:(lia) Hopp Henc) as (ct & pp & c' & Ep & Hpo & Hpl & Hdo & Hdl & x & Hx & Hopen).
  set (encrypt := isEncrypted (h_level h)) in *. set (p := if encrypt then pp else u_privParams u) in *.
  set (data := if encrypt then tlv_oct ct else sc) in *.
  set (w := if isAuthenticated (h_level h) then authParamsSize auth else 0%nat).
  assert (w <= 48)%nat as Hw by (subst w; pose proof (authParamsSize_bound auth); destruct (isAuthenticated _); lia).
  assert (forall a, length a = w -> zlen (enc_v3 h (with_params u a p) data) <=
    zlen sc + zlen (u_engineId u) + zlen (u_userName u) + zlen (u_privParams u) + 208) as Hsize.
  { intros a Ha. etransitivity; [apply enc_v3_bound|]; cbn [with_params u_authParams u_engineId u_userName u_privParams]; lia. }
  assert (forall a, length a = w -> zlen (enc_v3 h (with_params u a p) data) < 2 ^ 32) as Hbound
    by (intros a Ha; specialize (Hsize a Ha); lia).
  assert (forall a, octets_ok a -> usm_ok (with_params u a p)) as Huok
    by (intros a Ha; destruct Hu as (? & ? & ? & ? & _); done).
  destruct (encode_run h u s auth key priv pkey sc ct pp c c' Hs He ltac:(lia)
    (fun H => proj1 (proj1 (Henc H))) Hauth Ep Hbound) as (d & Hd & Hdok & Eenc & Hsign).
  fold encrypt p data w in Hd, Eenc, Hsign. pose proof (Hbound d Hd) as Hlen.
  assert (octets_ok (enc_v3 h (with_params u d p) data)) as Hoct by (apply enc_v3_ok; auto).
  pose proof (dec_v3_enc h (with_params u d p) data x Hh (Huok d Hdok) Hlen Hx) as Hdec.
  eexists _, c', _. split; [exact Eenc|]. split; [done|]. split; [by apply Hsize|]. split; [exact Hdec|].
  split; [done|]. split; [done|]. split.
  - intros Ha. apply verifyAuth_run; [by apply Hauth|done| |lia|by apply Hsign].
    rewrite Hd. subst w. by rewrite Ha.
  - fold encrypt in Hopen |- *. destruct encrypt; [|split; [by rewrite Hopen|done]].
    destruct Hopen as (-> & pad & Hpo' & Hpl' & Epd). split; [done|]. eexists. cbn [fst snd]. split.
    + eapply (decrypt_run _ (with_params u d p)); [by apply Henc|exact Hs|exact He|exact Hpl'|exact Hpo'| |exact Epd].
      by exists pad.
    + done.
Qed.

(** A key that does not fit, or a cipher there is none of, is an error of [privEncrypt]. *)
Lemma privEncrypt_fails p key boots time plaintext c :
  ~ (key_fits p key /\ (p = Des -> OSSL_PROVIDER_load ssl = true)) ->
  exists e c', privEncrypt ssl p key boots time plaintext c = Done (inl (make_error_code e)) c' /\ e <> Ok /\
    (key_fits p key -> e = LegacyProviderUnavailable /\ p = Des /\ OSSL_PROVIDER_load ssl = false).
Proof.
  intros Hn. unfold privEncrypt. destruct (_ || _) eqn:G.
  { eexists _, _. split; [done|]. split; [done|]. intros (G1 & G2 & _)%key_fits_guard. by rewrite G1, G2 in G. }
  apply orb_false_iff in G as [G1%Nat.eqb_neq G2%Nat.ltb_ge].
  assert (key_fits p key) as Hk by (split; [by intros ->|done]).
  destruct (decide (p = Des)) as [->|]; [|exfalso; apply Hn; by split].
  destruct (OSSL_PROVIDER_load ssl) eqn:El; [exfalso; apply Hn; by split|].
  pose proof (key_fits_guard Des key Hk) as (_ & _ & H16).
  rewrite (bind_done _ _ c c (wrap 64 (c + 1))) by done. cbn zeta.
  rewrite (bind_done _ _ _ _ _ (salt_params_run Des boots c (wrap 64 (c + 1)))).
  destruct (makeIv_run Des key boots time (salt_params Des boots c) (wrap 64 (c + 1)) H16 (length_salt_params Des boots c))
    as [Ei _]. rewrite (bind_done _ _ _ _ _ Ei).
  unfold crypt. rewrite El. change (bool_decide (Des = Des)) with true. cbn [andb negb].
  eexists LegacyProviderUnavailable, _. by rewrite (bind_sum_inl _ _ _ (make_error_code LegacyProviderUnavailable) _) by done.
Qed.

(** [encodeV3Message] returns, with a message or an error. *)
Lemma encodeV3Message_outcome {T} h u s auth key priv pkey sc c (t : T) :
  header_ok h -> usm_ok u -> scoped_ok s -> enc_scoped s = Some sc ->
  zlen sc + zlen (u_engineId u) + zlen (u_userName u) + zlen (u_privParams u) < 2 ^ 24 ->
  exists r c', encodeV3Message ssl h u s auth key priv pkey c = Done r c' /\
    match r with
    | inl ec => is_error ec = true /\
        ((isAuthenticated (h_level h) = true -> auth <> AuthNone) -> (isEncrypted (h_level h) = true -> key_fits priv pkey) ->
         ec = make_error_code LegacyProviderUnavailable /\ isEncrypted (h_level h) = true /\ priv = Des /\
         OSSL_PROVIDER_load ssl = false)
    | inr out => exists msg, dec_v3 out = inr msg /\ header msg = h /\ (octets_ok out /\ zlen out < 2 ^ 25) /\
        u_userName (security msg) = u_userName u /\ u_engineId (security msg) = u_engineId u /\
        scoped msg = (if isEncrypted (h_level h) then default_scoped else s) /\
        (isAuthenticated (h_level h) = true -> verifyAuth ssl out msg auth key t = Done (inr tt) t) /\
        (isEncrypted (h_level h) = true ->
           exists msg', decryptScopedPdu ssl msg priv pkey t = Done (inr msg') t /\ scoped msg' = s)
    end.
Proof.
  intros Hh Hu Hs He Hsz.
  destruct (isEncrypted (h_level h) && bool_decide (priv = PrivNone)) eqn:G1.
  { unfold encodeV3Message. rewrite G1. eexists _, _. split; [done|]. split; [done|].
    apply andb_true_iff in G1 as [G1 ->%bool_decide_eq_true]. intros _ Hk. by destruct (Hk G1). }
  destruct (isAuthenticated (h_level h) && bool_decide (auth = AuthNone)) eqn:G2.
  { unfold encodeV3Message. rewrite G1, G2. eexists _, _. split; [done|]. split; [done|].
    apply andb_true_iff in G2 as [G2 ->%bool_decide_eq_true]. intros Ha. by destruct (Ha G2). }
  assert (isAuthenticated (h_level h) = true -> auth <> AuthNone) as Ha.
  { intros E ->. rewrite E in G2. done. }
  destruct (decide (isEncrypted (h_level h) = true -> key_fits priv pkey /\ (priv = Des -> OSSL_PROVIDER_load ssl = true)))
    as [Henc|Hn].
  - destruct (encoded_decodes h u s auth key priv pkey sc c t Hh Hu Hs He Hsz Ha Henc)
      as (out & c' & msg & E & Ho & Hl & Hdec & H1 & H2 & H3 & H4).
    eexists _, _. split; [exact E|]. exists msg. do 2 (split; [done|]). split; [split; [done|lia]|]. rewrite H2. do 2 (split; [done|]).
    split; [destruct (isEncrypted _); by destruct H4|]. split; [done|]. intros Hen. rewrite Hen in H4. by destruct H4.
  - destruct (isEncrypted (h_level h)) eqn:Ee; [|by destruct Hn].
    assert (~ (key_fits priv pkey /\ (priv = Des -> OSSL_PROVIDER_load ssl = true))) as Hn' by (intros Hx; by apply Hn).
    destruct (privEncrypt_fails priv pkey (u_boots u) (u_time u) sc c Hn') as (e & c' & Ep & Hne & Hl).
    exists (inl (make_error_code e)), c'. split.
    2: { split; [by apply is_error_make_error_code|]. intros _ Hk. destruct (Hl (Hk eq_refl)) as (-> & -> & ->). done. }
    unfold encodeV3Message. rewrite Ee, G1, G2. cbn zeta. pose proof (encodeScopedPdu_refines s Hs) as R. rewrite He in R.
    unfold Writer.new. rewrite (local_append _ sc [] _ _ R) by (cbn [app]; lia). rewrite app_nil_l. cbn [w_buf].
    by rewrite (bind_sum_inl _ _ _ _ _ Ep).
Qed.

(** C22: an SNMPv3 message arrives.  Whatever the security level, what
    [encodeV3Message] builds decodes to the same header and the same security
    parameters, [messageVersion] sees version 3 in it, the digest it carries passes
    [verifyAuth] with the same key, and its ScopedPDU, after [decryptScopedPdu] with
    the same key if it was encrypted, is the one that was sent.  In particular the
    offset at which the digest was written, computed from the sizes of five
    buffers, is the offset at which the receiver finds it. *)
Theorem v3_roundtrip {T} h u s auth key priv pkey sc c (t : T) :
  header_ok h -> usm_ok u -> scoped_ok s -> enc_scoped s = Some sc ->
  zlen sc + zlen (u_engineId u) + zlen (u_userName u) + zlen (u_privParams u) < 2 ^ 24 ->
  (isAuthenticated (h_level h) = true -> auth <> AuthNone) ->
  (isEncrypted (h_level h) = true -> key_fits priv pkey /\ (priv = Des -> OSSL_PROVIDER_load ssl = true)) ->
  exists out c' msg,
    encodeV3Message ssl h u s auth key priv pkey c = Done (inr out) c' /\
    messageVersion out t = Done (Some versionV3) t /\
    decodeV3Message out t = Done (inr msg) t /\ header msg = h /\
    security msg = with_params u (u_authParams (security msg)) (u_privParams (security msg)) /\
    (isAuthenticated (h_level h) = true -> verifyAuth ssl out msg auth key t = Done (inr tt) t) /\
    (if isEncrypted (h_level h)
     then exists msg', decryptScopedPdu ssl msg priv pkey t = Done (inr msg') t /\ scoped msg' = s
     else scoped msg = s /\ u_privParams (security msg) = u_privParams u).
Proof.
  intros Hh Hu Hs He Hsz Hauth Henc.
  destruct (encoded_decodes h u s auth key priv pkey sc c t Hh Hu Hs He Hsz Hauth Henc)
    as (out & c' & msg & E & Ho & Hl & Hdec & H1 & H2 & H3 & H4).
  exists out, c', msg. split; [done|]. split; [by apply v3_version with (1 := Hdec); [|lia]|].
  split; [rewrite decodeV3Message_run by (done || lia); by rewrite Hdec|]. do 3 (split; [done|]).
  destruct (isEncrypted (h_level h)); [by destruct H4|done].
Qed.

(** C33: the SNMPv3 decoder returns on every datagram.  It accepts exactly the
    messages of the reference grammar, version 3, the User-based Security Model,
    one octet of flags that do not ask for privacy without authentication, six
    security fields with nothing after them, and the payload the flags announce;
    every other datagram gets the error of the first rule broken.  And
    [authParamsOffset] is where the digest is: the octets of the datagram there are
    [authParams], inside its bounds. *)
Theorem decodeV3Message_total {T} bs (t : T) :
  octets_ok bs -> zlen bs < 2 ^ 63 ->
  match dec_v3 bs with
  | inl e => decodeV3Message bs t = Done (inl (make_error_code e)) t
  | inr msg =>
      decodeV3Message bs t = Done (inr msg) t /\
      let a := u_authParams (security msg) in
      0 <= authParamsOffset msg /\ authParamsOffset msg + zlen a <= zlen bs /\
      take (length a) (drop (Z.to_nat (authParamsOffset msg)) bs) = a
  end.
Proof.
  intros Ho Hl. rewrite decodeV3Message_run by done. destruct (dec_v3 bs) as [e|msg] eqn:E; [done|].
  split; [done|]. by apply dec_v3_at.
Qed.

(** The datagram with the octets of its digest zeroed: what a digest is computed over. *)
Definition blanked (bs : Octets) (msg : V3Message) : Octets :=
  let a := u_authParams (security msg) in
  let off := Z.to_nat (authParamsOffset msg) in
  take off bs ++ replicate (length a) 0 ++ drop (off + length a) bs.

(** What [verifyAuth] decides. *)
Lemma verifyAuth_spec {T} bs msg auth key (t : T) : octets_ok bs -> zlen bs < 2 ^ 63 ->
  dec_v3 bs = inr msg -> auth <> AuthNone ->
  let a := u_authParams (security msg) in
  exists d, authDigest ssl auth key (blanked bs msg) t = Done (inr d) t /\
    verifyAuth ssl bs msg auth key t =
      Done (if isAuthenticated (h_level (header msg)) && (length a =? authParamsSize auth)%nat
               && bool_decide (d = a)
            then inr tt else inl (make_error_code AuthFailed)) t.
Proof.
  intros Ho Hl E Ha a. destruct (dec_v3_at bs msg E Ho) as (H0 & H1 & H2). fold a in H1, H2.
  destruct (authDigest_run auth key (blanked bs msg) t Ha) as (mac & _ & Ed & Hw & _).
  exists (take (authParamsSize auth) mac). split; [done|]. unfold verifyAuth. fold a.
  destruct (isAuthenticated (h_level (header msg))); cbn [negb orb andb]; [|done].
  destruct (Nat.eqb_spec (length a) (authParamsSize auth)) as [Hwa|]; cbn [negb andb]; [|done].
  rewrite wrap_small, Z.gtb_ltb by lia.
  destruct (Z.ltb_spec (zlen bs) (authParamsOffset msg + zlen a)); [lia|].
  pose proof (fill_zeros_run (Z.to_nat (authParamsOffset msg)) (length a) bs t ltac:(lia)) as Ef.
  fold a (blanked bs msg) in Ef.
  rewrite (bind_done _ _ _ _ _ Ef), (bind_sum_inr _ _ _ _ _ Ed), Hw, Hwa, Nat.eqb_refl. cbn [negb orb].
  by destruct (bool_decide (take (authParamsSize auth) mac = a)).
Qed.

(** C27: [verifyAuth] accepts exactly the right digest.  On a message decoded from
    this datagram it never writes outside its copy of it, and succeeds if and only
    if the message claims authentication, its digest has the width of the protocol,
    and the digest equals the truncated HMAC of the datagram with precisely those
    octets zeroed; otherwise the error is [AuthFailed]. *)
Theorem verifyAuth_exact {T} bs msg auth key (t : T) :
  octets_ok bs -> zlen bs < 2 ^ 63 -> decodeV3Message bs t = Done (inr msg) t -> auth <> AuthNone ->
  let a := u_authParams (security msg) in
  let off := Z.to_nat (authParamsOffset msg) in
  exists d,
    authDigest ssl auth key (take off bs ++ replicate (length a) 0 ++ drop (off + length a) bs) t = Done (inr d) t /\
    verifyAuth ssl bs msg auth key t =
      Done (if isAuthenticated (h_level (header msg)) && (length a =? authParamsSize auth)%nat
               && bool_decide (d = a)
            then inr tt else inl (make_error_code AuthFailed)) t.
Proof.
  intros Ho Hl Hdec Ha. rewrite decodeV3Message_run in Hdec by done.
  destruct (dec_v3 bs) as [|m] eqn:E; [done|]. injection Hdec as ->. exact (verifyAuth_spec bs msg auth key t Ho Hl E Ha).
Qed.

(** Decryption does not say why it failed.  [decryptScopedPdu] returns on any
    message; the only errors it gives are [DecryptionFailed] and the two that speak
    of the protocol rather than of the payload, and on success it changes nothing
    but the ScopedPDU, which is well-formed BER at the start of the plaintext. *)
Theorem decryptScopedPdu_opaque {T} msg priv key (t : T) :
  octets_ok (encryptedPdu msg) -> zlen (encryptedPdu msg) < 2 ^ 31 ->
  exists r, decryptScopedPdu ssl msg priv key t = Done r t /\
    match r with
    | inl ec => In ec (make_error_code <$> [DecryptionFailed; UnsupportedPrivProtocol; LegacyProviderUnavailable])
    | inr msg' =>
        msg' = mkV3Message (header msg) (security msg) (scoped msg') (encryptedPdu msg) (authParamsOffset msg) /\
        exists plain n, privDecrypt ssl priv key (u_boots (security msg)) (u_time (security msg))
            (u_privParams (security msg)) (encryptedPdu msg) t = Done (inr plain) t /\
          p_scoped plain = inr (scoped msg', n)
    end.
Proof.
  intros Ho Hl. unfold decryptScopedPdu.
  destruct (privDecrypt_outcome priv key (u_boots (security msg)) (u_time (security msg))
    (u_privParams (security msg)) (encryptedPdu msg) t Ho Hl) as ([ec|plain] & E & H).
  - rewrite (bind_sum_inl _ _ _ _ _ E). by eexists.
  - rewrite (bind_sum_inr _ _ _ _ _ E). destruct H as [Hp Hpl]. destruct (Reader.new_good plain Hp ltac:(lia)) as [Hi _].
    pose proof (Reader.reads_runs (Reads := decodeScopedPdu_reads) _ Hi eq_refl) as R. rewrite Reader.view_new in R.
    destruct (p_scoped plain) as [e|[s n]] eqn:Es.
    + destruct R as (_ & pos & _ & R). rewrite (run_local_done _ _ _ _ _ _ R). eexists. split; [done|]. by left.
    + destruct R as [_ R]. rewrite (run_local_done _ _ _ _ _ _ R). eexists. split; [done|]. cbn [scoped].
      split; [done|]. eauto.
Qed.

(** What the checks come to does not depend on the state they run in. *)
Lemma verifyAuth_state {T U} bs msg auth key (t : T) (u : U) : octets_ok bs -> zlen bs < 2 ^ 63 ->
  dec_v3 bs = inr msg -> verifyAuth ssl bs msg auth key t = Done (inr tt) t ->
  verifyAuth ssl bs msg auth key u = Done (inr tt) u.
Proof.
  intros Ho Hl E Hv. destruct (decide (auth = AuthNone)) as [->|Ha].
  - unfold verifyAuth in Hv. destruct (_ || _); [done|]. destruct (_ >? _); [done|]. unfold bind at 1 in Hv.
    destruct (fill_zeros _ _ bs t); done.
  - destruct (verifyAuth_spec bs msg auth key t Ho Hl E Ha) as (d & Ed & Ev).
    destruct (verifyAuth_spec bs msg auth key u Ho Hl E Ha) as (d' & Ed' & Ev').
    destruct (authDigest_run auth key (blanked bs msg) t Ha) as (mac & Em & Ed1 & _).
    destruct (authDigest_run auth key (blanked bs msg) u Ha) as (mac' & Em' & Ed2 & _).
    assert (d' = d) as -> by congruence. rewrite Ev'. rewrite Hv in Ev. injection Ev as Ev. by rewrite <- Ev.
Qed.

Lemma decryptScopedPdu_state {T U} msg priv key r (t : T) (u : U) : octets_ok (encryptedPdu msg) ->
  zlen (encryptedPdu msg) < 2 ^ 31 -> decryptScopedPdu ssl msg priv key t = Done r t ->
  decryptScopedPdu ssl msg priv key u = Done r u.
Proof.
  intros Ho Hl. unfold decryptScopedPdu.
  pose proof (privDecrypt_cases priv key (u_boots (security msg)) (u_time (security msg))
    (u_privParams (security msg)) (encryptedPdu msg) t Hl) as Et.
  pose proof (privDecrypt_cases priv key (u_boots (security msg)) (u_time (security msg))
    (u_privParams (security msg)) (encryptedPdu msg) u Hl) as Eu.
  destruct (privDecrypt_outcome priv key (u_boots (security msg)) (u_time (security msg))
    (u_privParams (security msg)) (encryptedPdu msg) t Ho Hl) as (r0 & E & H).
  match type of Et with _ = Done ?x _ => set (y := x) in Et, Eu; clearbody y end.
  rewrite E in Et. injection Et as <-. destruct r0 as [ec|plain].
  - rewrite (bind_sum_inl _ _ _ _ _ E), (bind_sum_inl _ _ _ _ _ Eu). by intros [= <-].
  - rewrite (bind_sum_inr _ _ _ _ _ E), (bind_sum_inr _ _ _ _ _ Eu). destruct H as [Hp Hpl].
    destruct (Reader.new_good plain Hp ltac:(lia)) as [Hi _].
    pose proof (Reader.reads_runs (Reads := decodeScopedPdu_reads) _ Hi eq_refl) as R. rewrite Reader.view_new in R.
    destruct (p_scoped plain) as [e|[s n]].
    + destruct R as (_ & pos & _ & R). rewrite !(run_local_done _ _ _ _ _ _ R). by intros [= <-].
    + destruct R as [_ R]. rewrite !(run_local_done _ _ _ _ _ _ R). by intros [= <-].
Qed.

Lemma decryptScopedPdu_varbinds {T} msg priv key msg' (t : T) : octets_ok (encryptedPdu msg) ->
  zlen (encryptedPdu msg) < 2 ^ 31 -> decryptScopedPdu ssl msg priv key t = Done (inr msg') t ->
  wire_scoped (scoped msg').
Proof.
  intros Ho Hl. unfold decryptScopedPdu.
  destruct (privDecrypt_outcome priv key (u_boots (security msg)) (u_time (security msg))
    (u_privParams (security msg)) (encryptedPdu msg) t Ho Hl) as ([ec|plain] & E & H).
  - by rewrite (bind_sum_inl _ _ _ _ _ E).
  - rewrite (bind_sum_inr _ _ _ _ _ E). destruct H as [Hp Hpl]. destruct (Reader.new_good plain Hp ltac:(lia)) as [Hi _].
    pose proof (Reader.reads_runs (Reads := decodeScopedPdu_reads) _ Hi eq_refl) as R. rewrite Reader.view_new in R.
    destruct (p_scoped plain) as [e|[s n]] eqn:Es.
    + destruct R as (_ & pos & _ & R). by rewrite (run_local_done _ _ _ _ _ _ R).
    + destruct R as [_ R]. rewrite (run_local_done _ _ _ _ _ _ R). intros [= <-]. by eapply scoped_well_formed.
Qed.

End Properties.

Definition demo_header (l : SecurityLevel) : V3Header := mkV3Header 77 65507 l true 3.
Definition demo_usm : UsmParameters :=
  mkUsmParameters [0x80; 0; 0; 0; 1] 3 1000 (str "user") [] [].
Definition demo_scoped : ScopedPdu :=
  mkScopedPdu [0x80; 0; 0; 0; 1] [] (mkPdu Get 5 0 0 [mkVarbind [1; 3; 6; 1; 2; 1; 1; 3; 0] ValNull]).

Lemma v3_roundtrip_witness :
  exists out c' msg,
    encodeV3Message Toy.ssl (demo_header AuthPriv) demo_usm demo_scoped Sha256 [1; 2; 3] Des (replicate 16 9) 7 =
      Done (inr out) c' /\
    decodeV3Message out tt = Done (inr msg) tt /\
    verifyAuth Toy.ssl out msg Sha256 [1; 2; 3] tt = Done (inr tt) tt /\
    exists msg', decryptScopedPdu Toy.ssl msg Des (replicate 16 9) tt = Done (inr msg') tt /\ scoped msg' = demo_scoped.
Proof.
  destruct (v3_roundtrip (L := Toy.laws) (demo_header AuthPriv) demo_usm demo_scoped Sha256 [1; 2; 3] Des
    (replicate 16 9) (default [] (enc_scoped demo_scoped)) 7 tt)
    as (out & c' & msg & E1 & _ & E2 & _ & _ & E3 & E4).
  - split; [|split]; [apply (bool_decide_unpack _); vm_compute; exact I..|reflexivity].
  - repeat (split; [apply (bool_decide_unpack _); vm_compute; exact I|]). apply (bool_decide_unpack _). vm_compute. exact I.
  - split; [|split]; [apply (bool_decide_unpack _); vm_compute; exact I..|].
    repeat (split; [apply (bool_decide_unpack _); vm_compute; exact I|]).
    apply Forall_singleton. split; [apply (bool_decide_unpack _); vm_compute; exact I|exact I].
  - vm_compute. reflexivity.
  - vm_compute. reflexivity.
  - discriminate.
  - intros _. split; [split; [discriminate|vm_compute; lia]|reflexivity].
  - exists out, c', msg. split; [exact E1|]. split; [exact E2|]. split; [exact (E3 eq_refl)|exact E4].
Defined.

(** A datagram of the wrong version: refused before anything else is read. *)
Lemma decodeV3Message_total_witness :
  decodeV3Message [0x30; 0x03; 0x02; 0x01; 0x01] tt = Done (inl (make_error_code BadVersion)) tt.
Proof.
  apply (decodeV3Message_total [0x30; 0x03; 0x02; 0x01; 0x01] tt); [|vm_compute; reflexivity].
  apply (bool_decide_unpack _). vm_compute. exact I.
Defined.

(** What an authenticated sender puts on the wire, and what it is decoded to. *)
Definition demo_wire : Octets :=
  match encodeV3Message Toy.ssl (demo_header AuthNoPriv) demo_usm demo_scoped Sha256 [1; 2; 3] PrivNone [] 7 with
  | Done (inr out) _ => out
  | _ => []
  end.

Definition demo_received : V3Message :=
  match dec_v3 demo_wire with inr msg => msg | inl _ => mkV3Message (demo_header NoAuthNoPriv) demo_usm demo_scoped [] 0 end.

Lemma verifyAuth_exact_witness :
  exists d, verifyAuth Toy.ssl demo_wire demo_received Sha256 [1; 2; 9] tt =
    Done (if true && (length (u_authParams (security demo_received)) =? 24)%nat
             && bool_decide (d = u_authParams (security demo_received))
          then inr tt else inl (make_error_code AuthFailed)) tt.
Proof.
  destruct (verifyAuth_exact (L := Toy.laws) demo_wire demo_received Sha256 [1; 2; 9] tt) as (d & _ & E).
  - apply (bool_decide_unpack _). vm_compute. exact I.
  - vm_compute. reflexivity.
  - vm_compute. reflexivity.
  - discriminate.
  - exists d. exact E.
Defined.

Lemma decryptScopedPdu_opaque_witness :
  exists r, decryptScopedPdu Toy.ssl (mkV3Message (demo_header AuthPriv) demo_usm default_scoped [1; 2; 3] 0)
      Aes128 (replicate 16 9) tt = Done r tt /\
    match r with
    | inl ec => In ec (make_error_code <$> [DecryptionFailed; UnsupportedPrivProtocol; LegacyProviderUnavailable])
    | inr _ => True
    end.
Proof.
  destruct (decryptScopedPdu_opaque (L := Toy.laws)
    (mkV3Message (demo_header AuthPriv) demo_usm default_scoped [1; 2; 3] 0) Aes128 (replicate 16 9) tt)
    as (r & E & H); [apply (bool_decide_unpack _); vm_compute; exact I|vm_compute; reflexivity|].
  exists r. split; [exact E|]. destruct r; [exact H|exact I].
Defined.
