(* ===== verification/Unencodable.v ===== *)
(** * Unencodable: messages that cannot be made

    What the encoders of [src/BerWriter.cpp], [src/Pdu.cpp] and [src/V3Message.cpp] do
    with a PDU that has a name [Oid::isEncodable] refuses.  The Writer goes on after its
    error: scopes still open and close, so a buffer is left whose size matters, because
    [encodeV3Message] encrypts it before it looks at the error. *)

From S2P Require Import Prelude Errors Oids Values Ber BerWriter Pdu Usm V3Message.

(** ** How much an encoder writes, errors or not *)

(** A Writer that has not failed, or says so. *)
Definition sound (w : Writer) : Prop := w_ec w = no_error \/ is_error (w_ec w) = true.

Class Weighs (m : M Writer unit) (n : Z) : Prop :=
  weighs : forall w, sound w -> zlen (w_buf w) + n < 2 ^ 32 ->
    exists w', m w = Done tt w' /\ sound w' /\ zlen (w_buf w') <= zlen (w_buf w) + n.

Lemma weighs_le m n n' : Weighs m n -> n <= n' -> Weighs m n'.
Proof. intros W Hn w Hs Hl. destruct (W w Hs ltac:(lia)) as (w' & E & Hs' & H). exists w'. do 2 (split; [done|]). lia. Qed.

(** An operation behind [if (m_ec) return;]. *)
Lemma guarded_weighs m bs : Writer.Refines (Writer.unless_failed m) (Some bs) -> Weighs (Writer.unless_failed m) (zlen bs).
Proof.
  intros R w [E|E] Hl.
  - destruct (R w E) as (w' & Em & Ec & Hb). exists w'. split; [done|]. split; [by left|]. rewrite Hb; rewrite zlen_app; lia.
  - exists w. rewrite Writer.unless_failed_error by done. split; [done|]. split; [by right|lia].
Qed.

Lemma bind_weighs m1 m2 n1 n2 : 0 <= n2 -> Weighs m1 n1 -> Weighs m2 n2 -> Weighs (m1 ;;; m2) (n1 + n2).
Proof.
  intros Hn W1 W2 w Hs Hl. destruct (W1 w Hs ltac:(lia)) as (w1 & E1 & Hs1 & H1).
  destruct (W2 w1 Hs1 ltac:(lia)) as (w2 & E2 & Hs2 & H2). exists w2. unfold bind. rewrite E1, E2. do 2 (split; [done|]). lia.
Qed.

Lemma scope_weighs t body n : isConstructed t = true -> Writer.GoodWrite body -> Weighs body n ->
  Weighs (Writer.in_scope t body) (n + 6).
Proof.
  intros Ht G W w Hs Hl. destruct (W (mkWriter ((w_buf w ++ [t]) ++ [0]) (w_ec w)) Hs) as (w' & E & Hs' & Hw).
  { cbn [w_buf]. rewrite !zlen_app. cbn [length]. lia. }
  destruct (G (mkWriter ((w_buf w ++ [t]) ++ [0]) (w_ec w))) as (w1 & E1 & P & _). rewrite E in E1. injection E1 as <-.
  destruct (Writer.in_scope_run t body w w' Ht E P) as (content & Hc & ->). eexists. split; [done|]. split; [done|].
  cbn [w_buf] in *. rewrite Hc in Hw. rewrite !zlen_app in *. cbn [length] in *. rewrite wrap_small by lia.
  pose proof (enc_tlv_bound t content ltac:(lia)) as B. rewrite length_enc_tlv in B. lia.
Qed.

Lemma tlv_weighs t c : zlen c < 2 ^ 32 -> Weighs (Writer.tlv t c) (zlen c + 6).
Proof.
  intros Hl. eapply weighs_le; [exact (guarded_weighs _ _ (Writer.tlv_refines t c))|]. by apply enc_tlv_bound.
Qed.

Lemma octets_weigh c t : zlen c < 2 ^ 32 -> Weighs (Writer.octetString c t) (zlen c + 6).
Proof. apply tlv_weighs. Qed.

Lemma integer_weighs v t : Weighs (Writer.integer v t) 10.
Proof.
  eapply weighs_le; [exact (guarded_weighs _ _ (Writer.integer_refines v t))|].
  pose proof (strip_padding_length (if v <? 0 then 255 else 0) (v <? 0) (be_bytes 4 v)) as H. rewrite length_be_bytes in H.
  fold (enc_int32 v) in H. pose proof (enc_tlv_bound t (enc_int32 v) ltac:(lia)). lia.
Qed.

Lemma unsigned_weighs v t : uint64_ok v -> Weighs (Writer.unsigned64 v t) 15.
Proof.
  intros Hv. eapply weighs_le; [exact (guarded_weighs _ _ (Writer.unsigned64_contract v t Hv))|].
  pose proof (strip_padding_length 0 false (be_bytes 9 v)) as H. rewrite length_be_bytes in H. fold (enc_uint v) in H.
  pose proof (enc_tlv_bound t (enc_uint v) ltac:(lia)). lia.
Qed.

Lemma oid_weighs o : Oids.oid_ok o -> Weighs (Writer.objectIdentifier o) 1276.
Proof.
  intros Ho. destruct (Oids.isEncodable o) eqn:He.
  - pose proof (Writer.objectIdentifier_refines o Ho) as R. unfold enc_oid in R. rewrite He in R.
    eapply weighs_le; [exact (guarded_weighs _ _ R)|]. pose proof (length_enc_oid_content o He Ho).
    pose proof (enc_tlv_bound tag.objectIdentifier (enc_oid_content o) ltac:(lia)). lia.
  - intros w Hs _. unfold Writer.objectIdentifier. destruct (is_error (w_ec w)) eqn:E.
    + exists w. rewrite Writer.unless_failed_error by done. do 2 (split; [done|]). lia.
    + rewrite Writer.unless_failed_ok, He by done. unfold Writer.fail, modify. cbn [negb]. rewrite E. eexists. split; [done|]. split; [by right|cbn; lia].
Qed.

(** ** Varbinds *)

Definition value_size (v : Value) : Z :=
  match v with
  | ValOctets b | ValIpAddress b | ValOpaque b => zlen b + 6
  | ValOid _ => 1276
  | _ => 15
  end.

Definition varbind_size (vb : Varbind) : Z := 1276 + value_size (vb_val vb) + 6.

Fixpoint varbinds_size (vbs : list Varbind) : Z :=
  match vbs with [] => 0 | vb :: vbs => varbind_size vb + varbinds_size vbs end.

Lemma value_size_pos v : 0 < value_size v.
Proof. destruct v; cbn; lia. Qed.

Lemma varbinds_size_pos vbs : 0 <= varbinds_size vbs.
Proof. induction vbs as [|vb vbs IH]; cbn; [lia|]. unfold varbind_size. pose proof (value_size_pos (vb_val vb)). lia. Qed.

Lemma value_weighs v : value_ok v -> value_size v < 2 ^ 32 -> Weighs (Writer.writeValue v) (value_size v).
Proof.
  intros Hv Hl w Hs Hw. unfold Writer.writeValue. destruct (is_error (w_ec w)) eqn:E.
  { exists w. rewrite Writer.unless_failed_error by done. pose proof (value_size_pos v). do 2 (split; [done|]). lia. }
  rewrite Writer.unless_failed_ok by done. pose proof (enc_tlv_bound tag.null [] ltac:(cbn; lia)) as Bn. cbn [length] in Bn.
  destruct v as [| | | | | | | | | |[]]; cbn [value_size value_ok] in *;
    lazymatch goal with
    | |- context [Writer.nullValue] => eapply weighs_le; [exact (guarded_weighs _ _ Writer.nullValue_refines)|lia|done|done]
    | |- context [Writer.integer] => eapply weighs_le; [apply integer_weighs|lia|done|done]
    | |- context [Writer.octetString ?c] => eapply octets_weigh; [lia|done|done]
    | |- context [Writer.objectIdentifier] => by apply oid_weighs
    | |- context [Writer.tlv] => eapply weighs_le; [apply tlv_weighs; cbn; lia|cbn; lia|done|done]
    | _ => apply unsigned_weighs; [unfold uint32_ok, uint64_ok in *; lia|done|done]
    end.
Qed.

Lemma varbind_weighs vb : varbind_ok vb -> varbind_size vb < 2 ^ 32 -> Weighs (Writer.writeVarbind vb) (varbind_size vb).
Proof.
  intros [Hn Hv] Hl. unfold varbind_size in *. pose proof (value_size_pos (vb_val vb)). apply scope_weighs; [done|apply _|].
  apply bind_weighs; [lia|by apply oid_weighs|]. apply value_weighs; [done|lia].
Qed.

Lemma write_all_weighs vbs : Forall varbind_ok vbs -> varbinds_size vbs < 2 ^ 32 -> Weighs (Writer.write_all vbs) (varbinds_size vbs).
Proof.
  induction 1 as [|vb vbs Hvb _ IH]; cbn [varbinds_size Writer.write_all]; intros Hl.
  { intros w Hs _. exists w. do 2 (split; [done|]). lia. }
  pose proof (varbinds_size_pos vbs). pose proof (value_size_pos (vb_val vb)).
  apply bind_weighs; [done|apply varbind_weighs; [done|unfold varbind_size in *; lia]|apply IH; unfold varbind_size in *; lia].
Qed.

(** ** Messages *)

Lemma pdu_weighs p : pdu_ok p -> varbinds_size (varbinds p) < 2 ^ 31 -> Weighs (encodePdu p) (varbinds_size (varbinds p) + 42).
Proof.
  intros (_ & _ & _ & Hv) Hl. pose proof (varbinds_size_pos (varbinds p)).
  eapply weighs_le; [apply scope_weighs; [by destruct (pdu_type p)|apply _|]|].
  - do 3 (apply bind_weighs; [shelve|apply integer_weighs|]). apply scope_weighs; [done|apply _|]. apply write_all_weighs; [done|lia].
    Unshelve. all: lia.
  - lia.
Qed.

Lemma scoped_weighs s : scoped_ok s -> varbinds_size (varbinds (s_pdu s)) < 2 ^ 30 -> zlen (contextEngineId s) + zlen (contextName s) < 2 ^ 30 ->
  Weighs (encodeScopedPdu s) (zlen (contextEngineId s) + zlen (contextName s) + varbinds_size (varbinds (s_pdu s)) + 60).
Proof.
  intros (_ & _ & Hp) Hl He. pose proof (varbinds_size_pos (varbinds (s_pdu s))).
  eapply weighs_le; [apply scope_weighs; [done|apply _|]|].
  - apply bind_weighs; [shelve|apply octets_weigh; lia|]. apply bind_weighs; [shelve|apply octets_weigh; lia|].
    apply pdu_weighs; [done|lia].
    Unshelve. all: lia.
  - lia.
Qed.

(** A ScopedPDU that failed is found out at the end, whatever else was written. *)
Lemma assemble_unencodable ssl h u auth key encrypt authenticate width buf ec ct pp c : is_error ec = true ->
  assemble ssl h u auth key encrypt authenticate width (mkWriter buf ec) ct pp c = Done (inl ec) c.
Proof.
  intros He. unfold assemble.
  assert (forall m w (k : unit -> Writer -> M Salt (ErrorCode + Octets)), Writer.GoodWrite m ->
    (forall w', k tt w' c = Done (inl ec) c) -> run_local w m k c = Done (inl ec) c) as Hrun.
  { intros m w k G Hk. destruct (G w) as (w' & E & _). by rewrite (run_local_done _ _ _ _ _ _ E). }
  assert (exists z w', encodeUsmContent u width (if encrypt then pp else u_privParams u) Writer.new = Done z w') as (z & w' & E).
  { assert (forall m w (k : M Writer Z), Writer.GoodWrite m -> (forall w, exists z w', k w = Done z w') ->
      exists z w', (m ;;; k) w = Done z w') as Hseq.
    { intros m w k G Hk. destruct (G w) as (w1 & E & _). unfold bind. rewrite E. apply Hk. }
    unfold encodeUsmContent. do 4 (apply Hseq; [apply _|intros ?]). unfold bind at 1. cbn [gets].
    do 2 (apply Hseq; [apply _|intros ?]). by eexists _, _. }
  rewrite (run_local_done _ _ _ _ _ _ E). clear E.
  apply Hrun; [apply _|]. intros w1. apply Hrun; [apply _|]. intros w2. apply Hrun; [destruct encrypt; apply _|]. intros w3.
  apply Hrun; [apply _|]. intros w4. cbn [w_ec first_error]. by rewrite He.
Qed.

Section Laws.
Context {ssl : OpenSSL} {L : OpenSSLLaws ssl}.

(** Without a name that can be encoded there is no message: [OidNotEncodable], unless the
    protection fails first. *)
Lemma encodeV3Message_unencodable h u s auth key priv pkey c : scoped_ok s -> enc_scoped s = None ->
  varbinds_size (varbinds (s_pdu s)) < 2 ^ 30 -> zlen (contextEngineId s) + zlen (contextName s) < 2 ^ 20 ->
  exists ec c', encodeV3Message ssl h u s auth key priv pkey c = Done (inl ec) c' /\ is_error ec = true /\
    ((isAuthenticated (h_level h) = true -> auth <> AuthNone) -> (isEncrypted (h_level h) = true -> key_fits priv pkey) ->
     ec = make_error_code OidNotEncodable \/
     (ec = make_error_code LegacyProviderUnavailable /\ isEncrypted (h_level h) = true /\ priv = Des /\ OSSL_PROVIDER_load ssl = false)).
Proof.
  intros Hs He Hv Hl. unfold encodeV3Message.
  destruct (isEncrypted (h_level h) && bool_decide (priv = PrivNone)) eqn:G1.
  { eexists _, _. split; [done|]. split; [done|]. apply andb_true_iff in G1 as [G1 ->%bool_decide_eq_true]. intros _ Hk. by destruct (Hk G1). }
  destruct (isAuthenticated (h_level h) && bool_decide (auth = AuthNone)) eqn:G2.
  { eexists _, _. split; [done|]. split; [done|]. apply andb_true_iff in G2 as [G2 ->%bool_decide_eq_true]. intros Ha. by destruct (Ha G2). }
  cbn zeta. pose proof (encodeScopedPdu_refines s Hs) as R. rewrite He in R.
  destruct (R Writer.new eq_refl) as ([buf ec] & E & Hec). cbn [w_ec] in Hec. subst ec.
  rewrite (run_local_done _ _ _ _ _ _ E). cbn [w_buf].
  destruct (scoped_weighs s Hs Hv ltac:(lia) Writer.new) as (w & E' & _ & Hw); [by left|cbn [w_buf Writer.new length]; lia|].
  rewrite E in E'. injection E' as <-. cbn [w_buf Writer.new length] in Hw.
  destruct (isEncrypted (h_level h)) eqn:Ee.
  2: { rewrite (bind_sum_inr _ _ _ ([], []) c) by done. eexists _, _. split; [by apply assemble_unencodable|]. split; [done|by left]. }
  destruct (decide (key_fits priv pkey /\ (priv = Des -> OSSL_PROVIDER_load ssl = true))) as [[Hk Hd]|Hn].
  - assert (zlen (padded priv buf) < 2 ^ 31) as Hpad.
    { unfold padded. rewrite zlen_app. destruct (bool_decide (priv = Des)); [|cbn [length]; lia]. rewrite length_replicate.
      pose proof (Nat.mod_upper_bound (8 - length buf mod 8) 8). lia. }
    rewrite (bind_sum_inr _ _ _ _ _ (privEncrypt_run priv pkey (u_boots u) (u_time u) buf c Hk Hd Hpad)).
    eexists _, _. split; [by apply assemble_unencodable|]. split; [done|by left].
  - destruct (privEncrypt_fails priv pkey (u_boots u) (u_time u) buf c Hn) as (e & c' & Ep & Hne & Hleg).
    rewrite (bind_sum_inl _ _ _ _ _ Ep). eexists _, _. split; [done|]. split; [by apply is_error_make_error_code|].
    intros _ Hk. right. destruct (Hleg (Hk eq_refl)) as (-> & -> & ->). done.
Qed.

End Laws.
