(* ===== verification/Echo.v ===== *)
(** * Echo: a PDU that was decoded, and what it takes to send its names back

    What the decoders of [src/Pdu.cpp] and [src/V3Message.cpp] hand over is well formed and
    no larger than the datagram it came from.  An Agent that answers a request repeats its
    names, so its reply has an encoding, of a size that follows from the request's. *)

From stdpp Require Import list.
From S2P Require Import Prelude Errors Oids Values Ber BerWriter BerReader BerRoundtrip Pdu Usm V3Message.

(** ** What was taken from the octets *)

(** The octets a Varbind has for its name alone, two headers included. *)
Definition name_size (vb : Varbind) : nat := (4 + length (enc_oid_content (vb_name vb)))%nat.
Definition names_size (vbs : list Varbind) : nat := sum_list_with name_size vbs.
#[global] Arguments names_size : simpl never.

Lemma p_scope_taken {A} t (p : Reader.parser A) bs a n : Reader.p_scope t p bs = inr (a, n) -> octets_ok bs ->
  exists c, octets_ok c /\ p c = inr (a, length c) /\ (length c + 2 <= n)%nat /\ (n <= length bs)%nat.
Proof.
  unfold Reader.p_scope. destruct bs as [|b bs]; [done|]. destruct (negb _); [done|].
  destruct (Reader.p_header (b :: bs)) as [|[h k]] eqn:Hh; [done|]. intros H Hok.
  destruct (Reader.p_header_len _ _ _ Hh Hok) as (? & Hl & ?).
  exists (take (Z.to_nat (Reader.h_length h)) (drop k (b :: bs))). split; [eauto with snmp|].
  destruct (p (take _ _)) as [|[a' j]]; [done|].
  destruct (Nat.eqb_spec j (Z.to_nat (Reader.h_length h))) as [Hj|]; [|done]. injection H as <- <-.
  assert (length (take (Z.to_nat (Reader.h_length h)) (drop k (b :: bs))) = Z.to_nat (Reader.h_length h)) as E
    by (rewrite length_take, length_drop; lia).
  rewrite E. split; [by rewrite Hj|lia].
Qed.

Lemma varbind_taken bs vb n : Reader.p_varbind bs = inr (vb, n) -> octets_ok bs -> (name_size vb <= n)%nat.
Proof.
  intros H Ho. apply p_scope_taken in H as (c & Oc & H & Hn & _); [|done]. apply p_bind_inv in H as (name & k & m & E1 & E2 & E3).
  apply p_map_inv in E2 as (v & _ & ->). apply p_content_inv in E1 as (x & E1 & Hd).
  destruct (p_prim_inv _ _ _ _ E1 Oc) as [Ox Hx]. destruct (dec_oid_canonical x name Ox Hd) as (_ & _ & Ec).
  unfold name_size. cbn. rewrite Ec. lia.
Qed.

Lemma many_taken fuel bs vbs n : octets_ok bs -> Reader.p_many fuel Reader.p_varbind bs = inr (vbs, n) ->
  (names_size vbs <= n)%nat.
Proof.
  revert bs vbs n. induction fuel as [|fuel IH]; intros bs vbs n Hok.
  - destruct bs; [|done]. intros [= <- _]. apply Nat.le_0_l.
  - cbn [Reader.p_many]. destruct bs as [|b bs]; [intros [= <- <-]; apply Nat.le_0_l|].
    intros (vb & k & m & Hvb & Hr & ->)%p_bind_inv. apply p_map_inv in Hr as (l & Hl & ->).
    apply varbind_taken in Hvb; [|done]. apply IH in Hl; [|eauto with snmp]. change (names_size (vb :: l)) with (name_size vb + names_size l)%nat. lia.
Qed.

(** A PDU out of [n] octets. *)
Record taken (n : nat) (p : Pdu) : Prop := {
  tk_ok : pdu_ok p;
  tk_wire : Forall varbind_wire_ok (varbinds p);
  tk_size : (names_size (varbinds p) <= n)%nat }.

Lemma taken_le n m p : (n <= m)%nat -> taken n p -> taken m p.
Proof. intros Hl [? ? ?]. split; [done|done|lia]. Qed.

Lemma pdu_taken bs p n : p_pdu bs = inr (p, n) -> octets_ok bs -> taken (length bs) p.
Proof.
  unfold p_pdu. destruct bs as [|t bs]; [done|]. destruct (pdu_type_of t); [|done].
  intros H Ho. apply p_scope_taken in H as (c & Oc & Hc & Hn & Hl); [|done]. unfold p_pdu_body in Hc.
  apply p_bind_inv in Hc as (id & i1 & j1 & E1 & Hc & K1). apply p_bind_inv in Hc as (st & i2 & j2 & E2 & Hc & K2).
  apply p_bind_inv in Hc as (ix & i3 & j3 & E3 & Hc & K3). apply p_map_inv in Hc as (vs & Hc & ->).
  assert (octets_ok (drop i3 (drop i2 (drop i1 c)))) as O3 by eauto with snmp.
  assert (Forall varbind_wire_ok vs) as Hw by (by eapply varbinds_well_formed).
  split; cbn; [|done|].
  - split; [by eapply p_int32_ok|]. split; [by eapply p_int32_ok|]. split; [by eapply p_int32_ok|].
    eapply Forall_impl; [|exact Hw]. apply wire_varbind_ok.
  - apply p_scope_taken in Hc as (d & Od & Hd & Hdn & _); [|done]. apply many_taken in Hd; [|done]. cbn in *. lia.
Qed.

Lemma v2c_taken bs msg : dec_whole p_v2c bs = inr msg -> octets_ok bs ->
  taken (length bs) (v2c_pdu msg) /\ octets_ok (v2c_community msg) /\ (length (v2c_community msg) <= length bs)%nat.
Proof.
  unfold dec_whole. destruct (p_v2c bs) as [|[x n]] eqn:E; [done|]. destruct (_ =? _)%nat; [|done]. intros [= ->] Ho.
  apply p_scope_taken in E as (c & Oc & H & Hn & Hl); [|done].
  apply p_bind_inv in H as (v & i1 & j1 & _ & H & K1). apply p_bind_inv in H as (co & i2 & j2 & E2 & H & K2).
  destruct (negb _); [done|]. apply p_map_inv in H as (p & H & ->). cbn.
  assert (octets_ok (drop i1 c)) as O1 by eauto with snmp. destruct (p_prim_inv _ _ _ _ E2 O1) as [Oco Hco].
  apply pdu_taken in H; [|eauto with snmp]. rewrite !length_drop in H. split; [eapply taken_le; [|exact H]; lia|].
  split; [done|lia].
Qed.

Lemma scoped_taken bs s n : p_scoped bs = inr (s, n) -> octets_ok bs -> taken (length bs) (s_pdu s).
Proof.
  intros H Ho. apply p_scope_taken in H as (c & Oc & H & Hn & Hl); [|done]. unfold p_scoped_body in H.
  apply p_bind_inv in H as (e & i1 & j1 & _ & H & _). apply p_bind_inv in H as (x & i2 & j2 & _ & H & _).
  apply p_map_inv in H as (p & H & ->). apply pdu_taken in H; [|eauto with snmp]. rewrite !length_drop in H. cbn.
  eapply taken_le; [|exact H]. lia.
Qed.

Lemma v3_taken bs msg : dec_v3 bs = inr msg -> octets_ok bs -> taken (length bs) (s_pdu (scoped msg)).
Proof.
  intros Hd Ho. destruct (dec_v3_parts bs msg Hd Ho) as (c & rest & [_ _ _ [Or Hr] [n E]]). unfold p_data in E.
  destruct (isEncrypted _); apply p_map_inv in E as (y & E & [= -> _]).
  - split; cbn; [|by apply Forall_nil|apply Nat.le_0_l]. repeat split; try (unfold int32_ok; cbn; lia). by apply Forall_nil.
  - eapply taken_le; [exact Hr|]. by eapply scoped_taken.
Qed.

Section Decrypted.
Context {ssl : OpenSSL} {L : OpenSSLLaws ssl}.

(** Decryption fills in the ScopedPDU and nothing else. *)
Lemma decryptScopedPdu_keeps {T} msg priv key (t t' : T) msg' : decryptScopedPdu ssl msg priv key t = Done (inr msg') t' ->
  header msg' = header msg /\ security msg' = security msg.
Proof.
  unfold decryptScopedPdu, bind_sum, bind at 1. destruct (privDecrypt _ _ _ _ _ _ _ t) as [[ec|plain] t1| |]; [done| |done|done].
  unfold run_local. destruct (decodeScopedPdu _) as [[sc|] r| |]; [|done..]. by intros [= <- _].
Qed.

Lemma decrypted_taken {T} msg priv key msg' (t : T) : octets_ok (encryptedPdu msg) -> zlen (encryptedPdu msg) < 2 ^ 31 ->
  decryptScopedPdu ssl msg priv key t = Done (inr msg') t -> taken (length (encryptedPdu msg)) (s_pdu (scoped msg')).
Proof.
  intros Ho Hl. unfold decryptScopedPdu. unfold bind_sum, bind at 1. rewrite privDecrypt_cases by done.
  repeat (destruct (_ : bool); [done|]).
  set (plain := pass _ _ _ _ _). assert (octets_ok plain) as Hp by (by apply pass_octets).
  assert (length plain = length (encryptedPdu msg)) as Hpl by apply pass_length.
  destruct (Reader.new_good plain Hp ltac:(lia)) as [Hi _].
  pose proof (Reader.reads_runs (Reads := decodeScopedPdu_reads) _ Hi eq_refl) as R. rewrite Reader.view_new in R.
  destruct (p_scoped plain) as [e|[s n]] eqn:Es.
  - destruct R as (_ & pos & _ & R). by rewrite (run_local_done _ _ _ _ _ _ R).
  - destruct R as [_ R]. rewrite (run_local_done _ _ _ _ _ _ R). intros [= <-]. cbn. rewrite <- Hpl. by eapply scoped_taken.
Qed.

End Decrypted.

(** ** The names, sent back *)

(** The same names, each with a value. *)
Definition echoed (vbs : list Varbind) : list Varbind := map (fun vb => mkVarbind (vb_name vb) (ValInt32 42)) vbs.

Lemma echoed_wire vbs : Forall varbind_wire_ok vbs -> Forall varbind_wire_ok (echoed vbs).
Proof.
  intros H. apply Forall_map. eapply Forall_impl; [|exact H]. intros vb [Hn _]. split; [done|]. split; [|done].
  cbn. unfold int32_ok. lia.
Qed.

Lemma echo_one vb : varbind_wire_ok vb -> Z.of_nat (name_size vb) < 2 ^ 25 ->
  exists bs, enc_varbind (mkVarbind (vb_name vb) (ValInt32 42)) = Some bs /\ zlen bs <= 4 * Z.of_nat (name_size vb).
Proof.
  intros [[_ He] _] Hl. unfold enc_varbind, enc_oid. cbn [vb_name vb_val enc_value]. rewrite He. cbn [mbind option_bind].
  eexists. split; [done|]. unfold name_size in *. set (c := enc_oid_content (vb_name vb)) in *.
  pose proof (enc_tlv_bound tag.objectIdentifier c ltac:(lia)) as B1. set (x := enc_tlv tag.objectIdentifier c) in *.
  pose proof (tlv_int_bound 42) as B2. assert (zlen (enc_tlv tag.integer (enc_int32 42)) = 3) as B2' by reflexivity.
  set (y := enc_tlv tag.integer (enc_int32 42)) in *.
  pose proof (enc_tlv_bound tag.sequence (x ++ y) ltac:(rewrite zlen_app; lia)) as B3. rewrite zlen_app in B3. lia.
Qed.

Lemma echo_size vbs : Forall varbind_wire_ok vbs -> Z.of_nat (names_size vbs) < 2 ^ 25 ->
  exists bs, enc_varbinds (echoed vbs) = Some bs /\ zlen bs <= 4 * Z.of_nat (names_size vbs) + 6.
Proof.
  intros Hw Hl. assert (exists l, mapM enc_varbind (echoed vbs) = Some l /\
    zlen (concat l) <= 4 * Z.of_nat (names_size vbs)) as (l & El & Hsz).
  { clear -Hw Hl. induction Hw as [|vb vbs Hvb _ IH]; [by exists []|].
    change (names_size (vb :: vbs)) with (name_size vb + names_size vbs)%nat in *.
    destruct (echo_one vb Hvb ltac:(lia)) as (b & Eb & Hb). destruct (IH ltac:(lia)) as (l & El & Hs).
    exists (b :: l). split.
    { change (mapM enc_varbind (echoed (vb :: vbs))) with
        (y ← enc_varbind (mkVarbind (vb_name vb) (ValInt32 42)); k ← mapM enc_varbind (echoed vbs); Some (y :: k)).
      rewrite Eb. cbn [mbind option_bind]. by rewrite El. }
    cbn [concat]. rewrite zlen_app. lia. }
  exists (enc_tlv tag.sequence (concat l)). split; [unfold enc_varbinds; by rewrite El|].
  pose proof (enc_tlv_bound tag.sequence (concat l) ltac:(lia)). lia.
Qed.
