(* ===== verification/FuzzTargets.v ===== *)
(** * FuzzTargets: what the codec fuzzers assert

    Models the entry points of [fuzz/FuzzBerValue.cpp], [fuzz/FuzzBerVarbindList.cpp],
    [fuzz/FuzzOidText.cpp], [fuzz/FuzzV2cMessage.cpp] and [fuzz/FuzzV3Message.cpp]: each
    decodes its input, and asserts that what was accepted can be encoded again and decodes
    to the same.  A target gives whether its assertions hold.  The theory shows that they do
    on every input of less than 2^20 octets, because what is decoded from [n] octets is
    encoded again in at most [8 * n]. *)

From stdpp Require Import list.
From S2P Require Import Prelude Errors Oids Values Ber BerWriter BerReader BerRoundtrip Pdu Usm V3Message Echo.

(** [assert(b)], in a function that comes to whether all held. *)
Notation "'assert!' b ;; k" := (if b then k else ret false) (at level 200, b at level 90, k at level 200, right associativity).

(** ** The targets *)

Definition writer_ok (w : Writer) : bool := negb (is_error (w_ec w)).

(** A second Reader over our own encoding: what it reads, and whether [finish] agrees. *)
Definition read_back {S A} (bytes : Octets) (read : M Reader (option A)) (k : option A -> bool -> M S bool) : M S bool :=
  run_local (Reader.new bytes) read (fun again r2 => run_local r2 Reader.finish (fun finished _ => k again finished)).

Definition FuzzBerValue {S} (input : Octets) : M S bool :=
  run_local (Reader.new input) Reader.anyValue (fun decoded r =>
    match decoded with
    | None => assert! negb (Reader.ok r) ;; ret true
    | Some decoded =>
        let _ := Values.toString decoded in
        run_local Writer.new (Writer.writeValue decoded) (fun _ w =>
          assert! writer_ok w ;;
          read_back (w_buf w) Reader.anyValue (fun again finished =>
            match again with
            | None => ret false
            | Some again => assert! finished ;; assert! bool_decide (again = decoded) ;; ret true
            end))
    end).

Definition FuzzBerVarbindList {S} (input : Octets) : M S bool :=
  run_local (Reader.new input) Reader.varbindList (fun decoded r =>
    match decoded with
    | None => assert! negb (Reader.ok r) ;; ret true
    | Some decoded =>
        run_local Writer.new (Writer.varbindList decoded) (fun _ w =>
          assert! writer_ok w ;;
          read_back (w_buf w) Reader.varbindList (fun again finished =>
            match again with
            | None => ret false
            | Some again => assert! finished ;; assert! bool_decide (again = decoded) ;; ret true
            end))
    end).

Definition FuzzOidText {S} (text : cstring) : M S bool :=
  match Oids.parse text with
  | None => out_of_fuel
  | Some None => ret true
  | Some (Some parsed) =>
      match Oids.parse (Oids.toString parsed) with
      | None => out_of_fuel
      | Some None => ret false
      | Some (Some reparsed) =>
          assert! bool_decide (reparsed = parsed) ;;
          if Oids.isEncodable parsed then
            run_local Writer.new (Writer.objectIdentifier parsed) (fun _ w =>
              assert! writer_ok w ;; assert! zlen (w_buf w) =? Writer.encodedOidSize parsed ;; ret true)
          else ret true
      end
  end.

(** An [ec] that was set is the left of a sum, and one that was not its right. *)
Definition FuzzV2cMessage {S} (input : Octets) : M S bool :=
  let! decoded := decodeV2cMessage input in
  match decoded with
  | inl ec => assert! is_error ec ;; ret true
  | inr decoded =>
      let! reencoded := encodeV2cMessage (v2c_community decoded) (v2c_pdu decoded) in
      match reencoded with
      | inl _ => ret false
      | inr reencoded =>
          let! again := decodeV2cMessage reencoded in
          match again with
          | inl _ => ret false
          | inr again =>
              let pdu := v2c_pdu again in
              assert! bool_decide (v2c_community again = v2c_community decoded) ;;
              assert! bool_decide (pdu_type pdu = pdu_type (v2c_pdu decoded)) ;;
              assert! requestId pdu =? requestId (v2c_pdu decoded) ;;
              assert! errorStatus pdu =? errorStatus (v2c_pdu decoded) ;;
              assert! errorIndex pdu =? errorIndex (v2c_pdu decoded) ;;
              assert! bool_decide (varbinds pdu = varbinds (v2c_pdu decoded)) ;;
              ret true
          end
      end
  end.

Section V3.
Context (ssl : OpenSSL).

(** The part for a message that is not encrypted. *)
Definition reencode_v3 (decoded : V3Message) : M Salt bool :=
  let h := header decoded in
  let! reencoded := encodeV3Message ssl (mkV3Header (msgId h) (maxSize h) NoAuthNoPriv (reportable h) (securityModel h))
                      (security decoded) (scoped decoded) AuthNone [] PrivNone [] in
  match reencoded with
  | inl _ => ret false
  | inr reencoded =>
      let! again := decodeV3Message reencoded in
      match again with
      | inl _ => ret false
      | inr again =>
          let u := security again in
          let s := scoped again in
          assert! msgId (header again) =? msgId h ;;
          assert! maxSize (header again) =? maxSize h ;;
          assert! eqb (reportable (header again)) (reportable h) ;;
          assert! bool_decide (u_engineId u = u_engineId (security decoded)) ;;
          assert! u_boots u =? u_boots (security decoded) ;;
          assert! u_time u =? u_time (security decoded) ;;
          assert! bool_decide (u_userName u = u_userName (security decoded)) ;;
          assert! bool_decide (u_privParams u = u_privParams (security decoded)) ;;
          assert! bool_decide (contextEngineId s = contextEngineId (scoped decoded)) ;;
          assert! bool_decide (contextName s = contextName (scoped decoded)) ;;
          assert! bool_decide (pdu_type (s_pdu s) = pdu_type (s_pdu (scoped decoded))) ;;
          assert! requestId (s_pdu s) =? requestId (s_pdu (scoped decoded)) ;;
          assert! bool_decide (varbinds (s_pdu s) = varbinds (s_pdu (scoped decoded))) ;;
          ret true
      end
  end.

Definition FuzzV3Message (input : Octets) : M Salt bool :=
  let! decoded := decodeV3Message input in
  match decoded with
  | inl ec => assert! is_error ec ;; ret true
  | inr decoded =>
      assert! authParamsOffset decoded + zlen (u_authParams (security decoded)) <=? zlen input ;;
      let! _ := verifyAuth ssl input decoded Sha256 (replicate 32 0xA5) in
      if isEncrypted (h_level (header decoded)) then
        let aesKey := replicate 32 0x5A in
        let! _ := decryptScopedPdu ssl decoded Aes256 aesKey in
        let! _ := decryptScopedPdu ssl decoded Des aesKey in
        ret true
      else reencode_v3 decoded
  end.

End V3.

(** ** Encoded again *)

Import Reader.

(** What [p] takes from [n] octets, [enc] puts into at most [8 * n]. *)
Definition Rewrites {A} (p : parser A) (enc : A -> option Octets) : Prop :=
  forall bs a n, octets_ok bs -> zlen bs < 2 ^ 20 -> p bs = inr (a, n) ->
    (n <= length bs)%nat /\ exists b, enc a = Some b /\ zlen b <= 8 * Z.of_nat n.

Lemma prim_len t bs c n : p_prim t bs = inr (c, n) -> octets_ok bs -> octets_ok c /\ (length c + 2 <= n <= length bs)%nat.
Proof.
  unfold p_prim. destruct bs as [|b bs]; [done|]. destruct (negb _); [done|]. destruct (isConstructed t); [done|].
  destruct (p_header (b :: bs)) as [|[h k]] eqn:Hh; [done|]. intros [= <- <-] Hok.
  destruct (p_header_len _ _ _ Hh Hok) as (? & ? & ?). split; [eauto with snmp|].
  rewrite length_take, length_drop. lia.
Qed.

(** Content as it was, or of nine octets at most. *)
Lemma tlv_rewrites {A} t t' (dec : Octets -> Errc + A) (enc : A -> Octets) :
  (forall c a, octets_ok c -> dec c = inr a -> zlen (enc a) <= zlen c \/ zlen (enc a) <= 9) ->
  Rewrites (p_content t dec) (fun a => Some (enc_tlv t' (enc a))).
Proof.
  intros Hd bs a n Ho Hl (c & Hc & Ha)%p_content_inv. destruct (prim_len _ _ _ _ Hc Ho) as [Oc Hn]. split; [lia|].
  eexists. split; [done|]. destruct (Hd c a Oc Ha); pose proof (enc_tlv_bound t' (enc a) ltac:(lia)); lia.
Qed.

Lemma prim_rewrites t t' : Rewrites (p_prim t) (fun c => Some (enc_tlv t' c)).
Proof.
  intros bs c n Ho Hl Hc. destruct (prim_len _ _ _ _ Hc Ho) as [Oc Hn]. split; [lia|]. eexists. split; [done|].
  pose proof (enc_tlv_bound t' c ltac:(lia)). lia.
Qed.

Lemma map_rewrites {A B} (f : A -> B) p enc enc' : Rewrites p enc -> (forall a, enc' (f a) = enc a) -> Rewrites (p_map f p) enc'.
Proof. intros Hp Hf bs b n Ho Hl (a & Ha & ->)%p_map_inv. rewrite Hf. by eapply Hp. Qed.

Lemma scope_rewrites {A} t t' (p : parser A) (enc : A -> option Octets) :
  (forall bs a, octets_ok bs -> zlen bs < 2 ^ 20 -> p bs = inr (a, length bs) -> exists b, enc a = Some b /\ zlen b <= 8 * zlen bs) ->
  Rewrites (p_scope t p) (fun a => enc_tlv t' <$> enc a).
Proof.
  intros Hp bs a n Ho Hl H. apply p_scope_taken in H as (c & Oc & Hc & Hn & Hb); [|done]. split; [done|].
  destruct (Hp c a Oc ltac:(lia) Hc) as (b & -> & Hlb). eexists. split; [done|]. pose proof (enc_tlv_bound t' b ltac:(lia)). lia.
Qed.

Lemma length_enc_uint v : zlen (enc_uint v) <= 9.
Proof. unfold enc_uint. pose proof (strip_padding_length 0 false (be_bytes 9 v)) as H. rewrite length_be_bytes in H. lia. Qed.

Lemma length_enc_int32 v : zlen (enc_int32 v) <= 4.
Proof.
  unfold enc_int32. pose proof (strip_padding_length (if v <? 0 then 255 else 0) (v <? 0) (be_bytes 4 v)) as H.
  rewrite length_be_bytes in H. lia.
Qed.

Lemma int_rewrites : Rewrites p_int32 enc_integer.
Proof. apply tlv_rewrites. intros c a _ _. right. pose proof (length_enc_int32 a). lia. Qed.

Lemma oid_rewrites : Rewrites p_oid enc_oid.
Proof.
  intros bs o n Ho Hl H. pose proof (tlv_rewrites tag.objectIdentifier tag.objectIdentifier dec_oid enc_oid_content) as R.
  apply p_content_inv in H as Hd. destruct Hd as (c & Hc & Hd). destruct (p_prim_inv _ _ _ _ Hc Ho) as [Oc _].
  destruct (dec_oid_canonical c o Oc Hd) as (_ & He & _). unfold enc_oid. rewrite He. eapply R; [|done|done|exact H].
  intros c' o' Oc' Hd'. destruct (dec_oid_canonical c' o' Oc' Hd') as (_ & _ & E). left. by rewrite E.
Qed.

Lemma empty_rewrites (a : Value) t t' e : enc_value a = Some (enc_tlv t' []) -> Rewrites (p_content t (dec_empty e a)) enc_value.
Proof.
  intros He bs v n Ho Hl (c & Hc & Ha)%p_content_inv. destruct (prim_len _ _ _ _ Hc Ho) as [_ Hn]. split; [lia|].
  destruct c; [|done]. injection Ha as <-. eexists. split; [exact He|]. pose proof (enc_tlv_bound t' [] ltac:(done)). cbn [length] in *. lia.
Qed.

Lemma value_of_tag_rewrites t : Rewrites (value_of_tag t) enc_value.
Proof.
  unfold value_of_tag.
  assert (forall k f t', (forall a, enc_value (f a) = Some (enc_tlv t' (enc_uint a))) -> Rewrites (p_map f (p_content t' (dec_uint k))) enc_value) as Hu.
  { intros k f t' Hf. eapply map_rewrites; [apply (tlv_rewrites t' t' (dec_uint k) enc_uint)|exact Hf].
    intros c a _ _. right. apply length_enc_uint. }
  assert (forall f t', (forall a, enc_value (f a) = Some (enc_tlv t' a)) -> Rewrites (p_map f (p_prim t')) enc_value) as Hp.
  { intros f t' Hf. eapply map_rewrites; [apply (prim_rewrites t' t')|exact Hf]. }
  destruct (t =? tag.null); [by eapply empty_rewrites|].
  destruct (t =? tag.integer); [by eapply map_rewrites; [apply int_rewrites|]|].
  destruct (t =? tag.octetString); [by apply Hp|].
  destruct (t =? tag.objectIdentifier); [by eapply map_rewrites; [apply oid_rewrites|]|].
  destruct (t =? tag.ipAddress).
  { intros bs v n Ho Hl (c & Hc & Hd)%p_content_inv. unfold dec_ip in Hd. destruct (_ =? _)%nat; [|done]. injection Hd as <-.
    by apply (prim_rewrites tag.ipAddress tag.ipAddress). }
  destruct (t =? tag.counter32); [by apply Hu|]. destruct (t =? tag.gauge32); [by apply Hu|].
  destruct (t =? tag.timeticks); [by apply Hu|]. destruct (t =? tag.counter64); [by apply Hu|].
  destruct (t =? tag.opaque); [by apply Hp|].
  destruct (t =? tag.noSuchObject); [by eapply empty_rewrites|]. destruct (t =? tag.noSuchInstance); [by eapply empty_rewrites|].
  destruct (t =? tag.endOfMibView); [by eapply empty_rewrites|]. done.
Qed.

Lemma value_rewrites : Rewrites p_value enc_value.
Proof. intros [|t bs] v n Ho Hl H; [done|]. by eapply value_of_tag_rewrites. Qed.

(** One field, and the rest of them. *)
Lemma fields_rewrite {A B} (p : parser A) enc (q : A -> parser B) bs b n : Rewrites p enc -> octets_ok bs -> zlen bs < 2 ^ 20 ->
  p_bind p q bs = inr (b, n) -> exists a k m x, enc a = Some x /\ zlen x <= 8 * Z.of_nat k /\ (k + m)%nat = n /\
    octets_ok (drop k bs) /\ zlen (drop k bs) < 2 ^ 20 /\ q a (drop k bs) = inr (b, m).
Proof.
  intros Hp Ho Hl (a & k & m & Ha & Hq & ->)%p_bind_inv. destruct (Hp bs a k Ho Hl Ha) as (_ & x & Hx & Hlx).
  exists a, k, m, x. do 3 (split; [done|]). split; [eauto with snmp|]. split; [rewrite length_drop; lia|done].
Qed.

Lemma varbind_rewrites : Rewrites p_varbind enc_varbind.
Proof.
  assert (forall vb, enc_varbind vb = enc_tlv tag.sequence <$> (name ← enc_oid (vb_name vb); val ← enc_value (vb_val vb); Some (name ++ val))) as E.
  { intros vb. unfold enc_varbind. destruct (enc_oid _); [|done]. cbn. by destruct (enc_value _). }
  intros bs vb n Ho Hl H. rewrite E. revert bs vb n Ho Hl H. apply (scope_rewrites tag.sequence tag.sequence). intros bs vb Ho Hl H.
  destruct (fields_rewrite _ _ _ _ _ _ oid_rewrites Ho Hl H) as (name & k & m & x & Hx & Hlx & Hn & Hd & Hdl & Hq).
  apply p_map_inv in Hq as (v & Hv & ->). destruct (value_rewrites _ _ _ Hd Hdl Hv) as (_ & y & Hy & Hly).
  cbn. rewrite Hx. cbn. rewrite Hy. eexists. split; [done|]. rewrite zlen_app. lia.
Qed.

Lemma many_rewrite fuel bs vbs n : octets_ok bs -> zlen bs < 2 ^ 20 -> p_many fuel p_varbind bs = inr (vbs, n) ->
  exists l, mapM enc_varbind vbs = Some l /\ zlen (concat l) <= 8 * Z.of_nat n.
Proof.
  revert bs vbs n. induction fuel as [|fuel IH]; intros bs vbs n Ho Hl.
  - destruct bs; [|done]. intros [= <- _]. exists []. split; [done|]. cbn. lia.
  - cbn [p_many]. destruct bs as [|b bs]; [intros [= <- _]; exists []; split; [done|cbn; lia]|]. intros H.
    destruct (fields_rewrite _ _ _ _ _ _ varbind_rewrites Ho Hl H) as (vb & k & m & x & Hx & Hlx & <- & Hd & Hdl & Hq).
    apply p_map_inv in Hq as (l & Hm & ->). destruct (IH _ _ _ Hd Hdl Hm) as (ys & Hys & Hly). exists (x :: ys). split.
    + change (mapM enc_varbind (vb :: l)) with (y ← enc_varbind vb; k ← mapM enc_varbind l; Some (y :: k)). rewrite Hx.
      cbn [mbind option_bind]. by rewrite Hys.
    + cbn [concat]. rewrite zlen_app. lia.
Qed.

Lemma varbinds_rewrites : Rewrites p_varbinds enc_varbinds.
Proof.
  assert (forall vbs, enc_varbinds vbs = enc_tlv tag.sequence <$> (@concat Z <$> mapM enc_varbind vbs)) as E.
  { intros vbs. unfold enc_varbinds. by destruct (mapM _ _). }
  intros bs vbs n Ho Hl H. rewrite E. revert bs vbs n Ho Hl H. apply (scope_rewrites tag.sequence tag.sequence). intros bs vbs Ho Hl H.
  destruct (many_rewrite _ _ _ _ Ho Hl H) as (l & -> & Hll). by eexists.
Qed.

Lemma pdu_rewrites : Rewrites p_pdu enc_pdu.
Proof.
  intros bs p n Ho Hl. unfold p_pdu. destruct bs as [|t bs]; [done|]. destruct (pdu_type_of t) as [ty|]; [|done].
  set (bs' := t :: bs) in *. intros H. unfold enc_pdu.
  eapply (scope_rewrites _ (pdu_tag (pdu_type p)) (p_pdu_body ty) (fun p => Writer.seq_enc (enc_integer (requestId p))
    (Writer.seq_enc (enc_integer (errorStatus p)) (Writer.seq_enc (enc_integer (errorIndex p)) (enc_varbinds (varbinds p)))))); [|exact Ho|exact Hl|exact H]. clear. intros bs p Ho Hl H.
  unfold p_pdu_body in H.
  destruct (fields_rewrite _ _ _ _ _ _ int_rewrites Ho Hl H) as (id & k1 & m1 & x1 & E1 & L1 & N1 & O1 & B1 & H1). clear H.
  destruct (fields_rewrite _ _ _ _ _ _ int_rewrites O1 B1 H1) as (st & k2 & m2 & x2 & E2 & L2 & N2 & O2 & B2 & H2). clear H1.
  destruct (fields_rewrite _ _ _ _ _ _ int_rewrites O2 B2 H2) as (ix & k3 & m3 & x3 & E3 & L3 & N3 & O3 & B3 & H3). clear H2.
  apply p_map_inv in H3 as (vs & H4 & ->). destruct (varbinds_rewrites _ _ _ O3 B3 H4) as (_ & x4 & E4 & L4).
  cbn [requestId errorStatus errorIndex varbinds]. unfold Writer.seq_enc. rewrite E1, E2, E3, E4. cbn [mbind option_bind].
  eexists. split; [done|]. rewrite !zlen_app. lia.
Qed.

Lemma v2c_rewrites : Rewrites p_v2c enc_v2c.
Proof.
  apply (scope_rewrites tag.sequence tag.sequence). intros bs msg Ho Hl H.
  destruct (fields_rewrite _ _ _ _ _ _ int_rewrites Ho Hl H) as (v & k1 & m1 & x1 & E1 & L1 & N1 & O1 & B1 & H1). clear H.
  destruct (fields_rewrite _ _ _ _ _ _ (prim_rewrites tag.octetString tag.octetString) O1 B1 H1)
    as (co & k2 & m2 & x2 & E2 & L2 & N2 & O2 & B2 & H2). clear H1.
  destruct (Z.eqb_spec v versionV2c) as [->|]; cbn [negb] in H2; [|done].
  apply p_map_inv in H2 as (p & H3 & ->). destruct (pdu_rewrites _ _ _ O2 B2 H3) as (_ & x3 & E3 & L3).
  cbn [v2c_community v2c_pdu]. unfold Writer.seq_enc, enc_octets. rewrite E1, E3. cbn [mbind option_bind].
  eexists. split; [done|]. injection E2 as <-. rewrite !zlen_app. lia.
Qed.

Lemma scoped_rewrites : Rewrites p_scoped enc_scoped.
Proof.
  apply (scope_rewrites tag.sequence tag.sequence). intros bs s Ho Hl H. unfold p_scoped_body in H.
  destruct (fields_rewrite _ _ _ _ _ _ (prim_rewrites tag.octetString tag.octetString) Ho Hl H)
    as (e & k1 & m1 & x1 & E1 & L1 & N1 & O1 & B1 & H1). clear H.
  destruct (fields_rewrite _ _ _ _ _ _ (prim_rewrites tag.octetString tag.octetString) O1 B1 H1)
    as (co & k2 & m2 & x2 & E2 & L2 & N2 & O2 & B2 & H2). clear H1.
  apply p_map_inv in H2 as (p & H3 & ->). destruct (pdu_rewrites _ _ _ O2 B2 H3) as (_ & x3 & E3 & L3).
  cbn [contextEngineId contextName s_pdu]. unfold Writer.seq_enc, enc_octets. rewrite E3. cbn [mbind option_bind].
  eexists. split; [done|]. injection E1 as <-. injection E2 as <-. rewrite !zlen_app. lia.
Qed.

(** ** The assertions hold *)

(** What was decoded, written by a Writer of its own and read back by the same reader. *)
Lemma read_back_whole {S A} m p enc ok a bs (k : option A -> bool -> M S bool) s : Reads m p -> Codec p enc ok ->
  ok a -> enc a = Some bs -> octets_ok bs -> zlen bs < 2 ^ 32 -> read_back bs m k s = k (Some a) true s.
Proof.
  intros R C Ha He Ho Hl. unfold read_back. rewrite (run_local_done _ _ _ _ _ _ (codec_run _ _ _ _ _ _ R C Ha He Ho Hl)).
  by rewrite (run_local_done _ _ _ _ _ _ (finish_end bs)).
Qed.

Lemma written_whole {S} m bs (k : unit -> Writer -> M S bool) s : Writer.Refines m (Some bs) -> zlen bs < 2 ^ 32 ->
  run_local Writer.new m k s = k tt (mkWriter bs no_error) s.
Proof. intros R Hl. apply run_local_done. apply (Writer.refines_run _ _ Writer.new R eq_refl). cbn. lia. Qed.

Section Codecs.
Context {S : Type}.
Implicit Types (s : S) (input : Octets).

(** Either the decoder leaves an error behind, or it gives something well formed that
    is encoded again. *)
Lemma decoded_again {A} m p enc (wf : A -> Prop) input (k : option A -> Reader -> M S bool) s :
  Reads m p -> WellFormed p wf -> Rewrites p enc -> octets_ok input -> zlen input < 2 ^ 20 ->
  (forall r, ok r = false -> k None r s = Done true s) ->
  (forall a b r, wf a -> enc a = Some b -> zlen b <= 8 * zlen input -> k (Some a) r s = Done true s) ->
  run_local (new input) m k s = Done true s.
Proof.
  intros R W Re Ho Hl Hnone Hsome. destruct (new_good input Ho ltac:(lia)) as [Hi _].
  pose proof (reads_runs (Reads := R) _ Hi eq_refl) as Hr. rewrite view_new in Hr.
  destruct (p input) as [e|[a n]] eqn:E.
  - destruct Hr as (He & pos & _ & Hr). rewrite (run_local_done _ _ _ _ _ _ Hr). apply Hnone. unfold ok. by rewrite is_error_failed.
  - destruct Hr as [Hn Hr]. rewrite (run_local_done _ _ _ _ _ _ Hr). destruct (Re input a n Ho Hl E) as (_ & b & Hb & Hlb).
    apply (Hsome a b); [by eapply W|done|lia].
Qed.

Lemma ber_value_passes input s : octets_ok input -> zlen input < 2 ^ 20 -> FuzzBerValue input s = Done true s.
Proof.
  intros Ho Hl. eapply decoded_again; [apply anyValue_reads|apply value_well_formed|apply value_rewrites|done..| |].
  { intros r Hr. by rewrite Hr. }
  intros v b _ [Hv _] Hb Hlb. cbn zeta. pose proof (Writer.writeValue_refines v Hv) as R. rewrite Hb in R.
  rewrite (written_whole _ _ _ _ R) by lia. cbn -[read_back].
  rewrite (read_back_whole _ _ _ _ v b _ _ anyValue_reads value_codec Hv Hb) by (lia || by apply (enc_value_ok v); [| |lia]).
  by rewrite bool_decide_true.
Qed.

Lemma ber_varbinds_passes input s : octets_ok input -> zlen input < 2 ^ 20 -> FuzzBerVarbindList input s = Done true s.
Proof.
  intros Ho Hl. eapply decoded_again; [apply varbindList_reads|apply varbinds_well_formed|apply varbinds_rewrites|done..| |].
  { intros r Hr. by rewrite Hr. }
  intros vbs b _ Hw Hb Hlb. assert (Forall varbind_ok vbs) as Hok by (eapply Forall_impl; [apply wire_varbind_ok|exact Hw]).
  pose proof (Writer.varbindList_refines vbs Hok) as R. rewrite Hb in R.
  rewrite (written_whole _ _ _ _ R) by lia. cbn -[read_back].
  rewrite (read_back_whole _ _ _ _ vbs b _ _ varbindList_reads varbinds_codec Hok Hb) by (lia || by apply (enc_varbinds_ok vbs); [| |lia]).
  by rewrite bool_decide_true.
Qed.

Lemma oid_text_passes text s : FuzzOidText text s = Done true s.
Proof.
  unfold FuzzOidText. destruct (Oids.parse_sound text) as (r & -> & Hr). destruct r as [o|]; [|done].
  destruct (Hr o eq_refl) as (Hl & Ho & _). destruct (Oids.parse_toString o) as [-> _]; [by intros ->; cbn in Hl; lia|lia|done|].
  rewrite bool_decide_true by done. destruct (Oids.isEncodable o) eqn:He; [|done].
  destruct (Writer.encodedOidSize_exact o Writer.new Ho eq_refl) as (w & Hw & Hsz & Hz).
  rewrite (run_local_done _ _ _ _ _ _ Hw).
  rewrite Writer.objectIdentifier_appends in Hw by done. injection Hw as <-. cbn in Hsz |- *. by rewrite Hsz, Z.eqb_refl.
Qed.

Lemma v2c_message_passes input s : octets_ok input -> zlen input < 2 ^ 20 -> FuzzV2cMessage input s = Done true s.
Proof.
  intros Ho Hl. unfold FuzzV2cMessage. rewrite (bind_done _ _ _ _ _ (decodeV2cMessage_spec input s Ho ltac:(lia))).
  destruct (dec_whole p_v2c input) as [e|[c p]] eqn:E.
  { rewrite (proj2 (is_error_make_error_code e)); [done|]. intros ->. destruct v2c_body_runs as [R Y].
    exact (whole_error tag.sequence _ _ input eq_refl R Y Ho ltac:(lia) E). }
  destruct (v2c_taken _ _ E Ho) as ([Hp _ _] & Hc & _). cbn [v2c_community v2c_pdu] in *.
  unfold dec_whole in E. destruct (p_v2c input) as [|[x n]] eqn:Ep; [done|]. destruct (_ =? _)%nat; [|done]. injection E as ->.
  destruct (v2c_rewrites _ _ _ Ho Hl Ep) as (Hn & b & Hb & Hlb).
  destruct (v2c_roundtrip c p b s Hc Hp Hb ltac:(lia)) as (He & Hd & _).
  rewrite (bind_done _ _ _ _ _ He), (bind_done _ _ _ _ _ Hd). cbn. by rewrite !bool_decide_true, !Z.eqb_refl.
Qed.

End Codecs.

Section V3Target.
Context {ssl : OpenSSL} {L : OpenSSLLaws ssl}.

(** The unencrypted payload of a message is encoded again. *)
Lemma v3_scoped_rewrites input msg : octets_ok input -> zlen input < 2 ^ 20 -> dec_v3 input = inr msg ->
  isEncrypted (h_level (header msg)) = false ->
  scoped_ok (V3Message.scoped msg) /\ exists sc, enc_scoped (V3Message.scoped msg) = Some sc /\ zlen sc <= 8 * zlen input.
Proof.
  intros Ho Hl E Henc. destruct (v3_taken _ _ E Ho) as [Hp _ _].
  destruct (dec_v3_parts _ _ E Ho) as (c & rest & [_ _ _ [Or Hr] [n Hd]]). unfold p_data in Hd. rewrite Henc in Hd.
  apply p_map_inv in Hd as (y & Hy & [= <- _]). destruct (scoped_rewrites _ _ _ Or ltac:(lia) Hy) as (Hn & sc & Hsc & Hlsc).
  split; [|exists sc; split; [done|lia]]. apply p_scope_taken in Hy as (d & Od & H & _); [|done]. unfold p_scoped_body in H.
  apply p_bind_inv in H as (e & i1 & j1 & E1 & H & _). apply p_bind_inv in H as (x & i2 & j2 & E2 & H & _).
  apply p_map_inv in H as (p & _ & Hs). rewrite Hs in *. cbn [contextEngineId contextName s_pdu] in *.
  assert (octets_ok (drop i1 d)) as O1 by eauto with snmp.
  split; [by eapply p_prim_inv|]. split; [by eapply p_prim_inv|done].
Qed.

Lemma reencode_v3_holds input msg c : octets_ok input -> zlen input < 2 ^ 20 -> dec_v3 input = inr msg ->
  isEncrypted (h_level (header msg)) = false -> exists c', reencode_v3 ssl msg c = Done true c'.
Proof.
  intros Ho Hl E Henc. destruct (v3_scoped_rewrites _ _ Ho Hl E Henc) as (Hs & sc & Hsc & Hlsc).
  destruct (dec_v3_usm _ _ E Ho) as (Hb & Ht & He & Hle). destruct (dec_v3_security _ _ E Ho) as (Hu & Ha & Hp & Hlu & Hlp).
  destruct (dec_v3_parts _ _ E Ho) as (c0 & rest & [(Hi & Hm & Hsm) _ _ _ _]).
  set (h := mkV3Header (msgId (header msg)) (maxSize (header msg)) NoAuthNoPriv (reportable (header msg)) (securityModel (header msg))).
  destruct (encoded_decodes h (security msg) (V3Message.scoped msg) AuthNone [] PrivNone [] sc c tt
    ltac:(done) ltac:(done) Hs Hsc ltac:(lia) ltac:(done) ltac:(done)) as (out & c' & msg' & Henc' & Oout & Hlo & Hd & Hh & Hsec & _ & Hps).
  exists c'. unfold reencode_v3. rewrite (bind_done _ _ _ _ _ Henc').
  rewrite (bind_done _ _ _ _ _ (decodeV3Message_run out c' Oout ltac:(lia))), Hd. cbn in Hps. destruct Hps as [Hs' Hp'].
  rewrite Hh, Hs', Hp', Hsec. cbn. by rewrite !Z.eqb_refl, eqb_reflx, !bool_decide_true.
Qed.

Lemma v3_message_passes input c : octets_ok input -> zlen input < 2 ^ 20 -> exists c', FuzzV3Message ssl input c = Done true c'.
Proof.
  intros Ho Hl. unfold FuzzV3Message. rewrite (bind_done _ _ _ _ _ (decodeV3Message_run input c Ho ltac:(lia))).
  destruct (dec_v3 input) as [e|msg] eqn:E.
  { exists c. rewrite (proj2 (is_error_make_error_code e)); [done|]. intros ->. destruct v3_body_runs as [R Y].
    exact (whole_error tag.sequence _ _ input eq_refl R Y Ho ltac:(lia) E). }
  destruct (dec_v3_at _ _ E Ho) as (_ & Hat & _). rewrite (proj2 (Z.leb_le _ _) Hat).
  destruct (verifyAuth_total input msg Sha256 (replicate 32 0xA5) c Ho ltac:(lia) E) as (r & Hr).
  rewrite (bind_done _ _ _ _ _ Hr). destruct (isEncrypted _) eqn:Henc; [|by eapply reencode_v3_holds].
  destruct (dec_v3_wf _ _ E Ho) as [Oe Hle].
  destruct (decryptScopedPdu_total msg Aes256 (replicate 32 0x5A) c Oe ltac:(lia)) as (r1 & H1 & _).
  destruct (decryptScopedPdu_total msg Des (replicate 32 0x5A) c Oe ltac:(lia)) as (r2 & H2 & _).
  exists c. by rewrite (bind_done _ _ _ _ _ H1), (bind_done _ _ _ _ _ H2).
Qed.

(** C23: the message fuzzers find nothing, on any datagram of less than 2^20 octets: a
    decode that fails leaves an error code; what decodes as SNMPv2c is encoded again and
    decodes to the same community and PDU; what decodes as SNMPv3 has its digest inside
    the datagram, can be verified and decrypted with any key without reading outside it,
    and when it is not encrypted it is encoded again at [NoAuthNoPriv] and decodes to the
    same header, security parameters and ScopedPDU.  No run is undefined or unfinished. *)
Theorem message_fuzzers_pass input c :
  octets_ok input -> zlen input < 2 ^ 20 ->
  FuzzV2cMessage input c = Done true c /\ exists c', FuzzV3Message ssl input c = Done true c'.
Proof. intros Ho Hl. split; [by apply v2c_message_passes|by apply v3_message_passes]. Qed.

End V3Target.

(** C24: the BER and Oid fuzzers find nothing: whatever Value or VarBindList decodes from
    fewer than 2^20 octets is encoded again by a Writer that stays ok, and that encoding
    is read back whole to the same; whatever text parses as an Oid is printed and parsed
    back to the same, and an encodable one is written in exactly [encodedOidSize] octets.
    A decode that fails leaves an error behind. *)
Theorem codec_fuzzers_pass {S} input (s : S) :
  octets_ok input -> zlen input < 2 ^ 20 ->
  FuzzBerValue input s = Done true s /\ FuzzBerVarbindList input s = Done true s /\ FuzzOidText input s = Done true s.
Proof. intros Ho Hl. split; [by apply ber_value_passes|]. split; [by apply ber_varbinds_passes|apply oid_text_passes]. Qed.

(** A value, a VarBindList and a text, each accepted and checked again. *)
Lemma codec_fuzzers_pass_witness :
  let value := [65; 2; 0; 200] in
  let list := [48; 12; 48; 10; 6; 6; 43; 6; 1; 2; 1; 2; 5; 0] in
  let text := str ".1.3.6.1" in
  (exists v r, anyValue (new value) = Done (Some v) r) /\ FuzzBerValue value tt = Done true tt /\
  (exists l r, varbindList (new list) = Done (Some l) r) /\ FuzzBerVarbindList list tt = Done true tt /\
  Oids.parse text = Some (Some [1; 3; 6; 1]) /\ FuzzOidText text tt = Done true tt.
Proof.
  assert (forall bs, bool_decide (octets_ok bs) = true -> octets_ok bs) as Hb by (intros bs; apply bool_decide_eq_true_1).
  intros value list text. split; [do 2 eexists; (vm_compute; reflexivity)|].
  split; [refine (proj1 (codec_fuzzers_pass value tt (Hb _ _) _)); vm_compute; reflexivity|].
  split; [do 2 eexists; (vm_compute; reflexivity)|].
  split; [refine (proj1 (proj2 (codec_fuzzers_pass list tt (Hb _ _) _))); vm_compute; reflexivity|].
  split; [vm_compute; reflexivity|]. refine (proj2 (proj2 (codec_fuzzers_pass text tt (Hb _ _) _))); vm_compute; reflexivity.
Defined.

(** The discovery probe of an SNMPv3 client, decoded and put together again. *)
Lemma message_fuzzers_pass_witness :
  let probe := match encodeV3Message Toy.ssl (mkV3Header 7 65507 NoAuthNoPriv true securityModelUsm)
                       (mkUsmParameters [] 0 0 [] [] []) (mkScopedPdu [] [] (mkPdu Get 8 0 0 [])) AuthNone [] PrivNone [] 0 with
               | Done (inr out) _ => out
               | _ => []
               end in
  (exists msg, dec_v3 probe = inr msg /\ isEncrypted (h_level (header msg)) = false) /\
  exists c', FuzzV3Message Toy.ssl probe 0 = Done true c'.
Proof.
  intros probe. split; [eexists; split; (vm_compute; reflexivity)|].
  refine (proj2 (message_fuzzers_pass (L := Toy.laws) probe 0 _ _)); [apply (bool_decide_unpack _); vm_compute; exact I|vm_compute; reflexivity].
Defined.
