(* ===== verification/Client.v ===== *)
(** * Client: what the Client knows, and what a datagram may change in it

    Models the state of [Client::Impl] in [src/Client.cpp] and every function of it
    that runs to completion on the strand without suspending: the delivery of a
    datagram, the Engine cache, the key cache, Reports, and identifiers.  A
    [std::shared_ptr<Pending>] is a location in the heap [m_heap], because the
    waiting coroutine and [m_pending] share the object: what delivery writes
    through the map, the coroutine reads through its own pointer.

    [net::UdpEndpoint] is Asio's and is a parameter; only its equality is used.
    The steady clock is the field [m_now], in nanoseconds. *)

From stdpp Require Import gmap.
From S2P Require Import Prelude Errors Oids Values Ber BerWriter BerReader BerRoundtrip Pdu Usm V3Message.

#[export] Instance AuthProtocol_countable : Countable AuthProtocol.
Proof.
  refine (inj_countable' (fun p => match p with AuthNone => 0 | Md5 => 1 | Sha1 => 2 | Sha224 => 3
                                   | Sha256 => 4 | Sha384 => 5 | Sha512 => 6 end)%nat
    (fun n => match n with 0 => AuthNone | 1 => Md5 | 2 => Sha1 | 3 => Sha224 | 4 => Sha256 | 5 => Sha384
                      | _ => Sha512 end)%nat _). by intros [].
Defined.

#[export] Instance PrivProtocol_countable : Countable PrivProtocol.
Proof.
  refine (inj_countable' (fun p => match p with PrivNone => 0 | Des => 1 | Aes128 => 2 | Aes192 => 3
                                   | Aes256 => 4 | Aes192C => 5 | Aes256C => 6 end)%nat
    (fun n => match n with 0 => PrivNone | 1 => Des | 2 => Aes128 | 3 => Aes192 | 4 => Aes256 | 5 => Aes192C
                      | _ => Aes256C end)%nat _). by intros [].
Defined.

(** ** Reports *)

Definition usmStatsPrefix : Oid := [1; 3; 6; 1; 6; 3; 15; 1; 1].
Definition usmStatsUnsupportedSecLevels : Z := 1.
Definition usmStatsNotInTimeWindows : Z := 2.
Definition usmStatsUnknownUserNames : Z := 3.
Definition usmStatsUnknownEngineIds : Z := 4.
Definition usmStatsWrongDigests : Z := 5.
Definition usmStatsDecryptionErrors : Z := 6.

Definition timeWindowSeconds : Z := 150.
Definition bootsCeiling : Z := 2147483647.
Definition timeCeiling : Z := 2147483647.

Definition usmStatsCounter (report : Pdu) : option Z :=
  match varbinds report with
  | [] => None
  | vb :: _ =>
      let name := vb_name vb in
      if negb (Oids.isPrefixOf usmStatsPrefix name) || (length name <=? length usmStatsPrefix)%nat then None
      else name !! length usmStatsPrefix
  end.

Definition reportsNotInTimeWindows (pdu : Pdu) : bool :=
  bool_decide (pdu_type pdu = Report) && bool_decide (usmStatsCounter pdu = Some usmStatsNotInTimeWindows).

Definition reportError (counter : option Z) : ErrorCode :=
  match counter with
  | None => make_error_code UnexpectedReport
  | Some counter =>
      if counter =? usmStatsUnsupportedSecLevels then make_error_code UnsupportedSecurityLevel
      else if counter =? usmStatsNotInTimeWindows then make_error_code NotInTimeWindow
      else if counter =? usmStatsUnknownUserNames then make_error_code UnknownUserName
      else if counter =? usmStatsUnknownEngineIds then make_error_code UnknownEngineId
      else if counter =? usmStatsWrongDigests then make_error_code AuthFailed
      else if counter =? usmStatsDecryptionErrors then make_error_code DecryptionError
      else make_error_code UnexpectedReport
  end.

Definition discoveryScopedPdu (requestId : Z) (contextEngineId : Octets) : ScopedPdu :=
  mkScopedPdu contextEngineId [] (mkPdu Get requestId 0 0 []).

(** ** Requests *)

Definition toVarbinds (oids : list Oid) : list Varbind := map (fun oid => mkVarbind oid ValNull) oids.

Definition makePdu (type : PduType) (varbinds : list Varbind) : Pdu := mkPdu type 0 0 0 varbinds.

Definition makeBulkPdu (varbinds : list Varbind) (nonRepeaters maxRepetitions : Z) : Pdu :=
  setBulkParams nonRepeaters maxRepetitions (makePdu GetBulk varbinds).

Record ResponseResult : Type := mkResponse { r_varbinds : list Varbind; r_errorIndex : Z }.

Definition empty_response : ResponseResult := mkResponse [] 0.

(** [make_error_code(static_cast<ErrorStatus>(status))], whatever the number is. *)
Definition toResult (response : Pdu) : ErrorCode * ResponseResult :=
  let resp := mkResponse (varbinds response) (errorIndex response) in
  if negb (errorStatus response =? 0) then (make_agent_error (errorStatus response), resp)
  else (no_error, resp).

(** ** State *)

(** An operation on the Client, and an object it made: [std::make_shared] in operation
    [o] gives a location [(o, n)]. *)
Abbreviation op := nat.
Abbreviation loc := (op * nat)%type.


Section Client.
Context {Endpoint : Type} `{Countable Endpoint} (ssl : OpenSSL).

(** Whether a coroutine waits on a timer, and if so whether a cancellation signal to
    its operation ends the wait. *)
Inductive Waiting : Type := Idle | Slotted | Unslotted.

#[global] Instance Waiting_eq_dec : EqDecision Waiting.
Proof. solve_decision. Defined.

(** [timer]: when it expires, whether a coroutine waits on it, and whether that wait
    was cancelled.  [cancel()] ends the waits there are; one that starts later is not
    affected. *)
Record Pending : Type := mkPending {
  p_expiry : Z;
  p_waiting : Waiting;
  p_woken : bool;
  p_from : Endpoint;
  p_community : cstring;
  p_v3 : bool;
  p_authRequired : bool;
  p_authProtocol : AuthProtocol;
  p_privProtocol : PrivProtocol;
  p_authKey : Octets;
  p_privKey : Octets;
  p_engineId : Octets;
  p_requestId : Z;
  p_response : Pdu;
  p_security : UsmParameters;
  p_answered : bool;
  p_replyAuthenticated : bool;
  p_timeSyncPhase : bool;
  p_dropReason : ErrorCode }.

Record EngineState : Type := mkEngineState {
  e_engineId : Octets;
  e_boots : Z;
  e_time : Z;
  e_at : Z;
  e_timeSynced : bool }.

(** A discovery in flight.  [done] never expires: the operations that wait on it, and
    those whose wait was cancelled. *)
Record Discovery : Type := mkDiscovery {
  d_waiting : gset op;
  d_woken : gset op;
  d_ec : ErrorCode;
  d_finished : bool }.

Record Target : Type := mkTarget { endpoint : Endpoint; timeout : Z; retries : Z }.

(** [runDiscovery(self, target, creds, discovery)], spawned and not awaited. *)
Record Job : Type := mkJob { j_target : Target; j_creds : Credentials; j_discovery : loc }.

(** [std::optional<net::UdpSocket>]: absent, open, or closed by Stopping. *)
Inductive Socket : Type := NoSocket | SocketOpen | SocketClosed.

Definition CacheKey : Type := Octets * AuthProtocol * cstring * PrivProtocol.

(** Next to the members of [Impl]: the objects in memory, the salt counter of
    [src/Usm.cpp], which signals each operation has been sent
    ([cancellation_state::cancelled()]), the steady clock, the coroutines posted to the
    strand that have not begun, and every datagram the sockets have delivered. *)
Record Client : Type := mkClient {
  m_stopping : bool;
  m_v4 : Socket;
  m_v6 : Socket;
  m_pending : gmap Z loc;
  m_heap : gmap loc Pending;
  m_engines : gmap Octets EngineState;
  m_engineAt : gmap Endpoint Octets;
  m_discovering : gmap Endpoint loc;
  m_discoveries : gmap loc Discovery;
  m_keys : gmap CacheKey Octets;
  m_nextId : Z;
  m_salt : Salt;
  m_cancelled : gmap op Z;
  m_now : Z;
  m_posted : list Job;
  m_received : list (Octets * Endpoint) }.

Definition with_stopping (x : bool) (c : Client) : Client :=
  mkClient x (m_v4 c) (m_v6 c) (m_pending c) (m_heap c) (m_engines c) (m_engineAt c) (m_discovering c)
    (m_discoveries c) (m_keys c) (m_nextId c) (m_salt c) (m_cancelled c) (m_now c) (m_posted c) (m_received c).
Definition with_v4 (x : Socket) (c : Client) : Client :=
  mkClient (m_stopping c) x (m_v6 c) (m_pending c) (m_heap c) (m_engines c) (m_engineAt c) (m_discovering c)
    (m_discoveries c) (m_keys c) (m_nextId c) (m_salt c) (m_cancelled c) (m_now c) (m_posted c) (m_received c).
Definition with_v6 (x : Socket) (c : Client) : Client :=
  mkClient (m_stopping c) (m_v4 c) x (m_pending c) (m_heap c) (m_engines c) (m_engineAt c) (m_discovering c)
    (m_discoveries c) (m_keys c) (m_nextId c) (m_salt c) (m_cancelled c) (m_now c) (m_posted c) (m_received c).
Definition with_pending (x : gmap Z loc) (c : Client) : Client :=
  mkClient (m_stopping c) (m_v4 c) (m_v6 c) x (m_heap c) (m_engines c) (m_engineAt c) (m_discovering c)
    (m_discoveries c) (m_keys c) (m_nextId c) (m_salt c) (m_cancelled c) (m_now c) (m_posted c) (m_received c).
Definition with_heap (x : gmap loc Pending) (c : Client) : Client :=
  mkClient (m_stopping c) (m_v4 c) (m_v6 c) (m_pending c) x (m_engines c) (m_engineAt c) (m_discovering c)
    (m_discoveries c) (m_keys c) (m_nextId c) (m_salt c) (m_cancelled c) (m_now c) (m_posted c) (m_received c).
Definition with_engines (x : gmap Octets EngineState) (c : Client) : Client :=
  mkClient (m_stopping c) (m_v4 c) (m_v6 c) (m_pending c) (m_heap c) x (m_engineAt c) (m_discovering c)
    (m_discoveries c) (m_keys c) (m_nextId c) (m_salt c) (m_cancelled c) (m_now c) (m_posted c) (m_received c).
Definition with_engineAt (x : gmap Endpoint Octets) (c : Client) : Client :=
  mkClient (m_stopping c) (m_v4 c) (m_v6 c) (m_pending c) (m_heap c) (m_engines c) x (m_discovering c)
    (m_discoveries c) (m_keys c) (m_nextId c) (m_salt c) (m_cancelled c) (m_now c) (m_posted c) (m_received c).
Definition with_discovering (x : gmap Endpoint loc) (c : Client) : Client :=
  mkClient (m_stopping c) (m_v4 c) (m_v6 c) (m_pending c) (m_heap c) (m_engines c) (m_engineAt c) x
    (m_discoveries c) (m_keys c) (m_nextId c) (m_salt c) (m_cancelled c) (m_now c) (m_posted c) (m_received c).
Definition with_discoveries (x : gmap loc Discovery) (c : Client) : Client :=
  mkClient (m_stopping c) (m_v4 c) (m_v6 c) (m_pending c) (m_heap c) (m_engines c) (m_engineAt c)
    (m_discovering c) x (m_keys c) (m_nextId c) (m_salt c) (m_cancelled c) (m_now c) (m_posted c) (m_received c).
Definition with_keys (x : gmap CacheKey Octets) (c : Client) : Client :=
  mkClient (m_stopping c) (m_v4 c) (m_v6 c) (m_pending c) (m_heap c) (m_engines c) (m_engineAt c)
    (m_discovering c) (m_discoveries c) x (m_nextId c) (m_salt c) (m_cancelled c) (m_now c) (m_posted c) (m_received c).
Definition with_nextId (x : Z) (c : Client) : Client :=
  mkClient (m_stopping c) (m_v4 c) (m_v6 c) (m_pending c) (m_heap c) (m_engines c) (m_engineAt c)
    (m_discovering c) (m_discoveries c) (m_keys c) x (m_salt c) (m_cancelled c) (m_now c) (m_posted c) (m_received c).
Definition with_salt (x : Salt) (c : Client) : Client :=
  mkClient (m_stopping c) (m_v4 c) (m_v6 c) (m_pending c) (m_heap c) (m_engines c) (m_engineAt c)
    (m_discovering c) (m_discoveries c) (m_keys c) (m_nextId c) x (m_cancelled c) (m_now c) (m_posted c) (m_received c).
Definition with_cancelled (x : gmap op Z) (c : Client) : Client :=
  mkClient (m_stopping c) (m_v4 c) (m_v6 c) (m_pending c) (m_heap c) (m_engines c) (m_engineAt c)
    (m_discovering c) (m_discoveries c) (m_keys c) (m_nextId c) (m_salt c) x (m_now c) (m_posted c) (m_received c).
(** The clock, which only goes forward. *)
Definition with_now (x : Z) (c : Client) : Client :=
  mkClient (m_stopping c) (m_v4 c) (m_v6 c) (m_pending c) (m_heap c) (m_engines c) (m_engineAt c)
    (m_discovering c) (m_discoveries c) (m_keys c) (m_nextId c) (m_salt c) (m_cancelled c) x (m_posted c) (m_received c).

(** [co_spawn(m_strand, ...)]: posted. *)
Definition with_posted (x : list Job) (c : Client) : Client :=
  mkClient (m_stopping c) (m_v4 c) (m_v6 c) (m_pending c) (m_heap c) (m_engines c) (m_engineAt c)
    (m_discovering c) (m_discoveries c) (m_keys c) (m_nextId c) (m_salt c) (m_cancelled c) (m_now c) x (m_received c).

(** What the sockets have delivered so far: kept for the theorems, read by no operation. *)
Definition with_received (x : list (Octets * Endpoint)) (c : Client) : Client :=
  mkClient (m_stopping c) (m_v4 c) (m_v6 c) (m_pending c) (m_heap c) (m_engines c) (m_engineAt c)
    (m_discovering c) (m_discoveries c) (m_keys c) (m_nextId c) (m_salt c) (m_cancelled c) (m_now c) (m_posted c) x.

(** [pending->timer.cancel()]. *)
Definition cancel_timer (p : Pending) : Pending :=
  mkPending (p_expiry p) (p_waiting p) (p_woken p || negb (bool_decide (p_waiting p = Idle))) (p_from p) (p_community p) (p_v3 p) (p_authRequired p)
    (p_authProtocol p) (p_privProtocol p) (p_authKey p) (p_privKey p) (p_engineId p) (p_requestId p)
    (p_response p) (p_security p) (p_answered p) (p_replyAuthenticated p) (p_timeSyncPhase p) (p_dropReason p).

Definition with_dropReason (ec : ErrorCode) (p : Pending) : Pending :=
  mkPending (p_expiry p) (p_waiting p) (p_woken p) (p_from p) (p_community p) (p_v3 p) (p_authRequired p)
    (p_authProtocol p) (p_privProtocol p) (p_authKey p) (p_privKey p) (p_engineId p) (p_requestId p)
    (p_response p) (p_security p) (p_answered p) (p_replyAuthenticated p) (p_timeSyncPhase p) ec.

(** [p.response = ...; p.answered = true;] and, for SNMPv3, the two fields before it. *)
Definition answer (security : UsmParameters) (response : Pdu) (authenticated : bool) (p : Pending) : Pending :=
  mkPending (p_expiry p) (p_waiting p) (p_woken p) (p_from p) (p_community p) (p_v3 p) (p_authRequired p)
    (p_authProtocol p) (p_privProtocol p) (p_authKey p) (p_privKey p) (p_engineId p) (p_requestId p)
    response security true authenticated (p_timeSyncPhase p) (p_dropReason p).

(** [*it->second], which every entry of the map has. *)
Definition load (l : loc) : M Client Pending := let! c := get_st in deref (m_heap c !! l).
Definition store_pending (l : loc) (p : Pending) : M Client unit :=
  modify (fun c => with_heap (<[l := p]> (m_heap c)) c).

(** ** Identifiers *)

Definition nextId : M Client Z :=
  let! c := get_st in
  let id := m_nextId c in
  set_st (with_nextId (if m_nextId c =? 2147483647 then 1 else m_nextId c + 1) c) ;;;
  ret id.

(** ** The Engine cache *)

Definition engineAt (c : Client) (endpoint : Endpoint) : option EngineState :=
  match m_engineAt c !! endpoint with
  | None => None
  | Some engineId => m_engines c !! engineId
  end.

(** [duration_cast<seconds>(steady_clock::now() - at).count()], which truncates. *)
Definition elapsed (c : Client) (at_ : Z) : Z := Z.quot (m_now c - at_) 1000000000.

Definition timely (c : Client) (from : Endpoint) (security : UsmParameters) : bool :=
  match m_engineAt c !! from with
  | None => true
  | Some indexed =>
      match m_engines c !! indexed with
      | None => true
      | Some engine =>
          if negb (e_timeSynced engine) then true
          else if (u_boots security =? bootsCeiling) || (e_boots engine =? bootsCeiling) then false
          else if negb (u_boots security =? e_boots engine) then u_boots security >? e_boots engine
          else
            let projected := e_time engine + elapsed c (e_at engine) in
            u_time security >=? projected - timeWindowSeconds
      end
  end.

(** [EngineState* engine = engineAt(from)] is written through. *)
Definition write_engine (from : Endpoint) (e : EngineState) (c : Client) : Client :=
  match m_engineAt c !! from with
  | None => c
  | Some engineId => with_engines (<[engineId := e]> (m_engines c)) c
  end.

Definition observeEngineTime (from : Endpoint) (security : UsmParameters) : M Client unit :=
  let! c := get_st in
  match engineAt c from with
  | None => ret tt
  | Some engine =>
      if u_boots security =? bootsCeiling then ret tt
      else if u_boots security <? e_boots engine then ret tt
      else if (u_boots security =? e_boots engine) && (u_time security <? e_time engine) then ret tt
      else set_st (write_engine from
             (mkEngineState (e_engineId engine) (u_boots security) (u_time security) (m_now c) true) c)
  end.

(** ** Delivery *)

Definition deliverV2c (datagram : Octets) (from : Endpoint) : M Client unit :=
  let! msg := decodeV2cMessage datagram in
  match msg with
  | inl _ => ret tt
  | inr msg =>
      if negb (bool_decide (pdu_type (v2c_pdu msg) = Response)) then ret tt
      else
        let! c := get_st in
        match m_pending c !! requestId (v2c_pdu msg) with
        | None => ret tt
        | Some l =>
            let! p := load l in
            if p_v3 p then ret tt
            else if negb (bool_decide (from = p_from p))
                    || negb (bool_decide (v2c_community msg = p_community p)) then ret tt
            else store_pending l (cancel_timer (answer (p_security p) (v2c_pdu msg) (p_replyAuthenticated p) p))
        end
  end.

(** [p.dropReason = make_error_code(e); return;] *)
Definition drop_reply (l : loc) (p : Pending) (e : Errc) : M Client unit :=
  store_pending l (with_dropReason (make_error_code e) p).

(** The part of [deliverV3] after the message has been opened. *)
Definition acceptV3 (from : Endpoint) (l : loc) (p : Pending) (msg : V3Message) (authenticated : bool)
  : M Client unit :=
  let pdu := s_pdu (scoped msg) in
  let isReport := bool_decide (pdu_type pdu = Report) in
  if p_timeSyncPhase p && negb authenticated && reportsNotInTimeWindows pdu then drop_reply l p NotInTimeWindow
  else
    let! c := get_st in
    let accept := store_pending l (cancel_timer (answer (security msg) pdu authenticated p)) in
    if negb isReport then
      if negb (bool_decide (p_engineId p = [])) && negb (bool_decide (u_engineId (security msg) = p_engineId p))
      then ret tt
      else if negb (requestId pdu =? p_requestId p) then ret tt
      else if negb (bool_decide (pdu_type pdu = Response)) then ret tt
      else if p_authRequired p && negb (timely c from (security msg)) then drop_reply l p NotInTimeWindow
      else accept
    else accept.

Definition deliverV3 (datagram : Octets) (from : Endpoint) : M Client unit :=
  let! msg := decodeV3Message datagram in
  match msg with
  | inl _ => ret tt
  | inr msg =>
      let! c := get_st in
      match m_pending c !! msgId (header msg) with
      | None => ret tt
      | Some l =>
          let! p := load l in
          if negb (p_v3 p) then ret tt
          else if negb (bool_decide (from = p_from p)) then ret tt
          else
            let encrypted := isEncrypted (h_level (header msg)) in
            let exemptFromAuth :=
              negb encrypted && negb (isAuthenticated (h_level (header msg)))
                && bool_decide (pdu_type (s_pdu (scoped msg)) = Report) in
            let! verified :=
              (if p_authRequired p && negb exemptFromAuth then
                 let! v := verifyAuth ssl datagram msg (p_authProtocol p) (p_authKey p) in
                 match v with
                 | inl _ => drop_reply l p AuthFailed ;;; ret None
                 | inr _ => ret (Some true)
                 end
               else ret (Some false)) in
            match verified with
            | None => ret tt
            | Some authenticated =>
                if encrypted then
                  let! opened := decryptScopedPdu ssl msg (p_privProtocol p) (p_privKey p) in
                  match opened with
                  | inl _ => drop_reply l p DecryptionFailed
                  | inr msg => acceptV3 from l p msg authenticated
                  end
                else acceptV3 from l p msg authenticated
            end
      end
  end.

(** The body of [receiveLoop], for one datagram. *)
Definition receive (datagram : Octets) (from : Endpoint) : M Client unit :=
  let! version := messageVersion datagram in
  match version with
  | None => ret tt
  | Some version =>
      if version =? versionV2c then deliverV2c datagram from
      else if version =? versionV3 then deliverV3 datagram from
      else ret tt
  end.

(** The datagram that [async_receive_from] hands the loop. *)
Definition arrive (datagram : Octets) (from : Endpoint) : M Client unit :=
  modify (fun c => with_received ((datagram, from) :: m_received c) c) ;;;
  receive datagram from.

(** ** The key cache *)

Definition cached_key (cacheKey : CacheKey) (derive : M Client (ErrorCode + Octets))
  : M Client (ErrorCode + Octets) :=
  let! c := get_st in
  match m_keys c !! cacheKey with
  | Some key => ret (inr key)
  | None =>
      let+ derived := derive in
      modify (fun c => with_keys (<[cacheKey := derived]> (m_keys c)) c) ;;;
      ret (inr derived)
  end.

Definition localizedKey (creds : Credentials) (engineId : Octets) : M Client (ErrorCode + Octets) :=
  cached_key (engineId, authProtocol creds, authPassword creds, PrivNone) (localizedAuthKey ssl creds engineId).

Definition localizedPrivacyKey (creds : Credentials) (engineId : Octets) : M Client (ErrorCode + Octets) :=
  cached_key (engineId, authProtocol creds, privPassword creds, privProtocol creds)
    (localizedPrivKey ssl creds engineId).

(** ** Reports about a request *)

(** [None] is [std::nullopt]: ask again. *)
Definition handleReport (from : Endpoint) (pending : Pending) (mayRetry : bool) : M Client (option ErrorCode) :=
  let counter := usmStatsCounter (p_response pending) in
  match counter with
  | None => ret (Some (reportError counter))
  | Some n =>
      if negb mayRetry then ret (Some (reportError counter))
      else
        let retryable := (n =? usmStatsNotInTimeWindows) || (n =? usmStatsUnknownEngineIds) in
        if negb retryable then ret (Some (reportError counter))
        else if negb (p_replyAuthenticated pending) || (n =? usmStatsUnknownEngineIds) then
          modify (fun c => with_engineAt (delete from (m_engineAt c)) c) ;;;
          ret None
        else
          let! c := get_st in
          match engineAt c from with
          | Some engine =>
              if e_timeSynced engine && (u_boots (p_security pending) <? e_boots engine) then
                set_st (write_engine from
                  (mkEngineState (e_engineId engine) (e_boots engine) (e_time engine) (e_at engine) false) c) ;;;
                ret None
              else observeEngineTime from (p_security pending) ;;; ret None
          | None => observeEngineTime from (p_security pending) ;;; ret None
          end
  end.

End Client.

(** ** Theory *)

Section Theory.
Context {Endpoint : Type} `{Countable Endpoint} {ssl : OpenSSL} {L : OpenSSLLaws ssl}.
Local Notation client := (Client (Endpoint := Endpoint)).
Local Notation pending := (Pending (Endpoint := Endpoint)).
Implicit Types (c : client) (from : Endpoint).

(** The invariant of the Client's state between two steps of the strand. *)
Record client_inv (c : client) : Prop := {
  inv_nextId : 1 <= m_nextId c <= 2147483647;
  inv_pending id l : m_pending c !! id = Some l -> is_Some (m_heap c !! l);
  inv_engines id e : m_engines c !! id = Some e ->
    e_engineId e = id /\ int32_ok (e_boots e) /\ int32_ok (e_time e) /\
    (e_timeSynced e = true -> e_boots e <> bootsCeiling) /\ e_at e <= m_now c }.

(** What a socket can hand over. *)
Definition datagram_ok (bs : Octets) : Prop := octets_ok bs /\ zlen bs <= 65535.

Lemma load_run c l p : m_heap c !! l = Some p -> load l c = Done p c.
Proof. intros E. unfold load, bind, get_st. by rewrite E. Qed.

(** The one change a delivery makes: to one Pending, in the heap. *)
Definition updated (c : client) (l : loc) (p : pending) : client :=
  with_heap (<[l := p]> (m_heap c)) c.

(** A v2c reply that counts: R1 of the threat model. *)
Record accepts_v2c (c : client) (datagram : Octets) (from : Endpoint)
    (l : loc) (p : pending) (msg : V2cMessage) : Prop := {
  v2c_decodes : dec_whole p_v2c datagram = inr msg;
  v2c_response : pdu_type (v2c_pdu msg) = Response;
  v2c_outstanding : m_pending c !! requestId (v2c_pdu msg) = Some l;
  v2c_object : m_heap c !! l = Some p;
  v2c_not_v3 : p_v3 p = false;
  v2c_source : from = p_from p;
  v2c_community_quoted : v2c_community msg = p_community p }.

Lemma deliverV2c_run c bs from : datagram_ok bs -> client_inv c ->
  (deliverV2c bs from c = Done tt c /\ forall l p msg, ~ accepts_v2c c bs from l p msg) \/
  exists l p msg, accepts_v2c c bs from l p msg /\
    deliverV2c bs from c =
      Done tt (updated c l (cancel_timer (answer (p_security p) (v2c_pdu msg) (p_replyAuthenticated p) p))).
Proof.
  intros [Ho Hl] Hi. unfold deliverV2c.
  rewrite (bind_done _ _ _ _ _ (decodeV2cMessage_spec bs c Ho ltac:(lia))).
  destruct (dec_whole p_v2c bs) as [e|msg] eqn:Ed; [left; split; [done|]; intros l p msg []; congruence|].
  case_bool_decide as Ht; cbn [negb].
  2: { left. split; [done|]. intros l p m [Hm Hr]. congruence. }
  rewrite (bind_done _ _ _ c c) by done.
  destruct (m_pending c !! requestId (v2c_pdu msg)) as [l|] eqn:El.
  2: { left. split; [done|]. intros l p m [Hm _ Ho']. congruence. }
  destruct (inv_pending _ Hi _ _ El) as [p Ep]. rewrite (bind_done _ _ _ _ _ (load_run c l p Ep)).
  assert (forall l' p' m, accepts_v2c c bs from l' p' m -> l' = l /\ p' = p /\ m = msg) as Huniq
    by (intros l' p' m [Hm _ Ho' Hp']; assert (m = msg) as -> by congruence;
        assert (l' = l) as -> by congruence; split; [done|split; congruence]).
  destruct (p_v3 p) eqn:E3.
  { left. split; [done|]. intros l' p' m Ha. destruct (Huniq _ _ _ Ha) as (-> & -> & ->). destruct Ha. congruence. }
  case_bool_decide as Hf; cbn [negb orb].
  2: { left. split; [done|]. intros l' p' m Ha. destruct (Huniq _ _ _ Ha) as (-> & -> & ->). destruct Ha. congruence. }
  case_bool_decide as Hc; cbn [negb].
  2: { left. split; [done|]. intros l' p' m Ha. destruct (Huniq _ _ _ Ha) as (-> & -> & ->). destruct Ha. congruence. }
  right. exists l, p, msg. split; [by split|done].
Qed.

(** A reply the security model requires no digest of: an unencrypted Report that
    claims none. *)
Definition exempt (msg : V3Message) : Prop :=
  h_level (header msg) = NoAuthNoPriv /\ pdu_type (s_pdu (scoped msg)) = Report.

(** The SNMPv3 message a datagram holds, opened with the keys of [p]. *)
Definition opens (c : client) (p : pending) (raw msg : V3Message) : Prop :=
  if isEncrypted (h_level (header raw)) then
    decryptScopedPdu ssl raw (p_privProtocol p) (p_privKey p) c = Done (inr msg) c
  else msg = raw.

(** A datagram that names an exchange outstanding with the endpoint it came from. *)
Record matches_v3 (c : client) (datagram : Octets) (from : Endpoint)
    (l : loc) (p : pending) (raw : V3Message) : Prop := {
  v3_decodes : dec_v3 datagram = inr raw;
  v3_outstanding : m_pending c !! msgId (header raw) = Some l;
  v3_object : m_heap c !! l = Some p;
  v3_is_v3 : p_v3 p = true;
  v3_source : from = p_from p }.

(** What is asked of an opened message.  An unsigned notInTimeWindows Report is no
    answer to the time-sync phase; anything but a Report answers this request, from
    this Engine, in time. *)
Definition answers (c : client) (from : Endpoint) (p : pending) (msg : V3Message)
    (authenticated : bool) : Prop :=
  let pdu := s_pdu (scoped msg) in
  p_timeSyncPhase p && negb authenticated && reportsNotInTimeWindows pdu = false /\
  (pdu_type pdu <> Report ->
    (p_engineId p = [] \/ u_engineId (security msg) = p_engineId p) /\
    requestId pdu = p_requestId p /\ pdu_type pdu = Response /\
    (p_authRequired p = true -> timely c from (security msg) = true)).

(** The digest was checked against this datagram and this key, or need not be. *)
Definition digest_verdict (c : client) (datagram : Octets) (p : pending) (raw : V3Message) (authenticated : bool)
  : Prop :=
  if authenticated
  then p_authRequired p = true /\ ~ exempt raw /\
       verifyAuth ssl datagram raw (p_authProtocol p) (p_authKey p) c = Done (inr tt) c
  else p_authRequired p = false \/ exempt raw.

(** A v3 reply that counts. *)
Record accepts_v3 (c : client) (datagram : Octets) (from : Endpoint)
    (l : loc) (p : pending) (raw msg : V3Message) (authenticated : bool) : Prop := {
  v3_matches : matches_v3 c datagram from l p raw;
  v3_digest : digest_verdict c datagram p raw authenticated;
  v3_opened : opens c p raw msg;
  v3_answers : answers c from p msg authenticated }.

(** The state after a reply was accepted. *)
Definition answered_with (c : client) (l : loc) (p : pending) (msg : V3Message)
    (authenticated : bool) : client :=
  updated c l (cancel_timer (answer (security msg) (s_pdu (scoped msg)) authenticated p)).

(** A refusal leaves at most its reason behind, in the exchange the datagram named. *)
Definition refused (c c' : client) (datagram : Octets) (from : Endpoint) : Prop :=
  c' = c \/ exists l p raw e, matches_v3 c datagram from l p raw /\
    e ∈ [AuthFailed; DecryptionFailed; NotInTimeWindow] /\
    c' = updated c l (with_dropReason (make_error_code e) p).

Lemma exempt_dec (raw : V3Message) :
  negb (isEncrypted (h_level (header raw))) && negb (isAuthenticated (h_level (header raw)))
    && bool_decide (pdu_type (s_pdu (scoped raw)) = Report) = true <-> exempt raw.
Proof.
  unfold exempt. rewrite !andb_true_iff, bool_decide_eq_true. 
  destruct (h_level (header raw)).
  - change (negb (isEncrypted NoAuthNoPriv)) with true. change (negb (isAuthenticated NoAuthNoPriv)) with true.
    intuition.
  - change (negb (isAuthenticated AuthNoPriv)) with false. intuition congruence.
  - change (negb (isEncrypted AuthPriv)) with false. intuition congruence.
Qed.

(** What follows the opening of the message. *)
Lemma acceptV3_run c from l p msg a :
  (acceptV3 from l p msg a c = Done tt (answered_with c l p msg a) /\ answers c from p msg a) \/
  ((acceptV3 from l p msg a c = Done tt c \/
    acceptV3 from l p msg a c = Done tt (updated c l (with_dropReason (make_error_code NotInTimeWindow) p))) /\
   ~ answers c from p msg a).
Proof.
  unfold acceptV3, answers. set (pdu := s_pdu (scoped msg)).
  destruct (p_timeSyncPhase p && negb a && reportsNotInTimeWindows pdu).
  { right. split; [by right|]. by intros [? _]. }
  rewrite (bind_done _ _ _ c c) by done.
  case_bool_decide as Hr; cbn [negb]; [left; done|].
  case_bool_decide as He; cbn [negb andb].
  2: case_bool_decide as Hu; cbn [negb].
  3: { right. split; [by left|]. intros [_ Hx]. destruct (Hx Hr) as [[?|?] _]; done. }
  all: destruct (Z.eqb_spec (requestId pdu) (p_requestId p)) as [Hq|Hq]; cbn [negb];
    [|right; split; [by left|]; intros [_ Hx]; destruct (Hx Hr) as (_ & ? & _); done].
  all: case_bool_decide as Ht; cbn [negb];
    [|right; split; [by left|]; intros [_ Hx]; destruct (Hx Hr) as (_ & _ & ? & _); done].
  all: destruct (p_authRequired p) eqn:Ea; cbn [andb]; [destruct (timely c from (security msg)) eqn:Etm; cbn [negb]|].
  all: try (left; split; [done|split; [done|]]; intros _; split; [by auto|]; by repeat split).
  all: right; split; [by right|]; intros [_ Hx]; destruct (Hx Hr) as (_ & _ & _ & Hy); by specialize (Hy eq_refl).
Qed.

Lemma matches_v3_unique c bs from l p raw l' p' raw' :
  matches_v3 c bs from l p raw -> matches_v3 c bs from l' p' raw' -> l' = l /\ p' = p /\ raw' = raw.
Proof.
  intros [Ed Eo Ep _ _] [Ed' Eo' Ep' _ _]. assert (raw' = raw) as -> by congruence.
  assert (l' = l) as -> by congruence. split; [done|]. split; congruence.
Qed.

(** After the digest, a message is opened and then judged. *)
Lemma deliverV3_opened c bs from l p raw a : datagram_ok bs -> matches_v3 c bs from l p raw ->
  let run := if isEncrypted (h_level (header raw))
    then let! opened := decryptScopedPdu ssl raw (p_privProtocol p) (p_privKey p) in
         match opened with
         | inl _ => drop_reply l p DecryptionFailed
         | inr msg => acceptV3 from l p msg a
         end
    else acceptV3 from l p raw a in
  (exists msg, opens c p raw msg /\ answers c from p msg a /\ run c = Done tt (answered_with c l p msg a)) \/
  (exists c', run c = Done tt c' /\ refused c c' bs from /\ forall msg, opens c p raw msg -> ~ answers c from p msg a).
Proof.
  intros [Ho Hl] Hm run. subst run. unfold opens.
  assert (forall msg, (acceptV3 from l p msg a c = Done tt c \/
      acceptV3 from l p msg a c = Done tt (updated c l (with_dropReason (make_error_code NotInTimeWindow) p))) ->
    exists c', acceptV3 from l p msg a c = Done tt c' /\ refused c c' bs from) as Hrefuse.
  { intros msg [E|E]; rewrite E; eexists; (split; [done|]); [by left|right].
    exists l, p, raw, NotInTimeWindow. split; [done|]. split; [set_solver|done]. }
  destruct (isEncrypted (h_level (header raw))).
  - destruct (dec_v3_wf bs raw (v3_decodes _ _ _ _ _ _ Hm) Ho) as [He Hz].
    destruct (decryptScopedPdu_total raw (p_privProtocol p) (p_privKey p) c He ltac:(lia)) as ([ec|msg] & E & _).
    all: rewrite (bind_done _ _ _ _ _ E).
    + right. eexists. split; [done|]. split; [|intros msg Hx; congruence].
      right. exists l, p, raw, DecryptionFailed. split; [done|]. split; [set_solver|done].
    + destruct (acceptV3_run c from l p msg a) as [[Ea Ha]|[Ea Ha]]; [left; by exists msg|right].
      destruct (Hrefuse msg Ea) as (c' & Ec & Hr). exists c'. split; [done|]. split; [done|].
      intros msg' Hx. congruence.
  - destruct (acceptV3_run c from l p raw a) as [[Ea Ha]|[Ea Ha]]; [left; by exists raw|right].
    destruct (Hrefuse raw Ea) as (c' & Ec & Hr). exists c'. split; [done|]. split; [done|]. by intros msg' ->.
Qed.

(** Once it is settled which verdict on the digest the checks allow, the rest decides. *)
Lemma deliverV3_judged c bs from l p raw a : datagram_ok bs -> matches_v3 c bs from l p raw ->
  digest_verdict c bs p raw a -> (forall a', digest_verdict c bs p raw a' -> a' = a) ->
  let run := if isEncrypted (h_level (header raw))
    then let! opened := decryptScopedPdu ssl raw (p_privProtocol p) (p_privKey p) in
         match opened with
         | inl _ => drop_reply l p DecryptionFailed
         | inr msg => acceptV3 from l p msg a
         end
    else acceptV3 from l p raw a in
  (exists l p raw msg a, accepts_v3 c bs from l p raw msg a /\ run c = Done tt (answered_with c l p msg a)) \/
  (exists c', run c = Done tt c' /\ refused c c' bs from /\
     forall l p raw msg a, ~ accepts_v3 c bs from l p raw msg a).
Proof.
  intros Hd Hm Hv Hu run.
  destruct (deliverV3_opened c bs from l p raw a Hd Hm) as [(msg & H1 & H2 & H3)|(c' & H1 & H2 & H3)].
  - left. by exists l, p, raw, msg, a.
  - right. exists c'. split; [exact H1|]. split; [done|]. intros l' p' raw' msg a' [Hm' Hg Hop Han].
    destruct (matches_v3_unique _ _ _ _ _ _ _ _ _ Hm Hm') as (-> & -> & ->).
    rewrite (Hu a' Hg) in Han. by eapply H3.
Qed.

(** Delivery of an SNMPv3 datagram accepts exactly what [accepts_v3] says. *)
Lemma deliverV3_run c bs from : datagram_ok bs -> client_inv c ->
  (exists l p raw msg a, accepts_v3 c bs from l p raw msg a /\
     deliverV3 ssl bs from c = Done tt (answered_with c l p msg a)) \/
  (exists c', deliverV3 ssl bs from c = Done tt c' /\ refused c c' bs from /\
     forall l p raw msg a, ~ accepts_v3 c bs from l p raw msg a).
Proof.
  intros Hd Hi. pose proof Hd as [Ho Hl]. unfold deliverV3.
  rewrite (bind_done _ _ _ _ _ (decodeV3Message_run bs c Ho ltac:(lia))).
  assert ((forall l p raw, ~ matches_v3 c bs from l p raw) ->
    (exists c', ret tt c = Done tt c' /\ refused c c' bs from /\
       forall l p raw msg a, ~ accepts_v3 c bs from l p raw msg a)) as Hnone.
  { intros Hn. exists c. split; [done|]. split; [by left|]. intros l p raw msg a [Hm]. by eapply Hn. }
  destruct (dec_v3 bs) as [e|raw] eqn:Ed; [right; apply Hnone; intros ??? []; congruence|].
  rewrite (bind_done _ _ _ c c) by done.
  destruct (m_pending c !! msgId (header raw)) as [l|] eqn:El.
  2: { right; apply Hnone; intros ??? []; congruence. }
  destruct (inv_pending _ Hi _ _ El) as [p Ep]. rewrite (bind_done _ _ _ _ _ (load_run c l p Ep)).
  destruct (p_v3 p) eqn:E3; cbn [negb].
  2: { right; apply Hnone; intros ??? []; congruence. }
  case_bool_decide as Hf; cbn [negb].
  2: { right; apply Hnone; intros ??? []; congruence. }
  assert (matches_v3 c bs from l p raw) as Hm by done.
  destruct (negb (isEncrypted (h_level (header raw))) && _ && _) eqn:Ex.
  all: rewrite ?andb_false_r, ?andb_true_r; cbn [negb].
  all: assert (exempt raw <-> _ = true) as Hex by (symmetry; apply exempt_dec); rewrite Ex in Hex.
  - rewrite (bind_done _ _ _ (Some false) c) by done. apply deliverV3_judged; [done..|by right; apply Hex|].
    intros [|] Hv; [|done]. destruct Hv as (_ & [] & _). by apply Hex.
  - destruct (p_authRequired p) eqn:Ea.
    2: { rewrite (bind_done _ _ _ (Some false) c) by done. apply deliverV3_judged; [done..|by left|].
         intros [|] Hv; [|done]. destruct Hv as [Hv _]. congruence. }
    destruct (verifyAuth_total bs raw (p_authProtocol p) (p_authKey p) c Ho ltac:(lia) Ed) as ([ec|[]] & Ev).
    + erewrite (bind_done _ _ _ None _) by (rewrite (bind_done _ _ _ _ _ Ev); done).
      right. eexists. split; [done|]. split.
      * right. exists l, p, raw, AuthFailed. split; [done|]. split; [set_solver|done].
      * intros l' p' raw' msg a Ha. destruct (matches_v3_unique _ _ _ _ _ _ _ _ _ Hm (v3_matches _ _ _ _ _ _ _ _ Ha))
          as (-> & -> & ->). destruct Ha as [_ Hg _ _]. destruct a; [|destruct Hg as [Hg|Hg%Hex]; congruence]. destruct Hg as (_ & _ & Hv). congruence.
    + erewrite (bind_done _ _ _ (Some true) _) by (rewrite (bind_done _ _ _ _ _ Ev); done).
      apply deliverV3_judged; [done..|split; [done|split; [by intros Hx%Hex|done]]|].
      intros [|] Hx; [done|]. destruct Hx as [Hx|Hx%Hex]; congruence.
Qed.

Lemma accepts_v3_unique c bs from l p raw msg a l' p' raw' msg' a' :
  accepts_v3 c bs from l p raw msg a -> accepts_v3 c bs from l' p' raw' msg' a' ->
  l' = l /\ p' = p /\ raw' = raw /\ msg' = msg /\ a' = a.
Proof.
  intros [Hm Hv Ho _] [Hm' Hv' Ho' _]. destruct (matches_v3_unique _ _ _ _ _ _ _ _ _ Hm Hm') as (-> & -> & ->).
  do 3 (split; [done|]). split.
  - unfold opens in Ho, Ho'. destruct (isEncrypted _); congruence.
  - destruct a, a'; [done| | |done]; [destruct Hv as (H1 & H2 & _), Hv'|destruct Hv' as (H1 & H2 & _), Hv];
      congruence || done.
Qed.

(** ** One datagram *)

(** What a delivery leaves in a Pending: everything the request was set up with. *)
Definition same_request (p p' : pending) : Prop :=
  p_expiry p' = p_expiry p /\ p_waiting p' = p_waiting p /\ p_from p' = p_from p /\ p_community p' = p_community p /\ p_v3 p' = p_v3 p /\
  p_authRequired p' = p_authRequired p /\ p_authProtocol p' = p_authProtocol p /\
  p_privProtocol p' = p_privProtocol p /\ p_authKey p' = p_authKey p /\ p_privKey p' = p_privKey p /\
  p_engineId p' = p_engineId p /\ p_requestId p' = p_requestId p /\ p_timeSyncPhase p' = p_timeSyncPhase p.

(** A step that changes at most one object, and that only as a delivery may. *)
Definition delivery (c c' : client) : Prop :=
  c' = c \/ exists l p p', m_heap c !! l = Some p /\ same_request p p' /\ c' = updated c l p'.

Lemma delivery_refused c c' bs from : refused c c' bs from -> delivery c c'.
Proof.
  intros [->|(l & p & raw & e & Hm & _ & ->)]; [by left|right]. destruct Hm as [_ _ Hp _ _]. eexists l, p, _. split; [done|]. by split; [|done].
Qed.

Lemma delivery_inv c c' : delivery c c' -> client_inv c -> client_inv c'.
Proof.
  intros [->|(l & p & p' & Hp & _ & ->)] [Hn Hpd He]; [done|]. split; [done| |done].
  intros id l' Hl. cbn. destruct (decide (l = l')) as [->|]; [by rewrite lookup_insert_eq|].
  rewrite lookup_insert_ne by done. by eapply Hpd.
Qed.

Lemma deliverV2c_delivery c bs from : datagram_ok bs -> client_inv c ->
  exists c', deliverV2c bs from c = Done tt c' /\ delivery c c'.
Proof.
  intros Hd Hi. destruct (deliverV2c_run c bs from Hd Hi) as [[E _]|(l & p & msg & Ha & E)].
  - exists c. split; [done|by left].
  - eexists. split; [exact E|]. right. destruct Ha. eexists l, p, _. split; [done|]. by split; [|done].
Qed.

Lemma deliverV3_delivery c bs from : datagram_ok bs -> client_inv c ->
  exists c', deliverV3 ssl bs from c = Done tt c' /\ delivery c c'.
Proof.
  intros Hd Hi. destruct (deliverV3_run c bs from Hd Hi) as [(l & p & raw & msg & a & Ha & E)|(c' & E & Hr & _)].
  - eexists. split; [exact E|]. right. destruct Ha as [[]]. eexists l, p, _. split; [done|]. by split; [|done].
  - exists c'. split; [done|]. by eapply delivery_refused.
Qed.

Lemma receive_delivery c bs from : datagram_ok bs -> client_inv c ->
  exists c', receive ssl bs from c = Done tt c' /\ delivery c c'.
Proof.
  intros Hd Hi. unfold receive. pose proof Hd as [Ho Hl].
  destruct (messageVersion_spec bs c Ho ltac:(lia)) as (v & E & _). rewrite (bind_done _ _ _ _ _ E).
  destruct v as [v|]; [|exists c; split; [done|by left]].
  destruct (v =? versionV2c); [by apply deliverV2c_delivery|].
  destruct (v =? versionV3); [by apply deliverV3_delivery|exists c; split; [done|by left]].
Qed.

(** [deliverV2c] decides by the three checks of the threat model's R1 and by
    nothing else.  Whatever octets arrive, it returns; if they are a v2c Response
    whose request-id is outstanding as a v2c request, that came from the endpoint
    asked and quotes its Community, that request is answered with that PDU and its
    wait is ended; on anything else the Client's state is unchanged. *)
Theorem deliverV2c_exact c bs from :
  datagram_ok bs -> client_inv c ->
  (forall l p msg, accepts_v2c c bs from l p msg ->
     deliverV2c bs from c =
       Done tt (updated c l (cancel_timer (answer (p_security p) (v2c_pdu msg) (p_replyAuthenticated p) p)))) /\
  ((forall l p msg, ~ accepts_v2c c bs from l p msg) -> deliverV2c bs from c = Done tt c).
Proof.
  intros Hd Hi. destruct (deliverV2c_run c bs from Hd Hi) as [[E Hn]|(l & p & msg & Ha & E)].
  - split; [|done]. intros l p msg Ha. by destruct (Hn l p msg).
  - split; [|intros Hn; by destruct (Hn l p msg)]. intros l' p' msg' Ha'.
    assert (l' = l /\ p' = p /\ msg' = msg) as (-> & -> & ->); [|done].
    destruct Ha as [Hm _ Ho Hp _ _ _], Ha' as [Hm' _ Ho' Hp' _ _ _]. assert (msg' = msg) as -> by congruence.
    assert (l' = l) as -> by congruence. split; [done|split; congruence].
Qed.

(** C20: [deliverV3] accepts exactly the replies RFC 3414 lets it.  Whatever octets
    arrive, it returns; a datagram that satisfies every check answers the exchange it
    names, with its own verdict on the digest; any other leaves at most the reason of
    the refusal in that exchange, which stays outstanding with its timer running. *)
Theorem deliverV3_exact c bs from :
  datagram_ok bs -> client_inv c ->
  (forall l p raw msg a, accepts_v3 c bs from l p raw msg a ->
     deliverV3 ssl bs from c = Done tt (answered_with c l p msg a)) /\
  ((forall l p raw msg a, ~ accepts_v3 c bs from l p raw msg a) ->
     exists c', deliverV3 ssl bs from c = Done tt c' /\ refused c c' bs from).
Proof.
  intros Hd Hi. destruct (deliverV3_run c bs from Hd Hi) as [(l & p & raw & msg & a & Ha & E)|(c' & E & Hr & Hn)].
  - split; [|intros Hn; by destruct (Hn l p raw msg a)]. intros l' p' raw' msg' a' Ha'.
    destruct (accepts_v3_unique _ _ _ _ _ _ _ _ _ _ _ _ _ Ha Ha') as (-> & -> & -> & -> & ->). done.
  - split; [intros l p raw msg a Ha; by destruct (Hn l p raw msg a)|]. intros _. by exists c'.
Qed.



End Theory.

(** ** A Client with two requests outstanding *)

Definition demo_engine_id : Octets := [0x80; 0; 0; 0; 1].

Definition demo_v2c : Pending (Endpoint := nat) :=
  mkPending 0 Slotted false 7%nat (str "public") false false AuthNone PrivNone [] [] [] 5 default_pdu demo_usm
    false false false no_error.

Definition demo_v3 : Pending (Endpoint := nat) :=
  mkPending 0 Slotted false 7%nat [] true true Sha256 PrivNone [1; 2; 3] [] demo_engine_id 77 default_pdu demo_usm
    false false false no_error.

Definition demo_client : Client (Endpoint := nat) :=
  mkClient false SocketOpen NoSocket (<[5 := (0, 0)%nat]> {[77 := (0, 1)%nat]})
    (<[(0, 0)%nat := demo_v2c]> {[(0, 1)%nat := demo_v3]})
    {[demo_engine_id := mkEngineState demo_engine_id 3 900 0 true]} {[7%nat := demo_engine_id]} ∅ ∅ ∅ 78 1 ∅ 1000000000 [] [].

Lemma demo_client_inv : client_inv demo_client.
Proof.
  split.
  - cbn. lia.
  - intros id l. unfold demo_client. cbn [m_pending m_heap]. rewrite lookup_insert_Some, lookup_singleton_Some.
    intros [[_ <-]|[_ [_ <-]]]; by eexists.
  - intros id e. unfold demo_client. cbn [m_engines m_now]. rewrite lookup_singleton_Some. intros [<- <-]. cbn. unfold int32_ok, bootsCeiling. repeat split; try lia; try discriminate.
Qed.

Definition demo_value : list Varbind := [mkVarbind [1; 3; 6; 1; 2; 1; 1; 3; 0] (ValTimeTicks 4711)].

Definition demo_reply_v2c : Octets :=
  match encodeV2cMessage (str "public") (mkPdu Response 5 0 0 demo_value) tt with
  | Done (inr out) _ => out
  | _ => []
  end.

Definition demo_reply_v3 : Octets :=
  match encodeV3Message Toy.ssl (mkV3Header 77 65507 AuthNoPriv false 3) demo_usm
          (mkScopedPdu demo_engine_id [] (mkPdu Response 77 0 0 demo_value)) Sha256 [1; 2; 3] PrivNone [] 7 with
  | Done (inr out) _ => out
  | _ => []
  end.

Definition demo_opened_v3 : V3Message :=
  match dec_v3 demo_reply_v3 with inr msg => msg | inl _ => mkV3Message (demo_header NoAuthNoPriv) demo_usm demo_scoped [] 0 end.

Lemma demo_datagram_ok : datagram_ok demo_reply_v2c /\ datagram_ok demo_reply_v3.
Proof. split; (split; [apply (bool_decide_unpack _); vm_compute; exact I|vm_compute; discriminate]). Qed.

Lemma demo_accepts_v2c :
  accepts_v2c demo_client demo_reply_v2c 7%nat (0, 0)%nat demo_v2c (mkV2cMessage (str "public") (mkPdu Response 5 0 0 demo_value)).
Proof. split; vm_compute; reflexivity. Qed.

Lemma demo_accepts_v3 :
  accepts_v3 (ssl := Toy.ssl) demo_client demo_reply_v3 7%nat (0, 1)%nat demo_v3 demo_opened_v3 demo_opened_v3 true.
Proof.
  split.
  - split; vm_compute; reflexivity.
  - split; [done|]. split; [intros [Hx _]; vm_compute in Hx; discriminate|vm_compute; reflexivity].
  - vm_compute. reflexivity.
  - split; [vm_compute; reflexivity|]. intros _. split; [right|split; [|split]]; try intros _; vm_compute; reflexivity.
Qed.

Lemma deliverV2c_exact_witness :
  exists c', deliverV2c demo_reply_v2c 7%nat demo_client = Done tt c' /\
    (p_answered <$> m_heap c' !! (0, 0)%nat) = Some true.
Proof.
  destruct (deliverV2c_exact demo_client demo_reply_v2c 7%nat (proj1 demo_datagram_ok) demo_client_inv) as [H _].
  eexists. split; [exact (H _ _ _ demo_accepts_v2c)|vm_compute; reflexivity].
Defined.

Lemma deliverV3_exact_witness :
  exists c', deliverV3 Toy.ssl demo_reply_v3 7%nat demo_client = Done tt c' /\
    (p_answered <$> m_heap c' !! (0, 1)%nat) = Some true.
Proof.
  destruct (deliverV3_exact (L := Toy.laws) demo_client demo_reply_v3 7%nat (proj2 demo_datagram_ok) demo_client_inv) as [H _].
  eexists. split; [exact (H _ _ _ _ _ demo_accepts_v3)|vm_compute; reflexivity].
Defined.


