(* ===== verification/Engines.v ===== *)
(** * Engines: what the Client believes of an Engine's clock, and of its keys

    The theorems about the Engine cache of [Client::Impl] in [src/Client.cpp]: the
    Time Window ([timely], [observeEngineTime]), the Reports that may change what is
    cached ([handleReport]), the Localized Keys ([localizedKey],
    [localizedPrivacyKey]) and the identifiers ([nextId]).  The operations are in
    [Client.v]. *)

From stdpp Require Import gmap.
From S2P Require Import Prelude Errors Oids Values Ber BerWriter BerReader BerRoundtrip Pdu Usm V3Message Client.

Section Engines.
Context {Endpoint : Type} `{Countable Endpoint} {ssl : OpenSSL} {L : OpenSSLLaws ssl}.
Local Notation client := (Client (Endpoint := Endpoint)).
Local Notation pending := (Pending (Endpoint := Endpoint)).
Implicit Types (c : client) (from : Endpoint) (e : EngineState).

(** ** The order of the pairs *)

(** Boots first, then time: RFC 3414's order of the instants of an Engine's life. *)
Definition pair_le (b1 t1 b2 t2 : Z) : Prop := b1 < b2 \/ b1 = b2 /\ t1 <= t2.

Definition not_before e1 e2 : Prop := pair_le (e_boots e1) (e_time e1) (e_boots e2) (e_time e2).

#[global] Instance not_before_preorder : PreOrder not_before.
Proof. split; unfold not_before, pair_le; [intros ?|intros ???]; lia. Qed.

(** What [observeEngineTime] takes from a reply. *)
Definition adopts e (s : UsmParameters) : bool :=
  negb (u_boots s =? bootsCeiling) && ((e_boots e <? u_boots s) || ((e_boots e =? u_boots s) && (e_time e <=? u_time s))).

Definition adopted c e (s : UsmParameters) : EngineState :=
  mkEngineState (e_engineId e) (u_boots s) (u_time s) (m_now c) true.

Lemma engineAt_some c from e : engineAt c from = Some e <->
  exists id, m_engineAt c !! from = Some id /\ m_engines c !! id = Some e.
Proof.
  unfold engineAt. destruct (m_engineAt c !! from) as [id|]; [|naive_solver]. naive_solver.
Qed.

Lemma observeEngineTime_run c from s : observeEngineTime from s c = Done tt
  (match engineAt c from with
   | Some e => if adopts e s then write_engine from (adopted c e s) c else c
   | None => c
   end).
Proof.
  unfold observeEngineTime. rewrite (bind_done _ _ _ c c) by done. destruct (engineAt c from) as [e|]; [|done].
  unfold adopts. destruct (Z.eqb_spec (u_boots s) bootsCeiling); cbn [negb andb]; [done|].
  destruct (Z.ltb_spec (u_boots s) (e_boots e)), (Z.ltb_spec (e_boots e) (u_boots s)),
    (Z.eqb_spec (u_boots s) (e_boots e)), (Z.eqb_spec (e_boots e) (u_boots s)),
    (Z.ltb_spec (u_time s) (e_time e)), (Z.leb_spec (e_time e) (u_time s)); cbn [andb orb]; try done; lia.
Qed.

Lemma write_engine_run c from e id : m_engineAt c !! from = Some id ->
  write_engine from e c = with_engines (<[id := e]> (m_engines c)) c.
Proof. intros E. unfold write_engine. by rewrite E. Qed.

Lemma client_inv_engine c id e : client_inv c -> m_engines c !! id = Some e -> forall e',
  e_engineId e' = e_engineId e -> int32_ok (e_boots e') -> int32_ok (e_time e') ->
  (e_timeSynced e' = true -> e_boots e' <> bootsCeiling) -> e_at e' <= m_now c ->
  client_inv (with_engines (<[id := e']> (m_engines c)) c).
Proof.
  intros [Hn Hp He] Hid e' Hi Hb Ht Hs Ha. split; [done|done|]. intros id' e''. cbn.
  destruct (decide (id = id')) as [<-|].
  - rewrite lookup_insert_eq. intros [= <-]. destruct (He id e Hid) as [<- _]. done.
  - rewrite lookup_insert_ne by done. apply He.
Qed.

(** The pair of a reply, as the decoder hands it over. *)
Definition pair_ok (s : UsmParameters) : Prop := int32_ok (u_boots s) /\ int32_ok (u_time s).

Lemma adopts_spec e s : adopts e s = true <->
  u_boots s <> bootsCeiling /\ pair_le (e_boots e) (e_time e) (u_boots s) (u_time s).
Proof.
  unfold adopts, pair_le. rewrite andb_true_iff, negb_true_iff, orb_true_iff, andb_true_iff, Z.eqb_neq, Z.ltb_lt,
    Z.eqb_eq, Z.leb_le. done.
Qed.

Lemma observe_inv c from s : client_inv c -> pair_ok s ->
  exists c', observeEngineTime from s c = Done tt c' /\ client_inv c'.
Proof.
  intros Hi [Hb Ht]. eexists. split; [apply observeEngineTime_run|].
  destruct (engineAt c from) as [e|] eqn:E; [|done]. destruct (adopts e s) eqn:Ea; [|done].
  apply engineAt_some in E as (id & E1 & E2). rewrite (write_engine_run _ _ _ id E1).
  apply adopts_spec in Ea as [Hc _]. eapply client_inv_engine; [done|exact E2|cbn; done..|cbn; lia].
Qed.

(** What becomes of an Engine. *)
Lemma observe_engine c from s id e : m_engines c !! id = Some e ->
  exists c' e', observeEngineTime from s c = Done tt c' /\ m_engines c' !! id = Some e' /\
    (e' = e /\ (adopts e s = false \/ m_engineAt c !! from <> Some id) \/ e' = adopted c e s /\ adopts e s = true /\ m_engineAt c !! from = Some id) /\
    m_engineAt c' = m_engineAt c /\ m_now c' = m_now c.
Proof.
  intros He. rewrite observeEngineTime_run. destruct (engineAt c from) as [e0|] eqn:E.
  2: { exists c, e. do 2 (split; [done|]). split; [|done]. left. split; [done|right]. intros Hid.
       enough (engineAt c from = Some e) by congruence. apply engineAt_some. eauto. }
  apply engineAt_some in E as (id0 & E1 & E2). destruct (decide (id0 = id)) as [->|Hne].
  - assert (e0 = e) as -> by congruence. destruct (adopts e s) eqn:Ea; [|by eauto 10].
    rewrite (write_engine_run _ _ _ id E1). eexists _, (adopted c e s). split; [done|]. cbn.
    rewrite lookup_insert_eq. split; [done|]. split; [by right|done].
  - exists (if adopts e0 s then write_engine from (adopted c e0 s) c else c), e. split; [done|].
    assert (m_engineAt c !! from <> Some id) by congruence. rewrite (write_engine_run _ _ _ id0 E1).
    destruct (adopts e0 s); cbn; rewrite ?lookup_insert_ne by done; (split; [done|]); (split; [by left; auto|done]).
Qed.

(** ** Timeliness *)

Lemma elapsed_pos c t : t <= m_now c -> elapsed c t = (m_now c - t) / 1000000000.
Proof. intros. unfold elapsed. rewrite Z.quot_div_nonneg by lia. done. Qed.

Lemma timely_run c from s e : engineAt c from = Some e -> e_timeSynced e = true -> client_inv c ->
  timely c from s = true <->
    u_boots s <> bootsCeiling /\
    (e_boots e < u_boots s \/
     u_boots s = e_boots e /\ e_time e + elapsed c (e_at e) - timeWindowSeconds <= u_time s).
Proof.
  intros E Hs Hi. apply engineAt_some in E as (id & E1 & E2). unfold timely. rewrite E1, E2, Hs. cbn [negb].
  destruct (inv_engines _ Hi _ _ E2) as (_ & _ & _ & Hc & _). specialize (Hc Hs).
  destruct (Z.eqb_spec (u_boots s) bootsCeiling), (Z.eqb_spec (e_boots e) bootsCeiling); cbn [orb];
    [naive_solver..|naive_solver|].
  destruct (Z.eqb_spec (u_boots s) (e_boots e)); cbn [negb]; rewrite ?Z.geb_leb, ?Z.gtb_ltb, ?Z.leb_le, ?Z.ltb_lt;
    intuition lia.
Qed.



(** What is believed of an Engine's clock only moves forward.  [observeEngineTime]
    keeps the invariant, touches no Engine but the one at the reply's endpoint, and
    leaves that one's pair as it was or replaces it by the reply's, which is never
    earlier and never at the boots ceiling; an Engine that was synchronised stays so. *)
Theorem observeEngineTime_forward c from s :
  client_inv c -> pair_ok s ->
  exists c', observeEngineTime from s c = Done tt c' /\ client_inv c' /\ m_engineAt c' = m_engineAt c /\
    forall id e, m_engines c !! id = Some e -> exists e', m_engines c' !! id = Some e' /\
      not_before e e' /\ (e_timeSynced e = true -> e_timeSynced e' = true) /\
      (e' <> e -> m_engineAt c !! from = Some id /\ e_boots e' = u_boots s /\ e_time e' = u_time s /\
         u_boots s <> bootsCeiling /\ e_timeSynced e' = true).
Proof.
  intros Hi Hs. destruct (observe_inv c from s Hi Hs) as (c' & Ec & Hi'). exists c'. split; [done|]. split; [done|].
  split.
  { rewrite observeEngineTime_run in Ec. injection Ec as <-. destruct (engineAt c from); [|done].
    destruct (adopts _ _); [|done]. unfold write_engine. by destruct (m_engineAt c !! from). }
  intros id e He. destruct (observe_engine c from s id e He) as (c'' & e' & Ec' & He' & Hcase & _ & _).
  assert (c'' = c') as -> by congruence. exists e'. split; [done|].
  destruct Hcase as [[-> _]|(-> & [Hb Hle]%adopts_spec & Hat)]; [by repeat split|]. by repeat split.
Qed.

(** ** Reports *)

(** A Report that names one of the two counters worth asking again about. *)
Definition retryable (p : pending) : bool :=
  match usmStatsCounter (p_response p) with
  | Some n => (n =? usmStatsNotInTimeWindows) || (n =? usmStatsUnknownEngineIds)
  | None => false
  end.

Definition names_another_engine (p : pending) : bool :=
  match usmStatsCounter (p_response p) with Some n => n =? usmStatsUnknownEngineIds | None => false end.

Lemma reportError_is_error counter : is_error (reportError counter) = true.
Proof. destruct counter as [n|]; [|done]. unfold reportError. by repeat case_match. Qed.

(** [handleReport], by what it was told and whether it was signed. *)
Lemma handleReport_run c from p mayRetry : handleReport from p mayRetry c =
  if negb (mayRetry && retryable p) then Done (Some (reportError (usmStatsCounter (p_response p)))) c
  else if negb (p_replyAuthenticated p)
          || names_another_engine p
  then Done None (with_engineAt (delete from (m_engineAt c)) c)
  else match engineAt c from with
       | Some e => if e_timeSynced e && (u_boots (p_security p) <? e_boots e)
                   then Done None (write_engine from (mkEngineState (e_engineId e) (e_boots e) (e_time e) (e_at e) false) c)
                   else if adopts e (p_security p) then Done None (write_engine from (adopted c e (p_security p)) c)
                   else Done None c
       | None => Done None c
       end.
Proof.
  unfold handleReport, retryable, names_another_engine.
  destruct (usmStatsCounter (p_response p)) as [n|]; [|by destruct mayRetry].
  destruct mayRetry; cbn [negb andb]; [|done]. destruct (negb _); [done|].
  destruct (_ || _); [done|]. rewrite (bind_done _ _ _ c c) by done.
  destruct (engineAt c from) as [e|] eqn:E.
  - destruct (_ && _); [done|]. rewrite (bind_done _ _ _ _ _ (observeEngineTime_run c from (p_security p))), E.
    by destruct (adopts _ _).
  - by rewrite (bind_done _ _ _ _ _ (observeEngineTime_run c from (p_security p))), E.
Qed.

(** C28: a Report nobody signed cannot touch what is known of any Engine.  Whatever
    counter it names, [handleReport] leaves the Engines, their pairs and the keys as
    they were; at most it forgets which Engine is at the endpoint the Report came
    from, and then it asks for a retry.  This is the threat model's E1. *)
Theorem handleReport_unsigned c from p mayRetry :
  p_replyAuthenticated p = false ->
  exists r c', handleReport from p mayRetry c = Done r c' /\
    m_engines c' = m_engines c /\ m_keys c' = m_keys c /\ m_pending c' = m_pending c /\ m_heap c' = m_heap c /\
    (forall ep, ep <> from -> m_engineAt c' !! ep = m_engineAt c !! ep) /\
    (m_engineAt c' = m_engineAt c \/ r = None /\ m_engineAt c' !! from = None).
Proof.
  intros Ha. rewrite handleReport_run, Ha. cbn [negb orb]. destruct (negb (mayRetry && _)); [by eauto 10|].
  eexists _, _. split; [done|]. do 4 (split; [done|]). cbn. split.
  - intros ep Hep. by rewrite lookup_delete_ne.
  - right. by rewrite lookup_delete_eq.
Qed.

(** Only the Engine written through is replaced. *)
Lemma replaced_engines c from p id e e' : m_engines c !! id = Some e ->
  (not_before e e' /\ (e_boots e' = e_boots e /\ e_time e' = e_time e \/
     p_replyAuthenticated p = true /\ m_engineAt c !! from = Some id /\
     e_boots e' = u_boots (p_security (Endpoint := Endpoint) p) /\ e_time e' = u_time (p_security p))) ->
  forall id0 e0, m_engines c !! id0 = Some e0 ->
  exists e1, <[id := e']> (m_engines c) !! id0 = Some e1 /\ not_before e0 e1 /\
    (e_boots e1 = e_boots e0 /\ e_time e1 = e_time e0 \/
     p_replyAuthenticated p = true /\ m_engineAt c !! from = Some id0 /\
     e_boots e1 = u_boots (p_security p) /\ e_time e1 = u_time (p_security p)).
Proof.
  intros He Hx id0 e0 He0. destruct (decide (id = id0)) as [->|].
  - assert (e0 = e) as -> by congruence. exists e'. by rewrite lookup_insert_eq.
  - exists e0. rewrite lookup_insert_ne by done. by repeat split; auto.
Qed.

(** A Report is acted on once.  [handleReport] asks for a retry only when it may
    and when the Report names a disagreement about the Engine's identity or clock;
    otherwise it gives an error, never success, and changes nothing.  When it does
    ask again, asking is not in vain: the endpoint's Engine is forgotten, or has to
    be synchronised again, or (unless the Report is at the boots ceiling) the cached
    pair is now at least the one the Report carried.  The pair of an Engine changes
    only if the Report was signed, and then to the Report's, forward. *)
Theorem handleReport_progress c from p mayRetry :
  client_inv c -> pair_ok (p_security p) ->
  exists r c', handleReport from p mayRetry c = Done r c' /\ client_inv c' /\
    match r with
    | Some ec => ec = reportError (usmStatsCounter (p_response p)) /\ is_error ec = true /\ c' = c /\
                 (mayRetry = false \/ retryable p = false)
    | None => mayRetry = true /\ retryable p = true /\
        (forall e, engineAt c' from = Some e -> u_boots (p_security p) <> bootsCeiling ->
           e_timeSynced e = false \/
           pair_le (u_boots (p_security p)) (u_time (p_security p)) (e_boots e) (e_time e)) /\
        (forall id e, m_engines c !! id = Some e -> exists e', m_engines c' !! id = Some e' /\ not_before e e' /\
           (e_boots e' = e_boots e /\ e_time e' = e_time e \/
            p_replyAuthenticated p = true /\ m_engineAt c !! from = Some id /\
            e_boots e' = u_boots (p_security p) /\ e_time e' = u_time (p_security p)))
    end.
Proof.
  intros Hi Hs. rewrite handleReport_run.
  destruct mayRetry, (retryable p); cbn [andb negb];
    try (eexists _, _; split; [done|]; split; [done|]; rewrite reportError_is_error; by auto).
  destruct (negb (p_replyAuthenticated p) || _) eqn:Eu.
  - eexists _, _. split; [done|]. split; [by destruct Hi|]. do 2 (split; [done|]). split.
    + intros e. unfold engineAt. cbn. by rewrite lookup_delete_eq.
    + intros id e He. exists e. by repeat split; auto.
  - apply orb_false_iff in Eu as [Ha%negb_false_iff Hu]. destruct (engineAt c from) as [e|] eqn:E.
    2: { eexists _, _. split; [done|]. split; [done|]. do 2 (split; [done|]). split; [congruence|].
         intros id e He. exists e. by repeat split; auto. }
    apply engineAt_some in E as (id & E1 & E2). rewrite !(write_engine_run _ _ _ id E1).
    destruct (inv_engines _ Hi _ _ E2) as (_ & Hb & Ht & Hc & Hat).
    destruct (e_timeSynced e && _) eqn:El; [|destruct (adopts e (p_security p)) eqn:Ead].
    + eexists _, _. split; [done|]. split; [eapply client_inv_engine; [done|exact E2|done..]|].
      do 2 (split; [done|]). split.
      * intros e'. unfold engineAt. cbn. rewrite E1, lookup_insert_eq. intros [= <-]. by left.
      * apply (replaced_engines c from p id e); [done|]. split; [unfold not_before, pair_le; cbn; lia|by left].
    + apply adopts_spec in Ead as [Hnc Hle]. destruct Hs as [Hs1 Hs2].
      eexists _, _. split; [done|]. split; [eapply client_inv_engine; [done|exact E2|cbn; done..|cbn; lia]|].
      do 2 (split; [done|]). split.
      * intros e'. unfold engineAt. cbn. rewrite E1, lookup_insert_eq. intros [= <-] _. right. right. cbn. lia.
      * apply (replaced_engines c from p id e); [done|]. split; [exact Hle|by right].
    + eexists _, _. split; [done|]. split; [done|]. do 2 (split; [done|]). split.
      * intros e' He' Hnc. right. assert (e' = e) as -> by (apply engineAt_some in He'; naive_solver congruence).
        apply not_true_iff_false in Ead. rewrite adopts_spec in Ead. unfold pair_le in *. lia.
      * intros id' e' He'. exists e'. by repeat split; auto.
Qed.

(** ** Keys *)

(** The key a row of the cache stands for. *)
Definition row_key (row : CacheKey) : ErrorCode + Octets :=
  let '(engineId, auth, secret, priv) := row in
  if bool_decide (priv = PrivNone) then derived_auth (ssl := ssl) auth secret engineId
  else derived_priv (ssl := ssl) auth secret priv engineId.

(** Every row holds what its own derivation gives. *)
Definition keys_ok c : Prop := forall row key, m_keys c !! row = Some key -> row_key row = inr key.

Lemma cached_key_run c row derive : keys_ok c -> derive c = Done (row_key row) c ->
  exists k, cached_key row derive c = Done (row_key row) (with_keys k c) /\ keys_ok (with_keys k c) /\ m_keys c ⊆ k.
Proof.
  intros Hk Hd. unfold cached_key. rewrite (bind_done _ _ _ c c) by done.
  destruct (m_keys c !! row) as [key|] eqn:E.
  - exists (m_keys c). rewrite (Hk _ _ E). by destruct c.
  - destruct (row_key row) as [ec|key] eqn:Er.
    + exists (m_keys c). rewrite (bind_sum_inl _ _ _ _ _ Hd). by destruct c.
    + exists (<[row := key]> (m_keys c)). rewrite (bind_sum_inr _ _ _ _ _ Hd). split; [done|].
      split; [|by apply insert_subseteq]. intros row' key'. cbn. destruct (decide (row = row')) as [<-|].
      * rewrite lookup_insert_eq. by intros [= <-].
      * rewrite lookup_insert_ne by done. apply Hk.
Qed.

(** The key cache is transparent.  Whatever has been looked up before, for other
    users, Engines or protocols, [localizedKey] and [localizedPrivacyKey] give what
    the derivation itself gives, error or key, keep every row already there, and
    leave a cache with the same property; an authentication key is never handed out
    as a privacy key, nor a key of one Engine or protocol for another. *)
Theorem key_cache_transparent c creds engineId :
  keys_ok c -> octets_ok (authPassword creds) -> octets_ok (privPassword creds) -> privProtocol creds <> PrivNone ->
  (exists k r, localizedAuthKey ssl creds engineId c = Done r c /\
     localizedKey ssl creds engineId c = Done r (with_keys k c) /\ keys_ok (with_keys k c) /\ m_keys c ⊆ k) /\
  (exists k r, localizedPrivKey ssl creds engineId c = Done r c /\
     localizedPrivacyKey ssl creds engineId c = Done r (with_keys k c) /\ keys_ok (with_keys k c) /\ m_keys c ⊆ k).
Proof.
  intros Hk Ha Hp Hn.
  pose proof (localizedAuthKey_run creds engineId c Ha) as Ea. pose proof (localizedPrivKey_run creds engineId c Hp) as Ep.
  split.
  - destruct (cached_key_run c (engineId, authProtocol creds, authPassword creds, PrivNone) _ Hk Ea) as (k & Hx).
    by exists k, (derived_auth (authProtocol creds) (authPassword creds) engineId).
  - pose proof (cached_key_run c (engineId, authProtocol creds, privPassword creds, privProtocol creds)) as Hx.
    unfold row_key in Hx. rewrite bool_decide_false in Hx by done. destruct (Hx _ Hk Ep) as (k & Hy). exists k. eexists. by split.
Qed.

(** ** Identifiers *)

Fixpoint take_ids (n : nat) : M client (list Z) :=
  match n with
  | O => ret []
  | S n' => let! id := nextId in let! ids := take_ids n' in ret (id :: ids)
  end.

(** The [k]-th identifier after [first]: they go round the positive 32-bit integers. *)
Definition id_after (first : Z) (k : nat) : Z := (first - 1 + Z.of_nat k) mod 2147483647 + 1.

Lemma id_after_succ first k : 1 <= first <= 2147483647 ->
  id_after (if first =? 2147483647 then 1 else first + 1) k = id_after first (S k).
Proof.
  intros Hf. unfold id_after. destruct (Z.eqb_spec first 2147483647) as [->|].
  - replace (2147483647 - 1 + Z.of_nat (S k)) with (1 - 1 + Z.of_nat k + 1 * 2147483647) by lia.
    by rewrite Z.mod_add by done.
  - do 2 f_equal. lia.
Qed.

Lemma take_ids_run n c : 1 <= m_nextId c <= 2147483647 ->
  exists m, take_ids n c = Done (id_after (m_nextId c) <$> seq 0 n) (with_nextId m c) /\ 1 <= m <= 2147483647.
Proof.
  revert c. induction n as [|n IH]; intros c Hc; cbn [take_ids].
  - exists (m_nextId c). by destruct c.
  - set (next := if m_nextId c =? 2147483647 then 1 else m_nextId c + 1).
    assert (1 <= next <= 2147483647) as Hn by (unfold next; destruct (Z.eqb_spec (m_nextId c) 2147483647); lia).
    rewrite (bind_done _ _ _ (m_nextId c) (with_nextId next c)) by done.
    destruct (IH (with_nextId next c) Hn) as (m & E & Hm). exists m. split; [|done].
    rewrite (bind_done _ _ _ _ _ E). cbn [seq fmap list_fmap]. rewrite <- (fmap_S_seq 0 n), <- list_fmap_compose.
    unfold ret. f_equal. f_equal.
    + unfold id_after. rewrite Z.mod_small by lia. lia.
    + apply list_fmap_ext. intros k x _. cbn. by rewrite <- id_after_succ by done.
Qed.

(** Identifiers are positive, fit 32 bits, and do not repeat: of any [n]
    identifiers taken in a row from a Client, as many as there are positive 32-bit
    integers, no two are equal, whatever the first one was. *)
Theorem ids_distinct n c :
  client_inv c -> Z.of_nat n <= 2147483647 ->
  exists ids c', take_ids n c = Done ids c' /\ NoDup ids /\ length ids = n /\
    Forall (fun id => 1 <= id <= 2147483647) ids /\ client_inv c'.
Proof.
  intros Hi Hn. pose proof Hi as [Hid _ _]. destruct (take_ids_run n c Hid) as (m & E & Hm).
  eexists _, _. split; [exact E|]. split; [|split; [by rewrite length_fmap, length_seq|split]].
  - apply NoDup_fmap_2_strong; [|apply NoDup_seq]. intros x y Hx%elem_of_seq Hy%elem_of_seq. unfold id_after.
    intros Heq. apply Z.add_cancel_r in Heq.
    assert ((Z.of_nat x - Z.of_nat y) mod 2147483647 = 0) as Hz.
    { replace (Z.of_nat x - Z.of_nat y) with ((m_nextId c - 1 + Z.of_nat x) - (m_nextId c - 1 + Z.of_nat y)) by lia.
      by rewrite Zminus_mod, Heq, Z.sub_diag. }
    apply Z.mod_divide in Hz as [q Hq]; [|done]. nia.
  - apply Forall_fmap, Forall_forall. intros k _. unfold id_after, compose.
    pose proof (Z.mod_pos_bound (m_nextId c - 1 + Z.of_nat k) 2147483647 ltac:(lia)). lia.
  - destruct Hi. by split.
Qed.

End Engines.

(** ** Witnesses *)

Definition demo_synced : EngineState := mkEngineState demo_engine_id 3 900 0 true.



Lemma observeEngineTime_forward_witness :
  exists c', observeEngineTime 7%nat demo_usm demo_client = Done tt c' /\ client_inv c'.
Proof.
  destruct (observeEngineTime_forward demo_client 7%nat demo_usm demo_client_inv) as (c' & E & Hi & _);
    [split; vm_compute; intuition discriminate|]. exists c'. split; [exact E|exact Hi].
Defined.

(** A notInTimeWindows Report, unsigned. *)
Definition demo_report : Pending (Endpoint := nat) :=
  answer demo_usm (mkPdu Report 0 0 0 [mkVarbind [1; 3; 6; 1; 6; 3; 15; 1; 1; 2; 0] (ValCounter32 1)]) false demo_v3.

Lemma handleReport_unsigned_witness :
  exists r c', handleReport 7%nat demo_report true demo_client = Done r c' /\ m_engines c' = m_engines demo_client.
Proof.
  destruct (handleReport_unsigned demo_client 7%nat demo_report true eq_refl) as (r & c' & E & H & _).
  exists r, c'. split; [exact E|exact H].
Defined.

Lemma handleReport_progress_witness :
  exists r c', handleReport 7%nat demo_report true demo_client = Done r c' /\ client_inv c'.
Proof.
  destruct (handleReport_progress demo_client 7%nat demo_report true demo_client_inv) as (r & c' & E & Hi & _);
    [split; vm_compute; intuition discriminate|]. exists r, c'. split; [exact E|exact Hi].
Defined.

Lemma key_cache_transparent_witness :
  let creds := mkCredentials (str "u") AuthPriv Md5 (str "same") Des (str "same") in
  exists k r, localizedKey Toy.ssl creds [1; 2] demo_client = Done r (with_keys k demo_client).
Proof.
  destruct (key_cache_transparent (L := Toy.laws) demo_client
    (mkCredentials (str "u") AuthPriv Md5 (str "same") Des (str "same")) [1; 2]) as [(k & r & _ & E & _) _];
    [intros row key; cbn; rewrite lookup_empty; discriminate
    |apply (bool_decide_unpack _); vm_compute; exact I..|discriminate|]. exists k, r. exact E.
Defined.

Lemma ids_distinct_witness :
  exists ids c', take_ids 3 demo_client = Done ids c' /\ NoDup ids.
Proof.
  destruct (ids_distinct 3 demo_client demo_client_inv) as (ids & c' & E & H & _); [lia|].
  exists ids, c'. split; [exact E|exact H].
Defined.
