(* ===== verification/Coroutine.v ===== *)
(** * Coroutine: computations that suspend on the strand

    Models what [src/Client.cpp] uses of Asio's [awaitable]: a coroutine runs on the
    Client's strand until it awaits a send, a timer or an event, and is resumed there
    later, when other handlers may have changed the Client.  Between two suspensions
    nothing else runs.  [wpc] is the logic the coroutines are verified in: what a
    coroutine guarantees to the others in each of its segments, and what it relies on
    while it is suspended. *)

From stdpp Require Import gmap.
From S2P Require Import Prelude Errors Oids Values Pdu Usm V3Message Client.

(** What the coroutines use of Asio and the platform. *)
Class Net (Endpoint : Type) : Type := {
  is_v6 : Endpoint -> bool;
  operation_aborted : ErrorCode;
  aborted_is_error : is_error operation_aborted = true;
  aborted_is_system : ec_category operation_aborted = systemCategory }.

Section Co.
Context {Endpoint : Type} `{Countable Endpoint}.
Local Notation client := (Client (Endpoint := Endpoint)).

(** [CoDo]: a segment that runs without suspending.  [CoOpen]: the system's answer to
    opening a socket.  [CoSend], [CoTimer], [CoEvent]: suspended in [async_send_to], on a
    Pending's timer, on a Discovery's.  [CoBatch]: a call of the caller's [BatchHandler], which may itself call the Client and
    says whether to go on. *)
Inductive Co (A : Type) : Type :=
| CoRet (a : A)
| CoDo (m : client -> outcome client (Co A))
| CoOpen (v6 : bool) (k : ErrorCode -> Co A)
| CoSend (to : Endpoint) (datagram : Octets) (k : ErrorCode -> Co A)
| CoTimer (l : loc) (k : Co A)
| CoEvent (d : loc) (k : Co A)
| CoBatch (batch : list Varbind) (k : bool -> Co A).

#[global] Arguments CoRet {A}.
#[global] Arguments CoDo {A}.
#[global] Arguments CoOpen {A}.
#[global] Arguments CoSend {A}.
#[global] Arguments CoTimer {A}.
#[global] Arguments CoEvent {A}.
#[global] Arguments CoBatch {A}.

Fixpoint co_bind {A B} (co : Co A) (k : A -> Co B) : Co B :=
  match co with
  | CoRet a => k a
  | CoDo m => CoDo (fun c => match m c with
                             | Done co' c' => Done (co_bind co' k) c'
                             | Undef => Undef
                             | OutOfFuel => OutOfFuel
                             end)
  | CoOpen v6 k' => CoOpen v6 (fun ec => co_bind (k' ec) k)
  | CoSend to datagram k' => CoSend to datagram (fun ec => co_bind (k' ec) k)
  | CoTimer l k' => CoTimer l (co_bind k' k)
  | CoEvent d k' => CoEvent d (co_bind k' k)
  | CoBatch batch k' => CoBatch batch (fun more => co_bind (k' more) k)
  end.

(** A computation on the Client's state as a coroutine that does not suspend. *)
Definition sync {A} (m : M client A) : Co A :=
  CoDo (fun c => match m c with
                 | Done a c' => Done (CoRet a) c'
                 | Undef => Undef
                 | OutOfFuel => OutOfFuel
                 end).

(** ** When a wait is over *)

(** The signals an operation has been sent. *)
Definition cancelled (o : op) (c : client) : Z := default 0 (m_cancelled c !! o).

Definition timer_over (l : loc) (c : client) : bool :=
  match m_heap c !! l with
  | Some p => p_woken p || (p_expiry p <=? m_now c)
  | None => false
  end.

Definition event_over (o : op) (d : loc) (c : client) : bool :=
  match m_discoveries c !! d with
  | Some x => bool_decide (o ∈ d_woken x)
  | None => false
  end.

(** ** The logic *)

(** What a coroutine is seen to do: its sends with their outcome, its waits with the
    instant they ended, the discoveries it waited on, and the batches it handed over,
    with whether Stopping had begun and whether to go on. *)
Inductive Obs : Type :=
| Sent (to : Endpoint) (datagram : Octets) (ec : ErrorCode)
| Waited (l : loc) (until : Z)
| Parked (d : loc)
| Batched (batch : list Varbind) (stopping more : bool).

Section Logic.
(** [R]: what may happen while operation [o] is suspended; [G]: what its own segments
    promise.  It waits only on timers of its own, and on events it is registered with. *)
Context (o : op) (R G : client -> client -> Prop).

Definition own_timer (l : loc) (c : client) : Prop := l.1 = o /\ is_Some (m_heap c !! l).

Definition registered (d : loc) (c : client) : Prop :=
  exists x, m_discoveries c !! d = Some x /\ (o ∈ d_waiting x \/ o ∈ d_woken x).

Fixpoint wpc {A} (co : Co A) (Q : A -> list Obs -> client -> Prop) (tr : list Obs) (c : client) : Prop :=
  match co with
  | CoRet a => Q a tr c
  | CoDo m => match m c with Done co' c' => G c c' /\ wpc co' Q tr c' | _ => False end
  | CoOpen _ k => forall ec, wpc (k ec) Q tr c
  | CoSend to datagram k => forall c' ec, R c c' -> wpc (k ec) Q (tr ++ [Sent to datagram ec]) c'
  | CoTimer l k => own_timer l c /\
      forall c', R c c' -> timer_over l c' = true -> wpc k Q (tr ++ [Waited l (m_now c')]) c'
  | CoEvent d k => registered d c /\
      forall c', R c c' -> event_over o d c' = true -> wpc k Q (tr ++ [Parked d]) c'
  | CoBatch batch k => forall c' more, R c c' -> wpc (k more) Q (tr ++ [Batched batch (m_stopping c) more]) c'
  end.

(** Induction that reaches the coroutine a segment ends in. *)
Fixpoint Co_induction {A} (P : Co A -> Prop)
    (Hret : forall a, P (CoRet a))
    (Hdo : forall m, (forall c co c', m c = Done co c' -> P co) -> P (CoDo m))
    (Hopen : forall v6 k, (forall ec, P (k ec)) -> P (CoOpen v6 k))
    (Hsend : forall to d k, (forall ec, P (k ec)) -> P (CoSend to d k))
    (Htimer : forall l k, P k -> P (CoTimer l k))
    (Hevent : forall d k, P k -> P (CoEvent d k))
    (Hbatch : forall b k, (forall more, P (k more)) -> P (CoBatch b k)) (co : Co A) : P co :=
  let IH := Co_induction P Hret Hdo Hopen Hsend Htimer Hevent Hbatch in
  match co with
  | CoRet a => Hret a
  | CoDo m => Hdo m (fun c =>
      match m c as x return forall co c', x = Done co c' -> P co with
      | Done co0 c0 => fun co c' E =>
          match E in _ = y return match y with Done co1 _ => P co1 | _ => True end with
          | eq_refl => IH co0
          end
      | Undef => fun co c' E => match E in _ = y return match y with Done co1 _ => P co1 | _ => True end with eq_refl => I end
      | OutOfFuel => fun co c' E => match E in _ = y return match y with Done co1 _ => P co1 | _ => True end with eq_refl => I end
      end)
  | CoOpen v6 k => Hopen v6 k (fun ec => IH (k ec))
  | CoSend to d k => Hsend to d k (fun ec => IH (k ec))
  | CoTimer l k => Htimer l k (IH k)
  | CoEvent d k => Hevent d k (IH k)
  | CoBatch b k => Hbatch b k (fun more => IH (k more))
  end.

Lemma wpc_mono {A} (co : Co A) (Q Q' : A -> list Obs -> client -> Prop) tr c :
  (forall a tr' c', Q a tr' c' -> Q' a tr' c') -> wpc co Q tr c -> wpc co Q' tr c.
Proof.
  intros HQ. revert tr c. induction co as [a|m IH|v6 k IH|to d k IH|l k IH|d k IH|b k IH] using Co_induction;
    intros tr c; cbn; try naive_solver.
  destruct (m c) as [co c'| |] eqn:E; [|done..]. intros [HG Hw]. split; [done|]. by eapply IH.
Qed.

Lemma wpc_bind {A B} (co : Co A) (k : A -> Co B) Q tr c :
  wpc co (fun a tr' c' => wpc (k a) Q tr' c') tr c -> wpc (co_bind co k) Q tr c.
Proof.
  revert tr c. induction co as [a|m IH|v6 k' IH|to d k' IH|l k' IH|d k' IH|b k' IH] using Co_induction;
    intros tr c; cbn; try naive_solver.
  destruct (m c) as [co c'| |] eqn:E; [|done..]. intros [HG Hw]. split; [done|]. by eapply IH.
Qed.

Lemma wpc_sync {A B} (m : M client A) (k : A -> Co B) Q tr c a c' :
  m c = Done a c' -> G c c' -> wpc (k a) Q tr c' -> wpc (co_bind (sync m) k) Q tr c.
Proof. intros E HG Hk. cbn. rewrite E. cbn. done. Qed.

(** A segment that only looks. *)
Lemma wpc_look {A B} (m : M client A) (k : A -> Co B) Q tr c a : (forall c, G c c) ->
  m c = Done a c -> wpc (k a) Q tr c -> wpc (co_bind (sync m) k) Q tr c.
Proof. intros HG E Hk. by eapply wpc_sync. Qed.

(** A suspended coroutine does not care what happened before it is resumed. *)
Definition suspended {A} (co : Co A) : Prop :=
  match co with CoSend _ _ _ | CoTimer _ _ | CoEvent _ _ => True | _ => False end.

Lemma wpc_rely {A} (co : Co A) Q tr c c' : (forall x y z, R x y -> R y z -> R x z) ->
  (forall l, own_timer l c -> own_timer l c') -> (forall d, registered d c -> registered d c') ->
  suspended co -> R c c' -> wpc co Q tr c -> wpc co Q tr c'.
Proof. intros HR Ht Hd Hs Hc. destruct co; try done; cbn; [eauto|intros [? ?]; eauto..]. Qed.

End Logic.

(** A coroutine that never waits for an event. *)
Fixpoint eventless {A} (co : Co A) : Prop :=
  match co with
  | CoRet _ => True
  | CoDo m => forall c, match m c with Done co' _ => eventless co' | _ => True end
  | CoOpen _ k => forall ec, eventless (k ec)
  | CoSend _ _ k => forall ec, eventless (k ec)
  | CoTimer _ k => eventless k
  | CoEvent _ _ => False
  | CoBatch _ k => forall more, eventless (k more)
  end.

Lemma eventless_bind {A B} (co : Co A) (k : A -> Co B) :
  eventless co -> (forall a, eventless (k a)) -> eventless (co_bind co k).
Proof.
  intros Hco Hk. induction co as [a|m IH|v6 k' IH|to d k' IH|l k' IH|d k' IH|b k' IH] using Co_induction; cbn in *; eauto.
  intros c. specialize (Hco c). destruct (m c) as [co c'| |] eqn:E; [|done..]. by eapply IH.
Qed.

Lemma eventless_sync {A} (m : M client A) : eventless (sync m).
Proof. intros c. by destruct (m c). Qed.

End Co.

Declare Scope co_scope.
Delimit Scope co_scope with co.
(** [let*] awaits a coroutine; [let^] runs a segment; [;*] and [;^] drop the value. *)
Notation "'let*' x := m 'in' k" := (co_bind m (fun x => k))
  (at level 200, x name, m at level 100, k at level 200) : co_scope.
Notation "'let^' x := m 'in' k" := (co_bind (sync m) (fun x => k))
  (at level 200, x name, m at level 100, k at level 200) : co_scope.
Notation "m ;* k" := (co_bind m (fun _ => k)) (at level 100, right associativity) : co_scope.
Notation "m ;^ k" := (co_bind (sync m) (fun _ => k)) (at level 100, right associativity) : co_scope.
