(* ===== verification/Strand.v ===== *)
(** * Strand: what the handlers on the Client's strand may do to each other

    The state invariant of the Client, and the relation [rely o] between two states such
    that nothing in between was operation [o]'s own doing.  Everything that can run
    while an operation is suspended is shown to stay within it: the delivery of a
    datagram, Stopping ([Impl::stop], [Impl::finishStopping] of [src/Client.cpp]), a
    cancellation signal, the clock. *)

From stdpp Require Import gmap.
From S2P Require Import Prelude Errors Oids Values Pdu Usm V3Message Client Engines Coroutine.

Section Strand.
Context {Endpoint : Type} `{Countable Endpoint} {ssl : OpenSSL} {L : OpenSSLLaws ssl}.
Local Notation client := (Client (Endpoint := Endpoint)).
Local Notation pending := (Pending (Endpoint := Endpoint)).
Implicit Types (c : client) (o : op) (p : pending) (log : list (Octets * Endpoint)).

(** ** Events *)

(** [m_stopping.exchange(true)]. *)
Definition stop : M client bool :=
  let! c := get_st in
  set_st (with_stopping true c) ;;;
  ret (m_stopping c).

Definition close_socket (s : Socket) : Socket := match s with NoSocket => NoSocket | _ => SocketClosed end.

(** [discovery->done.cancel()]. *)
Definition cancel_event (d : Discovery) : Discovery :=
  mkDiscovery ∅ (d_woken d ∪ d_waiting d) (d_ec d) (d_finished d).

Definition cancel_timers (ls : list loc) (h : gmap loc pending) : gmap loc pending :=
  foldr (fun l h => alter cancel_timer l h) h ls.

Definition cancel_events (ds : list loc) (h : gmap loc Discovery) : gmap loc Discovery :=
  foldr (fun d h => alter cancel_event d h) h ds.

Definition finishStopping : M client unit :=
  modify (fun c => with_v4 (close_socket (m_v4 c)) c) ;;;
  modify (fun c => with_v6 (close_socket (m_v6 c)) c) ;;;
  modify (fun c => with_heap (cancel_timers (map_to_list (m_pending c)).*2 (m_heap c)) c) ;;;
  modify (fun c => with_discoveries (cancel_events (map_to_list (m_discovering c)).*2 (m_discoveries c)) c).

(** A signal to an operation: it is recorded, and ends the wait the operation is in, if
    that wait has a slot. *)
Definition signal_pending o (l : loc) p : pending :=
  if bool_decide (l.1 = o) && bool_decide (p_waiting p = Slotted) then cancel_timer p else p.

Definition signal_event o (d : Discovery) : Discovery :=
  if bool_decide (o ∈ d_waiting d) then mkDiscovery (d_waiting d ∖ {[o]}) (d_woken d ∪ {[o]}) (d_ec d) (d_finished d)
  else d.

Definition signal o (z : Z) c : client :=
  with_cancelled (<[o := Z.lor (cancelled o c) z]> (m_cancelled c))
    (with_heap (map_imap (fun l p => Some (signal_pending o l p)) (m_heap c))
      (with_discoveries (signal_event o <$> m_discoveries c) c)).

(** The types of a signal: [terminal] drops the operation, [total] lets what is in flight
    finish. *)
Definition terminal : Z := 1.

Definition aborted (z : Z) : bool := negb (Z.land z terminal =? 0).
Definition softCancelled (z : Z) : bool := negb (z =? 0) && negb (aborted z).

(** It is time for operation [o] to end. *)
Definition ending o c : bool := m_stopping c || aborted (cancelled o c).

(** ** What is asked of the callers *)

(** Credentials an operation may be given, once [doRequestV3] has looked at them. *)
Definition creds_ok (creds : Credentials) : Prop :=
  octets_ok (userName creds) /\ zlen (userName creds) <= 65535 /\
  octets_ok (authPassword creds) /\ octets_ok (privPassword creds) /\
  (isAuthenticated (level creds) = true -> authProtocol creds <> AuthNone) /\
  (isEncrypted (level creds) = true -> privProtocol creds <> PrivNone).

(** A discovery that may be started: for an object that is there, and in the table at no
    other endpoint than its target's. *)
Definition job_ok (job : Job (Endpoint := Endpoint)) c : Prop :=
  creds_ok (j_creds job) /\ 0 <= timeout (j_target job) /\ is_Some (m_discoveries c !! j_discovery job) /\
  forall ep, m_discovering c !! ep = Some (j_discovery job) -> ep = endpoint (j_target job).

(** ** The invariant *)

(** An engineID, as the decoder hands it over. *)
Definition id_ok (engineId : Octets) : Prop := octets_ok engineId /\ zlen engineId <= 65535.

(** A boots/time pair out of a datagram that was received, signed by somebody who had a
    key derived from a password. *)
Definition signed_pair log (boots time : Z) : Prop := exists bs from raw auth password engineId key,
  (bs, from) ∈ log /\ datagram_ok bs /\ dec_v3 bs = inr raw /\ derived_auth (ssl := ssl) auth password engineId = inr key /\
  verifyAuth ssl bs raw auth key tt = Done (inr tt) tt /\
  u_boots (security raw) = boots /\ u_time (security raw) = time.

(** An Engine that was identified has an engineID, and if it is synchronised a signed
    pair. *)
Definition engine_ok log (engineId : Octets) (e : EngineState) : Prop :=
  id_ok engineId /\ engineId <> [] /\ (e_timeSynced e = true -> signed_pair log (e_boots e) (e_time e)).

(** The datagram behind an SNMPv3 answer: it came from the endpoint asked, it decodes, it names the exchange, the PDU and
    the security parameters are its own, and if the reply counts as authenticated its
    digest was made with the exchange's key. *)
Definition evidence log p : Prop := exists bs raw msg,
  (bs, p_from p) ∈ log /\ datagram_ok bs /\ dec_v3 bs = inr raw /\ msgId (header raw) = p_requestId p /\
  (if isEncrypted (h_level (header raw))
   then decryptScopedPdu ssl raw (p_privProtocol p) (p_privKey p) tt = Done (inr msg) tt else msg = raw) /\
  p_security p = security raw /\ p_response p = s_pdu (scoped msg) /\
  (p_replyAuthenticated p = true -> p_authRequired p = true /\
     verifyAuth ssl bs raw (p_authProtocol p) (p_authKey p) tt = Done (inr tt) tt) /\
  (pdu_type (p_response p) <> Report -> p_engineId p = [] \/ u_engineId (p_security p) = p_engineId p) /\
  (p_authRequired p = true -> p_replyAuthenticated p = true \/ exempt raw) /\
  (p_timeSyncPhase p = true -> p_replyAuthenticated p = true \/ reportsNotInTimeWindows (p_response p) = false).

(** The datagram behind a v2c answer, likewise. *)
Definition evidence_v2c log p : Prop := exists bs msg,
  (bs, p_from p) ∈ log /\ datagram_ok bs /\ dec_whole p_v2c bs = inr msg /\ p_response p = v2c_pdu msg /\
  pdu_type (v2c_pdu msg) = Response /\ requestId (v2c_pdu msg) = p_requestId p /\ v2c_community msg = p_community p.

(** The key of an exchange that requires authentication was derived from a password for
    the Engine addressed. *)
Definition key_ok p : Prop := p_authRequired p = true -> exists password,
  derived_auth (ssl := ssl) (p_authProtocol p) password (p_engineId p) = inr (p_authKey p).

(** What an exchange holds once it was answered. *)
Definition answered_ok log p : Prop :=
  (pdu_type (p_response p) <> Report ->
     pdu_type (p_response p) = Response /\ requestId (p_response p) = p_requestId p /\
     (p_v3 p = true -> p_authRequired p = true -> p_replyAuthenticated p = true)) /\
  (p_v3 p = false -> evidence_v2c log p) /\
  (p_v3 p = true -> pair_ok (p_security p) /\ id_ok (u_engineId (p_security p)) /\ evidence log p).

(** A discovery that has not said how it went. *)
Definition unfinished (d : loc) c : Prop := exists x, m_discoveries c !! d = Some x /\ d_finished x = false.

(** A reply that was dropped for a reason: of SNMPv3, from the endpoint asked, and it names
    the exchange. *)
Definition dropped log p : Prop := p_v3 p = true /\ exists e bs raw,
  e ∈ [AuthFailed; DecryptionFailed; NotInTimeWindow] /\ p_dropReason p = make_error_code e /\
  (bs, p_from p) ∈ log /\ dec_v3 bs = inr raw /\ msgId (header raw) = p_requestId p.

Definition drop_ok log p : Prop := p_dropReason p = no_error \/ dropped log p.

Definition answer_ok log p : Prop := key_ok p /\ drop_ok log p /\ (p_answered p = true -> answered_ok log p).

(** What has been received stays so. *)
Lemma signed_pair_mono log log' boots time : log ⊆ log' -> signed_pair log boots time -> signed_pair log' boots time.
Proof. intros Hl (bs & from & raw & auth & pw & eid & key & Hin & Hx). exists bs, from, raw, auth, pw, eid, key. auto. Qed.

Lemma engine_ok_mono log log' id e : log ⊆ log' -> engine_ok log id e -> engine_ok log' id e.
Proof. intros Hl (H1 & H2 & H3). do 2 (split; [done|]). intros Hs. by eapply signed_pair_mono, H3. Qed.

Lemma answer_ok_mono log log' p : log ⊆ log' -> answer_ok log p -> answer_ok log' p.
Proof.
  intros Hl (Hk & Hu & Ha). split; [done|]. split.
  { destruct Hu as [?|(Hv & e & bs & raw & H1 & H2 & H3 & Hx)]; [by left|right]. split; [done|]. exists e, bs, raw. auto. }
  intros (H1 & H2 & H3)%Ha. split; [done|]. split.
  - intros (bs & msg & Hin & Hx)%H2. exists bs, msg. auto.
  - intros (H4 & H5 & bs & raw & msg & Hin & Hx)%H3. do 2 (split; [done|]). exists bs, raw, msg. auto.
Qed.

Record ginv c : Prop := {
  ginv_client : client_inv c;
  ginv_keys : keys_ok (ssl := ssl) c;
  ginv_index ep id : m_engineAt c !! ep = Some id -> is_Some (m_engines c !! id);
  ginv_engine id e : m_engines c !! id = Some e -> engine_ok (m_received c) id e;
  ginv_discovering ep d : m_discovering c !! ep = Some d -> unfinished d c;
  ginv_waited d x : m_discoveries c !! d = Some x -> d_waiting x <> ∅ -> d_finished x = false;
  ginv_posted job : job ∈ m_posted c -> job_ok job c;
  ginv_answers l p : m_heap c !! l = Some p -> answer_ok (m_received c) p;
  ginv_ids id l p : m_pending c !! id = Some l -> m_heap c !! l = Some p -> p_requestId p = id }.

(** An answered exchange. *)
Lemma ginv_answered c l p : ginv c -> m_heap c !! l = Some p -> p_answered p = true -> answered_ok (m_received c) p.
Proof. intros Hi Hp. apply (ginv_answers _ Hi _ _ Hp). Qed.

(** The pair of an authenticated reply is signed. *)
Lemma answered_signed c l p : ginv c -> m_heap c !! l = Some p -> p_answered p = true -> p_v3 p = true ->
  p_replyAuthenticated p = true -> signed_pair (m_received c) (u_boots (p_security p)) (u_time (p_security p)).
Proof.
  intros Hi Hp Ha H3 Hr. destruct (ginv_answers _ Hi _ _ Hp) as (Hk & _ & Hans). destruct (Hans Ha) as (_ & _ & Hv).
  destruct (Hv H3) as (_ & _ & bs & raw & msg & B0 & B1 & B2 & _ & _ & B5 & _ & B7 & _).
  destruct (B7 Hr) as [Hq Hver]. destruct (Hk Hq) as [pw Hkey]. rewrite B5. by exists bs, (p_from p), raw, (p_authProtocol p), pw, (p_engineId p), (p_authKey p).
Qed.

(** ** What an operation may rely on *)

(** A Pending, while the operation that made it does nothing. *)
Record evolves c o p p' : Prop := {
  ev_request : same_request p p';
  ev_answered : p_answered p = true -> p_answered p' = true;
  ev_woken : p_woken p' = true ->
    p_woken p = true \/ p_answered p' = true \/ m_stopping c = true \/ cancelled o c <> 0 }.

(** A Discovery, likewise: an operation that waits for it, or was woken, stays so, and is
    woken only if the discovery is over, the Client is stopping or there is a signal. *)
Record devolves c o (x x' : Discovery) : Prop := {
  dv_finished : d_finished x = true -> d_finished x' = true;
  dv_woken : o ∈ d_woken x -> o ∈ d_woken x';
  dv_waiting : o ∈ d_waiting x -> o ∈ d_waiting x' \/ o ∈ d_woken x';
  dv_reason : o ∈ d_woken x' -> o ∈ d_woken x \/ d_finished x' = true \/ m_stopping c = true \/ cancelled o c <> 0 }.

Record rely o c c' : Prop := {
  rely_inv : ginv c -> ginv c';
  rely_stopping : m_stopping c = true -> m_stopping c' = true;
  rely_now : m_now c <= m_now c';
  rely_own l p : l.1 = o -> m_heap c !! l = Some p -> exists p', m_heap c' !! l = Some p' /\ evolves c' o p p';
  rely_cancelled : exists z, cancelled o c' = Z.lor (cancelled o c) z;
  rely_discoveries d x : m_discoveries c !! d = Some x -> exists x', m_discoveries c' !! d = Some x' /\ devolves c' o x x';
  rely_registered ep d : is_Some (m_discoveries c !! d) -> m_discovering c' !! ep = Some d -> m_discovering c !! ep = Some d;
  rely_engines id : is_Some (m_engines c !! id) -> is_Some (m_engines c' !! id);
  rely_received : m_received c ⊆ m_received c' }.

Lemma same_request_refl p : same_request p p.
Proof. by repeat split. Qed.

Lemma same_request_trans p1 p2 p3 : same_request p1 p2 -> same_request p2 p3 -> same_request p1 p3.
Proof. unfold same_request. intuition congruence. Qed.

Lemma lor_nonzero z1 z2 : z1 <> 0 -> Z.lor z1 z2 <> 0.
Proof. intros Hz [? _]%Z.lor_eq_0_iff. done. Qed.

Lemma devolves_refl c o x : devolves c o x x.
Proof. split; by auto. Qed.

Lemma devolves_trans c c' o x y z : (m_stopping c = true -> m_stopping c' = true) -> (cancelled o c <> 0 -> cancelled o c' <> 0) ->
  devolves c o x y -> devolves c' o y z -> devolves c' o x z.
Proof.
  intros Hs Hz [A1 A2 A3 A4] [B1 B2 B3 B4]. split; [by auto|by auto| |].
  - intros [?|?]%A3; by auto.
  - intros [Hw|?]%B4; [|by auto]. destruct (A4 Hw) as [?|[?|[?|?]]]; by auto 6.
Qed.

Lemma same_discoveries o c c' : m_discoveries c' = m_discoveries c ->
  forall d x, m_discoveries c !! d = Some x -> exists x', m_discoveries c' !! d = Some x' /\ devolves c' o x x'.
Proof. intros E d x Hx. exists x. rewrite E. split; [done|apply devolves_refl]. Qed.

#[global] Instance rely_preorder o : PreOrder (rely o).
Proof.
  split.
  - intros c. split; [done..| | |by apply same_discoveries|done|done|done].
    + intros l p _ Hp. exists p. split; [done|]. split; [apply same_request_refl|done|by left].
    + exists 0. by rewrite Z.lor_0_r.
  - intros c1 c2 c3 R12 R23. split.
    + intros. by apply R23, R12.
    + intros. by apply R23, R12.
    + etransitivity; [apply R12|apply R23].
    + intros l p Ho Hp. destruct (rely_own _ _ _ R12 _ _ Ho Hp) as (p2 & Hp2 & [E1 E2 E3]).
      destruct (rely_own _ _ _ R23 _ _ Ho Hp2) as (p3 & Hp3 & [F1 F2 F3]). exists p3. split; [done|]. split.
      * by eapply same_request_trans.
      * by auto.
      * intros Hw. destruct (F3 Hw) as [Hw2|?]; [|by auto]. destruct (E3 Hw2) as [?|[?|[?|Hz]]]; [by auto|by auto| |].
        -- right; right; left. by apply R23.
        -- right; right; right. destruct (rely_cancelled _ _ _ R23) as [z ->]. by apply lor_nonzero.
    + destruct (rely_cancelled _ _ _ R12) as [z1 E1], (rely_cancelled _ _ _ R23) as [z2 E2].
      exists (Z.lor z1 z2). by rewrite E2, E1, Z.lor_assoc.
    + intros d x Hd. destruct (rely_discoveries _ _ _ R12 _ _ Hd) as (y & Hy & D1).
      destruct (rely_discoveries _ _ _ R23 _ _ Hy) as (z & Hz & D2). exists z. split; [done|].
      eapply devolves_trans; [apply R23| |exact D1|exact D2]. destruct (rely_cancelled _ _ _ R23) as [w ->]. by apply lor_nonzero.
    + intros ep d Hd E. eapply R12; [done|]. eapply R23; [|done]. destruct Hd as [x Hx].
      destruct (rely_discoveries _ _ _ R12 _ _ Hx) as (y & Hy & _). by rewrite Hy.
    + intros id Hid. by apply R23, R12.
    + transitivity (m_received c2); [apply R12|apply R23].
Qed.

(** ** Everything that runs in between *)

(** No discovery is posted, taken or begun. *)
Record undisturbed c c' : Prop := {
  un_posted : m_posted c' = m_posted c;
  un_unfinished d : unfinished d c' -> unfinished d c }.

Lemma same_undisturbed c c' : m_posted c' = m_posted c -> m_discoveries c' = m_discoveries c -> undisturbed c c'.
Proof. intros Hp Hd. split; [done|]. intros d. unfold unfinished. by rewrite Hd. Qed.

#[global] Instance undisturbed_preorder : PreOrder undisturbed.
Proof. split; [by split|]. intros c1 c2 c3 [A1 A2] [B1 B2]. split; [congruence|auto]. Qed.

Lemma updated_ginv c l p p' : ginv c -> m_heap c !! l = Some p -> same_request p p' -> answer_ok (m_received c) p' ->
  ginv (updated c l p').
Proof.
  intros [[Hn Hp He] Hk Hx Hei Hd Hwt Hpo Ha Hi] Hl Hs Hok. split; [|done..| |].
  - split; [done| |done]. intros id l'. cbn. intros Hl'. apply Hp in Hl'. destruct (decide (l = l')) as [->|].
    + by rewrite lookup_insert_eq.
    + by rewrite lookup_insert_ne.
  - intros l' q. cbn. rewrite lookup_insert_Some. intros [[_ <-]|[_ Hq]]; [done|by eapply Ha].
  - intros id l' q Hid. cbn. rewrite lookup_insert_Some. intros [[<- <-]|[_ Hq]]; [|by eapply Hi].
    rewrite <- (Hi _ _ _ Hid Hl). unfold same_request in Hs. intuition.
Qed.

Lemma updated_rely o c l p p' : m_heap c !! l = Some p -> same_request p p' -> answer_ok (m_received c) p' ->
  (p_answered p = true -> p_answered p' = true) -> (p_woken p' = true -> p_woken p = true \/ p_answered p' = true) ->
  rely o c (updated c l p').
Proof.
  intros Hl Hs Hok Ha Hw. split; [|done|done| | |by apply same_discoveries|done|done|done].
  - intros Hi. by eapply updated_ginv.
  - intros l' q _ Hq. cbn. destruct (decide (l = l')) as [<-|].
    + rewrite lookup_insert_eq. assert (q = p) as -> by congruence. exists p'. split; [done|]. split; [done|done|].
      intros [?|?]%Hw; auto.
    + rewrite lookup_insert_ne by done. exists q. split; [done|]. split; [apply same_request_refl|done|by left].
  - exists 0. by rewrite Z.lor_0_r.
Qed.

Lemma refused_rely c c' bs from : ginv c -> (bs, from) ∈ m_received c -> refused c c' bs from -> (forall o, rely o c c') /\ undisturbed c c'.
Proof.
  intros Hi Hin [->|(l & p & raw & e & Hm & He & ->)]; [done|]. destruct Hm as [Hd Ho Hp H3 ->].
  split; [|by apply same_undisturbed]. intros o. eapply updated_rely; [done|by repeat split| |done|by left].
  destruct (ginv_answers _ Hi _ _ Hp) as (Hk & _ & Ha). split; [done|]. split; [|done]. right. split; [done|].
  exists e, bs, raw. do 4 (split; [done|]). symmetry. exact (ginv_ids _ Hi _ _ _ Ho Hp).
Qed.

Lemma deliverV2c_rely c bs from : datagram_ok bs -> (bs, from) ∈ m_received c -> ginv c ->
  exists c', deliverV2c bs from c = Done tt c' /\ (forall o, rely o c c') /\ undisturbed c c'.
Proof.
  intros Hd Hin Hi. destruct (deliverV2c_run c bs from Hd (ginv_client _ Hi)) as [[E _]|(l & p & msg & Ha & E)].
  - by exists c.
  - eexists. split; [exact E|]. split; [|by apply same_undisturbed]. intros o. destruct Ha as [Hdec Hr Ho Hp H3 Hfrom Hcom].
    eapply updated_rely; [exact Hp|by repeat split| |done|by right].
    assert (requestId (v2c_pdu msg) = p_requestId p) as Hq by (symmetry; by eapply ginv_ids).
    do 2 (split; [apply (ginv_answers _ Hi _ _ Hp)|]). intros _. unfold answered_ok. cbn. rewrite Hr, H3. split; [|split; [|done]].
    + intros _. split; [done|]. split; [done|]. congruence.
    + intros _. exists bs, msg. cbn. by rewrite <- Hfrom.
Qed.

Lemma opens_security c p raw msg : datagram_ok (encryptedPdu raw) -> opens (ssl := ssl) c p raw msg ->
  security msg = security raw.
Proof.
  intros [Ho Hl]. unfold opens. destruct (isEncrypted _); [|by intros ->].
  destruct (decryptScopedPdu_total raw (p_privProtocol p) (p_privKey p) c Ho ltac:(lia)) as (r & E & Hr).
  intros Hx. rewrite Hx in E. injection E as <-. by destruct Hr.
Qed.

Lemma deliverV3_rely c bs from : datagram_ok bs -> (bs, from) ∈ m_received c -> ginv c ->
  exists c', deliverV3 ssl bs from c = Done tt c' /\ (forall o, rely o c c') /\ undisturbed c c'.
Proof.
  intros Hd Hin Hi. destruct (deliverV3_run c bs from Hd (ginv_client _ Hi))
    as [(l & p & raw & msg & a & Ha & E)|(c' & E & Hr & _)].
  2: { exists c'. split; [done|]. by eapply refused_rely. }
  eexists. split; [exact E|]. split; [|by apply same_undisturbed]. intros o. destruct Ha as [[Hdec Ho Hp H3 Hfrom] Hg Hop [Hts Han]]. destruct Hd as [Hbo Hbl].
  eapply updated_rely; [exact Hp|by repeat split| |done|by right].
  do 2 (split; [apply (ginv_answers _ Hi _ _ Hp)|]). intros _. unfold answered_ok. cbn. rewrite H3. split; [|split; [done|]].
  - intros Hrep. destruct (Han Hrep) as (_ & Hq & Ht & _). split; [done|]. split; [done|]. intros _ Hreq.
    destruct a; [done|]. destruct Hg as [Hg|[Hlv Hr]]; [congruence|]. unfold opens in Hop. rewrite Hlv in Hop.
    change (isEncrypted NoAuthNoPriv) with false in Hop. cbn in Hop. congruence.
  - intros _. destruct (dec_v3_wf bs raw Hdec Hbo) as [Heo Hel].
    assert (security msg = security raw) as Hsec by (eapply (opens_security c p); [split; [done|lia]|done]).
    destruct (dec_v3_usm bs raw Hdec Hbo) as (? & ? & ? & ?). rewrite Hsec. split; [done|]. split; [split; [done|lia]|].
    exists bs, raw, msg. split; [cbn; by rewrite <- Hfrom|]. split; [done|]. split; [done|]. split; [symmetry; exact (ginv_ids _ Hi _ _ _ Ho Hp)|]. split; [|split; [done|split; [done|split; [|split; [|split]]]]].
    + unfold opens in Hop. destruct (isEncrypted _); [|done]. eapply decryptScopedPdu_state; [done|lia|exact Hop].
    + cbn. intros ->. destruct Hg as (Hq & _ & Hv). split; [done|]. eapply verifyAuth_state; [done|lia|done|exact Hv].
    + intros Hrep. destruct (Han Hrep) as (He & _). cbn. rewrite Hsec in He. done.
    + cbn. intros Hq. destruct a; [by left|]. destruct Hg as [?|?]; [congruence|by right].
    + cbn. intros Hq. rewrite Hq in Hts. destruct a; [by left|by right].
Qed.

Lemma receive_rely c bs from : datagram_ok bs -> (bs, from) ∈ m_received c -> ginv c ->
  exists c', receive ssl bs from c = Done tt c' /\ (forall o, rely o c c') /\ undisturbed c c'.
Proof.
  intros Hd Hin Hi. unfold receive. pose proof Hd as [Ho Hl].
  destruct (messageVersion_spec bs c Ho ltac:(lia)) as (v & E & _). rewrite (bind_done _ _ _ _ _ E).
  destruct v as [v|]; [|by exists c].
  destruct (v =? versionV2c); [by apply deliverV2c_rely|].
  destruct (v =? versionV3); [by apply deliverV3_rely|by exists c].
Qed.

Lemma received_rely c x : forall o, rely o c (with_received (x :: m_received c) c).
Proof.
  intros o. assert (m_received c ⊆ x :: m_received c) as Hsub by set_solver.
  split; [|done|done| |exists 0; by rewrite Z.lor_0_r|by apply same_discoveries|done|done|done].
  - intros [[? ? ?] ? ? Hei ? ? ? Ha ?]. split; [by split|done|done| |done|done|done| |done].
    + intros id e He. eapply engine_ok_mono; [exact Hsub|by apply Hei].
    + intros l p Hp. eapply answer_ok_mono; [exact Hsub|by eapply Ha].
  - intros l p _ Hp. exists p. split; [done|]. split; [apply same_request_refl|done|by left].
Qed.

Lemma arrive_rely c bs from : datagram_ok bs -> ginv c ->
  exists c', arrive ssl bs from c = Done tt c' /\ (forall o, rely o c c') /\ undisturbed c c'.
Proof.
  intros Hd Hi. set (c1 := with_received ((bs, from) :: m_received c) c).
  pose proof (received_rely c (bs, from)) as R1. fold c1 in R1.
  destruct (receive_rely c1 bs from Hd ltac:(cbn; set_solver) ltac:(by apply (R1 0%nat))) as (c2 & E & R2 & U2).
  exists c2. split; [exact E|]. split; [intros o; by transitivity c1|]. transitivity c1; [by apply same_undisturbed|done].
Qed.

(** An object whose waits were cancelled. *)
Lemma cancel_timer_evolves c o p : m_stopping c = true \/ cancelled o c <> 0 -> evolves c o p (cancel_timer p).
Proof. intros Hx. split; [by repeat split|done|]. intros _. right; right. done. Qed.

Lemma cancel_timer_answer_ok log p : answer_ok log p -> answer_ok log (cancel_timer p).
Proof. done. Qed.

(** A step that changes objects in the heap one by one, and nothing the invariant
    speaks of. *)
Lemma heap_ginv c h : ginv c ->
  (forall l p, m_heap c !! l = Some p -> is_Some (h !! l)) ->
  (forall l p', h !! l = Some p' -> exists p, m_heap c !! l = Some p /\ p_requestId p' = p_requestId p /\ answer_ok (m_received c) p') ->
  ginv (with_heap h c).
Proof.
  intros [[Hn Hp He] Hk Hx Hei Hd Hwt Hpo Ha Hi] H1 H2. split; [|done..| |].
  - split; [done| |done]. intros id l Hl. cbn. destruct (Hp _ _ Hl) as [p Hpl]. by eapply H1.
  - intros l p'. cbn. intros (p & _ & _ & ?)%H2. done.
  - intros id l p' Hid. cbn. intros (p & Hpl & -> & _)%H2. by eapply Hi.
Qed.

Lemma cancel_timers_lookup (ls : list loc) (h : gmap loc pending) l :
  cancel_timers ls h !! l = (fun p => if decide (l ∈ ls) then cancel_timer p else p) <$> h !! l.
Proof.
  unfold cancel_timers. induction ls as [|l0 ls IH]; cbn [foldr].
  - by destruct (h !! l).
  - destruct (decide (l = l0)) as [->|Hne].
    + rewrite lookup_alter_eq, IH. destruct (h !! l0) as [p|]; [|done]. cbn.
      rewrite (decide_True (P := l0 ∈ l0 :: ls)) by set_solver. destruct (decide (l0 ∈ ls)); [|done].
      f_equal. unfold cancel_timer. cbn. by destruct (p_woken p), (bool_decide _).
    + rewrite lookup_alter_ne, IH by done. destruct (h !! l) as [p|]; [|done]. cbn.
      destruct (decide (l ∈ ls)) as [Hin|Hin], (decide (l ∈ l0 :: ls)) as [Hin'|Hin']; set_solver.
Qed.

(** Waits that end. *)
Record calmer c (x x' : Discovery) : Prop := {
  ca_finished : d_finished x' = d_finished x;
  ca_waiting : d_waiting x' ⊆ d_waiting x;
  ca_devolves o : devolves c o x x' }.

Lemma calmer_refl c x : calmer c x x.
Proof. split; [done..|]. intros o. apply devolves_refl. Qed.

Lemma cancel_event_calmer c x y : m_stopping c = true -> calmer c x y -> calmer c x (cancel_event y).
Proof.
  intros Hs [A1 A2 A3]. split; [done|cbn; set_solver|]. intros o. eapply devolves_trans; [done..|apply A3|].
  split; [done|cbn; set_solver|cbn; set_solver|by auto].
Qed.

Lemma signal_event_calmer c o x : cancelled o c <> 0 -> calmer c x (signal_event o x).
Proof.
  intros Hz. unfold signal_event. case_bool_decide; [|apply calmer_refl]. split; [done|cbn; set_solver|]. intros o'.
  split; [done|cbn; set_solver| |]; cbn; destruct (decide (o' = o)) as [->|]; set_solver.
Qed.

Lemma cancel_events_lookup c (ds : list loc) (h : gmap loc Discovery) d : m_stopping c = true ->
  match h !! d with
  | Some x => exists x', cancel_events ds h !! d = Some x' /\ calmer c x x'
  | None => cancel_events ds h !! d = None
  end.
Proof.
  intros Hs. unfold cancel_events. induction ds as [|d0 ds IH]; cbn [foldr].
  - destruct (h !! d) as [x|]; [|done]. exists x. split; [done|apply calmer_refl].
  - destruct (decide (d = d0)) as [->|]; [rewrite lookup_alter_eq|by rewrite lookup_alter_ne].
    destruct (h !! d0) as [x|]; [|by rewrite IH]. destruct IH as (x' & -> & Hc). exists (cancel_event x').
    split; [done|by apply cancel_event_calmer].
Qed.

(** A step that ends waits for discoveries. *)
Lemma discoveries_rely o c h :
  (forall d, match m_discoveries c !! d with
             | Some x => exists x', h !! d = Some x' /\ calmer c x x'
             | None => h !! d = None
             end) -> rely o c (with_discoveries h c).
Proof.
  intros Hh. assert (forall d x', h !! d = Some x' -> exists x, m_discoveries c !! d = Some x /\ calmer c x x') as Hback.
  { intros d x' Hx'. specialize (Hh d). destruct (m_discoveries c !! d) as [x|]; [|congruence].
    destruct Hh as (y & Hy & Hc). exists x. split; [done|]. congruence. }
  assert (forall d x, m_discoveries c !! d = Some x -> exists x', h !! d = Some x' /\ calmer c x x') as Hforth.
  { intros d x Hx. specialize (Hh d). by rewrite Hx in Hh. }
  split; [|done|done| |exists 0; by rewrite Z.lor_0_r| |done|done|done].
  - intros [[? ? ?] ? ? ? Hd Hw Hp ? ?]. split; [by split|done|done|done| | | |done|done].
    + intros ep d Hep. destruct (Hd _ _ Hep) as (x & Hx & Hf). destruct (Hforth _ _ Hx) as (x' & Hx' & [E _ _]).
      exists x'. split; [done|congruence].
    + intros d x' Hx' Hne. destruct (Hback _ _ Hx') as (x & Hx & [E Hs _]). rewrite E. apply (Hw d x Hx). set_solver.
    + intros job Hj. destruct (Hp _ Hj) as (J1 & J2 & [x Hx] & J4). do 2 (split; [done|]). split; [|done].
      destruct (Hforth _ _ Hx) as (x' & Hx' & _). cbn. by rewrite Hx'.
  - intros l p _ Hp. exists p. split; [done|]. split; [apply same_request_refl|done|by left].
  - intros d x Hx. destruct (Hforth _ _ Hx) as (x' & Hx' & [_ _ D]). exists x'. split; [done|]. by destruct (D o); split.
Qed.

Lemma calmer_undisturbed c c' : m_posted c' = m_posted c ->
  (forall d, match m_discoveries c !! d with
             | Some x => exists x', m_discoveries c' !! d = Some x' /\ calmer c' x x'
             | None => m_discoveries c' !! d = None
             end) -> undisturbed c c'.
Proof.
  intros Hp Hh. split; [done|]. intros d (x' & Hx' & Hf). specialize (Hh d).
  destruct (m_discoveries c !! d) as [x|] eqn:E; [|congruence]. destruct Hh as (y & Hy & [Hc _ _]).
  exists x. split; [done|]. congruence.
Qed.

Lemma with_heap_rely o c h : ginv c ->
  (forall l p, m_heap c !! l = Some p -> exists p', h !! l = Some p' /\ same_request p p' /\ answer_ok (m_received c) p' /\
     (l.1 = o -> evolves c o p p')) ->
  (forall l, m_heap c !! l = None -> h !! l = None) -> rely o c (with_heap h c).
Proof.
  intros Hi Hh Hn. split; [|done|done| | |by apply same_discoveries|done|done|done].
  - intros _. apply heap_ginv; [done| |].
    + intros l p (p' & -> & _)%Hh. by eauto.
    + intros l p' Hp'. destruct (m_heap c !! l) as [p|] eqn:E; [|by rewrite Hn in Hp'].
      destruct (Hh _ _ E) as (q & Hq & Hs & Ha & _). assert (q = p') as -> by congruence. exists p.
      split; [done|]. split; [|done]. unfold same_request in Hs. intuition.
  - intros l p Hl (p' & Hp' & _ & _ & Hev)%Hh. exists p'. split; [done|]. destruct (Hev Hl). by split.
  - exists 0. by rewrite Z.lor_0_r.
Qed.

(** A change to the fields no operation relies on. *)
Lemma silent_rely o c c' : (ginv c -> ginv c') -> m_stopping c' = m_stopping c -> m_now c' = m_now c ->
  m_heap c' = m_heap c -> cancelled o c' = cancelled o c ->
  m_discoveries c' = m_discoveries c -> m_discovering c' = m_discovering c -> m_received c' = m_received c ->
  (forall id, is_Some (m_engines c !! id) -> is_Some (m_engines c' !! id)) -> rely o c c'.
Proof.
  intros Hi Hs Hn Hh Hc Hd Hg Hl He.
  split; [done|by rewrite Hs|by rewrite Hn| |exists 0; by rewrite Z.lor_0_r|by apply same_discoveries|by rewrite Hg|done|by rewrite Hl].
  intros l p _ Hp. exists p. rewrite Hh. split; [done|]. split; [apply same_request_refl|done|by left].
Qed.

Lemma finishStopping_rely c : ginv c -> m_stopping c = true ->
  exists c', finishStopping c = Done tt c' /\ (forall o, rely o c c') /\ undisturbed c c'.
Proof.
  intros Hi Hs. eexists. split; [done|].
  split; [|apply calmer_undisturbed; [done|]; intros d; by apply cancel_events_lookup].
  intros o. unfold finishStopping. cbn.
  set (c1 := with_v6 (close_socket (m_v6 c)) (with_v4 (close_socket (m_v4 c)) c)).
  assert (rely o c c1) as R1.
  { apply silent_rely; [|done..]. intros [[? ? ?] ? ? ? ? ? ? ? ?]. by split. }
  set (c2 := with_heap (cancel_timers (map_to_list (m_pending c)).*2 (m_heap c)) c1).
  assert (ginv c1) as Hi1 by (by apply R1).
  assert (rely o c1 c2) as R2.
  { apply with_heap_rely; [done| |].
    - intros l p Hp. rewrite cancel_timers_lookup. cbn in Hp. rewrite Hp. cbn. eexists. split; [done|].
      pose proof (ginv_answers _ Hi _ _ Hp). destruct (decide _); [|split; [apply same_request_refl|]; split; [done|]].
      + split; [by repeat split|]. split; [done|]. intros _. by apply cancel_timer_evolves; left.
      + intros _. split; [apply same_request_refl|done|by left].
    - intros l Hl. rewrite cancel_timers_lookup. cbn in Hl. by rewrite Hl. }
  transitivity c1; [done|]. transitivity c2; [done|].
  apply discoveries_rely. intros d. by apply cancel_events_lookup.
Qed.

Lemma stop_rely c : forall o, rely o c (with_stopping true c).
Proof.
  intros o. split; [|done|done| |exists 0; by rewrite Z.lor_0_r|by apply same_discoveries|done|done|done].
  - intros [[? ? ?] ? ? ? ? ? ? ? ?]. by split.
  - intros l p _ Hp. exists p. split; [done|]. split; [apply same_request_refl|done|by left].
Qed.

Lemma now_rely c t : m_now c <= t -> forall o, rely o c (with_now t c).
Proof.
  intros Ht o. split; [|done|done| |exists 0; by rewrite Z.lor_0_r|by apply same_discoveries|done|done|done].
  - intros [[Hn Hp He] ? ? ? ? ? ? ? ?]. split; [|done..]. split; [done|done|]. intros id e Hid.
    destruct (He _ _ Hid) as (? & ? & ? & ? & ?). do 4 (split; [done|]). cbn. lia.
  - intros l p _ Hp. exists p. split; [done|]. split; [apply same_request_refl|done|by left].
Qed.

Lemma cancelled_rely c o z o' : rely o' c (with_cancelled (<[o := Z.lor (cancelled o c) z]> (m_cancelled c)) c).
Proof.
  split; [|done|done| | |by apply same_discoveries|done|done|done].
  - intros [[? ? ?] ? ? ? ? ? ? ? ?]. by split.
  - intros l p _ Hp. exists p. split; [done|]. split; [apply same_request_refl|done|by left].
  - unfold cancelled at 1. cbn. destruct (decide (o = o')) as [->|].
    + rewrite lookup_insert_eq. by exists z.
    + rewrite lookup_insert_ne by done. exists 0. by rewrite Z.lor_0_r.
Qed.

Lemma signal_rely c o z : ginv c -> z <> 0 -> forall o', rely o' c (signal o z c).
Proof.
  intros Hi Hz o'. pose proof (cancelled_rely c o z o') as R1.
  set (c1 := with_cancelled _ c) in R1. assert (ginv c1) as Hi1 by (by apply R1).
  assert (cancelled o c1 <> 0) as Hz1.
  { unfold cancelled, c1. cbn. rewrite lookup_insert_eq. cbn. rewrite Z.lor_comm. by apply lor_nonzero. }
  set (c2 := with_heap (map_imap (fun l p => Some (signal_pending o l p)) (m_heap c)) c1).
  assert (rely o' c1 c2) as R2.
  { apply with_heap_rely; [done| |].
    - intros l p Hp. cbn in Hp. exists (signal_pending o l p). rewrite map_lookup_imap, Hp. split; [done|].
      pose proof (ginv_answers _ Hi _ _ Hp). unfold signal_pending.
      destruct (bool_decide (l.1 = o) && _) eqn:E; [|split; [apply same_request_refl|]; split; [done|]].
      + split; [by repeat split|]. split; [done|]. intros <-. apply cancel_timer_evolves. right.
        apply andb_true_iff in E as [->%bool_decide_eq_true _]. done.
      + intros _. split; [apply same_request_refl|done|by left].
    - intros l Hl. cbn in Hl. by rewrite map_lookup_imap, Hl. }
  transitivity c1; [done|]. transitivity c2; [done|].
  change (signal o z c) with (with_discoveries (signal_event o <$> m_discoveries c) c2).
  apply discoveries_rely. intros d. cbn. rewrite lookup_fmap.
  destruct (m_discoveries c !! d) as [x|]; [|done]. exists (signal_event o x). split; [done|by apply signal_event_calmer].
Qed.

Lemma signal_undisturbed c o z : z <> 0 -> undisturbed c (signal o z c).
Proof.
  intros Hz. apply calmer_undisturbed; [done|]. intros d. cbn. rewrite lookup_fmap. destruct (m_discoveries c !! d) as [x|]; [|done].
  exists (signal_event o x). split; [done|]. apply signal_event_calmer. unfold cancelled. cbn. rewrite lookup_insert_eq. cbn.
  rewrite Z.lor_comm. by apply lor_nonzero.
Qed.

(** What a posted discovery needs stays true. *)
Lemma job_rely o job c c' : rely o c c' -> job_ok job c -> job_ok job c'.
Proof.
  intros R (J1 & J2 & [x Hx] & J4). do 2 (split; [done|]). destruct (rely_discoveries _ _ _ R _ _ Hx) as (y & Hy & _).
  split; [by rewrite Hy|]. intros ep E. apply J4. eapply rely_registered; [exact R|by rewrite Hx|done].
Qed.

(** ** What an operation promises *)

(** To the others, what they rely on; to itself, the invariant; and no discovery is left
    without someone to run it. *)
Record guar o c c' : Prop := {
  guar_rely o' : o' <> o -> rely o' c c';
  guar_inv : ginv c -> ginv c';
  guar_ending : ending o c' = true -> ending o c = true;
  guar_posted job : job ∈ m_posted c -> job ∈ m_posted c';
  guar_unfinished d : unfinished d c' -> unfinished d c \/ exists job, job ∈ m_posted c' /\ j_discovery job = d }.

(** An object of its own, and a place in a list of waiters, stay an operation's. *)
Lemma own_timer_rely o c c' l : rely o c c' -> own_timer o l c -> own_timer o l c'.
Proof. intros R [Ho [p Hp]]. destruct (rely_own _ _ _ R l p Ho Hp) as (p' & Hp' & _). split; [done|by exists p']. Qed.

Lemma registered_rely o c c' d : rely o c c' -> registered o d c -> registered o d c'.
Proof.
  intros R (x & Hx & Hr). destruct (rely_discoveries _ _ _ R d x Hx) as (y & Hy & [_ D1 D2 _]). exists y. split; [done|].
  destruct Hr as [Hr|Hr]; [by apply D2|right; by apply D1].
Qed.

Lemma guar_refl o c : guar o c c.
Proof. split; [done|done|done|done|by left]. Qed.

Lemma silent_guar o c c' : (ginv c -> ginv c') -> m_stopping c' = m_stopping c -> m_now c' = m_now c ->
  m_heap c' = m_heap c -> (forall o', o' <> o -> cancelled o' c' = cancelled o' c) ->
  (aborted (cancelled o c') = true -> aborted (cancelled o c) = true) ->
  m_discoveries c' = m_discoveries c -> m_discovering c' = m_discovering c -> m_posted c' = m_posted c ->
  m_received c' = m_received c -> (forall id, is_Some (m_engines c !! id) -> is_Some (m_engines c' !! id)) -> guar o c c'.
Proof.
  intros Hi Hs Hn Hh Hc Hab Hd Hg Hp Hl He. split; [|done| |by rewrite Hp|].
  - intros o' Ho'. apply silent_rely; auto.
  - unfold ending. rewrite Hs, !orb_true_iff. intros [?|?]; auto.
  - intros d (x & Hx & Hf). left. exists x. by rewrite <- Hd.
Qed.

(** An operation may write its own objects. *)
Lemma own_guar o c l p p' : l.1 = o -> m_heap c !! l = Some p -> p_requestId p' = p_requestId p -> answer_ok (m_received c) p' ->
  guar o c (updated c l p').
Proof.
  intros Ho Hp Hq Ha.
  assert (ginv c -> ginv (updated c l p')) as Hi.
  { intros Hi. apply heap_ginv; [done| |].
    - intros l' q Hq'. rewrite lookup_insert_is_Some. destruct (decide (l = l')); [by left|right; by eauto].
    - intros l' q. rewrite lookup_insert_Some. intros [[<- <-]|[_ Hq']]; [by exists p|].
      exists q. split; [done|]. split; [done|]. by eapply ginv_answers. }
  split; [|done|done|done|by left]. intros o' Ho'. split; [done|done|done| | |by apply same_discoveries|done|done|done].
  - intros l' q Hl' Hq'. exists q. cbn. rewrite lookup_insert_ne by congruence. split; [done|].
    split; [apply same_request_refl|done|by left].
  - exists 0. by rewrite Z.lor_0_r.
Qed.

(** And make new ones. *)
Lemma fresh_guar o c l p' : l.1 = o -> m_heap c !! l = None -> answer_ok (m_received c) p' -> guar o c (updated c l p').
Proof.
  intros Ho Hp Ha.
  assert (ginv c -> ginv (updated c l p')) as Hi.
  { intros [[Hn Hpd He] Hk Hx Hei Hd Hwt Hpo Han Hids]. split; [|done..| |].
    - split; [done| |done]. intros id l' Hl'. cbn. rewrite lookup_insert_is_Some.
      destruct (decide (l = l')); [by left|right; split; [done|by eapply Hpd]].
    - intros l' q. cbn. rewrite lookup_insert_Some. intros [[_ <-]|[_ Hq]]; [done|by eapply Han].
    - intros id l' q Hid. cbn. rewrite lookup_insert_Some. intros [[<- <-]|[_ Hq]]; [|by eapply Hids].
      destruct (Hpd _ _ Hid) as [x Hx']. congruence. }
  split; [|done|done|done|by left]. intros o' Ho'. split; [done|done|done| | |by apply same_discoveries|done|done|done].
  - intros l' q Hl' Hq'. exists q. cbn. rewrite lookup_insert_ne by congruence. split; [done|].
    split; [apply same_request_refl|done|by left].
  - exists 0. by rewrite Z.lor_0_r.
Qed.

End Strand.
