(* ===== verification/Exchange.v ===== *)
(** * Exchange: one request and its retransmissions

    Models [Impl::socketFor], [Impl::transact], [Impl::observeBothCancellationTypes] and
    [Impl::doRequestV2c] of [src/Client.cpp] as coroutines, and what the other handlers
    of the strand may do while one of them is suspended. *)

From stdpp Require Import gmap.
From S2P Require Import Prelude Errors Oids Values Pdu Usm V3Message Client Engines Coroutine Strand.

Section Exchange.
Context {Endpoint : Type} `{Countable Endpoint} {net : Net Endpoint}.
Local Notation client := (Client (Endpoint := Endpoint)).
Local Notation pending := (Pending (Endpoint := Endpoint)).
Local Notation Co := (Co (Endpoint := Endpoint)).
Local Notation Target := (Target (Endpoint := Endpoint)).
Local Open Scope co_scope.

(** ** Objects and timers *)

(** [std::make_shared<Pending>(ex)] in operation [o], with the fields set before it is
    shared. *)
Definition new_pending (o : op) (p : pending) : M client loc :=
  let! c := get_st in
  let l := (o, fresh (set_map (D := gset nat) snd (dom (m_heap c)))) in
  store_pending l p ;;;
  ret l.

Definition blank_pending (from : Endpoint) (requestId : Z) : pending :=
  mkPending 0 Idle false from [] false false AuthNone PrivNone [] [] [] requestId default_pdu
    (mkUsmParameters [] 0 0 [] [] []) false false false no_error.

Definition with_waiting (w : Waiting) (woken : bool) (expiry : Z) (p : pending) : pending :=
  mkPending expiry w woken (p_from p) (p_community p) (p_v3 p) (p_authRequired p)
    (p_authProtocol p) (p_privProtocol p) (p_authKey p) (p_privKey p) (p_engineId p) (p_requestId p)
    (p_response p) (p_security p) (p_answered p) (p_replyAuthenticated p) (p_timeSyncPhase p) (p_dropReason p).

(** [pending->timer.expires_after(timeout)]. *)
Definition expires_after (l : loc) (milliseconds : Z) : M client unit :=
  let! p := load l in
  let! c := get_st in
  store_pending l (with_waiting (p_waiting p) (p_woken p) (m_now c + milliseconds * 1000000) p).

(** [co_await pending->timer.async_wait(...)]. *)
Definition async_wait (l : loc) (w : Waiting) : Co unit :=
  (let! p := load l in store_pending l (with_waiting w false (p_expiry p) p)) ;^
  CoTimer l (
  sync (let! p := load l in store_pending l (with_waiting Idle (p_woken p) (p_expiry p) p))).

(** ** Cancellation *)

(** The filter lets every type of signal through, and the state starts afresh. *)
Definition observeBothCancellationTypes (o : op) : M client unit :=
  modify (fun c => with_cancelled (<[o := 0]> (m_cancelled c)) c).

(** ** Sockets *)

Definition socket_of (v6 : bool) (c : client) : Socket := if v6 then m_v6 c else m_v4 c.
Definition with_socket (v6 : bool) (s : Socket) (c : client) : client :=
  if v6 then with_v6 s c else with_v4 s c.

Definition socketFor (to : Endpoint) : Co ErrorCode :=
  let v6 := is_v6 to in
  let^ slot := gets (socket_of v6) in
  match slot with
  | NoSocket =>
      CoOpen v6 (fun ec =>
        if is_error ec then CoRet ec
        else modify (with_socket v6 SocketOpen) ;^ CoRet no_error)
  | _ => CoRet no_error
  end.

(** ** The exchange *)

(** The [for] loop, [n] attempts from its end: the [ErrorCode] of the last send. *)
Fixpoint attempts (o : op) (n : nat) (target : Target) (datagram : Octets) (l : loc) (ec : ErrorCode)
  : Co ErrorCode :=
  match n with
  | O => CoRet ec
  | S n' =>
      CoSend (endpoint target) datagram (fun ec =>
        let^ stopping := gets m_stopping in
        if is_error ec || stopping then CoRet ec
        else
          expires_after l (timeout target) ;^
          async_wait l Slotted ;*
          let^ pending := load l in
          let^ c := get_st in
          if p_answered pending || m_stopping c || aborted (cancelled o c) then CoRet ec
          else if softCancelled (cancelled o c) then async_wait l Unslotted ;* CoRet ec
          else attempts o n' target datagram l ec)
  end.

(** After the loop: the bookkeeping, and what the exchange came to. *)
Definition conclude (o : op) (key : Z) (l : loc) (ec : ErrorCode) : M client ErrorCode :=
  modify (fun c => with_pending (delete key (m_pending c)) c) ;;;
  let! c := get_st in
  let! pending := load l in
  if aborted (cancelled o c) then ret operation_aborted
  else if p_answered pending && negb (m_stopping c) then ret no_error
  else if negb (cancelled o c =? 0) then ret operation_aborted
  else if m_stopping c then ret (make_error_code ClientStopped)
  else if is_error ec then ret ec
  else if is_error (p_dropReason pending) then ret (p_dropReason pending)
  else ret (make_error_code Timeout).

(** [m_pending.emplace(key, pending)], which keeps an entry that is there. *)
Definition emplace_pending (key : Z) (l : loc) : M client unit :=
  modify (fun c => match m_pending c !! key with
                   | Some _ => c
                   | None => with_pending (<[key := l]> (m_pending c)) c
                   end).

Definition transact (o : op) (target : Target) (datagram : Octets) (key : Z) (l : loc) : Co ErrorCode :=
  let^ stopping := gets m_stopping in
  if stopping then CoRet (make_error_code ClientStopped)
  else
    let* ec := socketFor (endpoint target) in
    if is_error ec then CoRet ec
    else
      emplace_pending key l ;^
      let* ec := attempts o (Z.to_nat (retries target + 1)) target datagram l no_error in
      sync (conclude o key l ec).

Definition with_requestId (id : Z) (p : Pdu) : Pdu :=
  mkPdu (pdu_type p) id (errorStatus p) (errorIndex p) (varbinds p).

Definition with_community (community : cstring) (p : pending) : pending :=
  mkPending (p_expiry p) (p_waiting p) (p_woken p) (p_from p) community (p_v3 p) (p_authRequired p)
    (p_authProtocol p) (p_privProtocol p) (p_authKey p) (p_privKey p) (p_engineId p) (p_requestId p)
    (p_response p) (p_security p) (p_answered p) (p_replyAuthenticated p) (p_timeSyncPhase p) (p_dropReason p).

Definition doRequestV2c (o : op) (target : Target) (community : cstring) (pdu : Pdu)
  : Co (ErrorCode * ResponseResult) :=
  let^ stopping := gets m_stopping in
  if stopping then CoRet (make_error_code ClientStopped, empty_response)
  else
    observeBothCancellationTypes o ;^
    let^ id := nextId in
    let pdu := with_requestId id pdu in
    let^ datagram := encodeV2cMessage community pdu in
    match datagram with
    | inl ec => CoRet (ec, empty_response)
    | inr datagram =>
        let^ l := new_pending o (with_community community (blank_pending (endpoint target) id)) in
        let* ec := transact o target datagram id l in
        if is_error ec then CoRet (ec, empty_response)
        else
          let^ pending := load l in
          CoRet (toResult (p_response pending))
    end.

End Exchange.

(** ** Theory *)

Section ExchangeTheory.
Context {Endpoint : Type} `{Countable Endpoint} {net : Net Endpoint} {ssl : OpenSSL} {L : OpenSSLLaws ssl}.
Local Notation client := (Client (Endpoint := Endpoint)).
Local Notation pending := (Pending (Endpoint := Endpoint)).
Local Notation Target := (Target (Endpoint := Endpoint)).
Local Notation Obs := (Obs (Endpoint := Endpoint)).
Local Notation ginv := (ginv (ssl := ssl)).
Local Notation rely := (rely (ssl := ssl)).
Local Notation answer_ok := (answer_ok (ssl := ssl)).
Local Notation guar := (guar (ssl := ssl)).
Local Notation wp o := (wpc o (rely o) (guar o)).
Implicit Types (c : client) (o : op) (p : pending) (l : loc) (target : Target) (tr : list Obs).

(** The fields that say what was asked, and of whom. *)
Definition same_exchange p p' : Prop :=
  p_from p' = p_from p /\ p_community p' = p_community p /\ p_v3 p' = p_v3 p /\
  p_authRequired p' = p_authRequired p /\ p_authProtocol p' = p_authProtocol p /\
  p_privProtocol p' = p_privProtocol p /\ p_authKey p' = p_authKey p /\ p_privKey p' = p_privKey p /\
  p_engineId p' = p_engineId p /\ p_requestId p' = p_requestId p /\ p_timeSyncPhase p' = p_timeSyncPhase p.

#[global] Instance same_exchange_preorder : PreOrder same_exchange.
Proof. split; [intros p; by repeat split|intros p1 p2 p3; unfold same_exchange; intuition congruence]. Qed.

Lemma same_request_exchange p p' : same_request p p' -> same_exchange p p'.
Proof. unfold same_request, same_exchange. intuition. Qed.

(** Time and Stopping go forward, and a signal is not forgotten. *)
Record onward o c c' : Prop := {
  on_stopping : m_stopping c = true -> m_stopping c' = true;
  on_now : m_now c <= m_now c';
  on_cancelled : cancelled o c <> 0 -> cancelled o c' <> 0;
  on_engines id : is_Some (m_engines c !! id) -> is_Some (m_engines c' !! id);
  on_discoveries d : is_Some (m_discoveries c !! d) -> is_Some (m_discoveries c' !! d);
  on_registered ep d : is_Some (m_discoveries c !! d) -> m_discovering c' !! ep = Some d -> m_discovering c !! ep = Some d;
  on_received : m_received c ⊆ m_received c' }.

#[global] Instance onward_preorder o : PreOrder (onward o).
Proof.
  split; [intros c; by split|]. intros c1 c2 c3 [A1 A2 A3 A4 A5 A6 A7] [B1 B2 B3 B4 B5 B6 B7].
  split; [auto|lia|auto|auto|auto| |by transitivity (m_received c2)]. intros ep d Hd E. apply A6, B6; auto.
Qed.

Lemma rely_onward o c c' : rely o c c' -> onward o c c'.
Proof.
  intros [_ Hs Hn _ [z Hz] Hd Hg He Hl]. split; [done|done| |done| |done|done].
  - intros Hc. rewrite Hz. by apply lor_nonzero.
  - intros d [x Hx]. destruct (Hd _ _ Hx) as (y & Hy & _). by exists y.
Qed.

Lemma load_ok c l p : m_heap c !! l = Some p -> load l c = Done p c.
Proof. apply load_run. Qed.

(** The operation writes through its pointer. *)
Lemma wpc_store {B} o c l p p' (k : unit -> Co B) Q tr :
  l.1 = o -> m_heap c !! l = Some p -> p_requestId p' = p_requestId p -> answer_ok (m_received c) p' ->
  wp o (k tt) Q tr (updated c l p') ->
  wp o (co_bind (sync (store_pending l p')) k) Q tr c.
Proof. intros Ho Hp Hq Ha Hk. eapply wpc_sync; [done|by eapply own_guar|exact Hk]. Qed.

Lemma with_waiting_ok log p w b t : answer_ok log p -> answer_ok log (with_waiting w b t p).
Proof. done. Qed.

(** A wait ends with a reason for it. *)
Lemma async_wait_spec o c l p w Q tr :
  ginv c -> l.1 = o -> m_heap c !! l = Some p ->
  (forall c' p', ginv c' -> onward o c c' -> m_heap c' !! l = Some p' -> same_exchange p p' ->
     p_expiry p' = p_expiry p -> (p_answered p = true -> p_answered p' = true) ->
     (p_expiry p <= m_now c' \/ p_answered p' = true \/ m_stopping c' = true \/ cancelled o c' <> 0) ->
     Q tt (tr ++ [Waited l (m_now c')]) c') ->
  wp o (async_wait l w) Q tr c.
Proof.
  intros Hi Ho Hp HQ. unfold async_wait. cbn. unfold bind at 1. rewrite (load_ok c l p Hp). cbn.
  assert (guar o c (updated c l (with_waiting w false (p_expiry p) p))) as G1.
  { eapply own_guar; [done|done|done|]. by eapply with_waiting_ok, ginv_answers. }
  split; [exact G1|]. set (p1 := with_waiting w false (p_expiry p) p) in *.
  assert (m_heap (updated c l p1) !! l = Some p1) as Hp1 by (cbn; by rewrite lookup_insert_eq).
  split; [by split; [|exists p1]|]. intros c1 R1 Hover.
  destruct (rely_own _ _ _ R1 l p1 Ho Hp1) as (p2 & Hp2 & [Hreq Hans Hwok]).
  assert (ginv c1) as Hi1 by (apply R1, G1, Hi).
  unfold bind. rewrite (load_ok c1 l p2 Hp2). cbn.
  assert (guar o c1 (updated c1 l (with_waiting Idle (p_woken p2) (p_expiry p2) p2))) as G2.
  { eapply own_guar; [done|done|done|]. by eapply with_waiting_ok, ginv_answers. }
  split; [exact G2|].
  assert (p_expiry p2 = p_expiry p) as Hex by (unfold same_request in Hreq; cbn in Hreq; intuition).
  change (m_now c1) with (m_now (updated c1 l (with_waiting Idle (p_woken p2) (p_expiry p2) p2))).
  eapply HQ; [by apply G2| | | | | |].
  - destruct (rely_onward _ _ _ R1) as [A B C D F K X]. split; [exact A|exact B|exact C|exact D|exact F|exact K|exact X].
  - cbn. by rewrite lookup_insert_eq.
  - apply same_request_exchange in Hreq. unfold same_exchange in *. cbn in *. intuition.
  - done.
  - intros Ha. cbn. apply Hans. done.
  - unfold timer_over in Hover. rewrite Hp2 in Hover. apply orb_true_iff in Hover as [Hw|Ht].
    + destruct (Hwok Hw) as [?|[?|[?|?]]]; [done|by auto..].
    + apply Z.leb_le in Ht. left. cbn. lia.
Qed.

(** ** What an exchange may be seen to do *)

Fixpoint sends tr : nat :=
  match tr with
  | [] => 0
  | Sent _ _ _ :: tr' => S (sends tr')
  | _ :: tr' => sends tr'
  end.

(** It sends one datagram to one endpoint, and waits on one timer. *)
Definition exchanging target (datagram : Octets) l (x : Obs) : Prop :=
  match x with
  | Sent to d _ => to = endpoint target /\ d = datagram
  | Waited l' _ => l' = l
  | _ => False
  end.

(** Why the loop ended: the last send failed, there was a reason to stop waiting, or
    every attempt has been waited out. *)
Definition loop_over o n target c l (ec : ErrorCode) (ws : list Obs) c' p' : Prop :=
  is_error ec = true \/ m_stopping c' = true \/ p_answered p' = true \/ cancelled o c' <> 0 \/
  (sends ws = n /\ m_now c + Z.of_nat n * (timeout target * 1000000) <= m_now c').

Record attempts_done o n target datagram c l p (ec : ErrorCode) (ws : list Obs) c' p' : Prop := {
  ad_inv : ginv c';
  ad_onward : onward o c c';
  ad_object : m_heap c' !! l = Some p';
  ad_same : same_exchange p p';
  ad_answered : p_answered p = true -> p_answered p' = true;
  ad_trace : Forall (exchanging target datagram l) ws;
  ad_sends : (sends ws <= n)%nat;
  ad_asked : p_answered p' = true -> p_answered p = true \/ (0 < sends ws)%nat;
  ad_failed : is_error ec = true -> Sent (endpoint target) datagram ec ∈ ws;
  ad_over : loop_over o n target c l ec ws c' p';
  ad_heard : p_dropReason p' = p_dropReason p \/ (0 < sends ws)%nat }.

Lemma softCancelled_false z : aborted z = false -> softCancelled z = false -> z = 0.
Proof.
  unfold softCancelled. intros ->. cbn. rewrite andb_true_r, negb_false_iff. apply Z.eqb_eq.
Qed.

Lemma aborted_nonzero z : aborted z = true -> z <> 0.
Proof. by intros Ha ->. Qed.

(** The wait of one attempt, from the moment its datagram is on the wire. *)
Lemma attempt_wait_spec o n target datagram l p ec tr c Q :
  ginv c -> l.1 = o -> m_heap c !! l = Some p -> is_error ec = false -> m_stopping c = false ->
  (forall c' p', ginv c' -> onward o c c' -> m_heap c' !! l = Some p' -> same_exchange p p' ->
     (p_answered p = true -> p_answered p' = true) -> m_now c + timeout target * 1000000 <= m_now c' ->
     wp o (attempts o n target datagram l ec) Q (tr ++ [Waited l (m_now c')]) c') ->
  (forall ws c' p', ginv c' -> onward o c c' -> m_heap c' !! l = Some p' -> same_exchange p p' ->
     (p_answered p = true -> p_answered p' = true) -> Forall (exchanging target datagram l) ws -> sends ws = 0%nat ->
     m_stopping c' = true \/ p_answered p' = true \/ cancelled o c' <> 0 ->
     Q ec (tr ++ ws) c') ->
  wp o
    (expires_after l (timeout target) ;^
     async_wait l Slotted ;*
     let^ pending := load l in
     let^ c := get_st in
     if p_answered pending || m_stopping c || aborted (cancelled o c) then CoRet ec
     else if softCancelled (cancelled o c) then async_wait l Unslotted ;* CoRet ec
     else attempts o n target datagram l ec)%co Q tr c.
Proof.
  intros Hi Ho Hp Hec Hst Hnext Hstop.
  set (t1 := m_now c + timeout target * 1000000).
  set (p1 := with_waiting (p_waiting p) (p_woken p) t1 p).
  assert (guar o c (updated c l p1)) as G1.
  { eapply own_guar; [done|done|done|]. by eapply with_waiting_ok, ginv_answers. }
  eapply wpc_sync; [unfold expires_after; unfold bind at 1; by rewrite (load_ok c l p Hp)|exact G1|].
  apply wpc_bind. eapply (async_wait_spec o _ l p1); [by apply G1|done|cbn; by rewrite lookup_insert_eq|].
  intros c2 p2 Hi2 On2 Hp2 Hs2 _ Ha2 Hover.
  assert (onward o c c2) as On2' by (destruct On2; by split).
  assert (same_exchange p p2) as Hs2' by exact Hs2. assert (p_answered p = true -> p_answered p2 = true) as Ha2' by exact Ha2.
  eapply wpc_look; [apply guar_refl|by apply load_ok|]. eapply wpc_look; [apply guar_refl|done|].
  destruct (p_answered p2) eqn:Ea; cbn [orb].
  { apply (Hstop [Waited l (m_now c2)] c2 p2); [done|done|done|done|by rewrite Ea|by repeat constructor|done|by auto]. }
  destruct (m_stopping c2) eqn:Es; cbn [orb].
  { apply (Hstop [Waited l (m_now c2)] c2 p2); [done|done|done|done|by rewrite Ea|by repeat constructor|done|by auto]. }
  destruct (aborted (cancelled o c2)) eqn:Eb.
  { apply (Hstop [Waited l (m_now c2)] c2 p2); [done|done|done|done|by rewrite Ea|by repeat constructor|done|].
    right; right. by apply aborted_nonzero. }
  destruct (softCancelled (cancelled o c2)) eqn:Ec.
  - assert (cancelled o c2 <> 0) as Hz by (intros Hz; by rewrite Hz in Ec).
    apply wpc_bind. eapply (async_wait_spec o c2 l p2); [done..|]. intros c3 p3 Hi3 On3 Hp3 Hs3 _ Ha3 _. cbn.
    rewrite <- app_assoc. apply (Hstop _ c3 p3); [done| |done| |by intros Hx%Ha2'|by repeat constructor|done|].
    + by transitivity c2.
    + by transitivity p2.
    + right; right. by apply On3.
  - pose proof (softCancelled_false _ Eb Ec) as Hz. apply (Hnext c2 p2); [done|done|done|done|by rewrite Ea|].
    destruct Hover as [Ht|[?|[?|?]]]; [exact Ht|congruence..].
Qed.


Lemma sends_app tr1 tr2 : sends (tr1 ++ tr2) = (sends tr1 + sends tr2)%nat.
Proof. induction tr1 as [|[] tr1 IH]; cbn; by rewrite ?IH. Qed.

Lemma attempts_spec o n target datagram l p ec tr c Q :
  ginv c -> l.1 = o -> m_heap c !! l = Some p -> is_error ec = false -> 0 <= timeout target ->
  (forall ec' ws c' p', attempts_done o n target datagram c l p ec' ws c' p' -> Q ec' (tr ++ ws) c') ->
  wp o (attempts o n target datagram l ec) Q tr c.
Proof.
  revert p ec tr c. induction n as [|n IH]; intros p ec tr c Hi Ho Hp Hec Ht HQ.
  - cbn. rewrite <- (app_nil_r tr). apply (HQ _ _ _ p). split; try done; [by left|rewrite Hec; done| |by left].
    right; right; right; right. split; [done|]. cbn. lia.
  - cbn [attempts wpc]. intros c1 ec1 R1. destruct (rely_own _ _ _ R1 l p Ho Hp) as (p1 & Hp1 & [Hr1 Ha1 _]).
    assert (ginv c1) as Hi1 by (by apply R1). pose proof (rely_onward _ _ _ R1) as On1.
    pose proof (same_request_exchange _ _ Hr1) as Hs1.
    assert (forall ws, is_error ec1 = true \/ m_stopping c1 = true -> ws = [Sent (endpoint target) datagram ec1] ->
      attempts_done o (S n) target datagram c l p ec1 ws c1 p1) as Hbroke.
    { intros ws Hx ->. split; try done; [by repeat constructor|cbn; lia|right; cbn; lia|set_solver| |right; cbn; lia]. unfold loop_over. tauto. }
    eapply wpc_look; [apply guar_refl|done|].
    destruct (is_error ec1) eqn:Ee; cbn [orb]; [apply (HQ _ _ _ p1), Hbroke; auto|].
    destruct (m_stopping c1) eqn:Es; [apply (HQ _ _ _ p1), Hbroke; auto|].
    eapply attempt_wait_spec; [done..| |].
    + intros c2 p2 Hi2 On2 Hp2 Hs2 Ha2 Htm. eapply (IH p2); [done..|]. intros ec' ws c' p' [A1 A2 A3 A4 A5 A6 A7 _ A8 A9 _].
      rewrite <- !app_assoc. apply (HQ _ _ _ p'). cbn [app]. split; [done| |done| | | | | | | |right; cbn; lia].
      * transitivity c1; [done|]. by transitivity c2.
      * transitivity p1; [done|]. by transitivity p2.
      * intros Hx. by apply A5, Ha2, Ha1.
      * constructor; [done|]. by constructor.
      * cbn. lia.
      * right. cbn. lia.
      * intros Hx. specialize (A8 Hx). set_solver.
      * unfold loop_over in *. destruct A9 as [?|[?|[?|[?|[A9 A10]]]]]; [tauto..|]. right; right; right; right.
        split; [cbn; lia|]. pose proof (on_now _ _ _ On1). lia.
    + intros ws c2 p2 Hi2 On2 Hp2 Hs2 Ha2 Htr Hn Hx. rewrite <- app_assoc. apply (HQ _ _ _ p2). cbn [app].
      split; [done| |done| | | | | | | |right; cbn; lia].
      * by transitivity c1.
      * by transitivity p1.
      * intros Hy. by apply Ha2, Ha1.
      * by constructor.
      * cbn. lia.
      * right. cbn. lia.
      * congruence.
      * unfold loop_over. tauto.
Qed.


(** ** What an exchange comes to *)

Definition attempts_of target : nat := Z.to_nat (retries target + 1).

(** Answered; cancelled; stopped; failed by the system, at a socket or a send; or every
    attempt sent and waited out. *)
Definition exchange_outcome o target datagram c (ec : ErrorCode) (ws : list Obs) c' p' : Prop :=
  (ec = no_error /\ p_answered p' = true /\ m_stopping c' = false /\ aborted (cancelled o c') = false) \/
  (ec = operation_aborted /\ cancelled o c' <> 0) \/
  (ec = make_error_code ClientStopped /\ m_stopping c' = true) \/
  (is_error ec = true /\ (ending o c = false -> ending o c' = false) /\
   ((ws = [] /\ socket_of (is_v6 (endpoint target)) c' = NoSocket) \/ Sent (endpoint target) datagram ec ∈ ws)) \/
  (ec = (if is_error (p_dropReason p') then p_dropReason p' else make_error_code Timeout) /\
   p_answered p' = false /\ m_stopping c' = false /\ cancelled o c' = 0 /\ sends ws = attempts_of target /\
   m_now c + Z.of_nat (attempts_of target) * (timeout target * 1000000) <= m_now c').

Record transact_done o target datagram c key l p (ec : ErrorCode) (ws : list Obs) c' p' : Prop := {
  td_inv : ginv c';
  td_onward : onward o c c';
  td_object : m_heap c' !! l = Some p';
  td_same : same_exchange p p';
  td_trace : Forall (exchanging target datagram l) ws;
  td_sends : (sends ws <= attempts_of target)%nat;
  td_asked : p_answered p' = true -> p_answered p = true \/ (0 < sends ws)%nat;
  td_erased : ws = [] \/ m_pending c' !! key = None;
  td_outcome : exchange_outcome o target datagram c ec ws c' p';
  td_heard : p_dropReason p' = p_dropReason p \/ (0 < sends ws)%nat }.

Lemma conclude_run o key l ec c p : m_heap c !! l = Some p ->
  conclude o key l ec c = Done
    (if aborted (cancelled o c) then operation_aborted
     else if p_answered p && negb (m_stopping c) then no_error
     else if negb (cancelled o c =? 0) then operation_aborted
     else if m_stopping c then make_error_code ClientStopped
     else if is_error ec then ec
     else if is_error (p_dropReason p) then p_dropReason p
     else make_error_code Timeout)
    (with_pending (delete key (m_pending c)) c).
Proof.
  intros Hp. unfold conclude. rewrite (bind_done _ _ _ tt (with_pending (delete key (m_pending c)) c)) by done.
  unfold bind at 1. cbn [get_st]. unfold bind at 1. rewrite (load_ok (with_pending _ c) l p Hp). cbn.
  change (cancelled o (with_pending _ c)) with (cancelled o c). by repeat case_match.
Qed.

Lemma with_pending_guar o c m : (forall id l, m !! id = Some l -> exists p, m_heap c !! l = Some p /\ p_requestId p = id) ->
  guar o c (with_pending m c).
Proof.
  intros Hm. apply silent_guar; try done.
  intros [[Hn Hp He] Hk Hx Hei Hd Hw Hj Ha Hi]. split; [|done..|].
  - split; [done| |done]. intros id l Hl. cbn. destruct (Hm _ _ Hl) as (p & -> & _). by eauto.
  - intros id l p Hl Hp'. cbn in *. destruct (Hm _ _ Hl) as (q & Hq & Hr). congruence.
Qed.

Lemma delete_guar o c key : ginv c -> guar o c (with_pending (delete key (m_pending c)) c).
Proof.
  intros Hi. apply with_pending_guar. intros id l [_ Hl]%lookup_delete_Some.
  destruct (inv_pending _ (ginv_client _ Hi) _ _ Hl) as [p Hp]. exists p. split; [done|]. by eapply ginv_ids.
Qed.

Lemma emplace_guar o c key l p : ginv c -> m_heap c !! l = Some p -> p_requestId p = key ->
  exists m, emplace_pending key l c = Done tt (with_pending m c) /\ guar o c (with_pending m c).
Proof.
  intros Hi Hp Hk. unfold emplace_pending, modify.
  assert (forall id l', m_pending c !! id = Some l' -> exists p, m_heap c !! l' = Some p /\ p_requestId p = id) as Hm.
  { intros id l' Hl. destruct (inv_pending _ (ginv_client _ Hi) _ _ Hl) as [q Hq]. exists q. split; [done|].
    by eapply ginv_ids. }
  destruct (m_pending c !! key) eqn:E.
  - exists (m_pending c). split; [by destruct c|by apply with_pending_guar].
  - eexists. split; [done|]. apply with_pending_guar. intros id l'. rewrite lookup_insert_Some.
    intros [[<- <-]|[_ Hl]]; [by eauto|by apply Hm].
Qed.

Lemma socketFor_spec o to tr c Q : ginv c ->
  (forall ec c', ginv c' -> onward o c c' -> m_heap c' = m_heap c -> m_stopping c' = m_stopping c ->
     cancelled o c' = cancelled o c -> m_now c' = m_now c -> (is_error ec = true -> socket_of (is_v6 to) c' = NoSocket) ->
     Q ec tr c') ->
  wp o (socketFor to) Q tr c.
Proof.
  intros Hi HQ. unfold socketFor. eapply wpc_look; [apply guar_refl|done|].
  destruct (socket_of (is_v6 to) c) eqn:Eso; [|by apply HQ..]. cbn. intros ec. destruct (is_error ec); [by apply HQ|].
  assert (guar o c (with_socket (is_v6 to) SocketOpen c)) as G1.
  { unfold with_socket. destruct (is_v6 to);
      (apply silent_guar; try done; intros [[? ? ?] ? ? ? ? ? ? ? ?]; by split). }
  split; [done|]. cbn. apply HQ; [by apply G1|..]; unfold with_socket; destruct (is_v6 to); by try split.
Qed.

Lemma transact_spec o target datagram key l p tr c Q :
  ginv c -> l.1 = o -> m_heap c !! l = Some p -> p_requestId p = key -> 0 <= timeout target ->
  (forall ec ws c' p', transact_done o target datagram c key l p ec ws c' p' -> Q ec (tr ++ ws) c') ->
  wp o (transact o target datagram key l) Q tr c.
Proof.
  intros Hi Ho Hp Hk Ht HQ. unfold transact. eapply wpc_look; [apply guar_refl|done|].
  destruct (m_stopping c) eqn:Es.
  { cbn. rewrite <- (app_nil_r tr). apply (HQ _ _ _ p). split; try done; [cbn; lia|by left|by left| |by left]. right; right; left. done. }
  apply wpc_bind. eapply (socketFor_spec o); [done|]. intros ec c1 Hi1 On1 Hh1 Hs1 Hz1 Hn1 Hso.
  destruct (is_error ec) eqn:Ee.
  { cbn. rewrite <- (app_nil_r tr). apply (HQ _ _ _ p). split; try done; [by rewrite Hh1|cbn; lia|by left|by left| |by left].
    do 3 right; left. unfold ending. rewrite Hs1, Hz1. by auto 6. }
  rewrite <- Hh1 in Hp. destruct (emplace_guar o c1 key l p Hi1 Hp Hk) as (m & Em & G2).
  eapply wpc_sync; [exact Em|exact G2|]. apply wpc_bind.
  eapply (attempts_spec o _ target datagram l p); [by apply G2|done|done|done|done|].
  intros ec' ws c2 p2 [A1 A2 A3 A4 A5 A6 A7 A10 A8 A9 A11]. unfold sync. cbn [wpc]. rewrite (conclude_run o key l ec' c2 p2 A3).
  split; [by apply delete_guar|]. cbn. apply (HQ _ _ _ p2). split; [by apply delete_guar| |done|done|done|done|done| | |done].
  - transitivity c1; [done|]. by destruct A2; split.
  - right. cbn. by rewrite lookup_delete_eq.
  - unfold exchange_outcome. change (cancelled o (with_pending _ c2)) with (cancelled o c2).
    change (m_stopping (with_pending _ c2)) with (m_stopping c2). change (m_now (with_pending _ c2)) with (m_now c2).
    destruct (aborted (cancelled o c2)) eqn:Eb; [right; left; split; [done|by apply aborted_nonzero]|].
    destruct (p_answered p2) eqn:Ea, (m_stopping c2) eqn:Est; cbn [andb negb]; [|by left| |].
    all: destruct (Z.eqb_spec (cancelled o c2) 0) as [Hz|Hz]; cbn [negb]; [|by right; left].
    1,2: by right; right; left.
    destruct (is_error ec') eqn:Eec; [do 3 right; left; split; [done|]; split; [|right; by apply A8]|].
    { intros _. unfold ending. cbn. change (cancelled o (with_pending _ c2)) with (cancelled o c2). by rewrite Est, Eb. }
    do 4 right. split; [done|]. do 3 (split; [done|]). unfold loop_over in A9. cbn in A9.
    destruct A9 as [?|[?|[?|[?|[Hn Hx]]]]]; [congruence..|]. split; [done|]. rewrite Hn1 in Hx. exact Hx.
Qed.

End ExchangeTheory.
