(* ===== verification/Requests.v ===== *)
(** * Requests: Engine Discovery and the SNMPv3 request

    Models [Impl::ensureEngine], [Impl::runDiscovery], [Impl::discoverEngine],
    [Impl::doRequestV3] and [Impl::doRequest] of [src/Client.cpp] as coroutines.  The
    paths on which an exception travels ([Discovery::failure]) are left out: by design
    nothing here throws. *)

From stdpp Require Import gmap.
From S2P Require Import Prelude Errors Oids Values Ber BerWriter BerReader BerRoundtrip Pdu Usm V3Message Unencodable Client Engines Coroutine Strand Exchange.

Section Requests.
Context {Endpoint : Type} `{Countable Endpoint} {net : Net Endpoint} (ssl : OpenSSL).
Local Notation client := (Client (Endpoint := Endpoint)).
Local Notation pending := (Pending (Endpoint := Endpoint)).
Local Notation Co := (Co (Endpoint := Endpoint)).
Local Notation Target := (Target (Endpoint := Endpoint)).
Local Open Scope co_scope.

(** The process-wide salt counter, used from the strand. *)
Definition with_salts {A} (m : M Salt A) : M client A := fun c =>
  match m (m_salt c) with
  | Done a s => Done a (with_salt s c)
  | Undef => Undef
  | OutOfFuel => OutOfFuel
  end.

(** A [net::ErrorCode& ec] out-parameter followed by [if (ec) co_return ...]. *)
Definition or_return {A B} (m : M client (ErrorCode + A)) (fail : ErrorCode -> B) (k : A -> Co B) : Co B :=
  let^ r := m in
  match r with
  | inl ec => CoRet (fail ec)
  | inr a => k a
  end.

(** [keySpan(nullptr)] is empty. *)
Definition keySpan (key : option Octets) : Octets := default [] key.

(** ** Pendings of an SNMPv3 exchange *)

Definition v3_pending (from : Endpoint) (requestId : Z) (authRequired : bool) (auth : AuthProtocol)
    (priv : PrivProtocol) (authKey privKey engineId : Octets) (timeSync : bool) : pending :=
  mkPending 0 Idle false from [] true authRequired auth priv authKey privKey engineId requestId default_pdu
    (mkUsmParameters [] 0 0 [] [] []) false false timeSync no_error.

(** ** Discoveries *)

Definition new_discovery (o : op) : M client loc :=
  let! c := get_st in
  let d := (o, fresh (set_map (D := gset nat) snd (dom (m_discoveries c)))) in
  set_st (with_discoveries (<[d := mkDiscovery ∅ ∅ no_error false]> (m_discoveries c)) c) ;;;
  ret d.

Definition load_discovery (d : loc) : M client Discovery := let! c := get_st in deref (m_discoveries c !! d).
Definition store_discovery (d : loc) (x : Discovery) : M client unit :=
  modify (fun c => with_discoveries (<[d := x]> (m_discoveries c)) c).

(** A new object, its entry in the table, and [net::co_spawn] of its discovery: posted to
    the strand, it runs once the caller is suspended. *)
Definition start_discovery (o : op) (target : Target) (creds : Credentials) : M client loc :=
  let! d := new_discovery o in
  modify (fun c => with_discovering (<[endpoint target := d]> (m_discovering c)) c) ;;;
  modify (fun c => with_posted (m_posted c ++ [mkJob target creds d]) c) ;;;
  ret d.

(** [co_await discovery->done.async_wait(...)]. *)
Definition wait_done (o : op) (d : loc) : Co unit :=
  (let! x := load_discovery d in
   store_discovery d (mkDiscovery ({[o]} ∪ d_waiting x) (d_woken x ∖ {[o]}) (d_ec x) (d_finished x))) ;^
  CoEvent d (CoRet tt).

Definition ensureEngine (o : op) (target : Target) (creds : Credentials) : Co ErrorCode :=
  let^ c := get_st in
  let engine := engineAt c (endpoint target) in
  if match engine with
     | Some engine => negb (isAuthenticated (level creds)) || e_timeSynced engine
     | None => false
     end
  then CoRet no_error
  else
    let^ d := match m_discovering c !! endpoint target with
              | Some inFlight => ret inFlight
              | None => start_discovery o target creds
              end in
    wait_done o d ;*
    let^ discovery := load_discovery d in
    let^ c := get_st in
    if m_stopping c then CoRet (make_error_code ClientStopped)
    else if negb (cancelled o c =? 0) || negb (d_finished discovery) then CoRet operation_aborted
    else CoRet (d_ec discovery).

(** [EngineState& engine = m_engines[engineId]]. *)
Definition engine_slot (engineId : Octets) (c : client) : EngineState :=
  default (mkEngineState [] 0 0 0 false) (m_engines c !! engineId).

(** The identity phase's reply: which Engine is there, and an untrusted pair. *)
Definition record_identity (from : Endpoint) (security : UsmParameters) : M client EngineState :=
  let! c := get_st in
  let engineId := u_engineId security in
  let engine := engine_slot engineId c in
  let engine :=
    if e_timeSynced engine
    then mkEngineState engineId (e_boots engine) (e_time engine) (e_at engine) true
    else mkEngineState engineId (u_boots security) (u_time security) (m_now c) false in
  set_st (with_engines (<[engineId := engine]> (m_engines c)) (with_engineAt (<[from := engineId]> (m_engineAt c)) c)) ;;;
  ret engine.

(** The time-sync phase's reply, taken as the baseline. *)
Definition record_baseline (engineId : Octets) (security : UsmParameters) : M client unit :=
  let! c := get_st in
  let engine := engine_slot engineId c in
  set_st (with_engines (<[engineId := mkEngineState (e_engineId engine) (u_boots security) (u_time security)
                                        (m_now c) true]> (m_engines c)) c).

Definition discoveryHeader (id : Z) (level : SecurityLevel) : V3Header :=
  mkV3Header id defaultMaxMessageSize level true securityModelUsm.

(** Phase two: a deliberately untimely message, and the pair in the rejection. *)
Definition timeSync (o : op) (target : Target) (creds : Credentials) (engineId : Octets) : Co ErrorCode :=
  or_return (localizedKey ssl creds engineId) id (fun key =>
  or_return (if isEncrypted (level creds)
             then let+ k := localizedPrivacyKey ssl creds engineId in ret (inr (Some k))
             else ret (inr None)) id (fun privKey =>
  let^ syncId := nextId in
  let usm := mkUsmParameters engineId 0 0 (userName creds) [] [] in
  or_return (with_salts (encodeV3Message ssl (discoveryHeader syncId (level creds)) usm
               (discoveryScopedPdu syncId engineId) (authProtocol creds) key (privProtocol creds) (keySpan privKey)))
    id (fun syncDatagram =>
  let^ sync := new_pending o (v3_pending (endpoint target) syncId true (authProtocol creds) (privProtocol creds)
                                key (keySpan privKey) engineId true) in
  let* ec := transact o target syncDatagram syncId sync in
  if is_error ec then CoRet ec
  else
    let^ p := load sync in
    if negb (p_replyAuthenticated p) then CoRet (reportError (usmStatsCounter (p_response p)))
    else if u_boots (p_security p) =? bootsCeiling then CoRet (make_error_code NotInTimeWindow)
    else record_baseline engineId (p_security p) ;^ CoRet no_error))).

Definition discoverEngine (o : op) (target : Target) (creds : Credentials) : Co ErrorCode :=
  let^ identifyId := nextId in
  or_return (with_salts (encodeV3Message ssl (discoveryHeader identifyId NoAuthNoPriv) (mkUsmParameters [] 0 0 [] [] [])
               (discoveryScopedPdu identifyId []) AuthNone [] PrivNone []))
    id (fun datagram =>
  let^ identify := new_pending o (v3_pending (endpoint target) identifyId false AuthNone PrivNone [] [] [] false) in
  let* ec := transact o target datagram identifyId identify in
  if is_error ec then CoRet ec
  else
    let^ p := load identify in
    if bool_decide (u_engineId (p_security p) = []) then CoRet (make_error_code UnknownEngineId)
    else
      let^ engine := record_identity (endpoint target) (p_security p) in
      if negb (isAuthenticated (level creds)) then CoRet no_error
      else if e_timeSynced engine then CoRet no_error
      else timeSync o target creds (u_engineId (p_security p))).

(** How it went, the entry erased, and everyone who waits woken. *)
Definition finish_discovery (target : Target) (d : loc) (ec : ErrorCode) : M client unit :=
  (let! x := load_discovery d in store_discovery d (mkDiscovery (d_waiting x) (d_woken x) ec true)) ;;;
  modify (fun c => with_discovering (delete (endpoint target) (m_discovering c)) c) ;;;
  (let! x := load_discovery d in store_discovery d (cancel_event x)).

Definition runDiscovery (o : op) (target : Target) (creds : Credentials) (d : loc) : Co unit :=
  let* ec := discoverEngine o target creds in
  sync (finish_discovery target d ec).

(** ** The SNMPv3 request *)

(** [min(engine.time + elapsed, timeCeiling)], cast to 32 bits. *)
Definition projected (engine : EngineState) (c : client) : Z :=
  swrap 32 (Z.min (e_time engine + elapsed c (e_at engine)) timeCeiling).

Definition refuse (ec : ErrorCode) : ErrorCode * ResponseResult := (ec, empty_response).

(** The body of the loop; [retry] is its next iteration. *)
Definition exchangeV3 (o : op) (target : Target) (creds : Credentials) (pdu : Pdu) (mayRetry : bool)
    (retry : Co (ErrorCode * ResponseResult)) : Co (ErrorCode * ResponseResult) :=
  let* ec := ensureEngine o target creds in
  if is_error ec then CoRet (refuse ec)
  else
    let^ c := get_st in
    match engineAt c (endpoint target) with
    | None => CoRet (refuse (make_error_code UnknownEngineId))
    | Some engine =>
        let time := projected engine c in
        or_return (if isAuthenticated (level creds)
                   then let+ k := localizedKey ssl creds (e_engineId engine) in ret (inr (Some k))
                   else ret (inr None)) refuse (fun key =>
        or_return (if isEncrypted (level creds)
                   then let+ k := localizedPrivacyKey ssl creds (e_engineId engine) in ret (inr (Some k))
                   else ret (inr None)) refuse (fun privKey =>
        let^ id := nextId in
        let usm := mkUsmParameters (e_engineId engine) (e_boots engine) time (userName creds) [] [] in
        let scoped := mkScopedPdu (e_engineId engine) [] (with_requestId id pdu) in
        or_return (with_salts (encodeV3Message ssl (discoveryHeader id (level creds)) usm scoped (authProtocol creds)
                     (keySpan key) (privProtocol creds) (keySpan privKey))) refuse (fun datagram =>
        let^ l := new_pending o (v3_pending (endpoint target) id (isAuthenticated (level creds)) (authProtocol creds)
                                   (privProtocol creds) (keySpan key) (keySpan privKey) (e_engineId engine) false) in
        let* ec := transact o target datagram id l in
        if is_error ec then CoRet (refuse ec)
        else
          let^ p := load l in
          if bool_decide (pdu_type (p_response p) = Report) then
            let^ failure := handleReport (endpoint target) p mayRetry in
            match failure with
            | None => retry
            | Some ec => CoRet (refuse ec)
            end
          else
            (if p_replyAuthenticated p then observeEngineTime (endpoint target) (p_security p) else ret tt) ;^
            CoRet (toResult (p_response p)))))
    end.

Definition doRequestV3 (o : op) (target : Target) (creds : Credentials) (pdu : Pdu)
  : Co (ErrorCode * ResponseResult) :=
  let^ stopping := gets m_stopping in
  if stopping then CoRet (refuse (make_error_code ClientStopped))
  else
    observeBothCancellationTypes o ;^
    if isEncrypted (level creds) && bool_decide (privProtocol creds = PrivNone)
    then CoRet (refuse (make_error_code UnsupportedPrivProtocol))
    else if isAuthenticated (level creds) && bool_decide (authProtocol creds = AuthNone)
    then CoRet (refuse (make_error_code UnsupportedAuthProtocol))
    else
      exchangeV3 o target creds pdu true
        (exchangeV3 o target creds pdu false
          (CoRet (refuse (make_error_code UnexpectedReport)))).

Inductive Auth : Type := AuthCommunity (community : cstring) | AuthCredentials (creds : Credentials).

Definition doRequest (o : op) (target : Target) (auth : Auth) (pdu : Pdu) : Co (ErrorCode * ResponseResult) :=
  match auth with
  | AuthCommunity community => doRequestV2c o target community pdu
  | AuthCredentials creds => doRequestV3 o target creds pdu
  end.

End Requests.

(** ** Theory *)

Section RequestsTheory.
Context {Endpoint : Type} `{Countable Endpoint} {net : Net Endpoint} {ssl : OpenSSL} {L : OpenSSLLaws ssl}.
Local Notation client := (Client (Endpoint := Endpoint)).
Local Notation pending := (Pending (Endpoint := Endpoint)).
Local Notation Target := (Target (Endpoint := Endpoint)).
Local Notation Obs := (Obs (Endpoint := Endpoint)).
Local Notation ginv := (ginv (ssl := ssl)).
Local Notation rely := (rely (ssl := ssl)).
Local Notation answer_ok := (answer_ok (ssl := ssl)).
Local Notation guar := (guar (ssl := ssl)).
Local Notation wp o := (wpc o (rely o) (guar o)).
Implicit Types (c : client) (o : op) (p : pending) (l d : loc) (target : Target) (tr ws : list Obs) (creds : Credentials).

(** ** Steps that keep to themselves *)

Lemma nextId_guar o c : ginv c -> exists id c', nextId c = Done id c' /\ guar o c c' /\ int32_ok id /\
  onward o c c' /\ m_heap c' = m_heap c /\ m_engines c' = m_engines c /\ m_engineAt c' = m_engineAt c /\ m_stopping c' = m_stopping c.
Proof.
  intros Hi. destruct (inv_nextId _ (ginv_client _ Hi)) as [H1 H2].
  exists (m_nextId c), (with_nextId (if m_nextId c =? 2147483647 then 1 else m_nextId c + 1) c). split; [done|].
  split; [|split; [unfold int32_ok; lia|by repeat split]].
  apply silent_guar; try done.
  intros [[Hn Hp He] ? ? ? ? ? ? ? ?]. split; [|done..]. split; [|done|done]. cbn.
  destruct (Z.eqb_spec (m_nextId c) 2147483647); lia.
Qed.

Lemma keys_guar o c k : keys_ok (ssl := ssl) (with_keys k c) -> guar o c (with_keys k c).
Proof.
  intros Hk. apply silent_guar; try done. intros [[? ? ?] _ ? ? ? ? ? ? ?]. by split.
Qed.

Lemma salt_guar o c s : guar o c (with_salt s c).
Proof. apply silent_guar; try done. intros [[? ? ?] ? ? ? ? ? ? ? ?]. by split. Qed.

Lemma reset_guar o c : guar o c (with_cancelled (<[o := 0]> (m_cancelled c)) c).
Proof.
  apply silent_guar; try done.
  - intros [[? ? ?] ? ? ? ? ? ? ? ?]. by split.
  - intros o' Ho'. unfold cancelled. cbn. by rewrite lookup_insert_ne.
  - unfold cancelled. cbn. by rewrite lookup_insert_eq.
Qed.

(** A change of what is known about the Engines. *)
Lemma engines_guar o c c' : m_stopping c' = m_stopping c -> m_now c' = m_now c -> m_heap c' = m_heap c ->
  m_cancelled c' = m_cancelled c -> m_discoveries c' = m_discoveries c -> m_keys c' = m_keys c ->
  m_pending c' = m_pending c -> m_discovering c' = m_discovering c -> m_posted c' = m_posted c -> client_inv c' ->
  (forall ep id, m_engineAt c' !! ep = Some id -> is_Some (m_engines c' !! id)) ->
  (forall id e, m_engines c' !! id = Some e -> engine_ok (ssl := ssl) (m_received c) id e) -> m_received c' = m_received c ->
  (forall id, is_Some (m_engines c !! id) -> is_Some (m_engines c' !! id)) -> guar o c c'.
Proof.
  intros E1 E2 E3 E4 E5 E6 E7 E8 E9 Hc Hx Hi E10 He. apply silent_guar; try done.
  - intros [Hci Hk _ _ Hd Hw Hp Ha Hids]. rewrite <- E10 in Hi. split; [done| |done|done| | | | |].
    + intros row key. rewrite E6. apply Hk.
    + intros ep d. unfold unfinished. rewrite E8, E5. apply Hd.
    + intros d x. rewrite E5. apply Hw.
    + intros job. unfold job_ok. rewrite E9, E5, E8. apply Hp.
    + intros l p. rewrite E3, E10. apply Ha.
    + intros id l p. rewrite E7, E3. apply Hids.
  - intros o' _. unfold cancelled. by rewrite E4.
  - unfold cancelled. by rewrite E4.
Qed.

(** ** Segments *)

Lemma wpc_or_return {A B} o (m : M client (ErrorCode + A)) (fail : ErrorCode -> B) k Q tr c r c' :
  m c = Done r c' -> guar o c c' ->
  match r with inl ec => Q (fail ec) tr c' | inr a => wp o (k a) Q tr c' end ->
  wp o (or_return m fail k) Q tr c.
Proof. intros E G Hr. unfold or_return. eapply wpc_sync; [exact E|exact G|]. by destruct r. Qed.

Lemma new_pending_run o c p : exists l, new_pending o p c = Done l (updated c l p) /\ l.1 = o /\ m_heap c !! l = None.
Proof.
  exists (o, fresh (set_map (D := gset nat) snd (dom (m_heap c)))). split; [done|]. split; [done|]. apply not_elem_of_dom. intros Hin.
  eapply (is_fresh (set_map (D := gset nat) snd (dom (m_heap c)))). apply elem_of_map. eexists. split; [|exact Hin]. done.
Qed.

(** The object an operation makes for an exchange, before anyone else sees it. *)
Lemma wpc_new_pending {B} o c p (k : loc -> Co B) Q tr : answer_ok (m_received c) p ->
  (forall l, l.1 = o -> guar o c (updated c l p) -> m_heap (updated c l p) !! l = Some p -> wp o (k l) Q tr (updated c l p)) ->
  wp o (co_bind (sync (new_pending o p)) k) Q tr c.
Proof.
  intros Ha Hk. destruct (new_pending_run o c p) as (l & E & Ho & Hn).
  assert (guar o c (updated c l p)) as G by (by apply fresh_guar).
  eapply wpc_sync; [exact E|exact G|]. apply Hk; [done|done|]. cbn. by rewrite lookup_insert_eq.
Qed.

(** ** What is encoded *)

(** A PDU that can be sent: well-formed, encodable, and not enormous. *)
Definition request_ok (pdu : Pdu) : Prop :=
  pdu_ok pdu /\ exists vs, enc_varbinds (varbinds pdu) = Some vs /\ zlen vs < 2 ^ 20.

(** One that cannot: it has a name, or an Oid for a value, that has no encoding. *)
Definition unencodable (pdu : Pdu) : Prop := enc_varbinds (varbinds pdu) = None.

(** A PDU an operation may be given: well-formed and not enormous. *)
Definition request_given (pdu : Pdu) : Prop :=
  pdu_ok pdu /\ match enc_varbinds (varbinds pdu) with
                | Some vs => zlen vs < 2 ^ 20
                | None => varbinds_size (varbinds pdu) < 2 ^ 30
                end.

Lemma request_ok_given pdu : request_ok pdu -> request_given pdu.
Proof. intros [Hp (vs & Hv & Hl)]. split; [done|]. by rewrite Hv. Qed.

Lemma request_ok_encodable pdu : request_ok pdu -> ~ unencodable pdu.
Proof. intros [_ (vs & Hv & _)]. unfold unencodable. by rewrite Hv. Qed.

Lemma request_given_ok pdu : request_given pdu -> ~ unencodable pdu -> request_ok pdu.
Proof.
  intros [Hp Hv] Hn. unfold unencodable in Hn. destruct (enc_varbinds _) as [vs|] eqn:E; [|done]. split; [done|]. by exists vs.
Qed.

Lemma request_given_cases pdu : request_given pdu ->
  request_ok pdu \/ (pdu_ok pdu /\ unencodable pdu /\ varbinds_size (varbinds pdu) < 2 ^ 30).
Proof.
  intros Hg. destruct (enc_varbinds (varbinds pdu)) as [vs|] eqn:E.
  - left. apply request_given_ok; [done|]. unfold unencodable. by rewrite E.
  - destruct Hg as [Hp Hv]. rewrite E in Hv. by right.
Qed.

Lemma request_scoped id engineId pdu : request_ok pdu -> int32_ok id -> id_ok engineId ->
  scoped_ok (mkScopedPdu engineId [] (with_requestId id pdu)) /\
  exists sc vs, enc_scoped (mkScopedPdu engineId [] (with_requestId id pdu)) = Some sc /\
    enc_varbinds (varbinds pdu) = Some vs /\ zlen sc <= zlen vs + zlen engineId + 60 /\ zlen sc < 2 ^ 20 + 2 ^ 17.
Proof.
  intros [(H1 & H2 & H3 & H4) (vs & Hv & Hl)] Hid [Ho Hil].
  split; [split; [done|]; split; [by apply Forall_nil|]; exact (conj Hid (conj H2 (conj H3 H4)))|].
  exists (enc_tlv tag.sequence (enc_tlv tag.octetString engineId ++ enc_tlv tag.octetString [] ++
    enc_tlv (pdu_tag (pdu_type pdu)) (tlv_int id ++ tlv_int (errorStatus pdu) ++ tlv_int (errorIndex pdu) ++ vs))), vs.
  split; [unfold enc_scoped, enc_pdu; cbn [s_pdu varbinds with_requestId]; by rewrite Hv|]. split; [done|].
  pose proof (tlv_int_bound id). pose proof (tlv_int_bound (errorStatus pdu)). pose proof (tlv_int_bound (errorIndex pdu)).
  set (a := tlv_int id) in *. set (b := tlv_int (errorStatus pdu)) in *. set (x := tlv_int (errorIndex pdu)) in *.
  pose proof (enc_tlv_bound (pdu_tag (pdu_type pdu)) (a ++ b ++ x ++ vs) ltac:(rewrite !zlen_app; lia)) as B1.
  rewrite !zlen_app in B1. set (y := enc_tlv (pdu_tag _) _) in *.
  pose proof (enc_tlv_bound tag.octetString engineId ltac:(lia)) as B2. set (z := enc_tlv _ engineId) in *.
  pose proof (enc_tlv_bound tag.octetString [] ltac:(cbn; lia)) as B3. cbn [length] in B3. set (e := enc_tlv _ []) in *.
  pose proof (enc_tlv_bound tag.sequence (z ++ e ++ y) ltac:(rewrite !zlen_app; lia)) as B4. rewrite !zlen_app in B4. lia.
Qed.

Lemma discovery_request_ok : request_ok (mkPdu Get 0 0 0 []).
Proof.
  split; [|by eexists]. repeat split; try (unfold int32_ok; cbn; lia). by apply Forall_nil.
Qed.

Lemma discovery_scoped id engineId : discoveryScopedPdu id engineId =
  mkScopedPdu engineId [] (with_requestId id (mkPdu Get 0 0 0 [])).
Proof. done. Qed.

(** What a datagram shows on the wire: its security level, the PDU's request-id, its user and Engine, at
    [authPriv] nothing of the ScopedPDU but what [pkey] opens, and a digest made with [key]. *)
Definition shows (level : SecurityLevel) (user engineId : Octets) (scopedPdu : ScopedPdu) (auth : AuthProtocol)
    (key : Octets) (priv : PrivProtocol) (pkey : Octets) (datagram : Octets) : Prop :=
  exists msg, dec_v3 datagram = inr msg /\ h_level (header msg) = level /\ msgId (header msg) = requestId (s_pdu scopedPdu) /\
    u_userName (security msg) = user /\ u_engineId (security msg) = engineId /\
    scoped msg = (if isEncrypted level then default_scoped else scopedPdu) /\
    (isAuthenticated level = true -> verifyAuth ssl datagram msg auth key tt = Done (inr tt) tt) /\
    (isEncrypted level = true -> exists msg', decryptScopedPdu ssl msg priv pkey tt = Done (inr msg') tt /\ scoped msg' = scopedPdu).

Lemma encode_step o c id level usm pdu auth key priv pkey : request_ok pdu -> int32_ok id ->
  usm_ok usm -> zlen (u_engineId usm) <= 65535 -> zlen (u_userName usm) <= 65535 -> u_privParams usm = [] ->
  let scopedPdu := mkScopedPdu (u_engineId usm) [] (with_requestId id pdu) in
  exists r s, with_salts (encodeV3Message ssl (discoveryHeader id level) usm scopedPdu auth key priv pkey) c =
      Done r (with_salt s c) /\
    match r with
    | inl ec => is_error ec = true /\ ((isAuthenticated level = true -> auth <> AuthNone) -> (isEncrypted level = true -> key_fits priv pkey) ->
        ec = make_error_code LegacyProviderUnavailable /\ isEncrypted level = true /\ priv = Des /\ OSSL_PROVIDER_load ssl = false)
    | inr out => shows level (u_userName usm) (u_engineId usm) scopedPdu auth key priv pkey out end.
Proof.
  intros Hr Hid Hu Hue Hun Hup. pose proof Hu as (Hei & _).
  destruct (request_scoped id (u_engineId usm) pdu Hr Hid (conj Hei Hue)) as [Hs (sc & _ & He & _ & _ & Hl)].
  assert (header_ok (discoveryHeader id level)) as Hh.
  { split; [done|]. split; [unfold int32_ok; cbn; unfold defaultMaxMessageSize; lia|done]. }
  destruct (encodeV3Message_outcome (discoveryHeader id level) usm _ auth key priv pkey sc (m_salt c) tt Hh Hu Hs He)
    as (r & s & E & Hx).
  { rewrite Hup. cbn [length]. lia. }
  exists r, s. unfold with_salts. rewrite E. split; [done|]. destruct r as [ec|out]; [done|].
  destruct Hx as (msg & Hd & Hhd & _ & Hx1 & Hx2 & Hx3 & Hx4). exists msg. rewrite Hhd. done.
Qed.

(** And of a request that cannot be encoded nothing is made. *)
Lemma refuse_step c id level usm pdu auth key priv pkey : pdu_ok pdu -> unencodable pdu -> varbinds_size (varbinds pdu) < 2 ^ 30 ->
  int32_ok id -> octets_ok (u_engineId usm) -> zlen (u_engineId usm) <= 65535 ->
  exists ec s, with_salts (encodeV3Message ssl (discoveryHeader id level) usm (mkScopedPdu (u_engineId usm) [] (with_requestId id pdu))
      auth key priv pkey) c = Done (inl ec) (with_salt s c) /\ is_error ec = true /\
    ((isAuthenticated level = true -> auth <> AuthNone) -> (isEncrypted level = true -> key_fits priv pkey) ->
     ec = make_error_code OidNotEncodable \/
     (ec = make_error_code LegacyProviderUnavailable /\ isEncrypted level = true /\ priv = Des /\ OSSL_PROVIDER_load ssl = false)).
Proof.
  intros (H1 & H2 & H3 & H4) Hn Hl Hid Ho Hil. set (s := mkScopedPdu _ _ _).
  assert (scoped_ok s) as Hs by (split; [done|]; split; [by apply Forall_nil|]; exact (conj Hid (conj H2 (conj H3 H4)))).
  assert (enc_scoped s = None) as He.
  { unfold enc_scoped, enc_pdu. cbn [s s_pdu varbinds with_requestId]. unfold unencodable in Hn. by rewrite Hn. }
  destruct (encodeV3Message_unencodable (discoveryHeader id level) usm s auth key priv pkey (m_salt c) Hs He Hl) as (ec & c' & E & Hx).
  { cbn. lia. }
  exists ec, c'. unfold with_salts. by rewrite E.
Qed.

(** ** Keys *)

Lemma derived_auth_error auth pw eid ec : derived_auth (ssl := ssl) auth pw eid = inl ec -> is_error ec = true.
Proof. unfold derived_auth. repeat case_bool_decide; by intros [= <-]. Qed.

Lemma derived_priv_error auth pw priv eid ec : derived_priv (ssl := ssl) auth pw priv eid = inl ec -> is_error ec = true.
Proof.
  unfold derived_priv. case_bool_decide; [by intros [= <-]|]. destruct (derived_auth auth pw eid) eqn:E; [|done].
  intros [= <-]. by eapply derived_auth_error.
Qed.

(** Why the protection a user's level asks for cannot be given: a password is empty, or the
    cipher is DES and this OpenSSL has none. *)
Definition unprotected creds (ec : ErrorCode) : Prop :=
  (ec = make_error_code EmptyPassword /\
   ((isAuthenticated (level creds) = true /\ authPassword creds = []) \/ (isEncrypted (level creds) = true /\ privPassword creds = []))) \/
  (ec = make_error_code LegacyProviderUnavailable /\ isEncrypted (level creds) = true /\ privProtocol creds = Des /\
   OSSL_PROVIDER_load ssl = false).

Lemma unprotected_error creds ec : unprotected creds ec -> is_error ec = true.
Proof. by intros [[-> _]|[-> _]]. Qed.

Lemma underived_auth creds eid ec : creds_ok creds -> isAuthenticated (level creds) = true ->
  derived_auth (ssl := ssl) (authProtocol creds) (authPassword creds) eid = inl ec -> unprotected creds ec.
Proof.
  intros (_ & _ & _ & _ & Ha & _) Hl. unfold derived_auth. rewrite bool_decide_false by (by apply Ha).
  case_bool_decide; [|done]. intros [= <-]. left. by auto.
Qed.

Lemma underived_priv creds eid ec : creds_ok creds -> isEncrypted (level creds) = true ->
  derived_priv (ssl := ssl) (authProtocol creds) (privPassword creds) (privProtocol creds) eid = inl ec -> unprotected creds ec.
Proof.
  intros (_ & _ & _ & _ & Ha & Hp) Hl. unfold derived_priv, derived_auth. rewrite bool_decide_false by (by apply Hp).
  rewrite bool_decide_false by (by apply Ha, encrypted_authenticates). case_bool_decide; [|done]. intros [= <-]. left. by auto.
Qed.

(** The user's own keys seal a message, or there is no DES. *)
Lemma unsealed_or creds eid pkey ec (other : Prop) : creds_ok creds ->
  (isEncrypted (level creds) = true ->
     derived_priv (ssl := ssl) (authProtocol creds) (privPassword creds) (privProtocol creds) eid = inr pkey) ->
  ((isAuthenticated (level creds) = true -> authProtocol creds <> AuthNone) -> (isEncrypted (level creds) = true -> key_fits (privProtocol creds) pkey) ->
     other \/ (ec = make_error_code LegacyProviderUnavailable /\ isEncrypted (level creds) = true /\ privProtocol creds = Des /\ OSSL_PROVIDER_load ssl = false)) ->
  other \/ unprotected creds ec.
Proof.
  intros (_ & _ & _ & _ & Ha & Hp) Hk Hx. destruct Hx as [?|?]; [done| |by left|by right; right]. intros He. split; [by apply Hp|].
  by rewrite (derived_priv_length _ _ _ _ _ (Hk He)).
Qed.

Lemma unsealed creds eid pkey ec : creds_ok creds ->
  (isEncrypted (level creds) = true ->
     derived_priv (ssl := ssl) (authProtocol creds) (privPassword creds) (privProtocol creds) eid = inr pkey) ->
  ((isAuthenticated (level creds) = true -> authProtocol creds <> AuthNone) -> (isEncrypted (level creds) = true -> key_fits (privProtocol creds) pkey) ->
     ec = make_error_code LegacyProviderUnavailable /\ isEncrypted (level creds) = true /\ privProtocol creds = Des /\ OSSL_PROVIDER_load ssl = false) ->
  unprotected creds ec.
Proof.
  intros Hcr Hk Hx. destruct (unsealed_or creds eid pkey ec False Hcr Hk) as [[]|?]; [|done]. intros H1 H2. right. by apply Hx.
Qed.

Lemma with_same_keys c : with_keys (m_keys c) c = c.
Proof. by destruct c. Qed.

Lemma auth_key_step c creds eid : keys_ok (ssl := ssl) c -> octets_ok (authPassword creds) ->
  exists k, localizedKey ssl creds eid c =
      Done (derived_auth (ssl := ssl) (authProtocol creds) (authPassword creds) eid) (with_keys k c) /\
    keys_ok (ssl := ssl) (with_keys k c).
Proof.
  intros Hi Ho. destruct (cached_key_run c (eid, authProtocol creds, authPassword creds, PrivNone)
    (localizedAuthKey ssl creds eid) Hi) as (k & E & Hk & _); [|by exists k].
  by apply localizedAuthKey_run.
Qed.

Lemma priv_key_step c creds eid : keys_ok (ssl := ssl) c -> octets_ok (privPassword creds) -> privProtocol creds <> PrivNone ->
  exists k, localizedPrivacyKey ssl creds eid c =
      Done (derived_priv (ssl := ssl) (authProtocol creds) (privPassword creds) (privProtocol creds) eid) (with_keys k c) /\
    keys_ok (ssl := ssl) (with_keys k c).
Proof.
  intros Hi Ho Hp. destruct (cached_key_run c (eid, authProtocol creds, privPassword creds, privProtocol creds)
    (localizedPrivKey ssl creds eid) Hi) as (k & E & Hk & _).
  - unfold row_key. rewrite bool_decide_false by done. by apply localizedPrivKey_run.
  - exists k. unfold row_key in E. by rewrite bool_decide_false in E by done.
Qed.

(** The key of a level that needs one. *)
Lemma maybe_auth_key_step c creds eid : ginv c -> creds_ok creds ->
  exists r k, (if isAuthenticated (level creds)
      then let+ x := localizedKey ssl creds eid in ret (inr (Some x)) else ret (inr None)) c = Done r (with_keys k c) /\
    keys_ok (ssl := ssl) (with_keys k c) /\
    match r with
    | inl ec => unprotected creds ec
    | inr key => isAuthenticated (level creds) = true ->
        derived_auth (ssl := ssl) (authProtocol creds) (authPassword creds) eid = inr (keySpan key)
    end.
Proof.
  intros Hi Hcr. pose proof Hcr as (_ & _ & Ho & _). destruct (isAuthenticated (level creds)) eqn:El.
  - destruct (auth_key_step c creds eid (ginv_keys _ Hi) Ho) as (k & E & Hk). destruct (derived_auth _ _ _) as [ec|x] eqn:Ed.
    + exists (inl ec), k. rewrite (bind_sum_inl _ _ _ _ _ E). split; [done|]. split; [done|]. by eapply underived_auth.
    + exists (inr (Some x)), k. rewrite (bind_sum_inr _ _ _ _ _ E). done.
  - exists (inr None), (m_keys c). rewrite with_same_keys. split; [done|]. by split; [apply Hi|].
Qed.

Lemma maybe_priv_key_step c creds eid : ginv c -> creds_ok creds ->
  exists r k, (if isEncrypted (level creds)
      then let+ x := localizedPrivacyKey ssl creds eid in ret (inr (Some x)) else ret (inr None)) c = Done r (with_keys k c) /\
    keys_ok (ssl := ssl) (with_keys k c) /\
    match r with
    | inl ec => unprotected creds ec
    | inr key => isEncrypted (level creds) = true ->
        derived_priv (ssl := ssl) (authProtocol creds) (privPassword creds) (privProtocol creds) eid = inr (keySpan key)
    end.
Proof.
  intros Hi Hcr. pose proof Hcr as (_ & _ & _ & Ho & _ & Hp). destruct (isEncrypted (level creds)) eqn:El.
  - destruct (priv_key_step c creds eid (ginv_keys _ Hi) Ho (Hp eq_refl)) as (k & E & Hk). destruct (derived_priv _ _ _ _) as [ec|x] eqn:Ed.
    + exists (inl ec), k. rewrite (bind_sum_inl _ _ _ _ _ E). split; [done|]. split; [done|]. by eapply underived_priv.
    + exists (inr (Some x)), k. rewrite (bind_sum_inr _ _ _ _ _ E). done.
  - exists (inr None), (m_keys c). rewrite with_same_keys. split; [done|]. by split; [apply Hi|].
Qed.

(** ** Waiting for a discovery *)

(** Waits for a discovery: no datagram. *)
Definition parks (x : Obs) : Prop :=
  match x with
  | Parked _ => True
  | _ => False
  end.

Lemma parks_sends ws : Forall parks ws -> sends ws = 0%nat.
Proof. induction 1 as [|[] ws Hx _ IH]; done. Qed.

(** An object for a discovery is written by one operation. *)
Lemma discovery_guar o c d x x' : m_discoveries c !! d = Some x -> d_finished x' = d_finished x ->
  (d_waiting x' <> ∅ -> d_finished x = false) -> (forall o', o' <> o -> devolves c o' x x') ->
  guar o c (with_discoveries (<[d := x']> (m_discoveries c)) c).
Proof.
  intros Hd Hf Hw Hv.
  assert (forall d', unfinished d' (with_discoveries (<[d := x']> (m_discoveries c)) c) <-> unfinished d' c) as Hu.
  { intros d'. unfold unfinished. cbn. destruct (decide (d = d')) as [<-|]; [|by rewrite lookup_insert_ne].
    rewrite lookup_insert_eq, Hd. split; intros (y & [= <-] & Hy); eexists; (split; [done|congruence]). }
  assert (forall d', is_Some (m_discoveries c !! d') -> is_Some (<[d := x']> (m_discoveries c) !! d')) as Hs.
  { intros d' Hd'. rewrite lookup_insert_is_Some. destruct (decide (d = d')); by auto. }
  assert (ginv c -> ginv (with_discoveries (<[d := x']> (m_discoveries c)) c)) as Hi.
  { intros [[? ? ?] ? ? ? Hdi Hwt Hp ? ?]. split; [by split|done|done|done| | | |done|done].
    - intros ep d' Hep. apply Hu. by eapply Hdi.
    - intros d' y. cbn. rewrite lookup_insert_Some. intros [[_ <-]|[_ Hy]]; [by rewrite Hf|by eapply Hwt].
    - intros job Hj. destruct (Hp _ Hj) as (J1 & J2 & J3 & J4). do 2 (split; [done|]). split; [by apply Hs|done]. }
  split; [|done|done|done|intros d' Hd'; left; by apply Hu].
  intros o' Ho'. split; [done..| | | |done|done|done].
  - intros l p _ Hp. exists p. split; [done|]. split; [apply same_request_refl|done|by left].
  - exists 0. by rewrite Z.lor_0_r.
  - intros d' y Hy. cbn. destruct (decide (d = d')) as [<-|].
    2: { rewrite lookup_insert_ne by done. exists y. split; [done|apply devolves_refl]. }
    rewrite lookup_insert_eq. exists x'. assert (y = x) as -> by congruence. split; [done|]. by destruct (Hv o' Ho'); split.
Qed.

Lemma store_discovery_onward o c d x : onward o c (with_discoveries (<[d := x]> (m_discoveries c)) c).
Proof. split; [done..| |done|done]. intros d' Hd'. cbn. rewrite lookup_insert_is_Some. destruct (decide (d = d')); by auto. Qed.

Lemma wait_done_spec o d c Q tr : ginv c -> unfinished d c ->
  (forall c' y, ginv c' -> onward o c c' -> m_discoveries c' !! d = Some y ->
     d_finished y = true \/ m_stopping c' = true \/ cancelled o c' <> 0 -> Q tt (tr ++ [Parked d]) c') ->
  wp o (wait_done o d) Q tr c.
Proof.
  intros Hi (x & Hd & Hf) HQ. unfold wait_done.
  set (x' := mkDiscovery ({[o]} ∪ d_waiting x) (d_woken x ∖ {[o]}) (d_ec x) (d_finished x)).
  set (c1 := with_discoveries (<[d := x']> (m_discoveries c)) c).
  assert (guar o c c1) as G.
  { apply (discovery_guar o c d x x'); [done|done|done|]. intros o' Ho'. split; [done|cbn; set_solver|cbn; set_solver|cbn; set_solver]. }
  assert (m_discoveries c1 !! d = Some x') as Hx' by (cbn; by rewrite lookup_insert_eq).
  eapply (wpc_sync _ _ _ _ _ _ _ _ tt c1); [unfold load_discovery, bind, get_st; by rewrite Hd|exact G|].
  cbn [wpc]. split; [exists x'; split; [done|left; cbn; set_solver]|].
  intros c' R Hov. destruct (rely_discoveries _ _ _ R d x' Hx') as (y & Hy & [_ _ _ Hw]).
  apply (HQ c' y); [by apply R, G| |done|]. { transitivity c1; [apply store_discovery_onward|by apply rely_onward]. }
  unfold event_over in Hov. rewrite Hy in Hov. apply bool_decide_eq_true in Hov. destruct (Hw Hov) as [Hold|?]; [|done].
  cbn in Hold. set_solver.
Qed.

(** A discovery is set going: its object is new, and nobody is told before it is
    posted. *)
Lemma start_discovery_guar o c target creds : ginv c -> creds_ok creds -> 0 <= timeout target ->
  exists d c', start_discovery o target creds c = Done d c' /\ guar o c c' /\ onward o c c' /\ unfinished d c'.
Proof.
  intros Hi Hcr Ht. set (d := (o, fresh (set_map (D := gset nat) snd (dom (m_discoveries c)))) : loc).
  assert (m_discoveries c !! d = None) as Hnew.
  { apply not_elem_of_dom. intros Hin. eapply (is_fresh (set_map (D := gset nat) snd (dom (m_discoveries c)))).
    apply elem_of_map. eexists. split; [|exact Hin]. done. }
  set (x := mkDiscovery ∅ ∅ no_error false). set (job := mkJob target creds d).
  set (c' := with_posted (m_posted c ++ [job]) (with_discovering (<[endpoint target := d]> (m_discovering c))
    (with_discoveries (<[d := x]> (m_discoveries c)) c))).
  assert (forall d', is_Some (m_discoveries c !! d') -> d' <> d) as Hold by (intros d' [? ?] ->; congruence).
  assert (forall d' y, m_discoveries c !! d' = Some y -> m_discoveries c' !! d' = Some y) as Hkeep.
  { intros d' y Hy. cbn. rewrite lookup_insert_ne; [done|]. intros <-. congruence. }
  assert (unfinished d c') as Hun by (exists x; cbn; by rewrite lookup_insert_eq).
  assert (forall ep d', is_Some (m_discoveries c !! d') -> m_discovering c' !! ep = Some d' -> m_discovering c !! ep = Some d') as Hreg.
  { intros ep d' Hd'. cbn. rewrite lookup_insert_Some. intros [[_ <-]|[_ ?]]; [by apply Hold in Hd'|done]. }
  assert (ginv c') as Hi'.
  { pose proof Hi as [[? ? ?] ? ? ? Hdi Hwt Hp ? ?]. split; [by split|done|done|done| | | |done|done].
    - intros ep d'. cbn. rewrite lookup_insert_Some. intros [[_ <-]|[_ Hd']]; [done|].
      destruct (Hdi _ _ Hd') as (y & Hy & Hf). exists y. split; [by apply Hkeep|done].
    - intros d' y. cbn. rewrite lookup_insert_Some. intros [[_ <-]|[_ Hy]]; [done|by eapply Hwt].
    - intros job'. cbn [m_posted c' with_posted]. rewrite elem_of_app, list_elem_of_singleton. intros [Hj| ->].
      + destruct (Hp _ Hj) as (J1 & J2 & [y Hy] & J4). do 2 (split; [done|]). split; [by rewrite (Hkeep _ _ Hy)|].
        intros ep E. apply J4, Hreg; [by rewrite Hy|done].
      + do 2 (split; [done|]). split; [cbn; by rewrite lookup_insert_eq|]. intros ep. cbn. rewrite lookup_insert_Some.
        intros [[? _]|[_ E]]; [done|]. destruct (Hdi _ _ E) as (y & Hy & _). cbn in Hy. congruence. }
  exists d, c'. split; [done|]. split; [|split; [|done]].
  - split; [|done|done| |].
    + intros o' Ho'. split; [done..| | | |done|done|done].
      * intros l p _ Hp. exists p. split; [done|]. split; [apply same_request_refl|done|by left].
      * exists 0. by rewrite Z.lor_0_r.
      * intros d' y Hy. exists y. split; [by apply Hkeep|apply devolves_refl].
    + intros job' Hj. cbn. set_solver.
    + intros d' (y & Hy & Hf). revert Hy. cbn. rewrite lookup_insert_Some. intros [[<- _]|[_ Hy]].
      * right. exists job. split; [set_solver|done].
      * left. by exists y.
  - split; [done..| |done|done]. intros d' [y Hy]. by rewrite (Hkeep _ _ Hy).
Qed.

(** How an operation ends that has to. *)
Definition ended o c (ec : ErrorCode) : Prop :=
  (m_stopping c = true /\ ec = make_error_code ClientStopped) \/ (cancelled o c <> 0 /\ ec = operation_aborted).

Lemma ended_error o c ec : ended o c ec -> is_error ec = true.
Proof. intros [[_ ->]|[_ ->]]; [done|apply aborted_is_error]. Qed.

Lemma guar_calm o c c' : guar o c c' -> ending o c = false -> ending o c' = false.
Proof. intros G E. destruct (ending o c') eqn:E'; [|done]. by rewrite (guar_ending _ _ _ G E') in E. Qed.

(** What a discovery that was waited for came to. *)
Definition parked_out ws (ec : ErrorCode) c : Prop :=
  exists d x, Parked d ∈ ws /\ m_discoveries c !! d = Some x /\ d_finished x = true /\ d_ec x = ec.

Lemma ensureEngine_spec o target creds c Q tr : ginv c -> creds_ok creds -> 0 <= timeout target ->
  (forall ec ws c', ginv c' -> onward o c c' -> Forall parks ws -> (ending o c = false -> ending o c' = true -> ended o c' ec) ->
     (is_error ec = true -> ended o c' ec \/ parked_out ws ec c') -> Q ec (tr ++ ws) c') ->
  wp o (ensureEngine o target creds) Q tr c.
Proof.
  intros Hi Hcr Ht HQ. unfold ensureEngine. eapply wpc_look; [apply guar_refl|done|].
  destruct (match engineAt c (endpoint target) with Some _ => _ | None => _ end).
  { cbn. rewrite <- (app_nil_r tr). apply HQ; [done..| |done]. congruence. }
  assert (exists d c1, match m_discovering c !! endpoint target with
      | Some inFlight => ret inFlight | None => start_discovery o target creds end c = Done d c1 /\
    guar o c c1 /\ onward o c c1 /\ unfinished d c1) as (d & c1 & E & G & On1 & Hun).
  { destruct (m_discovering c !! endpoint target) as [d|] eqn:Ed; [|by apply start_discovery_guar].
    exists d, c. split; [done|]. split; [apply guar_refl|]. split; [done|by eapply ginv_discovering]. }
  eapply wpc_sync; [exact E|exact G|]. apply wpc_bind. eapply wait_done_spec; [by apply G|done|].
  intros c2 y Hi2 On2 Hy Hwhy. eapply wpc_look; [apply guar_refl|unfold load_discovery, bind, get_st; by rewrite Hy|].
  eapply wpc_look; [apply guar_refl|done|].
  assert (forall ec, (ending o c2 = true -> ended o c2 ec) -> ended o c2 ec \/ parked_out [Parked d] ec c2 ->
    Q ec (tr ++ [Parked d]) c2) as HQ2.
  { intros ec He Hx. apply HQ; [done|by transitivity c1|by repeat constructor|done|done]. }
  unfold ending, ended in HQ2. destruct (m_stopping c2) eqn:Es; [apply HQ2; by auto|].
  destruct (Z.eqb_spec (cancelled o c2) 0) as [Ez|Ez]; cbn [negb orb]; [|apply HQ2; by auto].
  destruct Hwhy as [Hf|[?|?]]; [|done..]. rewrite Hf. cbn [negb]. apply HQ2; [by rewrite Ez|right].
  exists d, y. split; [set_solver|done].
Qed.

(** ** What is believed of the Engines *)

Definition write_row (id : Octets) (e : EngineState) (at' : gmap Endpoint Octets) c : client :=
  with_engines (<[id := e]> (m_engines c)) (with_engineAt at' c).

Lemma write_row_guar o c id e at' : ginv c -> engine_ok (ssl := ssl) (m_received c) id e -> e_engineId e = id -> int32_ok (e_boots e) -> int32_ok (e_time e) ->
  (e_timeSynced e = true -> e_boots e <> bootsCeiling) -> e_at e <= m_now c ->
  (forall ep id', at' !! ep = Some id' -> id' = id \/ m_engineAt c !! ep = Some id') ->
  guar o c (write_row id e at' c).
Proof.
  intros Hi Hid He Hb Ht Hs Ha Hat. pose proof Hi as [[Hn Hp Heng] _ Hx Hei _ _ _ _ _]. apply engines_guar; try done.
  - split; [done|done|]. intros id' e'. cbn. rewrite lookup_insert_Some. intros [[<- <-]|[_ He']]; [done|by apply Heng].
  - intros ep id'. cbn. intros [->|Hid']%Hat; [by rewrite lookup_insert_eq|].
    rewrite lookup_insert_is_Some. destruct (decide (id = id')); [by left|right]. split; [done|by eapply Hx].
  - intros id' e'. cbn. rewrite lookup_insert_Some. intros [[<- <-]|[_ He']]; [done|by eapply Hei].
  - intros id' Hid'. cbn. rewrite lookup_insert_is_Some. destruct (decide (id = id')); by auto.
Qed.

Lemma write_row_onward o c id e at' : onward o c (write_row id e at' c).
Proof. split; [done..| |done|done|done]. intros id' Hid'. cbn. rewrite lookup_insert_is_Some. destruct (decide (id = id')); by auto. Qed.

Lemma forget_guar o c from : guar o c (with_engineAt (delete from (m_engineAt c)) c).
Proof.
  apply silent_guar; try done.
  intros [[? ? ?] ? Hx ? ? ? ? ? ?]. split; [by split|done| |done..]. intros ep id. cbn. intros [_ Hl]%lookup_delete_Some. by eapply Hx.
Qed.

Lemma write_engine_row c from id e : m_engineAt c !! from = Some id -> write_engine from e c = write_row id e (m_engineAt c) c.
Proof. intros E. rewrite (write_engine_run _ _ _ id E). by destruct c. Qed.

(** The pair of an authenticated reply. *)
Lemma adopt_guar o c l p from e : ginv c -> m_heap c !! l = Some p -> p_answered p = true -> p_v3 p = true ->
  p_replyAuthenticated p = true -> engineAt c from = Some e -> adopts e (p_security p) = true ->
  guar o c (write_engine from (adopted c e (p_security p)) c).
Proof.
  intros Hi Hp Ha H3 Hr E [Hb _]%adopts_spec. apply engineAt_some in E as (id & E1 & E2).
  destruct (ginv_answered _ _ _ Hi Hp Ha) as (_ & _ & Hs). destruct (Hs H3) as [[Hs1 Hs2] _].
  destruct (inv_engines _ (ginv_client _ Hi) _ _ E2) as (Hid & _). rewrite (write_engine_row c from id) by done.
  apply write_row_guar; try done; [|by auto].
  destruct (ginv_engine _ Hi _ _ E2) as (H1 & H2 & _). do 2 (split; [done|]). intros _. by eapply answered_signed.
Qed.

Lemma observe_guar o c l p from : ginv c -> m_heap c !! l = Some p -> p_answered p = true -> p_v3 p = true ->
  p_replyAuthenticated p = true -> exists c', observeEngineTime from (p_security p) c = Done tt c' /\ guar o c c' /\ onward o c c'.
Proof.
  intros Hi Hp Ha H3 Hr. eexists. split; [apply observeEngineTime_run|].
  destruct (engineAt c from) as [e|] eqn:E; [|by split; [apply guar_refl|]]. destruct (adopts _ _) eqn:Ead; [|by split; [apply guar_refl|]].
  split; [by eapply adopt_guar|]. apply engineAt_some in E as (id & E1 & _).
  rewrite (write_engine_row c from id) by done. apply write_row_onward.
Qed.

Lemma report_guar o c l p from mayRetry : ginv c -> m_heap c !! l = Some p -> p_answered p = true -> p_v3 p = true ->
  exists r c', handleReport from p mayRetry c = Done r c' /\ guar o c c' /\ onward o c c' /\
    match r with
    | Some ec => is_error ec = true /\ ec = reportError (usmStatsCounter (p_response p)) /\ c' = c
    | None => mayRetry = true
    end.
Proof.
  intros Hi Hp Ha H3. rewrite handleReport_run. destruct mayRetry, (retryable p); cbn [andb negb].
  2-4: eexists _, c; split; [done|]; split; [apply guar_refl|]; split; [done|]; by split; [apply reportError_is_error|].
  destruct (negb (p_replyAuthenticated p)) eqn:Eu; cbn [orb].
  { eexists _, _. split; [done|]. split; [apply forget_guar|by split]. }
  apply negb_false_iff in Eu. destruct (names_another_engine p).
  { eexists _, _. split; [done|]. split; [apply forget_guar|by split]. }
  destruct (engineAt c from) as [e|] eqn:E; [|by eexists _, c; split; [done|]; split; [apply guar_refl|]].
  pose proof E as E'. apply engineAt_some in E' as (id & E1 & E2).
  destruct (inv_engines _ (ginv_client _ Hi) _ _ E2) as (Hid & Hb & Ht & Hc & Hat).
  destruct (e_timeSynced e && _); [|destruct (adopts _ _) eqn:Ead].
  - eexists _, _. split; [done|]. rewrite (write_engine_row c from id) by done. split; [|by split; [apply write_row_onward|]].
    apply write_row_guar; try done; [|by auto]. by destruct (ginv_engine _ Hi _ _ E2) as (H1 & H2 & _).
  - eexists _, _. split; [done|]. split; [by eapply adopt_guar|]. split; [|done].
    rewrite (write_engine_row c from id) by done. apply write_row_onward.
  - eexists _, c. split; [done|]. by split; [apply guar_refl|].
Qed.

Lemma record_identity_guar o c l p from : ginv c -> m_heap c !! l = Some p -> p_answered p = true -> p_v3 p = true ->
  u_engineId (p_security p) <> [] ->
  exists e c', record_identity from (p_security p) c = Done e c' /\ guar o c c' /\ onward o c c' /\
    e_engineId e = u_engineId (p_security p) /\ engineAt c' from = Some e.
Proof.
  intros Hi Hp Ha H3 Hne. destruct (ginv_answered _ _ _ Hi Hp Ha) as (_ & _ & Hs). destruct (Hs H3) as ([Hs1 Hs2] & Hid & _).
  set (id := u_engineId (p_security p)) in *.
  set (e := if e_timeSynced (engine_slot id c)
            then mkEngineState id (e_boots (engine_slot id c)) (e_time (engine_slot id c)) (e_at (engine_slot id c)) true
            else mkEngineState id (u_boots (p_security p)) (u_time (p_security p)) (m_now c) false).
  exists e, (write_row id e (<[from := id]> (m_engineAt c)) c). split; [done|].
  split; [|split; [apply write_row_onward|split; [by subst e; destruct (e_timeSynced _)|]]].
  2: { apply engineAt_some. exists id. cbn. by rewrite !lookup_insert_eq. }
  assert (e_timeSynced (engine_slot id c) = true -> m_engines c !! id = Some (engine_slot id c)) as Hslot.
  { unfold engine_slot. by destruct (m_engines c !! id). }
  assert (forall ep id', <[from := id]> (m_engineAt c) !! ep = Some id' -> id' = id \/ m_engineAt c !! ep = Some id') as Hat.
  { intros ep id'. rewrite lookup_insert_Some. intros [[_ <-]|[_ ?]]; by auto. }
  subst e. destruct (e_timeSynced (engine_slot id c)) eqn:Et; [|by apply write_row_guar].
  specialize (Hslot eq_refl). destruct (inv_engines _ (ginv_client _ Hi) _ _ Hslot) as (_ & Hb & Ht & Hc & Hx).
  apply write_row_guar; try done; [|by auto]. do 2 (split; [done|]). intros _. by apply (ginv_engine _ Hi _ _ Hslot).
Qed.

Lemma record_baseline_guar o c l p id : ginv c -> m_heap c !! l = Some p -> p_answered p = true -> p_v3 p = true ->
  p_replyAuthenticated p = true -> u_boots (p_security p) <> bootsCeiling -> is_Some (m_engines c !! id) ->
  exists c' e, record_baseline id (p_security p) c = Done tt c' /\ guar o c c' /\ onward o c c' /\
    m_engines c' !! id = Some e /\ e_timeSynced e = true.
Proof.
  intros Hi Hp Ha H3 Hr Hb [e0 He0]. destruct (ginv_answered _ _ _ Hi Hp Ha) as (_ & _ & Hs). destruct (Hs H3) as [[Hs1 Hs2] _].
  destruct (inv_engines _ (ginv_client _ Hi) _ _ He0) as (Hid & _).
  set (e := mkEngineState id (u_boots (p_security p)) (u_time (p_security p)) (m_now c) true).
  exists (write_row id e (m_engineAt c) c), e. split; [|split; [|split; [apply write_row_onward|]]].
  - unfold record_baseline, engine_slot, write_row. cbn. rewrite He0. cbn. rewrite Hid. by destruct c.
  - apply write_row_guar; try done; [|by auto]. destruct (ginv_engine _ Hi _ _ He0) as (H1 & H2 & _).
    do 2 (split; [done|]). intros _. by eapply answered_signed.
  - cbn. by rewrite lookup_insert_eq.
Qed.

(** ** One SNMPv3 exchange *)

Lemma exchange_answered o target datagram c ec ws c' p' : exchange_outcome o target datagram c ec ws c' p' ->
  is_error ec = false -> p_answered p' = true /\ ending o c' = false.
Proof.
  unfold exchange_outcome, ending. intros [(_ & ? & -> & ->)|[[-> _]|[[-> _]|[[-> _]|(-> & _)]]]]; try done.
  - by rewrite aborted_is_error.
  - destruct (is_error (p_dropReason p')) eqn:E; by rewrite ?E.
Qed.

Lemma exchange_ended o target datagram c ec ws c' p' : exchange_outcome o target datagram c ec ws c' p' ->
  ending o c = false -> ending o c' = true -> ended o c' ec.
Proof.
  unfold exchange_outcome, ended. intros [(_ & _ & Hs & Ha)|[[-> ?]|[[-> ?]|[(_ & Hx & _)|(_ & _ & Hs & Hz & _)]]]] E E'; auto.
  - unfold ending in E'. by rewrite Hs, Ha in E'.
  - by rewrite Hx in E'.
  - unfold ending in E'. by rewrite Hs, Hz in E'.
Qed.

Lemma exchange_spec {B} o target datagram id p (k : ErrorCode -> loc -> Co B) Q tr c :
  ginv c -> answer_ok (m_received c) p -> p_answered p = false -> p_requestId p = id -> 0 <= timeout target ->
  (forall ec ws c' l p', ginv c' -> onward o c c' -> l.1 = o -> m_heap c' !! l = Some p' -> same_exchange p p' ->
     Forall (exchanging target datagram l) ws -> (sends ws <= attempts_of target)%nat ->
     (is_error ec = false -> p_answered p' = true /\ ending o c' = false /\ (0 < sends ws)%nat) ->
     (ending o c = false -> ending o c' = true -> ended o c' ec) -> exchange_outcome o target datagram c ec ws c' p' ->
     p_dropReason p' = p_dropReason p \/ (0 < sends ws)%nat -> wp o (k ec l) Q (tr ++ ws) c') ->
  wp o (let^ l := new_pending o p in let* ec := transact o target datagram id l in k ec l)%co Q tr c.
Proof.
  intros Hi Ha Hna Hid Ht Hk. apply wpc_new_pending; [done|]. intros l Ho G Hl. apply wpc_bind.
  eapply transact_spec; [by apply G|done|exact Hl|done|done|]. intros ec ws c' p' [A1 A2 A3 A4 A5 A6 A7 _ A8 A9].
  eapply Hk; try done; [by destruct A2| |by eapply (exchange_ended _ _ _ _ _ _ _ _ A8)].
  intros He. destruct (exchange_answered _ _ _ _ _ _ _ _ A8 He) as [Hx Hy]. split; [done|]. split; [done|].
  destruct (A7 Hx); [congruence|done].
Qed.

Lemma blank_answer_ok log p : p_answered p = false -> p_dropReason p = no_error -> key_ok (ssl := ssl) p -> answer_ok log p.
Proof. intros E Hd Hk. split; [done|]. split; [by left|congruence]. Qed.

(** A datagram of phase one: no user, no Engine, no credentials. *)
Definition identifies (datagram : Octets) : Prop :=
  exists id, shows NoAuthNoPriv [] [] (discoveryScopedPdu id []) AuthNone [] PrivNone [] datagram.

(** A datagram in a user's name, at that user's level: encrypted if that level says so, and
    signed, with the user's keys for the Engine it is addressed to. *)
Definition speaks creds (pdu : Pdu) (engineId : Octets) (id : Z) (datagram : Octets) : Prop :=
  exists key pkey, shows (level creds) (userName creds) engineId
      (mkScopedPdu engineId [] (with_requestId id pdu)) (authProtocol creds) key (privProtocol creds) pkey datagram /\
    (isAuthenticated (level creds) = true ->
       derived_auth (ssl := ssl) (authProtocol creds) (authPassword creds) engineId = inr key) /\
    (isEncrypted (level creds) = true ->
       derived_priv (ssl := ssl) (authProtocol creds) (privPassword creds) (privProtocol creds) engineId = inr pkey).

Definition spoken creds pdu (datagram : Octets) : Prop := exists id engineId, speaks creds pdu engineId id datagram.

(** What is sent goes to the target and is one of these. *)
Definition talks target (good : Octets -> Prop) (x : Obs) : Prop :=
  match x with
  | Sent to datagram _ => to = endpoint target /\ good datagram
  | Batched _ _ _ => False
  | _ => True
  end.

Lemma exchanging_talks target (datagram : Octets) l (good : Octets -> Prop) ws : good datagram ->
  Forall (exchanging target datagram l) ws -> Forall (talks target good) ws.
Proof. intros Hg. apply Forall_impl. intros [to d' ec|l' t|dd|b st mo]; cbn; [|done..]. by intros [-> ->]. Qed.

Lemma parks_talks target (good : Octets -> Prop) ws : Forall parks ws -> Forall (talks target good) ws.
Proof. apply Forall_impl. intros []; naive_solver. Qed.

Lemma talks_mono target (good good' : Octets -> Prop) ws : (forall datagram, good datagram -> good' datagram) ->
  Forall (talks target good) ws -> Forall (talks target good') ws.
Proof. intros Hg. apply Forall_impl. intros [to d' ec|l' t|dd|b st mo]; cbn; [|done..]. intros [? ?]; auto. Qed.

Definition discovery_pdu : Pdu := mkPdu Get 0 0 0 [].

(** The two keys, one after the other. *)
Lemma nextId_step {B} o (k : Z -> Co B) Q tr c : ginv c ->
  (forall id c', ginv c' -> onward o c c' -> guar o c c' -> int32_ok id -> wp o (k id) Q tr c') ->
  wp o (co_bind (sync nextId) k) Q tr c.
Proof.
  intros Hi Hk. destruct (nextId_guar o c Hi) as (id & c' & E & G & Hid & On & _).
  eapply wpc_sync; [exact E|exact G|]. apply Hk; [by apply G|done|done|done].
Qed.

Lemma keys_onward o c k : onward o c (with_keys k c).
Proof. by split. Qed.

Lemma salt_onward o c s : onward o c (with_salt s c).
Proof. by split. Qed.

Lemma v3_pending_ok log from id ar auth priv key pkey eid sy :
  (ar = true -> exists pw, derived_auth (ssl := ssl) auth pw eid = inr key) ->
  answer_ok log (v3_pending (Endpoint := Endpoint) from id ar auth priv key pkey eid sy).
Proof. intros Hk. by apply blank_answer_ok. Qed.

Definition zero_usm creds (engineId : Octets) : UsmParameters := mkUsmParameters engineId 0 0 (userName creds) [] [].

Lemma user_usm_ok creds engineId boots time : creds_ok creds -> id_ok engineId -> int32_ok boots -> int32_ok time ->
  usm_ok (mkUsmParameters engineId boots time (userName creds) [] []).
Proof. intros (Hu & _) [He _] Hb Ht. repeat split; try done; try apply Hb; try apply Ht; by apply Forall_nil. Qed.

(** ** Why an operation failed *)

(** A datagram from the target that names something [ws] sent there, addressed to an Engine. *)
Definition heard_from c target ws (engineId datagram : Octets) (raw : V3Message) : Prop :=
  (datagram, endpoint target) ∈ m_received c /\ dec_v3 datagram = inr raw /\
  exists asked msg ec, Sent (endpoint target) asked ec ∈ ws /\ dec_v3 asked = inr msg /\ msgId (header msg) = msgId (header raw) /\
    u_engineId (security msg) = engineId.

Definition heard c target ws (datagram : Octets) (raw : V3Message) : Prop := exists engineId, heard_from c target ws engineId datagram raw.

(** Every attempt sent, and the time of each waited out. *)
Definition waited_out target c ws c' : Prop :=
  (attempts_of target <= sends ws)%nat /\
  m_now c + Z.of_nat (attempts_of target) * (timeout target * 1000000) <= m_now c'.

(** An exchange that came to nothing: stopped or cancelled; no socket could be opened; a
    send failed; or it was waited out, with the reason of a reply that was dropped, if one
    was. *)
Definition unanswered o target c (ec : ErrorCode) ws c' : Prop :=
  ended o c' ec \/
  socket_of (is_v6 (endpoint target)) c' = NoSocket \/
  (exists datagram, Sent (endpoint target) datagram ec ∈ ws) \/
  (waited_out target c ws c' /\ (ec = make_error_code Timeout \/
     exists e datagram raw, e ∈ [AuthFailed; DecryptionFailed; NotInTimeWindow] /\ ec = make_error_code e /\
       heard c' target ws datagram raw)).

(** A Report from the target, and the error it names: where the user authenticates it is
    unsigned and in the clear, or signed with the user's key for the Engine addressed. *)
Definition reported c target creds ws (ec : ErrorCode) : Prop := exists datagram raw msg engineId,
  heard_from c target ws engineId datagram raw /\ engineId <> [] /\
  (if isEncrypted (h_level (header raw))
   then exists pkey, decryptScopedPdu ssl raw (privProtocol creds) pkey tt = Done (inr msg) tt /\
     (isEncrypted (level creds) = true ->
        derived_priv (ssl := ssl) (authProtocol creds) (privPassword creds) (privProtocol creds) engineId = inr pkey)
   else msg = raw) /\
  pdu_type (s_pdu (scoped msg)) = Report /\ ec = reportError (usmStatsCounter (s_pdu (scoped msg))) /\
  (isAuthenticated (level creds) = true -> exempt raw \/
     exists key, derived_auth (ssl := ssl) (authProtocol creds) (authPassword creds) engineId = inr key /\
       verifyAuth ssl datagram raw (authProtocol creds) key tt = Done (inr tt) tt).

Lemma later_sub ws0 ws : ws ⊆ ws0 ++ ws.
Proof. intros x Hx. apply elem_of_app. by right. Qed.

Lemma heard_from_mono c c' target ws ws' engineId datagram raw : m_received c ⊆ m_received c' -> ws ⊆ ws' ->
  heard_from c target ws engineId datagram raw -> heard_from c' target ws' engineId datagram raw.
Proof. intros Hl Hw (H1 & H2 & asked & msg & ec & H3 & H4). split; [by apply Hl|]. split; [done|]. exists asked, msg, ec. auto. Qed.

Lemma heard_mono c c' target ws ws' datagram raw : m_received c ⊆ m_received c' -> ws ⊆ ws' ->
  heard c target ws datagram raw -> heard c' target ws' datagram raw.
Proof. intros Hl Hw [engineId Hh]. exists engineId. by eapply heard_from_mono. Qed.

Lemma reported_mono c c' target creds ws ws' ec : m_received c ⊆ m_received c' -> ws ⊆ ws' ->
  reported c target creds ws ec -> reported c' target creds ws' ec.
Proof. intros Hl Hw (bs & raw & msg & eid & Hh & Hx). exists bs, raw, msg, eid. split; [by eapply heard_from_mono|done]. Qed.

(** Seen from an earlier start. *)
Lemma unanswered_later o target c0 c ec ws0 ws c' : m_now c0 <= m_now c ->
  unanswered o target c ec ws c' -> unanswered o target c0 ec (ws0 ++ ws) c'.
Proof.
  intros Hn [?|[?|[(d & Hd)|[[Hs Ht] Hx]]]]; [by left|by right; left|right; right; left; exists d; by apply later_sub|].
  right; right; right. split; [split; [rewrite sends_app; lia|lia]|]. destruct Hx as [?|(e & bs & raw & H1 & H2 & H3)]; [by left|right].
  exists e, bs, raw. do 2 (split; [done|]). eapply heard_mono; [done|apply later_sub|exact H3].
Qed.

Lemma ended_onward o c c' ec : onward o c c' -> ended o c ec -> ended o c' ec.
Proof. intros On [[? ?]|[? ?]]; [left|right]; (split; [by apply On|done]). Qed.

(** Seen from a later state, with the same sockets. *)
Lemma unanswered_onward o target c ec ws c1 c2 : onward o c1 c2 -> (forall v6, socket_of v6 c2 = socket_of v6 c1) ->
  unanswered o target c ec ws c1 -> unanswered o target c ec ws c2.
Proof.
  intros On Hv [?|[?|[?|[[Hs Ht] Hx]]]]; [left; by eapply ended_onward|right; left; by rewrite Hv|by right; right; left|].
  right; right; right. split; [split; [done|pose proof (on_now _ _ _ On); lia]|].
  destruct Hx as [?|(e & bs & raw & H1 & H2 & H3)]; [by left|right]. exists e, bs, raw. do 2 (split; [done|]).
  eapply heard_mono; [apply On| |exact H3]. done.
Qed.

Lemma exchanging_sent target (datagram : Octets) l ws : Forall (exchanging target datagram l) ws -> (0 < sends ws)%nat ->
  exists ec, Sent (endpoint target) datagram ec ∈ ws.
Proof.
  induction 1 as [|x ws Hx _ IH]; cbn; [lia|]. destruct x as [to d ec|? ?| |].
  2-4: intros Hn; destruct (IH Hn) as [ec He]; exists ec; set_solver.
  destruct Hx as [-> ->]. intros _. exists ec. set_solver.
Qed.

(** A reply to an SNMPv3 exchange was heard. *)
Lemma exchange_heard_from target (datagram : Octets) l p ws c id bs raw lv user eid sp auth key priv pkey :
  shows lv user eid sp auth key priv pkey datagram -> requestId (s_pdu sp) = id -> p_requestId p = id -> p_from p = endpoint target ->
  Forall (exchanging target datagram l) ws -> (0 < sends ws)%nat ->
  (bs, p_from p) ∈ m_received c -> dec_v3 bs = inr raw -> msgId (header raw) = p_requestId p -> heard_from c target ws eid bs raw.
Proof.
  intros (msg & Hd & _ & Hm & _ & He & _) Hid Hq Hf Htr Hn Hin Hraw Hmsg. split; [by rewrite <- Hf|]. split; [done|].
  destruct (exchanging_sent _ _ _ _ Htr Hn) as [ec Hs]. exists datagram, msg, ec. do 2 (split; [done|]). split; [congruence|done].
Qed.

Lemma exchange_heard target (datagram : Octets) l p ws c id bs raw lv user eid sp auth key priv pkey :
  shows lv user eid sp auth key priv pkey datagram -> requestId (s_pdu sp) = id -> p_requestId p = id -> p_from p = endpoint target ->
  Forall (exchanging target datagram l) ws -> (0 < sends ws)%nat ->
  (bs, p_from p) ∈ m_received c -> dec_v3 bs = inr raw -> msgId (header raw) = p_requestId p -> heard c target ws bs raw.
Proof. intros. exists eid. by eapply exchange_heard_from. Qed.

Lemma exchange_unanswered o target (datagram : Octets) l p p' ws c c' ec id lv user eid sp auth key priv pkey :
  exchange_outcome o target datagram c ec ws c' p' -> is_error ec = true -> ginv c' -> m_heap c' !! l = Some p' ->
  p_dropReason p' = p_dropReason p \/ (0 < sends ws)%nat -> p_dropReason p = no_error ->
  shows lv user eid sp auth key priv pkey datagram -> requestId (s_pdu sp) = id -> p_requestId p' = id -> p_from p' = endpoint target ->
  Forall (exchanging target datagram l) ws -> unanswered o target c ec ws c'.
Proof.
  intros Ho He Hi Hp Hdr Hnone Hsh Hid Hq Hf Htr. unfold exchange_outcome in Ho.
  destruct Ho as [(-> & _)|[[-> ?]|[[-> ?]|[(_ & _ & [[_ Hso]|Hs])|(-> & _ & _ & _ & Hs & Ht)]]]].
  - done.
  - left. by right.
  - left. by left.
  - by right; left.
  - right; right; left. by exists datagram.
  - right; right; right. split; [split; [lia|done]|]. destruct (ginv_answers _ Hi _ _ Hp) as (_ & [->|(_ & e & bs & raw & E1 & E2 & E3 & E4 & E5)] & _); [by left|].
    assert (is_error (make_error_code e) = true) as Hee by (apply is_error_make_error_code; intros ->; set_solver).
    rewrite E2, Hee. right. exists e, bs, raw. do 2 (split; [done|]).
    eapply exchange_heard; [exact Hsh|exact Hid|exact Hq|exact Hf|exact Htr| |exact E3|exact E4|exact E5].
    destruct Hdr as [Hx|?]; [|done]. rewrite Hnone, E2 in Hx. by rewrite Hx in Hee.
Qed.

(** A Report to an SNMPv3 exchange of a user, and what it names. *)
Lemma exchange_reported target creds (datagram : Octets) l p ws c id lv user eid sp auth key priv pkey : ginv c -> m_heap c !! l = Some p ->
  p_answered p = true -> p_v3 p = true -> pdu_type (p_response p) = Report -> p_from p = endpoint target -> eid <> [] ->
  p_authRequired p = isAuthenticated (level creds) -> p_authProtocol p = authProtocol creds -> p_privProtocol p = privProtocol creds ->
  (isAuthenticated (level creds) = true ->
     derived_auth (ssl := ssl) (authProtocol creds) (authPassword creds) eid = inr (p_authKey p)) ->
  (isEncrypted (level creds) = true ->
     derived_priv (ssl := ssl) (authProtocol creds) (privPassword creds) (privProtocol creds) eid = inr (p_privKey p)) ->
  shows lv user eid sp auth key priv pkey datagram -> requestId (s_pdu sp) = id -> p_requestId p = id ->
  Forall (exchanging target datagram l) ws -> (0 < sends ws)%nat ->
  reported c target creds ws (reportError (usmStatsCounter (p_response p))).
Proof.
  intros Hi Hp Ha H3 Hr Hf Hne Hq Hau Hpr Hk Hkp Hsh Hid Hpid Htr Hn. destruct (ginv_answered _ _ _ Hi Hp Ha) as (_ & _ & Hev).
  destruct (Hev H3) as (_ & _ & bs & raw & msg & B0 & B1 & B2 & B3 & B4 & B5 & B6 & B7 & _ & B9 & _). exists bs, raw, msg, eid.
  split; [by eapply exchange_heard_from|]. split; [done|]. split; [destruct (isEncrypted (h_level (header raw))); [exists (p_privKey p); by rewrite <- Hpr in *|done]|].
  rewrite <- B6. do 2 (split; [done|]). rewrite <- Hq. intros Hx. destruct (B9 Hx) as [Hy|?]; [right|by left].
  exists (p_authKey p). split; [apply Hk; by rewrite <- Hq|]. rewrite <- Hau. by apply B7.
Qed.

(** A Report that does not say so names another error. *)
Lemma unreported pdu : pdu_type pdu = Report -> reportsNotInTimeWindows pdu = false ->
  reportError (usmStatsCounter pdu) <> make_error_code NotInTimeWindow.
Proof.
  intros Hr. unfold reportsNotInTimeWindows. rewrite bool_decide_true by done. cbn [andb]. intros Hn%bool_decide_eq_false.
  unfold reportError. destruct (usmStatsCounter pdu) as [n|]; [|done].
  destruct (Z.eqb_spec n usmStatsNotInTimeWindows) as [->|]; [done|]. by repeat case_match.
Qed.

(** Why a discovery failed: an exchange that came to nothing; a user who cannot be
    protected; a reply that names no Engine; a Report, and not an unsigned one that says the
    probe is out of time; or a signed reply with a clock that has run out. *)
Definition discovery_failed o target creds c (ec : ErrorCode) ws c' : Prop :=
  unanswered o target c ec ws c' \/ unprotected creds ec \/
  (ec = make_error_code UnknownEngineId /\ exists datagram raw, heard c' target ws datagram raw /\ u_engineId (security raw) = []) \/
  (reported c' target creds ws ec /\ ec <> make_error_code NotInTimeWindow) \/
  (ec = make_error_code NotInTimeWindow /\ exists datagram raw engineId key, heard c' target ws datagram raw /\
     u_boots (security raw) = bootsCeiling /\
     derived_auth (ssl := ssl) (authProtocol creds) (authPassword creds) engineId = inr key /\
     verifyAuth ssl datagram raw (authProtocol creds) key tt = Done (inr tt) tt).

Lemma discovery_failed_later o target creds c0 c ec ws0 ws c' : m_now c0 <= m_now c ->
  discovery_failed o target creds c ec ws c' -> discovery_failed o target creds c0 ec (ws0 ++ ws) c'.
Proof.
  intros Hn [Hx|[?|[(? & bs & raw & Hh & Hx)|[[Hx ?]|(? & bs & raw & eid & key & Hh & Hx)]]]].
  - left. by eapply unanswered_later.
  - by right; left.
  - right; right; left. split; [done|]. exists bs, raw. split; [|done]. eapply heard_mono; [done|apply later_sub|exact Hh].
  - do 3 right; left. split; [|done]. eapply reported_mono; [done|apply later_sub|exact Hx].
  - do 4 right. split; [done|]. exists bs, raw, eid, key. split; [|done]. eapply heard_mono; [done|apply later_sub|exact Hh].
Qed.

Lemma discovery_failed_onward o target creds c ec ws c1 c2 : onward o c1 c2 -> (forall v6, socket_of v6 c2 = socket_of v6 c1) ->
  discovery_failed o target creds c ec ws c1 -> discovery_failed o target creds c ec ws c2.
Proof.
  intros On Hv [Hx|[?|[(? & bs & raw & Hh & Hx)|[[Hx ?]|(? & bs & raw & eid & key & Hh & Hx)]]]].
  - left. by eapply unanswered_onward.
  - by right; left.
  - right; right; left. split; [done|]. exists bs, raw. split; [|done]. by eapply heard_mono; [apply On| |exact Hh].
  - do 3 right; left. split; [|done]. by eapply reported_mono; [apply On| |exact Hx].
  - do 4 right. split; [done|]. exists bs, raw, eid, key. split; [|done]. by eapply heard_mono; [apply On| |exact Hh].
Qed.

(** What a discovery, or a part of it, leaves behind. *)
Record discovery_done o target creds c n (known : client -> Prop) (ec : ErrorCode) ws c' : Prop := {
  dd_inv : ginv c';
  dd_onward : onward o c c';
  dd_trace : Forall (talks target (fun x => identifies x \/ spoken creds discovery_pdu x)) ws;
  dd_sends : (sends ws <= n)%nat;
  dd_known : is_error ec = false -> known c';
  dd_failed : is_error ec = true -> discovery_failed o target creds c ec ws c' }.

Definition synced c : Prop := exists id e, m_engines c !! id = Some e /\ e_timeSynced e = true.

Lemma timeSync_spec o target creds engineId c Q tr : ginv c -> creds_ok creds -> id_ok engineId -> 0 <= timeout target ->
  is_Some (m_engines c !! engineId) -> isAuthenticated (level creds) = true ->
  (forall ec ws c', discovery_done o target creds c (attempts_of target) synced ec ws c' -> Q ec (tr ++ ws) c') ->
  wp o (timeSync ssl o target creds engineId) Q tr c.
Proof.
  intros Hi Hcr Hid Ht Hknown Hauth HQ. unfold timeSync.
  assert (forall ec c', ginv c' -> onward o c c' -> unprotected creds ec -> Q ec tr c') as Hfail.
  { intros ec c' Hi' On' He. pose proof (unprotected_error _ _ He) as Hx. rewrite <- (app_nil_r tr). apply HQ.
    split; try done; [cbn; lia|by rewrite Hx|by right; left]. }
  pose proof Hcr as (_ & Hul & Hao & _).
  destruct (auth_key_step c creds engineId (ginv_keys _ Hi) Hao) as (k1 & E1 & Hk1).
  eapply wpc_or_return; [exact E1|by apply keys_guar|].
  assert (ginv (with_keys k1 c)) as Hi1 by (by apply (keys_guar o c k1 Hk1)).
  destruct (derived_auth _ _ engineId) as [ec|key] eqn:Ed; [apply Hfail; [done|by split|by eapply underived_auth]|].
  destruct (maybe_priv_key_step (with_keys k1 c) creds engineId Hi1 Hcr) as (r & k2 & E2 & Hk2 & Hr).
  set (c1 := with_keys k1 c) in *. assert (ginv (with_keys k2 c1)) as Hi2 by (by apply (keys_guar o c1 k2 Hk2)).
  eapply wpc_or_return; [exact E2|by apply keys_guar|]. destruct r as [ec|pkey]; [apply Hfail; [done|by split|done]|].
  apply nextId_step; [done|]. intros id c3 Hi3 On3 _ Hid32. pose proof (user_usm_ok creds engineId 0 0 Hcr Hid ltac:(done) ltac:(done)) as Hu.
  destruct (encode_step o c3 id (level creds) _ discovery_pdu (authProtocol creds) key (privProtocol creds) (keySpan pkey)
    discovery_request_ok Hid32 Hu (proj2 Hid) Hul eq_refl) as (r & s & E3 & Hsh).
  eapply wpc_or_return; [exact E3|apply salt_guar|].
  assert (ginv (with_salt s c3)) as Hi4 by (by apply (salt_guar o)).
  assert (onward o c (with_salt s c3)) as On4 by (transitivity c3; [by destruct On3|by split]).
  destruct r as [ec|datagram]; [apply Hfail; [done|done|by eapply unsealed, Hsh]|].
  eapply (exchange_spec o target datagram id _ _ Q tr); [done|apply v3_pending_ok; by eauto|done|done|done|].
  intros ec ws c5 l p Hi5 On5 Hl Hp Hsame Htr Hsn Hans _ Hout Hheard.
  assert (forall ec c', ginv c' -> onward o c5 c' -> (is_error ec = false -> synced c') ->
    (is_error ec = true -> discovery_failed o target creds c ec ws c') -> Q ec (tr ++ ws) c') as Hdone.
  { intros ec' c' Hi' On' Hy Hz. apply HQ. split; [done| | |done|done|done].
    - transitivity c5; [|done]. by transitivity (with_salt s c3).
    - eapply exchanging_talks; [|exact Htr]. right. exists id, engineId, key, (keySpan pkey). by split. }
  destruct Hsame as (S1 & _ & H3 & S4 & S5 & S6 & S7 & S8 & _ & S10 & S11). cbn in S1, H3, S4, S5, S6, S7, S8, S10, S11.
  destruct (is_error ec) eqn:Ee.
  { apply Hdone; [done|done|by rewrite Ee|]. intros _. left. eapply (unanswered_later _ _ c _ _ []); [apply (on_now _ _ _ On4)|].
    by eapply exchange_unanswered. }
  destruct (Hans eq_refl) as (Hans' & _ & Hn). clear Hans. rename Hans' into Hans.
  eapply wpc_look; [apply guar_refl|by apply load_ok|].
  destruct (ginv_answered _ _ _ Hi5 Hp Hans) as (Hresp & _ & Hev).
  destruct (p_replyAuthenticated p) eqn:Er; cbn [negb].
  2: { apply Hdone; [done|done|by rewrite reportError_is_error|]. intros _.
    destruct (Hev H3) as (_ & _ & bs & raw & msg & _ & _ & _ & _ & _ & _ & _ & _ & _ & _ & B10).
    destruct (B10 S11) as [?|Hno]; [congruence|].
    assert (pdu_type (p_response p) = Report) as Hrep.
    { destruct (decide (pdu_type (p_response p) = Report)) as [?|Hne]; [done|]. destruct (Hresp Hne) as (_ & _ & Hx). by specialize (Hx H3 S4). }
    do 3 right; left. split; [|by apply unreported].
    eapply exchange_reported; try done; [by destruct Hknown as [e He]; apply (ginv_engine _ Hi _ _ He)|by rewrite S4, Hauth|intros _; by rewrite S7|]. intros Hx. rewrite S8. by apply Hr. }
  destruct (Z.eqb_spec (u_boots (p_security p)) bootsCeiling) as [Hb|Hb].
  { apply Hdone; [done|done|done|]. intros _. do 4 right. split; [done|].
    destruct (Hev H3) as (_ & _ & bs & raw & msg & B0 & B1 & B2 & B3 & B4 & B5 & B6 & B7 & _). destruct (B7 Er) as [_ Hv].
    exists bs, raw, engineId, key. split; [by eapply exchange_heard|]. rewrite <- B5, <- S5. split; [done|]. split; [by rewrite S5|]. by rewrite <- S7. }
  destruct (record_baseline_guar o c5 l p engineId Hi5 Hp Hans H3 Er Hb) as (c6 & e & E6 & G6 & On6 & He & Hs).
  { by apply On5, On4. }
  eapply wpc_sync; [exact E6|exact G6|]. apply Hdone; [by apply G6|done| |done]. intros _. by exists engineId, e.
Qed.

(** What a discovery that succeeded has found: an Engine at the target, and for a user
    who authenticates a synchronised one. *)
Definition discovered target creds c : Prop :=
  if isAuthenticated (level creds) then synced c else is_Some (engineAt c (endpoint target)).

Lemma discoverEngine_spec o target creds c Q tr : ginv c -> creds_ok creds -> 0 <= timeout target ->
  (forall ec ws c', discovery_done o target creds c (2 * attempts_of target) (discovered target creds) ec ws c' ->
     Q ec (tr ++ ws) c') ->
  wp o (discoverEngine ssl o target creds) Q tr c.
Proof.
  intros Hi Hcr Ht HQ. unfold discoverEngine. apply nextId_step; [done|]. intros id c1 Hi1 On1 _ Hid.
  assert (usm_ok (mkUsmParameters [] 0 0 [] [] [])) as Hu by (repeat split; try done; by apply Forall_nil).
  destruct (encode_step o c1 id NoAuthNoPriv _ discovery_pdu AuthNone [] PrivNone []
    discovery_request_ok Hid Hu ltac:(done) ltac:(done) eq_refl) as (r & s & E & Hsh).
  eapply wpc_or_return; [exact E|apply salt_guar|]. assert (ginv (with_salt s c1)) as Hi2 by (by apply (salt_guar o)).
  assert (onward o c (with_salt s c1)) as On2 by (by transitivity c1).
  destruct r as [ec|datagram].
  { destruct Hsh as [_ Hsh]. by destruct Hsh as (_ & ? & _). }
  eapply (exchange_spec o target datagram id _ _ Q tr); [done|by apply v3_pending_ok|done|done|done|].
  intros ec ws c3 l p Hi3 On3 Hl Hp Hsame Htr Hsn Hans _ Hout Hheard.
  assert (Forall (talks target (fun x => identifies x \/ spoken creds discovery_pdu x)) ws) as Htr'.
  { eapply exchanging_talks; [|exact Htr]. left. by exists id. }
  assert (onward o c c3) as On3' by (by transitivity (with_salt s c1)).
  assert (forall ec c', ginv c' -> onward o c3 c' -> (is_error ec = false -> discovered target creds c') ->
    (is_error ec = true -> discovery_failed o target creds c ec ws c') -> Q ec (tr ++ ws) c') as Hdone.
  { intros ec' c' Hi' On' Hy Hz. apply HQ. split; [done|by transitivity c3|done|lia|done|done]. }
  destruct Hsame as (S1 & _ & H3 & _ & _ & _ & _ & _ & _ & S10 & _). cbn in S1, H3, S10.
  destruct (is_error ec) eqn:Ee.
  { apply Hdone; [done|done|by rewrite Ee|]. intros _. left. eapply (unanswered_later _ _ c _ _ []); [apply (on_now _ _ _ On2)|].
    by eapply exchange_unanswered. }
  destruct (Hans eq_refl) as (Hans' & _ & Hn). clear Hans. rename Hans' into Hans.
  eapply wpc_look; [apply guar_refl|by apply load_ok|]. case_bool_decide as Hempty.
  { apply Hdone; [done|done|done|]. intros _. right; right; left. split; [done|].
    destruct (ginv_answered _ _ _ Hi3 Hp Hans) as (_ & _ & Hev).
    destruct (Hev H3) as (_ & _ & bs & raw & msg & B0 & B1 & B2 & B3 & B4 & B5 & _). exists bs, raw. rewrite <- B5. split; [|done]. by eapply exchange_heard. }
  destruct (record_identity_guar o c3 l p (endpoint target) Hi3 Hp Hans H3 ltac:(done)) as (e & c4 & E4 & G4 & On4 & Heid & Hat).
  eapply wpc_sync; [exact E4|exact G4|]. assert (ginv c4) as Hi4 by (by apply G4).
  pose proof Hat as Hat'. apply engineAt_some in Hat' as (eid & Hat1 & Hat2).
  unfold discovered in Hdone. destruct (isAuthenticated (level creds)) eqn:Ea; cbn [negb]; [|by apply Hdone].
  destruct (e_timeSynced e) eqn:Et; [apply Hdone; [done|done| |done]; intros _; by exists eid, e|].
  destruct (ginv_answered _ _ _ Hi3 Hp Hans) as (_ & _ & Hs). destruct (Hs H3) as (_ & Hid3 & _).
  eapply timeSync_spec; [done|done|done|done| |done|].
  { rewrite <- Heid. destruct (inv_engines _ (ginv_client _ Hi4) _ _ Hat2) as [-> _]. by rewrite Hat2. }
  intros ec' ws' c5 [B1 B2 B3 B4 B5 B6]. rewrite <- app_assoc. apply HQ. split; [done| | | | |].
  - transitivity c3; [done|]. by transitivity c4.
  - by apply Forall_app.
  - rewrite sends_app. lia.
  - unfold discovered. by rewrite Ea.
  - intros He. eapply discovery_failed_later; [|by apply B6]. pose proof (on_now _ _ _ On3'). pose proof (on_now _ _ _ On4). lia.
Qed.

Lemma job_onward o job c c' : onward o c c' -> job_ok job c -> job_ok job c'.
Proof.
  intros On (J1 & J2 & J3 & J4). do 2 (split; [done|]). split; [by apply On|]. intros ep E. by eapply J4, On.
Qed.

(** A discovery ends: its entry is gone, nobody is left waiting for it, and whoever
    waited can read how it went. *)
Lemma finish_discovery_guar o c target d ec x : ginv c -> m_discoveries c !! d = Some x ->
  (forall ep, m_discovering c !! ep = Some d -> ep = endpoint target) ->
  let x' := mkDiscovery ∅ (d_woken x ∪ d_waiting x) ec true in
  exists c', finish_discovery target d ec c = Done tt c' /\ guar o c c' /\ onward o c c' /\
    m_engines c' = m_engines c /\ m_engineAt c' = m_engineAt c /\
    m_discoveries c' = <[d := x']> (m_discoveries c) /\ m_discovering c' = delete (endpoint target) (m_discovering c) /\
    forall v6, socket_of v6 c' = socket_of v6 c.
Proof.
  intros Hi Hd Huniq x'. set (h := <[d := x']> (m_discoveries c)). set (m := delete (endpoint target) (m_discovering c)).
  exists (with_discovering m (with_discoveries h c)).
  assert (finish_discovery target d ec c = Done tt (with_discovering m (with_discoveries h c))) as E.
  { unfold finish_discovery, load_discovery, bind, get_st. rewrite Hd. cbn. rewrite lookup_insert_eq. cbn.
    unfold store_discovery, modify, cancel_event. cbn. by rewrite insert_insert_eq. }
  assert (forall d', is_Some (m_discoveries c !! d') -> is_Some (h !! d')) as Hs.
  { intros d' Hd'. unfold h. rewrite lookup_insert_is_Some. destruct (decide (d = d')); by auto. }
  assert (forall ep d', m !! ep = Some d' -> m_discovering c !! ep = Some d' /\ d' <> d) as Hm.
  { intros ep d' [Hne Hl]%lookup_delete_Some. split; [done|]. intros ->. by apply Hne, eq_sym, Huniq. }
  assert (ginv (with_discovering m (with_discoveries h c))) as Hi'.
  { pose proof Hi as [[? ? ?] ? ? ? Hdi Hwt Hp ? ?]. split; [by split|done|done|done| | | |done|done].
    - intros ep d' [Hl Hne]%Hm. destruct (Hdi _ _ Hl) as (y & Hy & Hf). exists y. cbn. unfold h. by rewrite lookup_insert_ne.
    - intros d' y. cbn. unfold h. rewrite lookup_insert_Some. intros [[_ <-]|[_ Hy]]; [done|by eapply Hwt].
    - intros job Hj. destruct (Hp _ Hj) as (J1 & J2 & J3 & J4). do 2 (split; [done|]). split; [by apply Hs|].
      intros ep [Hl _]%Hm. by apply J4. }
  split; [exact E|]. split; [|split; [|done]].
  - split; [|done|done|done|].
    + intros o' Ho'. split; [done..| | | | |done|done].
      * intros l p _ Hp. exists p. split; [done|]. split; [apply same_request_refl|done|by left].
      * exists 0. by rewrite Z.lor_0_r.
      * intros d' y Hy. cbn. unfold h. destruct (decide (d = d')) as [<-|]; [|rewrite lookup_insert_ne by done; exists y; split; [done|apply devolves_refl]].
        rewrite lookup_insert_eq. exists x'. split; [done|]. assert (y = x) as -> by congruence.
        split; [done|cbn; set_solver|cbn; set_solver|by auto].
      * intros ep d' _ [Hl _]%Hm. done.
    + intros d' (y & Hy & Hf). left. revert Hy. cbn. unfold h. rewrite lookup_insert_Some.
      intros [[_ <-]|[_ Hy]]; [done|by exists y].
  - split; [done..| | |done]; [by intros d' Hd'; apply Hs|]. intros ep d' _ [Hl _]%Hm. done.
Qed.

Lemma runDiscovery_spec o job c Q tr : ginv c -> job_ok job c ->
  (forall ec ws c' x, discovery_done o (j_target job) (j_creds job) c (2 * attempts_of (j_target job))
       (discovered (j_target job) (j_creds job)) ec ws c' ->
     m_discoveries c' !! j_discovery job = Some x -> d_finished x = true -> d_ec x = ec -> d_waiting x = ∅ ->
     m_discovering c' !! endpoint (j_target job) = None -> Q tt (tr ++ ws) c') ->
  wp o (runDiscovery ssl o (j_target job) (j_creds job) (j_discovery job)) Q tr c.
Proof.
  destruct job as [target creds d]. cbn [j_target j_creds j_discovery].
  intros Hi Hj HQ. pose proof Hj as (Hcr & Ht & _). unfold runDiscovery. apply wpc_bind. eapply discoverEngine_spec; [done..|].
  intros ec ws c1 [A1 A2 A3 A4 A5 A6]. apply (job_onward _ _ _ _ A2) in Hj as (_ & _ & [x Hx] & Huniq). cbn in Hx, Huniq.
  destruct (finish_discovery_guar o c1 target d ec x A1 Hx Huniq) as (c2 & E & G & On & H1 & H2 & H3 & H4 & H5).
  unfold sync. cbn [wpc]. rewrite E. split; [exact G|].
  eapply (HQ ec ws c2 _); [|by rewrite H3, lookup_insert_eq|done|done|done|by rewrite H4, lookup_delete_eq].
  split; [by apply G|by transitivity c1|done|done| |].
  - intros Hy%A5. revert Hy. unfold discovered, synced, engineAt. by rewrite H1, H2.
  - intros Hy%A6. by eapply discovery_failed_onward.
Qed.

(** ** The SNMPv3 request *)

(** A Response and what vouches for it: a datagram received from the target that carries it, opened with the
    user's privacy key if it was encrypted, and whose digest, if the user authenticates,
    was made with the user's key for [engineId], the very Engine the datagram names. *)
Definition vouched (log : list (Octets * Endpoint)) target creds (engineId : Octets) (response : Pdu) : Prop :=
  exists datagram raw msg, (datagram, endpoint target) ∈ log /\ datagram_ok datagram /\ dec_v3 datagram = inr raw /\
    u_engineId (security raw) = engineId /\ engineId <> [] /\
    (if isEncrypted (h_level (header raw))
     then exists pkey, decryptScopedPdu ssl raw (privProtocol creds) pkey tt = Done (inr msg) tt /\
       (isEncrypted (level creds) = true ->
        derived_priv (ssl := ssl) (authProtocol creds) (privPassword creds) (privProtocol creds) engineId = inr pkey)
     else msg = raw) /\
    response = s_pdu (scoped msg) /\ pdu_type response = Response /\ requestId response = msgId (header raw) /\
    (isAuthenticated (level creds) = true ->
     exists key, derived_auth (ssl := ssl) (authProtocol creds) (authPassword creds) engineId = inr key /\
       verifyAuth ssl datagram raw (authProtocol creds) key tt = Done (inr tt) tt).

Lemma vouched_mono log log' target creds engineId response : log ⊆ log' ->
  vouched log target creds engineId response -> vouched log' target creds engineId response.
Proof. intros Hl (bs & raw & msg & Hin & Hx). exists bs, raw, msg. auto. Qed.

(** A Response to what was asked last: the datagrams the target was sent, at least one, carry
    its request-id. *)
Definition answers target (good : Z -> Octets -> Prop) ws (response : Pdu) : Prop :=
  exists ws1 ws2, ws = ws1 ++ ws2 /\ Forall (talks target (good (requestId response))) ws2 /\ (0 < sends ws2)%nat.

Lemma answers_later target good ws0 ws response : answers target good ws response -> answers target good (ws0 ++ ws) response.
Proof. intros (ws1 & ws2 & -> & Hx). exists (ws0 ++ ws1), ws2. by rewrite <- app_assoc. Qed.

(** The exchange that was answered. *)
Lemma exchange_answers target (good : Z -> Octets -> Prop) datagram l ws0 ws response : good (requestId response) datagram ->
  Forall (exchanging target datagram l) ws -> (0 < sends ws)%nat -> answers target good (ws0 ++ ws) response.
Proof. intros Hg Hx Hn. exists ws0, ws. split; [done|]. split; [by eapply exchanging_talks|done]. Qed.

(** Why an SNMPv3 request failed: an exchange that came to nothing; a user who cannot be
    protected; a discovery it waited for that failed; an Engine that was forgotten since; a
    Report; or a name that cannot be encoded. *)
Definition v3_failed o target creds (pdu : Pdu) c (ec : ErrorCode) ws c' : Prop :=
  unanswered o target c ec ws c' \/ unprotected creds ec \/ parked_out ws ec c' \/
  (ec = make_error_code UnknownEngineId /\ engineAt c' (endpoint target) = None) \/
  reported c' target creds ws ec \/
  (ec = make_error_code OidNotEncodable /\ unencodable pdu).

Lemma parked_out_later ws0 ws ec c : parked_out ws ec c -> parked_out (ws0 ++ ws) ec c.
Proof. intros (d & x & Hd & Hx). exists d, x. split; [by apply later_sub|done]. Qed.

Lemma v3_failed_later o target creds pdu c0 c ec ws0 ws c' : m_now c0 <= m_now c ->
  v3_failed o target creds pdu c ec ws c' -> v3_failed o target creds pdu c0 ec (ws0 ++ ws) c'.
Proof.
  intros Hn [Hx|[?|[Hx|[?|[Hx|?]]]]].
  - left. by eapply unanswered_later.
  - by right; left.
  - right; right; left. by apply parked_out_later.
  - by do 3 right; left.
  - do 4 right; left. by eapply reported_mono; [|apply later_sub|].
  - by do 5 right.
Qed.

(** What a request comes to: an error that is explained and nothing else, or a Response to
    it that someone vouched for, with the error-status it carries. *)
Definition v3_result o target creds pdu c0 (r : ErrorCode * ResponseResult) ws c : Prop :=
  (exists ec, r = refuse ec /\ is_error ec = true /\ v3_failed o target creds pdu c0 ec ws c) \/
  (exists response engineId, r = toResult response /\ vouched (m_received c) target creds engineId response /\
     answers target (speaks creds pdu engineId) ws response).

Record request_done o target creds pdu n c (r : ErrorCode * ResponseResult) ws c' : Prop := {
  rd_inv : ginv c';
  rd_onward : onward o c c';
  rd_trace : Forall (talks target (spoken creds pdu)) ws;
  rd_sends : (sends ws <= n)%nat;
  rd_result : v3_result o target creds pdu c r ws c';
  rd_ended : ending o c' = true -> exists ec, r = refuse ec /\ ended o c' ec;
  rd_mute : unencodable pdu -> sends ws = 0%nat }.

Lemma answered_vouched c l p target creds key pkey engineId : ginv c -> m_heap c !! l = Some p -> p_answered p = true ->
  pdu_type (p_response p) <> Report -> p_v3 p = true -> p_from p = endpoint target -> p_engineId p = engineId -> engineId <> [] ->
  p_authRequired p = isAuthenticated (level creds) -> p_authProtocol p = authProtocol creds ->
  p_privProtocol p = privProtocol creds -> p_authKey p = key -> p_privKey p = pkey ->
  (isAuthenticated (level creds) = true ->
     derived_auth (ssl := ssl) (authProtocol creds) (authPassword creds) engineId = inr key) ->
  (isEncrypted (level creds) = true ->
     derived_priv (ssl := ssl) (authProtocol creds) (privPassword creds) (privProtocol creds) engineId = inr pkey) ->
  vouched (m_received c) target creds engineId (p_response p).
Proof.
  intros Hi Hp Ha Hr H3 Hf He Hne Hq Hau Hpr Hk Hpk Hkey Hpkey.
  destruct (ginv_answered _ _ _ Hi Hp Ha) as (Hresp & _ & Hev).
  destruct (Hev H3) as (_ & _ & bs & raw & msg & B0 & B1 & B2 & B3 & B4 & B5 & B6 & B7 & B8 & _).
  destruct (Hresp Hr) as (Ht & Hid & Hauth). destruct (B8 Hr) as [?|Heng]; [congruence|]. rewrite B5, He in Heng.
  exists bs, raw, msg. rewrite <- Hf. do 5 (split; [done|]). split; [|split; [done|split; [done|split; [congruence|]]]].
  - rewrite Hpr, Hpk in B4. destruct (isEncrypted (h_level (header raw))); [by exists pkey|done].
  - intros Hl. exists key. split; [by apply Hkey|]. rewrite <- Hau, <- Hk. apply B7, Hauth; [done|]. by rewrite Hq.
Qed.

Lemma projected_ok c engine : int32_ok (projected engine c).
Proof.
  unfold projected, swrap, int32_ok. set (z := Z.min _ _).
  pose proof (Z.mod_pos_bound (z + 2 ^ (32 - 1)) (2 ^ 32) ltac:(lia)). lia.
Qed.

(** The keys a level needs, one after the other. *)
Lemma keys_spec {B} o creds eid (fail : ErrorCode -> B) (k : option Octets -> option Octets -> Co B) Q tr c :
  ginv c -> creds_ok creds ->
  (forall ec c', ginv c' -> onward o c c' -> ending o c' = ending o c -> unprotected creds ec -> Q (fail ec) tr c') ->
  (forall key pkey c', ginv c' -> onward o c c' -> ending o c' = ending o c ->
     (isAuthenticated (level creds) = true ->
        derived_auth (ssl := ssl) (authProtocol creds) (authPassword creds) eid = inr (keySpan key)) ->
     (isEncrypted (level creds) = true ->
        derived_priv (ssl := ssl) (authProtocol creds) (privPassword creds) (privProtocol creds) eid = inr (keySpan pkey)) ->
     wp o (k key pkey) Q tr c') ->
  wp o (or_return (if isAuthenticated (level creds)
                   then let+ x := localizedKey ssl creds eid in ret (inr (Some x)) else ret (inr None)) fail (fun key =>
        or_return (if isEncrypted (level creds)
                   then let+ x := localizedPrivacyKey ssl creds eid in ret (inr (Some x)) else ret (inr None)) fail (fun pkey =>
        k key pkey))) Q tr c.
Proof.
  intros Hi Hcr Hfail Hk. destruct (maybe_auth_key_step c creds eid Hi Hcr) as (r1 & k1 & E1 & Hk1 & Hr1).
  eapply wpc_or_return; [exact E1|by apply keys_guar|].
  assert (ginv (with_keys k1 c)) as Hi1 by (by apply (keys_guar o)). set (c1 := with_keys k1 c) in *.
  assert (onward o c c1) as On1 by (by split).
  destruct r1 as [ec1|key]; [by apply Hfail|].
  destruct (maybe_priv_key_step c1 creds eid Hi1 Hcr) as (r2 & k2 & E2 & Hk2 & Hr2).
  eapply wpc_or_return; [exact E2|by apply keys_guar|].
  assert (ginv (with_keys k2 c1)) as Hi2 by (by apply (keys_guar o)). set (c2 := with_keys k2 c1) in *.
  assert (onward o c c2) as On2 by (transitivity c1; [done|by split]).
  destruct r2 as [ec2|pkey]; [by apply Hfail|by apply Hk].
Qed.

(** What becomes of a reply. *)
Lemma v3_reply_spec o target creds pdu mayRetry retry ec c0 c l p Q tr ws :
  ~ unencodable pdu -> ginv c -> onward o c0 c -> m_heap c !! l = Some p -> p_v3 p = true ->
  Forall (talks target (spoken creds pdu)) ws -> (sends ws <= attempts_of target)%nat ->
  (is_error ec = false -> p_answered p = true /\ ending o c = false) ->
  (ending o c = true -> ended o c ec) -> (is_error ec = true -> v3_failed o target creds pdu c0 ec ws c) ->
  (is_error ec = false -> pdu_type (p_response p) = Report ->
     reported c target creds ws (reportError (usmStatsCounter (p_response p)))) ->
  (is_error ec = false -> pdu_type (p_response p) <> Report ->
     exists engineId, vouched (m_received c) target creds engineId (p_response p) /\
       answers target (speaks creds pdu engineId) ws (p_response p)) ->
  (forall r ws c', request_done o target creds pdu (attempts_of target) c0 r ws c' -> Q r (tr ++ ws) c') ->
  (mayRetry = true -> forall ws c', ginv c' -> onward o c0 c' -> ending o c' = false ->
     Forall (talks target (spoken creds pdu)) ws -> (sends ws <= attempts_of target)%nat -> wp o retry Q (tr ++ ws) c') ->
  wp o (if is_error ec then CoRet (refuse ec)
        else
          let^ p := load l in
          if bool_decide (pdu_type (p_response p) = Report) then
            let^ failure := handleReport (endpoint target) p mayRetry in
            match failure with
            | None => retry
            | Some ec => CoRet (refuse ec)
            end
          else
            (if p_replyAuthenticated p then observeEngineTime (endpoint target) (p_security p) else ret tt) ;^
            CoRet (toResult (p_response p)))%co Q (tr ++ ws) c.
Proof.
  intros Hne Hi On Hp H3 Htr Hsn Hans Hend Hfl Hrp Hv HQ Hretry. destruct (is_error ec) eqn:Ee.
  { apply HQ. split; try done; [left; exists ec; by auto|]. intros He. exists ec. by auto. }
  destruct (Hans eq_refl) as [Ha Hcalm]. eapply wpc_look; [apply guar_refl|by apply load_ok|]. case_bool_decide as Hrep.
  - destruct (report_guar o c l p (endpoint target) mayRetry Hi Hp Ha H3) as (r & c7 & E7 & G7 & On7 & Hr).
    pose proof (guar_calm _ _ _ G7 Hcalm) as Hcalm7. eapply wpc_sync; [exact E7|exact G7|]. destruct r as [ec7|].
    + destruct Hr as (He7 & -> & ->). apply HQ. split; [done|done|done|done| |by rewrite Hcalm7|done].
      left. eexists. do 2 (split; [done|]). do 4 right; left. by apply Hrp.
    + apply Hretry; [done|by apply G7|by transitivity c|done|done|done].
  - assert (exists c7, (if p_replyAuthenticated p then observeEngineTime (endpoint target) (p_security p) else ret tt) c =
      Done tt c7 /\ guar o c c7 /\ onward o c c7) as (c7 & E7 & G7 & On7).
    { destruct (p_replyAuthenticated p) eqn:Er; [by eapply observe_guar|]. exists c. split; [done|]. by split; [apply guar_refl|]. }
    pose proof (guar_calm _ _ _ G7 Hcalm) as Hcalm7. eapply wpc_sync; [exact E7|exact G7|].
    apply HQ. split; [by apply G7|by transitivity c|done|done| |by rewrite Hcalm7|done]. right.
    destruct (Hv eq_refl Hrep) as (engineId & Hv1 & Hv2). exists (p_response p), engineId. split; [done|]. split; [|done]. eapply vouched_mono; [apply On7|done].
Qed.

Lemma exchangeV3_spec o target creds pdu mayRetry retry c Q tr :
  ginv c -> creds_ok creds -> request_given pdu -> 0 <= timeout target -> ending o c = false ->
  (forall r ws c', request_done o target creds pdu (attempts_of target) c r ws c' -> Q r (tr ++ ws) c') ->
  (mayRetry = true -> ~ unencodable pdu -> forall ws c', ginv c' -> onward o c c' -> ending o c' = false -> Forall (talks target (spoken creds pdu)) ws ->
     (sends ws <= attempts_of target)%nat -> wp o retry Q (tr ++ ws) c') ->
  wp o (exchangeV3 ssl o target creds pdu mayRetry retry) Q tr c.
Proof.
  intros Hi Hcr Hpdu Ht Hc HQ Hretry. unfold exchangeV3. apply wpc_bind. eapply ensureEngine_spec; [done..|].
  intros ec ws1 c1 Hi1 On1 Hws1 Hend1 Hpo. specialize (Hend1 Hc).
  assert (Forall (talks target (spoken creds pdu)) ws1) as Htr1 by (by eapply parks_talks).
  pose proof (parks_sends _ Hws1) as Hsn1.
  assert (forall ec c', ginv c' -> onward o c c' -> is_error ec = true -> v3_failed o target creds pdu c ec ws1 c' ->
    (ending o c' = true -> ended o c' ec) -> Q (refuse ec) (tr ++ ws1) c') as Hfail.
  { intros ec' c' Hi' On' He Hf Hx. apply HQ. split; try done; [lia|left; by exists ec'|]. intros Hy. exists ec'. by auto. }
  destruct (is_error ec) eqn:Ee.
  { apply Hfail; [done|done|done| |done]. destruct (Hpo eq_refl) as [?|?]; [by left; left|by right; right; left]. }
  assert (ending o c1 = false) as Hc1.
  { destruct (ending o c1); [|done]. specialize (Hend1 eq_refl). by rewrite (ended_error _ _ _ Hend1) in Ee. }
  eapply wpc_look; [apply guar_refl|done|].
  destruct (engineAt c1 (endpoint target)) as [engine|] eqn:Eat; [|apply Hfail; [done|done|done|by do 3 right; left|by rewrite Hc1]].
  apply engineAt_some in Eat as (eid & _ & Heid).
  destruct (inv_engines _ (ginv_client _ Hi1) _ _ Heid) as (Hid & Hb & _). rewrite Hid.
  destruct (ginv_engine _ Hi1 _ _ Heid) as (Hido & Hne & _).
  apply (keys_spec o creds eid refuse); [done..| |].
  { intros ec' c' Hi' On' E' He. apply Hfail; [done|by transitivity c1|by eapply unprotected_error|by right; left|]. by rewrite E', Hc1. }
  intros key pkey c3 Hi3 On3 E3 Hr1 Hr2. assert (ending o c3 = false) as Hc3 by (by rewrite E3).
  assert (onward o c c3) as On3' by (by transitivity c1).
  apply nextId_step; [done|]. intros id c4 Hi4 On4 G4 Hid32. pose proof (guar_calm _ _ _ G4 Hc3) as Hc4.
  pose proof (user_usm_ok creds eid (e_boots engine) (projected engine c1) Hcr Hido Hb (projected_ok c1 engine)) as Hu.
  destruct (request_given_cases _ Hpdu) as [Hsend|(Hp1 & Hp2 & Hp3)].
  2: { destruct (refuse_step c4 id (level creds) (mkUsmParameters eid (e_boots engine) (projected engine c1) (userName creds) [] []) pdu
         (authProtocol creds) (keySpan key) (privProtocol creds) (keySpan pkey) Hp1 Hp2 Hp3 Hid32 (proj1 Hido) (proj2 Hido)) as (ec3 & s & E4 & He3 & Hx).
       eapply wpc_or_return; [exact E4|apply salt_guar|]. apply Hfail; [by apply (salt_guar o)| |done| |].
       - transitivity c3; [done|]. transitivity c4; [done|by split].
       - destruct (unsealed_or creds eid (keySpan pkey) ec3 (ec3 = make_error_code OidNotEncodable) Hcr) as [?|?]; [done|done|by do 5 right|by right; left].
       - by rewrite (Hc4 : ending o (with_salt s c4) = false). }
  destruct (encode_step o c4 id (level creds) _ pdu (authProtocol creds) (keySpan key) (privProtocol creds) (keySpan pkey)
    Hsend Hid32 Hu (proj2 Hido) ltac:(apply Hcr) eq_refl) as (r & s & E4 & Hsh).
  eapply wpc_or_return; [exact E4|apply salt_guar|].
  assert (ginv (with_salt s c4)) as Hi5 by (by apply (salt_guar o)).
  assert (onward o c (with_salt s c4)) as On5 by (transitivity c3; [done|]; transitivity c4; [done|by split]).
  assert (ending o (with_salt s c4) = false) as Hc5 by exact Hc4.
  destruct r as [ec3|datagram].
  { destruct Hsh as [He3 Hsh]. apply Hfail; [done|done|done| |by rewrite Hc5]. right; left. by eapply unsealed. }
  eapply (exchange_spec o target datagram id _ _ Q (tr ++ ws1)); [done|apply v3_pending_ok; by eauto|done|done|done|].
  intros ec4 ws c6 l p Hi6 On6 Hl Hp Hsame Htr Hsn Hans Hend6 Hout Hheard. rewrite <- app_assoc.
  destruct Hsame as (S1 & S2 & S3 & S4 & S5 & S6 & S7 & S8 & S9 & S10 & S11). cbn in S1, S3, S4, S5, S6, S7, S8, S9, S10.
  eapply (v3_reply_spec o target creds pdu mayRetry retry ec4 c); [by apply request_ok_encodable|done| |done|done| | |intros He; by destruct (Hans He) as (? & ? & _)|by auto| | | |done|].
  - by transitivity (with_salt s c4).
  - apply Forall_app. split; [done|]. eapply exchanging_talks; [|exact Htr]. exists id, eid, (keySpan key), (keySpan pkey). by split.
  - rewrite sends_app. lia.
  - intros He. eapply v3_failed_later; [apply (on_now _ _ _ On5)|]. left. by eapply exchange_unanswered.
  - intros He Hrep. destruct (Hans He) as (Ha & _ & Hn). eapply reported_mono; [done|apply later_sub|].
    eapply exchange_reported; try done; intros Hx; [rewrite S7; by apply Hr1|rewrite S8; by apply Hr2].
  - intros He Hrep. destruct (Hans He) as (Ha & _ & Hn). exists eid. split; [by eapply answered_vouched|].
    eapply exchange_answers; [|exact Htr|done]. destruct (ginv_answered _ _ _ Hi6 Hp Ha) as (Hresp & _).
    destruct (Hresp Hrep) as (_ & Hq & _). rewrite Hq, S10. exists (keySpan key), (keySpan pkey). by split.
  - intros Hm. apply Hretry; [done|]. by apply request_ok_encodable.
Qed.

(** ** The contract of a request *)

(** What the caller passes, before anything is checked. *)
Definition auth_given (auth : Auth) : Prop :=
  match auth with
  | AuthCommunity community => octets_ok community /\ zlen community <= 65535
  | AuthCredentials creds =>
      octets_ok (userName creds) /\ zlen (userName creds) <= 65535 /\
      octets_ok (authPassword creds) /\ octets_ok (privPassword creds)
  end.

(** What is refused before anything is done: a Client that is stopping, and a level that
    claims what the protocols named cannot give. *)
Definition refused_early c (auth : Auth) : option Errc :=
  if m_stopping c then Some ClientStopped
  else match auth with
       | AuthCommunity _ => None
       | AuthCredentials creds =>
           if isEncrypted (level creds) && bool_decide (privProtocol creds = PrivNone) then Some UnsupportedPrivProtocol
           else if isAuthenticated (level creds) && bool_decide (authProtocol creds = AuthNone)
           then Some UnsupportedAuthProtocol
           else None
       end.

(** What a datagram of a request to an Engine is; a v2c request knows no Engine. *)
Definition asks (auth : Auth) (pdu : Pdu) (engineId : Octets) (id : Z) (datagram : Octets) : Prop :=
  match auth with
  | AuthCommunity community => enc_v2c (mkV2cMessage community (with_requestId id pdu)) = Some datagram
  | AuthCredentials creds => speaks creds pdu engineId id datagram
  end.

Definition utters (auth : Auth) (pdu : Pdu) (datagram : Octets) : Prop := exists id engineId, asks auth pdu engineId id datagram.

(** What stands behind a Response that was handed out: a datagram received from the
    target. *)
Definition backed_at (log : list (Octets * Endpoint)) target (auth : Auth) (engineId : Octets) (response : Pdu) : Prop :=
  match auth with
  | AuthCommunity community => exists datagram msg, (datagram, endpoint target) ∈ log /\ datagram_ok datagram /\
      dec_whole p_v2c datagram = inr msg /\
      response = v2c_pdu msg /\ pdu_type response = Response /\ v2c_community msg = community
  | AuthCredentials creds => vouched log target creds engineId response
  end.

Definition backed log target (auth : Auth) (response : Pdu) : Prop := exists engineId, backed_at log target auth engineId response.

Lemma backed_at_mono log log' target auth engineId response : log ⊆ log' ->
  backed_at log target auth engineId response -> backed_at log' target auth engineId response.
Proof.
  intros Hl. destruct auth; [|by apply vouched_mono]. intros (bs & msg & Hin & Hx). exists bs, msg. auto.
Qed.

Lemma backed_mono log log' target auth response : log ⊆ log' -> backed log target auth response -> backed log' target auth response.
Proof. intros Hl [engineId Hb]. exists engineId. by eapply backed_at_mono. Qed.

(** Exchanges a request may take: the second only after a Report. *)
Definition exchanges (auth : Auth) : nat := match auth with AuthCommunity _ => 1 | AuthCredentials _ => 2 end.

(** Why a v2c request is over: a Response that answers it; cancelled; stopped; the system's error at a
    socket or a send; [Timeout], with every attempt sent and waited out; or a name that
    cannot be encoded. *)
Definition v2c_outcome o target (community : cstring) (pdu : Pdu) c (r : ErrorCode * ResponseResult) ws c' : Prop :=
  (exists response, r = toResult response /\ backed (m_received c') target (AuthCommunity community) response /\
     answers target (fun id datagram => enc_v2c (mkV2cMessage community (with_requestId id pdu)) = Some datagram) ws response) \/
  (r = refuse operation_aborted /\ cancelled o c' <> 0) \/
  (r = refuse (make_error_code ClientStopped) /\ m_stopping c' = true) \/
  (exists ec, r = refuse ec /\ is_error ec = true /\
     ((ws = [] /\ socket_of (is_v6 (endpoint target)) c' = NoSocket) \/ exists datagram, Sent (endpoint target) datagram ec ∈ ws)) \/
  (r = refuse (make_error_code Timeout) /\ sends ws = attempts_of target /\
   m_now c + Z.of_nat (attempts_of target) * (timeout target * 1000000) <= m_now c') \/
  (r = refuse (make_error_code OidNotEncodable) /\ ws = [] /\ unencodable pdu).

(** Why an SNMPv3 request is over: refused at once, answered, or failed for a reason. *)
Definition v3_outcome o target creds (pdu : Pdu) c (r : ErrorCode * ResponseResult) ws c' : Prop :=
  (exists e, refused_early c (AuthCredentials creds) = Some e /\ r = refuse (make_error_code e)) \/
  v3_result o target creds pdu c r ws c'.

Record completed o target (auth : Auth) pdu c (r : ErrorCode * ResponseResult) ws c' : Prop := {
  co_inv : ginv c';
  co_now : m_now c <= m_now c';
  co_received : m_received c ⊆ m_received c';
  co_trace : Forall (talks target (utters auth pdu)) ws;
  co_sends : (sends ws <= exchanges auth * attempts_of target)%nat;
  co_early e : refused_early c auth = Some e -> ws = [] /\ r = refuse (make_error_code e);
  co_mute : unencodable pdu -> sends ws = 0%nat;
  co_ended : ending o c' = true -> exists ec, r = refuse ec /\ ended o c' ec;
  co_result : (exists ec, r = refuse ec /\ is_error ec = true) \/
              (exists response engineId, r = toResult response /\ backed_at (m_received c') target auth engineId response /\
                 answers target (asks auth pdu engineId) ws response);
  co_outcome : match auth with AuthCommunity community => v2c_outcome o target community pdu c r ws c'
               | AuthCredentials creds => v3_outcome o target creds pdu c r ws c' end }.

(** Only a request that can be encoded is answered. *)
Lemma completed_encodable o target auth pdu c r ws c' : completed o target auth pdu c r ws c' -> is_error r.1 = false -> ~ unencodable pdu.
Proof.
  intros [_ _ _ _ _ _ Hm _ Hr _] He Hn. specialize (Hm Hn). destruct Hr as [(ec & -> & Hx)|(response & eid & _ & _ & (ws1 & ws2 & -> & _ & Hs))].
  - cbn in He. congruence.
  - rewrite sends_app in Hm. lia.
Qed.

Lemma exchange_v2c_outcome o target community pdu datagram c0 c ec ws c' p' : exchange_outcome o target datagram c ec ws c' p' ->
  is_error ec = true -> p_dropReason p' = no_error -> m_now c0 <= m_now c -> v2c_outcome o target community pdu c0 (refuse ec) ws c'.
Proof.
  unfold exchange_outcome, v2c_outcome. intros [(-> & _)|[[-> ?]|[[-> ?]|[(_ & _ & Hx)|(-> & _ & _ & _ & Hs & Ht)]]]] He Hd Hn; [done|by auto|by auto| |].
  - do 3 right; left. exists ec. do 2 (split; [done|]). destruct Hx; [by left|right; by eexists].
  - do 4 right; left. rewrite Hd. do 2 (split; [done|]). lia.
Qed.

Lemma refused_at_once o target auth pdu c e c' : ginv c' -> m_now c' = m_now c -> m_received c' = m_received c ->
  m_stopping c' = m_stopping c -> refused_early c auth = Some e ->
  (ending o c' = true -> e = ClientStopped /\ m_stopping c' = true) ->
  completed o target auth pdu c (refuse (make_error_code e)) [] c'.
Proof.
  intros Hi Hn Hl Hs He Hx. split; try done; [lia|by rewrite Hl|cbn; lia|intros e'; rewrite He; by intros [= <-]| |left; eexists; split; [done|]|].
  2: { unfold refused_early in He. repeat case_match; by simplify_eq. }
  2: { destruct auth; [|left; by exists e]. unfold refused_early in He. destruct (m_stopping c) eqn:Es; [|done]. injection He as <-.
       right; right; left. split; [done|]. by rewrite Hs. }
  intros [-> Hst]%Hx. eexists. split; [done|]. by left.
Qed.

Lemma reset_calm o c : m_stopping c = false -> ending o (with_cancelled (<[o := 0]> (m_cancelled c)) c) = false.
Proof. intros Es. unfold ending, cancelled. cbn. by rewrite Es, lookup_insert_eq. Qed.

Lemma doRequestV3_spec o target creds pdu c Q tr :
  ginv c -> auth_given (AuthCredentials creds) -> request_given pdu -> 0 <= timeout target ->
  (forall r ws c', completed o target (AuthCredentials creds) pdu c r ws c' -> Q r (tr ++ ws) c') ->
  wp o (doRequestV3 ssl o target creds pdu) Q tr c.
Proof.
  intros Hi Hcr Hpdu Ht HQ. unfold doRequestV3. eapply wpc_look; [apply guar_refl|done|].
  assert (forall e c', ginv c' -> m_now c' = m_now c -> m_received c' = m_received c -> m_stopping c' = m_stopping c -> refused_early c (AuthCredentials creds) = Some e ->
    (ending o c' = true -> e = ClientStopped /\ m_stopping c' = true) -> Q (refuse (make_error_code e)) tr c') as Hfail.
  { intros e c' Hi' Hn Hl Hst He Hx. rewrite <- (app_nil_r tr). by apply HQ, refused_at_once. }
  unfold refused_early in Hfail. destruct (m_stopping c) eqn:Es; [by apply Hfail|].
  pose proof (reset_calm o c Es) as Hc1.
  eapply wpc_sync; [done|apply reset_guar|]. set (c1 := with_cancelled _ c) in *. assert (ginv c1) as Hi1 by (by apply (reset_guar o)).
  destruct (isEncrypted (level creds) && _) eqn:E1; [apply Hfail; [done..|by rewrite Hc1]|].
  destruct (isAuthenticated (level creds) && _) eqn:E2; [apply Hfail; [done..|by rewrite Hc1]|].
  assert (creds_ok creds) as Hok.
  { destruct Hcr as (H1 & H2 & H3 & H4). do 4 (split; [done|]).
    split; intros Hx Hy; [rewrite Hx, (bool_decide_true _ Hy) in E2|rewrite Hx, (bool_decide_true _ Hy) in E1]; done. }
  assert (forall r ws c', request_done o target creds pdu (2 * attempts_of target) c1 r ws c' -> Q r (tr ++ ws) c') as Hdone.
  { intros r ws c' [A1 A2 A3 A4 A5 A6 A7]. apply HQ.
    split; [done|by apply A2|apply (on_received _ _ _ A2)|done|done| |done|done| |by right].
    - unfold refused_early. by rewrite Es, E1, E2.
    - destruct A5 as [(ec & ? & ? & _)|?]; [left; by exists ec|by right]. }
  eapply exchangeV3_spec; [done..| |].
  { intros r ws c' [A1 A2 A3 A4 A5 A6 A7]. apply Hdone. split; [done..|lia|done|done|done]. }
  intros _ Hen ws1 c2 Hi2 On2 Hc2 Htr1 Hsn1. eapply exchangeV3_spec; [done..| |done].
  intros r ws c' [A1 A2 A3 A4 A5 A6 A7]. rewrite <- app_assoc. apply Hdone. split; [done|by transitivity c2| | | |done|done].
  - by apply Forall_app.
  - rewrite sends_app. lia.
  - destruct A5 as [(ec & E & He & Hf)|(response & engineId & E & Hv & Hx)]; [left; exists ec|right; exists response, engineId]; (split; [done|]; split; [done|]).
    + eapply v3_failed_later; [apply (on_now _ _ _ On2)|done].
    + by apply answers_later.
Qed.

Lemma encode_v2c_step {T} id community pdu (c : T) : request_ok pdu -> int32_ok id -> octets_ok community -> zlen community <= 65535 ->
  exists out, encodeV2cMessage community (with_requestId id pdu) c = Done (inr out) c /\
    enc_v2c (mkV2cMessage community (with_requestId id pdu)) = Some out /\ zlen out < 2 ^ 21.
Proof.
  intros [(H1 & H2 & H3 & H4) (vs & Hv & Hl)] Hid Hc Hcl.
  assert (pdu_ok (with_requestId id pdu)) as Hok by exact (conj Hid (conj H2 (conj H3 H4))).
  set (body := tlv_int id ++ tlv_int (errorStatus pdu) ++ tlv_int (errorIndex pdu) ++ vs).
  set (out := enc_tlv tag.sequence (tlv_int versionV2c ++ enc_tlv tag.octetString community ++ enc_tlv (pdu_tag (pdu_type pdu)) body)).
  assert (enc_v2c (mkV2cMessage community (with_requestId id pdu)) = Some out) as He.
  { unfold enc_v2c, enc_pdu. cbn [v2c_pdu v2c_community varbinds with_requestId]. by rewrite Hv. }
  pose proof (tlv_int_bound id). pose proof (tlv_int_bound (errorStatus pdu)). pose proof (tlv_int_bound (errorIndex pdu)).
  pose proof (tlv_int_bound versionV2c). subst body out.
  set (a := tlv_int id) in *. set (b := tlv_int (errorStatus pdu)) in *. set (x := tlv_int (errorIndex pdu)) in *.
  set (v := tlv_int versionV2c) in *.
  pose proof (enc_tlv_bound (pdu_tag (pdu_type pdu)) (a ++ b ++ x ++ vs) ltac:(rewrite !zlen_app; lia)) as B1.
  rewrite !zlen_app in B1. set (y := enc_tlv (pdu_tag _) _) in *.
  pose proof (enc_tlv_bound tag.octetString community ltac:(lia)) as B2. set (z := enc_tlv _ community) in *.
  pose proof (enc_tlv_bound tag.sequence (v ++ z ++ y) ltac:(rewrite !zlen_app; lia)) as B4. rewrite !zlen_app in B4.
  exists (enc_tlv tag.sequence (v ++ z ++ y)). split; [|split; [exact He|lia]].
  pose proof (local_writer _ _ ret c (v2c_refines community (with_requestId id pdu) Hok)) as R. rewrite He in R. apply R. lia.
Qed.

Lemma refuse_v2c_step {T} id community pdu (c : T) : pdu_ok pdu -> unencodable pdu -> int32_ok id ->
  encodeV2cMessage community (with_requestId id pdu) c = Done (inl (make_error_code OidNotEncodable)) c.
Proof.
  intros (H1 & H2 & H3 & H4) Hn Hid.
  assert (pdu_ok (with_requestId id pdu)) as Hok by exact (conj Hid (conj H2 (conj H3 H4))).
  pose proof (local_writer _ _ ret c (v2c_refines community (with_requestId id pdu) Hok)) as R. revert R.
  unfold enc_v2c, enc_pdu. cbn [v2c_pdu v2c_community varbinds with_requestId]. unfold unencodable in Hn. by rewrite Hn.
Qed.

Lemma doRequestV2c_spec o target community pdu c Q tr :
  ginv c -> auth_given (AuthCommunity community) -> request_given pdu -> 0 <= timeout target ->
  (forall r ws c', completed o target (AuthCommunity community) pdu c r ws c' -> Q r (tr ++ ws) c') ->
  wp o (doRequestV2c o target community pdu) Q tr c.
Proof.
  intros Hi [Hco Hcl] Hpdu Ht HQ. unfold doRequestV2c. eapply wpc_look; [apply guar_refl|done|].
  destruct (m_stopping c) eqn:Es.
  { cbn. rewrite <- (app_nil_r tr). apply HQ, refused_at_once; try done. unfold refused_early. by rewrite Es. }
  pose proof (reset_calm o c Es) as Hc1.
  eapply wpc_sync; [done|apply reset_guar|]. set (c1 := with_cancelled _ c) in *. assert (ginv c1) as Hi1 by (by apply (reset_guar o)).
  apply nextId_step; [done|]. intros id c2 Hi2 On2 G2 Hid. pose proof (guar_calm _ _ _ G2 Hc1) as Hc2.
  destruct (request_given_cases _ Hpdu) as [Hsend|(Hp1 & Hp2 & _)].
  2: { eapply wpc_look; [apply guar_refl|by apply refuse_v2c_step|]. cbn. rewrite <- (app_nil_r tr). apply HQ.
       split; [done|exact (on_now _ _ _ On2)|apply On2|by apply Forall_nil|cbn; lia| |done| | |by do 5 right].
       - unfold refused_early. by rewrite Es.
       - by rewrite Hc2.
       - left. by eexists. }
  assert (~ unencodable pdu) as Hen by (by apply request_ok_encodable).
  destruct (encode_v2c_step id community pdu c2 Hsend Hid Hco Hcl) as (datagram & E & He & _).
  eapply wpc_look; [apply guar_refl|exact E|].
  eapply (exchange_spec o target datagram id _ _ Q tr); [done|by apply blank_answer_ok; [| |intros ?]|done|done|done|].
  intros ec ws c3 l p Hi3 On3 Hl Hp Hsame Htr Hsn Hans Hend Hout _. specialize (Hend Hc2).
  assert (forall r, ((exists ec, r = refuse ec /\ is_error ec = true) \/
      (exists response engineId, r = toResult response /\ backed_at (m_received c3) target (AuthCommunity community) engineId response /\
         answers target (asks (AuthCommunity community) pdu engineId) ws response)) ->
      (ending o c3 = true -> exists ec, r = refuse ec /\ ended o c3 ec) -> v2c_outcome o target community pdu c r ws c3 -> Q r (tr ++ ws) c3) as Hdone.
  { intros r Hr Hx Hy. apply HQ. split; [done| | | | | |done|done|done|done].
    - pose proof (on_now _ _ _ On2). pose proof (on_now _ _ _ On3). cbn in *. lia.
    - transitivity (m_received c2); [apply On2|apply On3].
    - eapply exchanging_talks; [|exact Htr]. by exists id, [].
    - cbn. lia.
    - unfold refused_early. by rewrite Es. }
  destruct (is_error ec) eqn:Ee; [apply Hdone; [left; by exists ec|intros Hx; exists ec; by auto|]|].
  { eapply exchange_v2c_outcome; [exact Hout|done| |exact (on_now _ _ _ On2)].
    destruct (ginv_answers _ Hi3 _ _ Hp) as (_ & [?|[Hv _]] & _); [done|]. destruct Hsame as (_ & _ & S3 & _). cbn in S3. congruence. }
  destruct (Hans eq_refl) as (Ha & Hcalm & Hn). eapply wpc_look; [apply guar_refl|by apply load_ok|].
  assert (backed_at (m_received c3) target (AuthCommunity community) [] (p_response p) /\
    answers target (asks (AuthCommunity community) pdu []) ws (p_response p)) as [Hb Hx].
  2: { apply Hdone; [right; by exists (p_response p), []|by rewrite Hcalm|left]. exists (p_response p). split; [done|].
       split; [by exists []|done]. }
  destruct Hsame as (S1 & S2 & S3 & _ & _ & _ & _ & _ & _ & S10 & _). cbn in S1, S2, S3, S10.
  destruct (ginv_answered _ _ _ Hi3 Hp Ha) as (_ & Hv & _). destruct (Hv S3) as (bs & msg & B0 & B1 & B2 & B3 & B4 & B5 & B6).
  rewrite S1 in B0. rewrite S2 in B6. rewrite S10 in B5. rewrite B3. split; [by exists bs, msg|].
  apply (exchange_answers _ _ datagram l [] ws); [|done|done]. cbn. by rewrite B5.
Qed.

(** A request keeps its contract, whichever version it speaks. *)
Lemma doRequest_spec o target auth pdu c Q tr :
  ginv c -> auth_given auth -> request_given pdu -> 0 <= timeout target ->
  (forall r ws c', completed o target auth pdu c r ws c' -> Q r (tr ++ ws) c') ->
  wp o (doRequest ssl o target auth pdu) Q tr c.
Proof. destruct auth; [apply doRequestV2c_spec|apply doRequestV3_spec]. Qed.

End RequestsTheory.
