(* ===== verification/Walk.v ===== *)
(** * Walk: traversing a Subtree

    Models [Impl::doWalk] and [Impl::doWalkCollect] of [src/Client.cpp] and [WalkOptions]
    of [include/snmpio/Target.hpp].  The loop of [doWalk] has no bound of its own: it is
    run on fuel, and the theory shows how much is enough whatever the Agent answers. *)

From stdpp Require Import gmap sorting.
From S2P Require Import Prelude Errors Oids Values Ber BerWriter BerReader BerRoundtrip Pdu Usm V3Message Unencodable Client Engines Coroutine Strand Exchange Requests.

(** Fuel that is made as it is burnt, so that there can be plenty of it. *)
Inductive Fuel : Type := Spent | Fueled (more : unit -> Fuel).

(** It lasts [n] rounds. *)
Fixpoint lasts (fuel : Fuel) (n : Z) : Prop :=
  match fuel with
  | Spent => n <= 0
  | Fueled more => lasts (more tt) (n - 1)
  end.

(** [2 ^ k] rounds. *)
Fixpoint doubled (k : nat) (more : unit -> Fuel) : Fuel :=
  match k with
  | O => Fueled more
  | S k => doubled k (fun _ => doubled k more)
  end.

Lemma lasts_le fuel n n' : lasts fuel n -> n' <= n -> lasts fuel n'.
Proof. revert n n'. induction fuel as [|more IH]; cbn; intros n n' Hl Hn; [lia|]. eapply IH; [exact Hl|lia]. Qed.

Lemma doubled_lasts k more n : lasts (more tt) n -> lasts (doubled k more) (2 ^ Z.of_nat k + n).
Proof.
  revert more n. induction k as [|k IH]; intros more n Hn; cbn [doubled].
  - cbn [lasts]. by replace (2 ^ Z.of_nat 0 + n - 1) with n by (cbn; lia).
  - rewrite Nat2Z.inj_succ, Z.pow_succ_r by lia.
    replace (2 * 2 ^ Z.of_nat k + n) with (2 ^ Z.of_nat k + (2 ^ Z.of_nat k + n)) by lia. by apply IH, IH.
Qed.

Record WalkOptions : Type := mkWalkOptions { maxRepetitions : Z }.

(** The [for] over the Varbinds of a Response: the last name taken, the batch, and
    whether the Subtree has ended.  [inl] is the [co_return] inside it. *)
Fixpoint takeBatch (base current : Oid) (vbs batch : list Varbind) : Errc + (Oid * list Varbind * bool) :=
  match vbs with
  | [] => inr (current, batch, false)
  | vb :: vbs =>
      if isException (vb_val vb) || negb (Oids.isPrefixOf base (vb_name vb)) then inr (current, batch, true)
      else if negb (Oids.oid_ltb current (vb_name vb)) then inl NonIncreasingOid
      else takeBatch base (vb_name vb) vbs (batch ++ [vb])
  end.

Definition walkPdu (current : Oid) (maxRepetitions : Z) : Pdu :=
  if maxRepetitions <=? 0 then makePdu GetNext (toVarbinds [current])
  else makeBulkPdu (toVarbinds [current]) 0 maxRepetitions.

Section Walk.
Context {Endpoint : Type} `{Countable Endpoint} {net : Net Endpoint} (ssl : OpenSSL).
Local Notation client := (Client (Endpoint := Endpoint)).
Local Notation Co := (Co (Endpoint := Endpoint)).
Local Notation Target := (Target (Endpoint := Endpoint)).
Local Open Scope co_scope.

Definition stopNow (c : Z) : option ErrorCode :=
  if aborted c then Some operation_aborted
  else if negb (c =? 0) then Some (make_error_code WalkIncomplete)
  else None.

Section Loop.
(** [onBatch] with what it captures: [S]. *)
Context {S : Type} (onBatch : S -> list Varbind -> Co (S * bool)).

Fixpoint walk_loop (fuel : Fuel) (o : op) (target : Target) (auth : Auth) (base current : Oid) (maxRepetitions : Z) (s : S)
  : Co (ErrorCode * S) :=
  match fuel with
  | Spent => sync out_of_fuel
  | Fueled more =>
      let^ c := get_st in
      match stopNow (cancelled o c) with
      | Some stop => CoRet (stop, s)
      | None =>
          let* result := doRequest ssl o target auth (walkPdu current maxRepetitions) in
          let ec := result.1 in
          let resp := result.2 in
          if bool_decide (ec = make_agent_error 1) && (1 <? maxRepetitions)
          then walk_loop (more tt) o target auth base current (Z.quot maxRepetitions 2) s
          else if is_error ec then
            let^ c := get_st in
            match stopNow (cancelled o c) with
            | Some stop => CoRet (stop, s)
            | None => CoRet (ec, s)
            end
          else
            let^ stopping := gets m_stopping in
            if stopping then CoRet (make_error_code ClientStopped, s)
            else if bool_decide (r_varbinds resp = []) then CoRet (make_error_code MissingVarbind, s)
            else
              match takeBatch base current (r_varbinds resp) [] with
              | inl e => CoRet (make_error_code e, s)
              | inr (current, batch, done) =>
                  let* answer := (if bool_decide (batch = []) then CoRet (s, true) else onBatch s batch) in
                  if negb answer.2 then CoRet (make_error_code WalkIncomplete, answer.1)
                  else if (done : bool) then CoRet (no_error, answer.1)
                  else walk_loop (more tt) o target auth base current maxRepetitions answer.1
              end
      end
  end.

Definition walk (fuel : Fuel) (o : op) (target : Target) (auth : Auth) (base : Oid) (options : WalkOptions) (s : S)
  : Co (ErrorCode * S) :=
  observeBothCancellationTypes o ;^
  walk_loop fuel o target auth base base (maxRepetitions options) s.

End Loop.

(** With the caller's [onBatch]. *)
Definition doWalk (fuel : Fuel) (o : op) (target : Target) (auth : Auth) (base : Oid) (options : WalkOptions)
  : Co ErrorCode :=
  let* result := walk (fun _ batch => CoBatch batch (fun more => CoRet (tt, more))) fuel o target auth base options tt in
  CoRet result.1.

(** With a handler that collects. *)
Definition doWalkCollect (fuel : Fuel) (o : op) (target : Target) (auth : Auth) (base : Oid) (options : WalkOptions)
  : Co (ErrorCode * list Varbind) :=
  let* result := walk (fun collected batch => CoRet (collected ++ batch, true)) fuel o target auth base options [] in
  if bool_decide (result.1 = operation_aborted) then CoRet (result.1, []) else CoRet result.

End Walk.

(** ** One Response *)

(** Inside the Subtree, and a value. *)
Definition in_subtree (base : Oid) (vb : Varbind) : Prop :=
  base `prefix_of` vb_name vb /\ isException (vb_val vb) = false.

(** What shows that the Subtree has ended. *)
Definition past_subtree (base : Oid) (vb : Varbind) : Prop :=
  isException (vb_val vb) = true \/ ~ base `prefix_of` vb_name vb.

(** A batch continues a Walk at [current]: each name beyond the one before. *)
Fixpoint continues (current : Oid) (batch : list Varbind) : Prop :=
  match batch with
  | [] => True
  | vb :: batch => Oids.oid_lt current (vb_name vb) /\ continues (vb_name vb) batch
  end.

Fixpoint last_name (current : Oid) (batch : list Varbind) : Oid :=
  match batch with [] => current | vb :: batch => last_name (vb_name vb) batch end.

(** C17: The loop takes the longest run of Varbinds in the Subtree and says whether it was
    followed by one past it; it fails exactly if a name in that run does not advance. *)
Lemma takeBatch_spec base current vbs acc :
  match takeBatch base current vbs acc with
  | inl e => e = NonIncreasingOid /\ exists run vb rest, vbs = run ++ vb :: rest /\
      Forall (in_subtree base) (run ++ [vb]) /\ continues current run /\ ~ Oids.oid_lt (last_name current run) (vb_name vb)
  | inr (current', batch, done) => exists run rest, batch = acc ++ run /\ vbs = run ++ rest /\
      Forall (in_subtree base) run /\ continues current run /\ current' = last_name current run /\
      match rest with [] => done = false | vb :: _ => done = true /\ past_subtree base vb end
  end.
Proof.
  revert current acc. induction vbs as [|vb vbs IH]; intros current acc; cbn [takeBatch].
  { exists [], []. by rewrite app_nil_r. }
  destruct (isException (vb_val vb) || negb (Oids.isPrefixOf base (vb_name vb))) eqn:E.
  { exists [], (vb :: vbs). rewrite app_nil_r. do 5 (split; [done|]). split; [done|].
    apply orb_true_iff in E as [?|E]; [by left|right]. rewrite <- Oids.isPrefixOf_spec. by destruct (Oids.isPrefixOf _ _). }
  apply orb_false_iff in E as [E1 E2%negb_false_iff]. rewrite Oids.isPrefixOf_spec in E2.
  destruct (Oids.oid_ltb current (vb_name vb)) eqn:El; cbn [negb].
  - specialize (IH (vb_name vb) (acc ++ [vb])). destruct (takeBatch _ _ _ _) as [e|[[cur' batch] done]].
    + destruct IH as (-> & run & x & rest & -> & H1 & H2 & H3). split; [done|]. exists (vb :: run), x, rest.
      split; [done|]. split; [by apply Forall_cons|]. done.
    + destruct IH as (run & rest & -> & -> & H1 & H2 & -> & H3). exists (vb :: run), rest.
      rewrite <- app_assoc. split; [done|]. split; [done|]. split; [by apply Forall_cons|]. done.
  - split; [done|]. exists [], vb, vbs. split; [done|]. split; [by repeat constructor|]. split; [done|].
    cbn [last_name]. unfold Oids.oid_lt. by rewrite El.
Qed.

Lemma continues_app current run batch :
  continues current (run ++ batch) <-> continues current run /\ continues (last_name current run) batch.
Proof. revert current. induction run as [|vb run IH]; intros current; cbn; [naive_solver|]. rewrite IH. naive_solver. Qed.

Lemma last_name_app current run batch : last_name current (run ++ batch) = last_name (last_name current run) batch.
Proof. revert current. induction run as [|vb run IH]; intros current; cbn; [done|by rewrite IH]. Qed.

Lemma continues_last current batch : continues current batch -> batch <> [] -> Oids.oid_lt current (last_name current batch).
Proof.
  revert current. induction batch as [|vb batch IH]; intros current; [done|]. cbn. intros [H1 H2] _.
  destruct batch as [|vb' batch]; [done|]. etransitivity; [exact H1|]. by apply IH.
Qed.

(** Each name is beyond every one before it, and beyond where the Walk started. *)
Lemma continues_sorted current batch : continues current batch ->
  StronglySorted Oids.oid_lt (current :: (vb_name <$> batch)).
Proof.
  revert current. induction batch as [|vb batch IH]; intros current; cbn.
  { intros _. by repeat constructor. }
  intros [H1 H2]. specialize (IH _ H2). constructor; [done|]. constructor; [done|].
  apply StronglySorted_inv in IH as [_ IH]. eapply Forall_impl; [|exact IH]. cbn. intros x Hx. by etransitivity.
Qed.

(** ** How long a Walk can be *)

(** The position of an Oid of at most [k] sub-identifiers among all of them. *)
Fixpoint rank (k : nat) (o : Oid) : Z :=
  match k, o with
  | S k, x :: o => (x + 1) * 4294967297 ^ Z.of_nat k + rank k o
  | _, _ => 0
  end.

Lemma rank_range k o : Oids.oid_ok o -> 0 <= rank k o < 4294967297 ^ Z.of_nat k.
Proof.
  revert o. induction k as [|k IH]; intros o Ho; [by cbn|]. cbn [rank]. rewrite Nat2Z.inj_succ, Z.pow_succ_r by lia.
  pose proof (Z.pow_pos_nonneg 4294967297 (Z.of_nat k) ltac:(lia) ltac:(lia)).
  destruct o as [|x o]; [lia|]. apply Forall_cons_1 in Ho as [Hx Ho]. specialize (IH o Ho). unfold uint32_ok in Hx. nia.
Qed.

Lemma rank_lt k a b : Oids.oid_ok a -> Oids.oid_ok b -> (length a <= k)%nat -> (length b <= k)%nat ->
  Oids.oid_lt a b -> rank k a < rank k b.
Proof.
  revert a b. induction k as [|k IH]; intros a b Ha Hb La Lb Hlt.
  { destruct a, b; cbn in *; try lia. by apply Oids.oid_lt_nil_r in Hlt. }
  destruct b as [|y b]; [by apply Oids.oid_lt_nil_r in Hlt|].
  apply Forall_cons_1 in Hb as [Hy Hb]. pose proof (rank_range k b Hb) as Rb. cbn [rank] in *. cbn in Lb.
  pose proof (Z.pow_pos_nonneg 4294967297 (Z.of_nat k) ltac:(lia) ltac:(lia)). unfold uint32_ok in Hy.
  destruct a as [|x a]; [nia|]. apply Forall_cons_1 in Ha as [Hx Ha]. pose proof (rank_range k a Ha) as Ra. cbn in La.
  apply Oids.oid_lt_cons in Hlt as [Hlt|[-> Hlt]]; [nia|]. specialize (IH a b Ha Hb ltac:(lia) ltac:(lia) Hlt). lia.
Qed.

(** An Oid that travels. *)
Definition oid_wire (o : Oid) : Prop := Oids.oid_ok o /\ Oids.isEncodable o = true.

Lemma oid_wire_length o : oid_wire o -> (length o <= 128)%nat.
Proof. intros [_ (a & b & rest & -> & Hl & _)%Oids.isEncodable_spec]. cbn. lia. Qed.

Definition walk_bound : Z := 4294967297 ^ 128 + 2147483648.

(** Rounds left: one per name beyond [current], one per halving. *)
Definition walk_left (current : Oid) (maxRepetitions : Z) : Z :=
  4294967297 ^ 128 - rank 128 current + Z.max 0 maxRepetitions.

Lemma walk_left_bound current mr : Oids.oid_ok current -> int32_ok mr -> 0 < walk_left current mr <= walk_bound.
Proof.
  intros Ho Hm. pose proof (rank_range 128 current Ho). unfold walk_left, walk_bound, int32_ok in *.
  change (Z.of_nat 128) with 128 in *. lia.
Qed.

Lemma walk_left_advance current current' mr : oid_wire current -> oid_wire current' -> Oids.oid_lt current current' ->
  walk_left current' mr < walk_left current mr.
Proof.
  intros H1 H2 Hlt. pose proof (rank_lt 128 current current' (proj1 H1) (proj1 H2) (oid_wire_length _ H1) (oid_wire_length _ H2) Hlt).
  unfold walk_left. lia.
Qed.

Lemma walk_left_halve current mr : 1 < mr -> walk_left current (Z.quot mr 2) < walk_left current mr.
Proof. intros Hm. unfold walk_left. rewrite Z.quot_div_nonneg by lia. pose proof (Z.div_lt mr 2 ltac:(lia) ltac:(lia)).
  pose proof (Z.div_pos mr 2 ltac:(lia) ltac:(lia)). lia. Qed.

(** ** Requests for named instances *)

Lemma enc_oids oids : Forall oid_wire oids ->
  exists vs, mapM enc_varbind (toVarbinds oids) = Some vs /\ zlen (concat vs) <= 1300 * zlen oids.
Proof.
  induction 1 as [|o oids [Ho He] _ (vs & E & Hl)]; [by exists []|].
  exists (enc_tlv tag.sequence (enc_tlv tag.objectIdentifier (enc_oid_content o) ++ enc_tlv tag.null []) :: vs).
  split.
  - assert (enc_varbind (mkVarbind o ValNull) =
      Some (enc_tlv tag.sequence (enc_tlv tag.objectIdentifier (enc_oid_content o) ++ enc_tlv tag.null []))) as Ev.
    { unfold enc_varbind, enc_oid. cbn [vb_name vb_val enc_value]. by rewrite He. }
    change (mapM enc_varbind (toVarbinds (o :: oids))) with
      (y ← enc_varbind (mkVarbind o ValNull); k ← mapM enc_varbind (toVarbinds oids); Some (y :: k)).
    rewrite Ev. cbn. by rewrite E.
  - pose proof (length_enc_oid_content o He Ho) as B.
    pose proof (enc_tlv_bound tag.objectIdentifier (enc_oid_content o) ltac:(lia)) as B1.
    pose proof (enc_tlv_bound tag.null [] ltac:(cbn; lia)) as B2. cbn [length] in B2.
    set (x := enc_tlv _ (enc_oid_content o)) in *. set (y := enc_tlv _ []) in *.
    pose proof (enc_tlv_bound tag.sequence (x ++ y) ltac:(rewrite zlen_app; lia)) as B3. rewrite zlen_app in B3.
    cbn [concat]. rewrite zlen_app, zlen_cons. lia.
Qed.

(** Up to eight hundred names fit a request. *)
Lemma oids_request_ok type st ix oids : Forall oid_wire oids -> (length oids <= 800)%nat -> int32_ok st -> int32_ok ix ->
  request_ok (mkPdu type 0 st ix (toVarbinds oids)).
Proof.
  intros Ho Hl Hst Hix. destruct (enc_oids oids Ho) as (vs & E & Hz). split.
  - split; [done|]. split; [done|]. split; [done|]. cbn. unfold toVarbinds. apply Forall_map.
    eapply Forall_impl; [|exact Ho]. by intros o [H _].
  - exists (enc_tlv tag.sequence (concat vs)). split; [unfold enc_varbinds; cbn; by rewrite E|].
    pose proof (enc_tlv_bound tag.sequence (concat vs) ltac:(lia)). lia.
Qed.

Lemma encodable_oids oids vs : enc_varbinds (toVarbinds oids) = Some vs -> Forall (fun o => Oids.isEncodable o = true) oids.
Proof.
  unfold enc_varbinds. destruct (mapM _ _) as [bss|] eqn:E; [|done]. intros _. apply mapM_Some_1 in E.
  revert bss E. induction oids as [|o oids IH]; intros bss E; [by apply Forall_nil|].
  apply Forall2_cons_inv_l in E as (bs & bss' & E & Er & _). constructor; [|by apply (IH bss')].
  destruct (Oids.isEncodable o) eqn:He; [done|]. unfold enc_varbind, enc_oid in E. cbn [vb_name] in E. by rewrite He in E.
Qed.

(** Up to eight hundred names may be asked for, whether they can be encoded or not. *)
Lemma oids_request_given type st ix oids : Forall Oids.oid_ok oids -> (length oids <= 800)%nat -> int32_ok st -> int32_ok ix ->
  request_given (mkPdu type 0 st ix (toVarbinds oids)).
Proof.
  intros Ho Hl Hst Hix. assert (pdu_ok (mkPdu type 0 st ix (toVarbinds oids))) as Hp.
  { split; [done|]. split; [done|]. split; [done|]. cbn. unfold toVarbinds. apply Forall_map.
    eapply Forall_impl; [|exact Ho]. by intros o H. }
  destruct (enc_varbinds (toVarbinds oids)) as [vs|] eqn:E.
  - apply request_ok_given, oids_request_ok; try done. pose proof (encodable_oids _ _ E) as He.
    rewrite Forall_lookup in Ho, He. apply Forall_lookup. intros i o Hi. split; [by eapply Ho|by eapply He].
  - split; [done|]. cbn [varbinds]. rewrite E. assert (varbinds_size (toVarbinds oids) = 1297 * zlen oids) as ->.
    { clear. induction oids as [|o oids IH]; [done|]. change (varbinds_size (toVarbinds (o :: oids))) with (1297 + varbinds_size (toVarbinds oids)).
      rewrite IH, zlen_cons. lia. }
    lia.
Qed.

Lemma walkPdu_given current mr : Oids.oid_ok current -> int32_ok mr -> request_given (walkPdu current mr).
Proof.
  intros Hc Hm. unfold walkPdu. destruct (mr <=? 0); apply oids_request_given; cbn; try done; try lia; by apply Forall_singleton.
Qed.

(** A Walk gets an answer only where it could ask. *)
Lemma walkPdu_encodable current mr : ~ unencodable (walkPdu current mr) -> Oids.isEncodable current = true.
Proof.
  intros Hn. destruct (enc_varbinds (toVarbinds [current])) as [vs|] eqn:E.
  - apply encodable_oids in E. by inversion E.
  - destruct Hn. unfold unencodable, walkPdu. by destruct (mr <=? 0).
Qed.

Section WalkTheory.
Context {Endpoint : Type} `{Countable Endpoint} {net : Net Endpoint} {ssl : OpenSSL} {L : OpenSSLLaws ssl}.
Local Notation client := (Client (Endpoint := Endpoint)).
Local Notation Target := (Target (Endpoint := Endpoint)).
Local Notation Obs := (Obs (Endpoint := Endpoint)).
Local Notation ginv := (ginv (ssl := ssl)).
Local Notation rely := (rely (ssl := ssl)).
Local Notation guar := (guar (ssl := ssl)).
Local Notation backed := (backed (ssl := ssl)).
Local Notation wp o := (wpc o (rely o) (guar o)).
Implicit Types (c : client) (o : op) (target : Target) (tr ws : list Obs) (auth : Auth) (log : list (Octets * Endpoint)).

Lemma backed_wire log target auth response : backed log target auth response -> Forall varbind_wire_ok (varbinds response).
Proof.
  intros [engineId Hb]. revert Hb. destruct auth as [community|creds].
  - intros (bs & msg & _ & [Ho _] & Hd & -> & _). by eapply dec_v2c_varbinds.
  - intros (bs & raw & msg & _ & [Ho Hl] & Hd & _ & _ & Hop & -> & _).
    destruct (isEncrypted _); [|subst; by eapply dec_v3_varbinds].
    destruct Hop as (pkey & Hop & _). destruct (dec_v3_wf bs raw Hd Ho) as [Heo Hel].
    eapply decryptScopedPdu_varbinds; [done|lia|exact Hop].
Qed.

Lemma run_wire current run rest : Forall varbind_wire_ok (run ++ rest) -> oid_wire current ->
  oid_wire (last_name current run).
Proof.
  intros [Hw _]%Forall_app Hc. revert current Hc. induction Hw as [|vb run [Hvb _] _ IH]; intros current Hc; [done|].
  cbn. by apply IH.
Qed.

(** ** What a Walk hands over *)

(** The batches of a trace, with what was said to each. *)
Fixpoint delivered tr : list (list Varbind * bool * bool) :=
  match tr with
  | [] => []
  | Batched batch stopping more :: tr => (batch, stopping, more) :: delivered tr
  | _ :: tr => delivered tr
  end.

Lemma delivered_app tr tr' : delivered (tr ++ tr') = delivered tr ++ delivered tr'.
Proof. induction tr as [|[] tr IH]; cbn; by rewrite ?IH. Qed.

Lemma talks_delivered target (good : Octets -> Prop) ws : Forall (talks target good) ws -> delivered ws = [].
Proof. induction 1 as [|[] ws Hx _ IH]; done. Qed.

(** A batch: a non-empty run from the front of a Response that someone stands behind. *)
Definition batch_ok log target auth (batch : list Varbind) : Prop :=
  batch <> [] /\ exists response, backed log target auth response /\ batch `prefix_of` varbinds response.

(** Together, the batches are an ascent through the Subtree. *)
Record ascent log target auth (base : Oid) (batches : list (list Varbind)) : Prop := {
  as_batches : Forall (batch_ok log target auth) batches;
  as_subtree : Forall (in_subtree base) (concat batches);
  as_order : continues base (concat batches) }.

(** How it ended.  A failed exchange is reported as its own error only if nobody
    had asked the Walk to stop. *)
Definition walk_verdict o target auth (base : Oid) (more : bool) (ec : ErrorCode) c : Prop :=
  (more = false /\ ec = make_error_code WalkIncomplete) \/
  (more = true /\ ec = no_error /\ exists response vb, backed (m_received c) target auth response /\ vb ∈ varbinds response /\ past_subtree base vb) \/
  (more = true /\ exists e, e ∈ [ClientStopped; MissingVarbind; NonIncreasingOid] /\ ec = make_error_code e) \/
  (more = true /\ stopNow (cancelled o c) = Some ec) \/
  (more = true /\ is_error ec = true /\ cancelled o c = 0).

(** What is seen of a Walk: requests for what follows a name of the Subtree, sent to the
    target, and non-empty batches, none once Stopping has begun. *)
Definition walks target auth (base : Oid) (x : Obs) : Prop :=
  match x with
  | Sent to datagram _ => to = endpoint target /\
      exists current mr, base `prefix_of` current /\ utters (ssl := ssl) auth (walkPdu current mr) datagram
  | Batched batch stopping _ => stopping = false /\ batch <> []
  | _ => True
  end.

Lemma talks_walks target auth base current mr ws : base `prefix_of` current ->
  Forall (talks target (utters (ssl := ssl) auth (walkPdu current mr))) ws -> Forall (walks target auth base) ws.
Proof. intros Hp. apply Forall_impl. intros [to d' ec|l' t|dd|b st mo]; cbn; try done. intros [? ?]; eauto. Qed.

Lemma result_response log target auth (good : Octets -> Pdu -> Prop) (r : ErrorCode * ResponseResult) :
  (exists ec, r = refuse ec /\ is_error ec = true) \/
  (exists response engineId, r = toResult response /\ backed_at (ssl := ssl) log target auth engineId response /\ good engineId response) ->
  is_error r.1 = false -> exists response, backed log target auth response /\ r_varbinds r.2 = varbinds response.
Proof.
  intros [(ec & -> & He)|(response & engineId & -> & Hb & _)]; [cbn; by rewrite He|]. unfold toResult.
  destruct (Z.eqb_spec (errorStatus response) 0) as [E|E]; cbn [negb].
  - intros _. exists response. split; [by exists engineId|done].
  - cbn. unfold is_error, make_agent_error. cbn. by destruct (Z.eqb_spec (errorStatus response) 0).
Qed.

Lemma stopNow_none z : stopNow z = None -> z = 0.
Proof. unfold stopNow. destruct (aborted z); [done|]. by destruct (Z.eqb_spec z 0). Qed.

Lemma ascent_mono log log' target auth base bs : log ⊆ log' -> ascent log target auth base bs -> ascent log' target auth base bs.
Proof.
  intros Hl [A1 A2 A3]. split; [|done|done]. eapply Forall_impl; [|exact A1]. intros b [Hb (response & Hr & Hx)]. split; [done|].
  exists response. split; [by eapply backed_mono|done].
Qed.

Lemma ascent_extend log target auth base bs run rest response : ascent log target auth base bs -> backed log target auth response ->
  varbinds response = run ++ rest -> Forall (in_subtree base) run -> continues (last_name base (concat bs)) run -> run <> [] ->
  ascent log target auth base (bs ++ [run]).
Proof.
  intros [A1 A2 A3] Hb Hv Hs Hc Hne. split.
  - apply Forall_app. split; [done|]. apply Forall_singleton. split; [done|]. exists response. split; [done|]. by exists rest.
  - rewrite concat_app. cbn. rewrite app_nil_r. by apply Forall_app.
  - rewrite concat_app. cbn. rewrite app_nil_r. by apply continues_app.
Qed.

Lemma last_name_prefix base current run : base `prefix_of` current -> Forall (in_subtree base) run ->
  base `prefix_of` last_name current run.
Proof. intros Hc Hr. revert current Hc. induction Hr as [|vb run [Hvb _] _ IH]; intros current Hc; [done|]. by apply IH. Qed.

Section Loop.
(** A handler, and what its state, the batches it was given and the trace have to do with
    each other; it may be told so only while the Walk goes on. *)
Context {S : Type} (onBatch : S -> list Varbind -> Co (Endpoint := Endpoint) (S * bool)).
Context (I : S -> list (list Varbind) -> bool -> list Obs -> Prop) (o : op) (target : Target) (auth : Auth) (base : Oid).
Context (I_quiet : forall s bs m ws ws', I s bs m ws -> delivered ws' = [] -> I s bs m (ws ++ ws')).
Context (onBatch_spec : forall s bs b ws c Q tr, ginv c -> m_stopping c = false -> b <> [] -> I s bs true ws ->
  (forall s' more ws' c', ginv c' -> m_received c ⊆ m_received c' -> I s' (bs ++ [b]) more (ws ++ ws') -> Forall (walks target auth base) ws' ->
     Q (s', more) (tr ++ ws') c') -> wp o (onBatch s b) Q tr c).

Record walk_done (ec : ErrorCode) (s : S) (more : bool) (bs : list (list Varbind)) ws c : Prop := {
  wd_inv : ginv c;
  wd_state : I s bs more ws;
  wd_trace : Forall (walks target auth base) ws;
  wd_ascent : ascent (m_received c) target auth base bs;
  wd_verdict : walk_verdict o target auth base more ec c }.

Context (Hauth : auth_given auth) (Htimeout : 0 <= timeout target).

(** The round in which a Response is handed over. *)
Lemma walk_batch_spec fuel (response : Pdu) current mr s bs c Q tr ws :
  ginv c -> m_stopping c = false -> backed (m_received c) target auth response -> varbinds response <> [] ->
  oid_wire current -> base `prefix_of` current -> ascent (m_received c) target auth base bs -> current = last_name base (concat bs) ->
  I s bs true ws -> Forall (walks target auth base) ws ->
  (forall ec s' more bs' ws' c', walk_done ec s' more bs' ws' c' -> Q (ec, s') (tr ++ ws') c') ->
  (forall s' bs' ws' c', ginv c' -> ascent (m_received c') target auth base bs' -> I s' bs' true ws' -> Forall (walks target auth base) ws' ->
     let current' := last_name base (concat bs') in
     Oids.oid_lt current current' -> oid_wire current' -> base `prefix_of` current' ->
     wp o (walk_loop ssl onBatch fuel o target auth base current' mr s') Q (tr ++ ws') c') ->
  wp o (match takeBatch base current (varbinds response) [] with
        | inl e => CoRet (make_error_code e, s)
        | inr (current, batch, done) =>
            let* answer := (if bool_decide (batch = []) then CoRet (s, true) else onBatch s batch) in
            if negb answer.2 then CoRet (make_error_code WalkIncomplete, answer.1)
            else if (done : bool) then CoRet (no_error, answer.1)
            else walk_loop ssl onBatch fuel o target auth base current mr answer.1
        end)%co Q (tr ++ ws) c.
Proof.
  intros Hi Hst Hb Hne Hw Hp Has Hcur HI Htr HQ Hnext. pose proof (takeBatch_spec base current (varbinds response) []) as Ht.
  destruct (takeBatch _ _ _ _) as [e|[[cur' batch] ended]].
  { destruct Ht as [-> _]. apply (HQ _ s true bs). split; try done. right; right; left. split; [done|].
    exists NonIncreasingOid. split; [set_solver|done]. }
  destruct Ht as (run & rest & -> & Hv & Hsub & Hcont & -> & Hrest). cbn [app].
  assert (forall s1 bs1 ws1 c1, ginv c1 -> m_received c ⊆ m_received c1 -> I s1 bs1 true ws1 ->
    Forall (walks target auth base) ws1 -> ascent (m_received c1) target auth base bs1 -> ended = true -> Q (no_error, s1) (tr ++ ws1) c1) as Hend.
  { intros s1 bs1 ws1 c1 Hi1 Hl1 HI1 Htr1 Has1 He. apply (HQ _ s1 true bs1). split; try done. right; left. do 2 (split; [done|]).
    destruct rest as [|vb rest]; [congruence|]. destruct Hrest as [_ Hpast]. exists response, vb. split; [by eapply backed_mono|].
    split; [|done]. rewrite Hv. set_solver. }
  case_bool_decide as Hrun.
  - subst run. cbn [co_bind snd fst negb]. destruct ended; [by eapply Hend|]. destruct rest; [done|]. by destruct Hrest.
  - apply wpc_bind. rewrite Hcur in Hcont. eapply onBatch_spec; [done..|]. intros s1 more ws1 c1 Hi1 Hl1 HI1 Htr1. cbn [snd fst].
    assert (ascent (m_received c1) target auth base (bs ++ [run])) as Has1 by (eapply ascent_mono; [done|by eapply ascent_extend]).
    assert (Forall (walks target auth base) (ws ++ ws1)) as Htr' by (by apply Forall_app). rewrite <- app_assoc.
    destruct more; cbn [negb].
    2: { apply (HQ _ s1 false (bs ++ [run])). split; try done. by left. }
    destruct ended; [by eapply Hend|].
    assert (last_name current run = last_name base (concat (bs ++ [run]))) as Hl.
    { rewrite concat_app. cbn. rewrite app_nil_r, last_name_app. by rewrite Hcur. }
    rewrite Hl. apply Hnext; try done; rewrite <- Hl.
    + rewrite <- Hcur in Hcont. by apply continues_last.
    + eapply run_wire; [|done]. rewrite <- Hv. by eapply backed_wire.
    + by apply last_name_prefix.
Qed.

Lemma walk_loop_spec fuel current mr s bs c Q tr ws :
  ginv c -> Oids.oid_ok current -> base `prefix_of` current -> int32_ok mr -> lasts fuel (walk_left current mr) ->
  ascent (m_received c) target auth base bs -> current = last_name base (concat bs) -> I s bs true ws -> Forall (walks target auth base) ws ->
  (forall ec s' more bs' ws' c', walk_done ec s' more bs' ws' c' -> Q (ec, s') (tr ++ ws') c') ->
  wp o (walk_loop ssl onBatch fuel o target auth base current mr s) Q (tr ++ ws) c.
Proof.
  revert current mr s bs c ws. induction fuel as [|more IH]; intros current mr s bs c ws Hi Hw Hp Hm Hf Has Hcur HI Htr HQ.
  { pose proof (walk_left_bound current mr Hw Hm). cbn in Hf. lia. }
  cbn [walk_loop]. eapply wpc_look; [apply guar_refl|done|]. destruct (stopNow (cancelled o c)) as [stop|] eqn:Es.
  { apply (HQ _ s true bs). split; try done. do 3 right; left. done. }
  apply wpc_bind. eapply doRequest_spec; [done|done|by apply walkPdu_given|done|].
  intros r ws1 c1 Hdone. pose proof (completed_encodable _ _ _ _ _ _ _ _ Hdone) as Hen. destruct Hdone as [C1 C2 C2' C3 C4 _ _ _ C6 _]. rewrite <- app_assoc. apply (ascent_mono _ _ _ _ _ _ C2') in Has.
  assert (I s bs true (ws ++ ws1)) as HI1 by (apply I_quiet; [done|by eapply talks_delivered]).
  assert (Forall (walks target auth base) (ws ++ ws1)) as Htr1 by (apply Forall_app; split; [done|by eapply talks_walks]).
  destruct (bool_decide _ && (1 <? mr)) eqn:Eb.
  { apply andb_true_iff in Eb as [_ H1%Z.ltb_lt]. pose proof (walk_left_halve current mr H1).
    eapply IH; try done; [|eapply lasts_le; [exact Hf|lia]]. unfold int32_ok in *. rewrite Z.quot_div_nonneg by lia.
    pose proof (Z.div_lt mr 2 ltac:(lia) ltac:(lia)). pose proof (Z.div_pos mr 2 ltac:(lia) ltac:(lia)). lia. }
  destruct (is_error r.1) eqn:Ee.
  { eapply wpc_look; [apply guar_refl|done|]. destruct (stopNow (cancelled o c1)) as [stop|] eqn:Es1;
      apply (HQ _ s true bs); split; try done; [do 3 right; left; done|].
    do 4 right. split; [done|]. split; [done|]. by apply stopNow_none. }
  destruct (result_response _ _ _ (fun engineId => answers target (asks (ssl := ssl) auth (walkPdu current mr) engineId) ws1) r C6 Ee) as (response & Hb & Hv). rewrite Hv.
  eapply wpc_look; [apply guar_refl|done|]. destruct (m_stopping c1) eqn:Est.
  { apply (HQ _ s true bs). split; try done. right; right; left. split; [done|]. eexists. split; [|done]. set_solver. }
  clear Eb. case_bool_decide as Hne.
  { apply (HQ _ s true bs). split; try done. right; right; left. split; [done|]. eexists. split; [|done]. set_solver. }
  assert (oid_wire current) as Hww by (split; [done|]; by eapply walkPdu_encodable, Hen).
  eapply walk_batch_spec; [done..|]. intros s' bs' ws' c' Hi' Has' HI' Htr' current' Hlt Hw' Hp'.
  eapply IH; try done; [apply Hw'|]. pose proof (walk_left_advance current current' mr Hww Hw' Hlt). eapply lasts_le; [exact Hf|lia].
Qed.

End Loop.

(** ** The two Walks *)

Definition batches ws : list (list Varbind) := (fun x => x.1.1) <$> delivered ws.

(** A handler that says no is not called again. *)
Definition heeds (more : bool) ws : Prop :=
  if more then Forall (fun x => x.2 = true) (delivered ws)
  else exists said last, delivered ws = said ++ [last] /\ Forall (fun x => x.2 = true) said /\ last.2 = false.

Record walked o target auth (base : Oid) (ec : ErrorCode) ws c : Prop := {
  wk_inv : ginv c;
  wk_trace : Forall (walks target auth base) ws;
  wk_ascent : ascent (m_received c) target auth base (batches ws);
  wk_verdict : exists more, heeds more ws /\ walk_verdict o target auth base more ec c }.

Lemma empty_ascent log target auth base : ascent log target auth base [].
Proof. split; [by apply Forall_nil..|done]. Qed.

Lemma walk_spec {S} (onBatch : S -> list Varbind -> Co (Endpoint := Endpoint) (S * bool))
    (I : S -> list (list Varbind) -> bool -> list Obs -> Prop) fuel o target auth base options s c Q tr :
  (forall s bs m ws ws', I s bs m ws -> delivered ws' = [] -> I s bs m (ws ++ ws')) ->
  (forall s bs b ws c Q tr, ginv c -> m_stopping c = false -> b <> [] -> I s bs true ws ->
     (forall s' more ws' c', ginv c' -> m_received c ⊆ m_received c' -> I s' (bs ++ [b]) more (ws ++ ws') -> Forall (walks target auth base) ws' ->
        Q (s', more) (tr ++ ws') c') -> wp o (onBatch s b) Q tr c) ->
  ginv c -> auth_given auth -> 0 <= timeout target -> Oids.oid_ok base -> int32_ok (maxRepetitions options) ->
  lasts fuel walk_bound -> I s [] true [] ->
  (forall ec s' more bs ws c', walk_done I o target auth base ec s' more bs ws c' -> Q (ec, s') (tr ++ ws) c') ->
  wp o (walk ssl onBatch fuel o target auth base options s) Q tr c.
Proof.
  intros Hq Hb Hi Ha Ht Hw Hm Hf HI HQ. unfold walk. eapply wpc_sync; [done|apply reset_guar|].
  rewrite <- (app_nil_r tr). eapply (walk_loop_spec onBatch I _ _ _ _ Hq Hb); try done.
  - by apply (reset_guar o).
  - pose proof (walk_left_bound base (maxRepetitions options) Hw Hm). eapply lasts_le; [exact Hf|lia].
Qed.

Lemma doWalk_spec fuel o target auth base options c Q tr :
  ginv c -> auth_given auth -> 0 <= timeout target -> Oids.oid_ok base -> int32_ok (maxRepetitions options) ->
  lasts fuel walk_bound ->
  (forall ec ws c', walked o target auth base ec ws c' -> Q ec (tr ++ ws) c') ->
  wp o (doWalk ssl fuel o target auth base options) Q tr c.
Proof.
  intros Hi Ha Ht Hw Hm Hf HQ. unfold doWalk. apply wpc_bind.
  eapply (walk_spec _ (fun _ bs m ws => batches ws = bs /\ heeds m ws)); try done.
  - intros s bs m ws ws' [H1 H2] E. unfold batches, heeds in *. by rewrite delivered_app, E, app_nil_r.
  - intros [] bs b ws c1 Q1 tr1 Hi1 Hst Hb [H1 H2] HQ1. cbn. intros c2 more R. rewrite Hst. apply HQ1; [by apply R|apply R| |].
    + unfold batches, heeds in *. rewrite delivered_app, fmap_app, H1. cbn. split; [done|]. destruct more; [|by eexists _, _].
      apply Forall_app. split; [done|]. by apply Forall_singleton.
    + by apply Forall_singleton.
  - split; [done|by apply Forall_nil].
  - intros ec s' more bs ws c' [D1 [D2 D3] D4 D5 D6]. cbn. apply HQ. split; [done|done|by rewrite D2|by exists more].
Qed.

(** Collected: all that was handed over, or nothing if the Walk was dropped. *)
Record collected o target auth (base : Oid) (r : ErrorCode * list Varbind) ws c : Prop := {
  cl_inv : ginv c;
  cl_trace : Forall (walks target auth base) ws;
  cl_verdict : walk_verdict o target auth base true r.1 c;
  cl_result : exists bs, ascent (m_received c) target auth base bs /\ r.2 = if bool_decide (r.1 = operation_aborted) then [] else concat bs }.

Lemma doWalkCollect_spec fuel o target auth base options c Q tr :
  ginv c -> auth_given auth -> 0 <= timeout target -> Oids.oid_ok base -> int32_ok (maxRepetitions options) ->
  lasts fuel walk_bound ->
  (forall r ws c', collected o target auth base r ws c' -> Q r (tr ++ ws) c') ->
  wp o (doWalkCollect ssl fuel o target auth base options) Q tr c.
Proof.
  intros Hi Ha Ht Hw Hm Hf HQ. unfold doWalkCollect. apply wpc_bind.
  eapply (walk_spec _ (fun s bs m ws => s = concat bs /\ m = true)); try done.
  - intros s bs b ws c1 Q1 tr1 Hi1 Hst Hb [-> _] HQ1. cbn. rewrite <- (app_nil_r tr1). apply HQ1; [done|done| |by apply Forall_nil].
    rewrite concat_app. cbn. by rewrite app_nil_r.
  - intros ec s' more bs ws c' [D1 [-> ->] D4 D5 D6]. cbn [fst snd].
    case_bool_decide as E; apply HQ; (split; [done|done|done|]); exists bs; cbn;
      [by rewrite bool_decide_true|by rewrite bool_decide_false].
Qed.

End WalkTheory.
