(* ===== verification/System.v ===== *)
(** * System: a Client and the operations on it

    The operations of [include/snmpio/Client.hpp], and everything that can happen to a
    Client: a transition system whose states hold the Client and the coroutines working
    on it.  A step is an event (a datagram, Stopping, a signal, time passing), the start of
    an operation, a discovery leaving the strand's queue, or one segment of one coroutine,
    from where it was suspended to where it suspends next.  The theory shows what holds in
    every state that can be reached. *)

From stdpp Require Import gmap relations.
From S2P Require Import Prelude Errors Oids Values Ber BerWriter BerReader BerRoundtrip Pdu Usm V3Message Client Engines Coroutine Strand Exchange Requests Walk.

Section System.
Context {Endpoint : Type} `{Countable Endpoint} {net : Net Endpoint} (ssl : OpenSSL).
Local Notation client := (Client (Endpoint := Endpoint)).
Local Notation Co := (Co (Endpoint := Endpoint)).
Local Notation Target := (Target (Endpoint := Endpoint)).
Local Notation Obs := (Obs (Endpoint := Endpoint)).
Local Notation Job := (Job (Endpoint := Endpoint)).
Implicit Types (c : client) (o : op) (ws : list Obs).
Local Open Scope co_scope.

(** ** Operations *)

(** What was started: the private entry points of [Client], and the one coroutine that is
    started from inside. *)
Inductive Call : Type :=
| CallRequest (target : Target) (auth : Auth) (pdu : Pdu)
| CallWalk (target : Target) (auth : Auth) (base : Oid) (options : WalkOptions)
| CallWalkCollect (target : Target) (auth : Auth) (base : Oid) (options : WalkOptions)
| CallDiscovery (job : Job).

(** What its completion handler is given. *)
Inductive Answer : Type :=
| RequestResult (r : ErrorCode * ResponseResult)
| WalkResult (ec : ErrorCode)
| CollectResult (r : ErrorCode * list Varbind)
| DiscoveryResult.

(** More than the longest Walk needs. *)
Definition walk_fuel : Fuel := doubled 4097 (fun _ => Spent).

(** [m_impl->doRequest(m_impl, ...)] and the others. *)
Definition body (o : op) (call : Call) : Co Answer :=
  match call with
  | CallRequest target auth pdu => let* r := doRequest ssl o target auth pdu in CoRet (RequestResult r)
  | CallWalk target auth base options =>
      let* ec := doWalk ssl walk_fuel o target auth base options in CoRet (WalkResult ec)
  | CallWalkCollect target auth base options =>
      let* r := doWalkCollect ssl walk_fuel o target auth base options in CoRet (CollectResult r)
  | CallDiscovery job =>
      runDiscovery ssl o (j_target job) (j_creds job) (j_discovery job) ;* CoRet DiscoveryResult
  end.

(** ** Events *)

Inductive event c : client -> Prop :=
| ev_receive bs from c' : datagram_ok bs -> socket_of (is_v6 from) c = SocketOpen ->
    arrive ssl bs from c = Done tt c' -> event c c'
| ev_stop was c' : stop c = Done was c' -> event c c'
| ev_finishStopping c' : m_stopping c = true -> finishStopping c = Done tt c' -> event c c'
| ev_signal o z : z <> 0 -> event c (signal o z c)
| ev_tick t : m_now c <= t -> event c (with_now t c).

(** ** Segments *)

(** One stretch of a coroutine, to its next suspension or its end.  While a batch handler
    runs it may itself stop the Client or send signals. *)
Inductive segment {A} : Co A -> client -> list Obs -> Co A -> client -> Prop :=
| seg_ret a c : segment (CoRet a) c [] (CoRet a) c
| seg_suspend co c : suspended co -> segment co c [] co c
| seg_do m c co1 c1 ws co c' : m c = Done co1 c1 -> segment co1 c1 ws co c' -> segment (CoDo m) c ws co c'
| seg_open v6 k c ec ws co c' : segment (k ec) c ws co c' -> segment (CoOpen v6 k) c ws co c'
| seg_batch batch k c c1 more ws co c' : rtc event c c1 -> segment (k more) c1 ws co c' ->
    segment (CoBatch batch k) c (Batched batch (m_stopping c) more :: ws) co c'.

(** A suspended coroutine whose wait is over. *)
Inductive resumes {A} o c : Co A -> Obs -> Co A -> Prop :=
| res_send to datagram k ec : resumes o c (CoSend to datagram k) (Sent to datagram ec) (k ec)
| res_timer l k : timer_over l c = true -> resumes o c (CoTimer l k) (Waited l (m_now c)) k
| res_event d k : event_over o d c = true -> resumes o c (CoEvent d k) (Parked d) k.

(** ** States *)

(** An operation: posted to the strand; suspended, with what it was called with, the
    state it started in and what it has been seen to do; or over. *)
Inductive Task : Type :=
| Queued (call : Call)
| Suspended (call : Call) (start : client) (co : Co Answer) (seen : list Obs)
| Finished (call : Call) (start : client) (answer : Answer) (seen : list Obs).

Record System : Type := mkSystem { s_client : client; s_tasks : gmap op Task }.

Definition settle (call : Call) (start : client) (co : Co Answer) (seen : list Obs) : Task :=
  match co with CoRet a => Finished call start a seen | _ => Suspended call start co seen end.

(** What may be called from outside: Oids, octets, patience that is not negative.  An Oid
    need not be one that can be encoded. *)
Definition call_given (call : Call) : Prop :=
  match call with
  | CallRequest target auth pdu => auth_given auth /\ request_given pdu /\ 0 <= timeout target
  | CallWalk target auth base options | CallWalkCollect target auth base options =>
      auth_given auth /\ Oids.oid_ok base /\ int32_ok (maxRepetitions options) /\ 0 <= timeout target
  | CallDiscovery _ => False
  end.

Inductive step : System -> System -> Prop :=
| step_event c c' ts : event c c' -> step (mkSystem c ts) (mkSystem c' ts)
| step_call o call c ts : ts !! o = None -> call_given call ->
    step (mkSystem c ts) (mkSystem c (<[o := Queued call]> ts))
| step_post o job jobs c ts : m_posted c = job :: jobs -> ts !! o = None ->
    step (mkSystem c ts) (mkSystem (with_posted jobs c) (<[o := Queued (CallDiscovery job)]> ts))
| step_begin o call c ts ws co c' : ts !! o = Some (Queued call) -> segment (body o call) c ws co c' ->
    step (mkSystem c ts) (mkSystem c' (<[o := settle call c co ws]> ts))
| step_resume o call start co seen x c ts co1 ws co' c' : ts !! o = Some (Suspended call start co seen) ->
    resumes o c co x co1 -> segment co1 c ws co' c' ->
    step (mkSystem c ts) (mkSystem c' (<[o := settle call start co' (seen ++ x :: ws)]> ts)).

(** [Client::Client]: nothing known, nothing open, an identifier drawn at random. *)
Definition initial (id : Z) (salt : Salt) (now : Z) : System :=
  mkSystem (mkClient false NoSocket NoSocket ∅ ∅ ∅ ∅ ∅ ∅ ∅ id salt ∅ now [] []) ∅.

Definition reachable (s : System) : Prop :=
  exists id salt now, 1 <= id <= 2147483647 /\ rtc step (initial id salt now) s.

End System.

(** ** A scheduler *)

Section Scheduler.
Context {Endpoint : Type} `{Countable Endpoint} {net : Net Endpoint} (ssl : OpenSSL).
Local Notation client := (Client (Endpoint := Endpoint)).
Local Notation Co := (Co (Endpoint := Endpoint)).
Local Notation Obs := (Obs (Endpoint := Endpoint)).
Local Notation Call := (Call (Endpoint := Endpoint)).
Local Notation System := (System (Endpoint := Endpoint)).
Local Notation Task := (Task (Endpoint := Endpoint)).

(** What the system and the caller answer: to opening a socket, to a send, to a batch. *)
Record World : Type := mkWorld {
  w_open : client -> bool -> ErrorCode;
  w_send : client -> Endpoint -> Octets -> ErrorCode;
  w_batch : client -> list Varbind -> bool }.

(** One in which sockets open, sends succeed and batch handlers say yes. *)
Definition fair : World := mkWorld (fun _ _ => no_error) (fun _ _ _ => no_error) (fun _ _ => true).

Section Drive.
Context (w : World).

(** A segment. *)
Fixpoint run {A} (co : Co A) (c : client) : option (list Obs * Co A * client) :=
  match co with
  | CoRet _ | CoSend _ _ _ | CoTimer _ _ | CoEvent _ _ => Some ([], co, c)
  | CoDo m => match m c with Done co c => run co c | _ => None end
  | CoOpen v6 k => run (k (w_open w c v6)) c
  | CoBatch batch k =>
      let more := w_batch w c batch in
      match run (k more) c with
      | Some (ws, co, c') => Some (Batched batch (m_stopping c) more :: ws, co, c')
      | None => None
      end
  end.

(** What to do next. *)
Inductive Move : Type :=
| Deliver (bs : Octets) (from : Endpoint)
| Stop
| FinishStopping
| Signal (o : op) (z : Z)
| Tick (t : Z)
| Start (o : op) (call : Call)
| Post (o : op)
| Begin (o : op)
| Resume (o : op).

(** The wait of a suspended coroutine, if it is over. *)
Definition resume {A} (o : op) (c : client) (co : Co A) : option (Obs * Co A) :=
  match co with
  | CoSend to datagram k => let ec := w_send w c to datagram in Some (Sent to datagram ec, k ec)
  | CoTimer l k => if timer_over l c then Some (Waited l (m_now c), k) else None
  | CoEvent d k => if event_over o d c then Some (Parked d, k) else None
  | _ => None
  end.

Definition after_run (o : op) (call : Call) (start : client) (seen : list Obs) (ts : gmap op Task)
    (r : option (list Obs * Co Answer * client)) : option System :=
  match r with
  | Some (ws, co, c) => Some (mkSystem c (<[o := settle call start co (seen ++ ws)]> ts))
  | None => None
  end.

Definition move (s : System) (m : Move) : option System :=
  let c := s_client s in
  let ts := s_tasks s in
  match m with
  | Deliver bs from =>
      match socket_of (is_v6 from) c, arrive ssl bs from c with
      | SocketOpen, Done tt c' => Some (mkSystem c' ts)
      | _, _ => None
      end
  | Stop => match stop c with Done _ c' => Some (mkSystem c' ts) | _ => None end
  | FinishStopping =>
      match m_stopping c, finishStopping c with true, Done tt c' => Some (mkSystem c' ts) | _, _ => None end
  | Signal o z => Some (mkSystem (signal o z c) ts)
  | Tick t => if m_now c <=? t then Some (mkSystem (with_now t c) ts) else None
  | Start o call => match ts !! o with None => Some (mkSystem c (<[o := Queued call]> ts)) | Some _ => None end
  | Post o =>
      match m_posted c, ts !! o with
      | job :: jobs, None => Some (mkSystem (with_posted jobs c) (<[o := Queued (CallDiscovery job)]> ts))
      | _, _ => None
      end
  | Begin o =>
      match ts !! o with
      | Some (Queued call) => after_run o call c [] ts (run (body ssl o call) c)
      | _ => None
      end
  | Resume o =>
      match ts !! o with
      | Some (Suspended call start co seen) =>
          match resume o c co with
          | Some (x, co) => after_run o call start (seen ++ [x]) ts (run co c)
          | None => None
          end
      | _ => None
      end
  end.

Fixpoint drive (ms : list Move) (s : System) : option System :=
  match ms with
  | [] => Some s
  | m :: ms => match move s m with Some s => drive ms s | None => None end
  end.

Definition move_given (m : Move) : Prop :=
  match m with
  | Deliver bs _ => datagram_ok bs
  | Signal _ z => z <> 0
  | Start _ call => call_given call
  | _ => True
  end.

Lemma run_segment {A} (co : Co A) c ws co' c' : run co c = Some (ws, co', c') -> segment ssl co c ws co' c'.
Proof.
  revert c ws co' c'. induction co as [a|m IH|v6 k IH|to d k IH|l k IH|d k IH|b k IH] using Co_induction;
    intros c ws co' c'; cbn [run].
  - intros [= <- <- <-]. apply seg_ret.
  - destruct (m c) as [co1 c1| |] eqn:E; [|done..]. intros Hr. eapply seg_do; [exact E|]. by eapply IH.
  - intros Hr. eapply seg_open. by apply IH.
  - intros [= <- <- <-]. by apply seg_suspend.
  - intros [= <- <- <-]. by apply seg_suspend.
  - intros [= <- <- <-]. by apply seg_suspend.
  - destruct (run (k _) c) as [[[ws1 co1] c1]|] eqn:E; [|done]. intros [= <- <- <-]. eapply seg_batch; [done|by apply IH].
Qed.

Lemma resume_resumes {A} o c (co : Co A) x co1 : resume o c co = Some (x, co1) -> resumes o c co x co1.
Proof.
  destruct co; try done; cbn; [|destruct (timer_over _ _) eqn:Et|destruct (event_over _ _ _) eqn:Et]; try done;
    intros [= <- <-]; by constructor.
Qed.

Lemma move_step s m s' : move_given m -> move s m = Some s' -> step ssl s s'.
Proof.
  destruct s as [c ts]. intros Hg. destruct m as [bs from| | |o z|t|o call|o|o|o]; cbn [move s_client s_tasks]; cbn in Hg.
  - destruct (socket_of _ c) eqn:Es; [done| |done]. destruct (arrive ssl bs from c) as [[] c1| |] eqn:E; [|done..].
    intros [= <-]. apply step_event. by eapply ev_receive.
  - destruct (stop c) as [b c1| |] eqn:E; [|done..]. intros [= <-]. apply step_event. by eapply ev_stop.
  - destruct (m_stopping c) eqn:Es; [|done]. destruct (finishStopping c) as [[] c1| |] eqn:E; [|done..].
    intros [= <-]. apply step_event. by apply ev_finishStopping.
  - intros [= <-]. by apply step_event, ev_signal.
  - destruct (Z.leb_spec (m_now c) t); [|done]. intros [= <-]. by apply step_event, ev_tick.
  - destruct (ts !! o) eqn:Eo; [done|]. intros [= <-]. by apply step_call.
  - destruct (m_posted c) as [|job jobs] eqn:Ep; [done|]. destruct (ts !! o) eqn:Eo; [done|]. intros [= <-]. by apply step_post.
  - destruct (ts !! o) as [[call| |]|] eqn:Eo; [|done..]. unfold after_run.
    destruct (run _ c) as [[[ws co] c1]|] eqn:E; [|done]. intros [= <-].
    eapply step_begin; [exact Eo|by apply run_segment].
  - destruct (ts !! o) as [[|call start co seen|]|] eqn:Eo; [done| |done..].
    destruct (resume o c co) as [[x co1]|] eqn:Er; [|done]. unfold after_run.
    destruct (run co1 c) as [[[ws co2] c1]|] eqn:E; [|done]. intros [= <-]. rewrite <- app_assoc.
    eapply step_resume; [exact Eo|by apply resume_resumes|by apply run_segment].
Qed.

Lemma drive_steps ms s s' : Forall move_given ms -> drive ms s = Some s' -> rtc (step ssl) s s'.
Proof.
  intros Hg. revert s. induction Hg as [|m ms Hm _ IH]; intros s; cbn [drive]; [by intros [= ->]|].
  destruct (move s m) as [s1|] eqn:E; [|done]. intros Hd. eapply rtc_l; [by eapply move_step|by apply IH].
Qed.

Lemma drive_app ms1 ms2 s s1 : drive ms1 s = Some s1 -> drive (ms1 ++ ms2) s = drive ms2 s1.
Proof.
  revert s. induction ms1 as [|m ms1 IH]; intros s; cbn [drive app]; [by intros [= ->]|].
  destruct (move s m); [apply IH|done].
Qed.

(** What the scheduler can drive a Client to is reachable. *)
Lemma drive_reachable ms id salt now s : 1 <= id <= 2147483647 -> Forall move_given ms ->
  drive ms (initial id salt now) = Some s -> reachable ssl s.
Proof. intros Hid Hg Hd. exists id, salt, now. split; [done|]. by eapply drive_steps. Qed.

End Drive.

End Scheduler.

(** ** Theory *)

Section SystemTheory.
Context {Endpoint : Type} `{Countable Endpoint} {net : Net Endpoint} {ssl : OpenSSL} {L : OpenSSLLaws ssl}.
Local Notation client := (Client (Endpoint := Endpoint)).
Local Notation Obs := (Obs (Endpoint := Endpoint)).
Local Notation Call := (Call (Endpoint := Endpoint)).
Local Notation System := (System (Endpoint := Endpoint)).
Local Notation Task := (Task (Endpoint := Endpoint)).
Local Notation ginv := (ginv (ssl := ssl)).
Local Notation rely := (rely (ssl := ssl)).
Local Notation guar := (guar (ssl := ssl)).
Local Notation wp o := (wpc o (rely o) (guar o)).
Implicit Types (c : client) (o : op) (ws seen : list Obs) (call : Call) (s : System) (t : Task).

(** ** What every step keeps *)

Lemma event_rely c c' : ginv c -> event ssl c c' -> (forall o, rely o c c') /\ undisturbed c c'.
Proof.
  intros Hi [bs from c1 Hd _ E|was c1 E|c1 Hs E|o z Hz|now Hn].
  - destruct (arrive_rely c bs from Hd Hi) as (c2 & E2 & R). rewrite E in E2. by injection E2 as <-.
  - cbn in E. injection E as <- <-. split; [apply stop_rely|by apply same_undisturbed].
  - destruct (finishStopping_rely c Hi Hs) as (c2 & E2 & R). rewrite E in E2. by injection E2 as <-.
  - split; [by apply signal_rely|by apply signal_undisturbed].
  - split; [by apply now_rely|by apply same_undisturbed].
Qed.

Lemma events_rely c c' : ginv c -> rtc (event ssl) c c' -> (forall o, rely o c c') /\ undisturbed c c'.
Proof.
  intros Hi Hr. induction Hr as [c|c c1 c2 He _ IH]; [done|]. destruct (event_rely c c1 Hi He) as [R U].
  destruct (IH ltac:(by apply (R 0%nat))) as [R' U']. split; [|by transitivity c1]. intros o. by transitivity c1.
Qed.

(** A segment, from where the logic has it. *)
Record sound {A} o (Q : A -> list Obs -> client -> Prop) c seen ws (co : Co A) c' : Prop := {
  so_inv : ginv c';
  so_others o' : o' <> o -> rely o' c c';
  so_wp : wp o co Q (seen ++ ws) c';
  so_settled : suspended co \/ exists a, co = CoRet a;
  so_posted job : job ∈ m_posted c -> job ∈ m_posted c';
  so_unfinished d : unfinished d c' -> unfinished d c \/ exists job, job ∈ m_posted c' /\ j_discovery job = d }.

Lemma segment_sound {A} o (Q : A -> list Obs -> client -> Prop) (co : Co A) c ws co' c' seen :
  segment ssl co c ws co' c' -> ginv c -> wp o co Q seen c -> sound o Q c seen ws co' c'.
Proof.
  intros Hs. revert seen. induction Hs as [a c|co c Hsus|m c co1 c1 ws co c' E _ IH|v6 k c ec ws co c' _ IH|
    batch k c c1 more ws co c' Hev _ IH]; intros seen Hi Hw.
  - split; [done|done|by rewrite app_nil_r|right; by exists a|done|by left].
  - split; [done|done|by rewrite app_nil_r|by left|done|by left].
  - cbn in Hw. rewrite E in Hw. destruct Hw as [[G1 G2 _ G3 G4] Hw]. destruct (IH seen (G2 Hi) Hw) as [A1 A2 A3 A4 A5 A6].
    split; [done| |done|done|by auto|].
    + intros o' Ho'. transitivity c1; [by apply G1|by apply A2].
    + intros d [Hd|?]%A6; [|by right]. destruct (G4 _ Hd) as [?|(job & Hj & ?)]; [by left|right; exists job; by auto].
  - cbn in Hw. by apply IH.
  - cbn in Hw. destruct (events_rely c c1 Hi Hev) as [R [U1 U2]]. specialize (Hw c1 more (R o)).
    destruct (IH _ ltac:(by apply (R o)) Hw) as [A1 A2 A3 A4 A5 A6].
    split; [done| |by rewrite <- app_assoc in A3|done|by rewrite <- U1|].
    + intros o' Ho'. transitivity c1; [apply R|by apply A2].
    + intros d [Hd|?]%A6; [|by right]. left. by apply U2.
Qed.

Lemma segment_eventless {A} (co : Co A) c ws co' c' : segment ssl co c ws co' c' -> eventless co -> eventless co'.
Proof.
  induction 1 as [a c|co c Hsus|m c co1 c1 ws co c' E _ IH|v6 k c ec ws co c' _ IH|batch k c c1 more ws co c' Hev _ IH];
    cbn; auto. intros Hm. specialize (Hm c). rewrite E in Hm. by apply IH.
Qed.

Lemma resumes_wp {A} o (Q : A -> list Obs -> client -> Prop) (co : Co A) c seen x co1 :
  wp o co Q seen c -> resumes o c co x co1 -> wp o co1 Q (seen ++ [x]) c.
Proof. intros Hw Hr. revert Hw. destruct Hr as [to d k ec|l k Ho|d k Ho]; cbn; intros Hw; by apply Hw. Qed.

(** ** What every operation comes to *)

Definition call_ok call c : Prop :=
  match call with CallDiscovery job => job_ok job c | _ => call_given call end.

(** The contract of each operation: from the state it started in, its answer, what it was
    seen to do, and the state it ended in. *)
Definition honoured o call start (answer : Answer) seen c : Prop :=
  match call, answer with
  | CallRequest target auth pdu, RequestResult r => completed (ssl := ssl) o target auth pdu start r seen c
  | CallWalk target auth base _, WalkResult ec => walked (ssl := ssl) o target auth base ec seen c
  | CallWalkCollect target auth base _, CollectResult r => collected (ssl := ssl) o target auth base r seen c
  | CallDiscovery job, DiscoveryResult =>
      exists ec x, discovery_done (ssl := ssl) o (j_target job) (j_creds job) start (2 * attempts_of (j_target job))
          (discovered (j_target job) (j_creds job)) ec seen c /\
        m_discoveries c !! j_discovery job = Some x /\ d_finished x = true /\ d_ec x = ec /\ d_waiting x = ∅ /\
        m_discovering c !! endpoint (j_target job) = None
  | _, _ => False
  end.

Lemma walk_fuel_enough : lasts walk_fuel walk_bound.
Proof.
  apply (lasts_le _ (2 ^ Z.of_nat 4097 + 0)); [by apply doubled_lasts|]. apply Z.leb_le. vm_compute. reflexivity.
Qed.

Lemma body_spec o call c : ginv c -> call_ok call c -> wp o (body ssl o call) (honoured o call c) [] c.
Proof.
  intros Hi. destruct call as [target auth pdu|target auth base options|target auth base options|job]; cbn [call_ok call_given body].
  - intros (Ha & Hp & Ht). apply wpc_bind. by apply doRequest_spec.
  - intros (Ha & Hb & Hm & Ht). apply wpc_bind. apply doWalk_spec; [done..|apply walk_fuel_enough|done].
  - intros (Ha & Hb & Hm & Ht). apply wpc_bind. apply doWalkCollect_spec; [done..|apply walk_fuel_enough|done].
  - intros Hj. apply wpc_bind. apply runDiscovery_spec; [done|done|].
    intros ec ws c' x D H1 H2 H3 H4 H5. cbn. by exists ec, x.
Qed.

(** ** A discovery waits for nobody *)

Lemma async_wait_eventless l w : eventless (async_wait (Endpoint := Endpoint) l w).
Proof. unfold async_wait. apply eventless_bind; [apply eventless_sync|]. intros _. cbn [eventless]. apply eventless_sync. Qed.

Lemma attempts_eventless o n target datagram l ec : eventless (attempts (Endpoint := Endpoint) o n target datagram l ec).
Proof.
  revert ec. induction n as [|n IH]; intros ec; cbn [attempts]; [done|]. intros ec'.
  repeat first [ done | apply IH | apply async_wait_eventless | apply eventless_sync
    | apply eventless_bind; [|intros ?] | case_match ].
Qed.

Lemma transact_eventless o target datagram key l : eventless (transact (Endpoint := Endpoint) o target datagram key l).
Proof.
  unfold transact, socketFor. apply eventless_bind; [apply eventless_sync|]. intros []; [done|]. apply eventless_bind.
  - apply eventless_bind; [apply eventless_sync|]. intros []; [|done..]. intros ec. case_match; [done|].
    by apply eventless_bind; [apply eventless_sync|].
  - intros ec. case_match; [done|]. apply eventless_bind; [apply eventless_sync|]. intros _.
    apply eventless_bind; [apply attempts_eventless|]. intros ec'. apply eventless_sync.
Qed.

Lemma or_return_eventless {A B} (m : M client (ErrorCode + A)) (fail : ErrorCode -> B) k :
  (forall a, eventless (k a)) -> eventless (or_return m fail k).
Proof. intros Hk. apply eventless_bind; [apply eventless_sync|]. by intros []. Qed.

Ltac eventless :=
  repeat first [ exact I | apply transact_eventless | apply eventless_sync | apply or_return_eventless; intros ?
    | apply eventless_bind; [|intros ?] | case_match ].

Lemma discovery_eventless o job : eventless (body (Endpoint := Endpoint) ssl o (CallDiscovery job)).
Proof. cbn [body]. unfold runDiscovery, discoverEngine, timeSync. eventless. Qed.

(** ** Reachable states *)

(** A discovery that has said how it went. *)
Definition finished (d : loc) c : Prop := exists x, m_discoveries c !! d = Some x /\ d_finished x = true.

Lemma finished_rely o d c c' : rely o c c' -> finished d c -> finished d c'.
Proof.
  intros R (x & Hx & Hf). destruct (rely_discoveries _ _ _ R d x Hx) as (y & Hy & [D _ _ _]). exists y. auto.
Qed.

(** The Client has been in a state. *)
Record since c' c : Prop := { since_now : m_now c' <= m_now c; since_received : m_received c' ⊆ m_received c }.

Lemma since_rely o c0 c c' : rely o c c' -> since c0 c -> since c0 c'.
Proof. intros R [S1 S2]. split; [pose proof (rely_now _ _ _ R); lia|]. transitivity (m_received c); [done|apply R]. Qed.

Definition task_ok o c t : Prop :=
  match t with
  | Queued call => call_ok call c
  | Suspended call start co seen => suspended co /\ wp o co (honoured o call start) seen c /\
      match call with CallDiscovery _ => eventless co | _ => True end
  | Finished call start answer seen => (exists c', honoured o call start answer seen c' /\ since c' c) /\
      match call with CallDiscovery job => finished (j_discovery job) c | _ => True end
  end.

(** The discovery a task has still to see through. *)
Definition runs (d : loc) t : Prop :=
  match t with
  | Queued (CallDiscovery job) | Suspended (CallDiscovery job) _ _ _ => j_discovery job = d
  | _ => False
  end.

(** A discovery that somebody waits for is being worked on: it is in the queue, or an
    operation that is not over runs it. *)
Record sys_inv s : Prop := {
  si_client : ginv (s_client s);
  si_tasks o t : s_tasks s !! o = Some t -> task_ok o (s_client s) t;
  si_runners d : unfinished d (s_client s) ->
    (exists job, job ∈ m_posted (s_client s) /\ j_discovery job = d) \/ (exists o t, s_tasks s !! o = Some t /\ runs d t) }.

Lemma task_rely o c c' t : rely o c c' -> task_ok o c t -> task_ok o c' t.
Proof.
  intros R. destruct t as [call|call start co seen|call start a seen].
  - destruct call; [done..|]. by apply (job_rely o).
  - intros (Hs & Hw & He). split; [done|]. split; [|done].
    eapply wpc_rely; [apply rely_preorder|by intros l; apply own_timer_rely|by intros d; apply registered_rely|done|exact R|done].
  - intros [(c0 & Ha & Hs) Hf]. split; [exists c0; split; [done|by eapply since_rely]|]. destruct call; [done..|]. by eapply finished_rely.
Qed.

Lemma initial_inv id salt now : 1 <= id <= 2147483647 -> sys_inv (initial id salt now).
Proof.
  intros Hid. split; [|intros o t; cbn; by rewrite lookup_empty|].
  - split; try (intros ? ?; cbn; by rewrite lookup_empty).
    + split; cbn; [done| |]; intros ? ?; by rewrite lookup_empty.
    + intros ? Hin. by apply elem_of_nil in Hin.
  - intros d (x & Hx & _). cbn in Hx. by rewrite lookup_empty in Hx.
Qed.

(** A segment of one operation, and the others after it. *)
Lemma settled_inv o call start co seen ws c c' (ts : gmap op Task) t0 : sys_inv (mkSystem c ts) ->
  ts !! o = Some t0 -> (forall d, runs d t0 -> match call with CallDiscovery job => j_discovery job = d | _ => False end) ->
  match call with CallDiscovery _ => eventless co | _ => True end ->
  sound o (honoured o call start) c seen ws co c' ->
  sys_inv (mkSystem c' (<[o := settle call start co (seen ++ ws)]> ts)).
Proof.
  intros [Hi Ht Hr] Ho H0 He [A1 A2 A3 A4 A5 A6]. cbn in *. split; [done| |]; cbn.
  - intros o' t. rewrite lookup_insert_Some. intros [[<- <-]|[Hne Ht']]; [|eapply task_rely; [by apply A2|by apply Ht]].
    unfold settle. destruct A4 as [A4|[a ->]]; [destruct co; try done; by split|].
    split; [by exists c'; split|]. destruct call as [| | |job]; [done..|]. cbn in A3. destruct a; try done.
    destruct A3 as (ec & x & _ & Hx & Hf & _). by exists x.
  - intros d Hd. destruct (A6 _ Hd) as [Hd'|?]; [|by left].
    destruct (Hr _ Hd') as [(job & Hj & E)|(o' & t & Ho' & Hrun)]; [left; exists job; by auto|right].
    destruct (decide (o' = o)) as [->|]; [|exists o', t; by rewrite lookup_insert_ne].
    assert (t = t0) as -> by congruence. specialize (H0 _ Hrun).
    exists o, (settle call start co (seen ++ ws)). rewrite lookup_insert_eq. split; [done|]. unfold settle, runs.
    destruct A4 as [A4|[a ->]]; [destruct co; by try done|]. destruct call as [| | |job]; [done..|]. subst d.
    cbn in A3. destruct a; try done. destruct A3 as (ec & x & _ & Hx & Hf & _). destruct Hd as (y & Hy & Hfy). congruence.
Qed.

Lemma posted_inv o job jobs c (ts : gmap op Task) : sys_inv (mkSystem c ts) -> m_posted c = job :: jobs -> ts !! o = None ->
  sys_inv (mkSystem (with_posted jobs c) (<[o := Queued (CallDiscovery job)]> ts)).
Proof.
  intros [Hi Ht Hr] Hp Ho. cbn in *.
  assert (forall o', rely o' c (with_posted jobs c)) as R.
  { intros o'. apply silent_rely; [|done..]. intros [[? ? ?] ? ? ? ? ? Hpo ? ?]. split; [by split|done..| |done|done].
    cbn. intros job' Hj. apply Hpo. rewrite Hp. set_solver. }
  split; [by apply (R o)| |]; cbn.
  - intros o' t. rewrite lookup_insert_Some. intros [[<- <-]|[_ Ht']]; [|eapply task_rely; [apply R|by apply Ht]].
    cbn. eapply job_rely; [apply (R o)|]. apply (ginv_posted _ Hi). rewrite Hp. set_solver.
  - intros d Hd. destruct (Hr d Hd) as [(job' & Hj & E)|(o' & t & Ho' & Hrun)].
    + rewrite Hp in Hj. apply elem_of_cons in Hj as [->|Hj]; [right|left; by exists job'].
      exists o, (Queued (CallDiscovery job)). by rewrite lookup_insert_eq.
    + right. exists o', t. rewrite lookup_insert_ne by congruence. done.
Qed.

Lemma step_inv s s' : step ssl s s' -> sys_inv s -> sys_inv s'.
Proof.
  intros Hs HI. destruct Hs as [c c' ts He|o call c ts Ho Hg|o job jobs c ts Hp Ho|o call c ts ws co c' Ho Hseg
    |o call start co seen x c ts co1 ws co' c' Ho Hr Hseg]; pose proof HI as [Hi Ht Hrn]; cbn in *.
  - destruct (event_rely c c' Hi He) as [R [U1 U2]]. split; cbn.
    + by apply (R 0%nat).
    + intros o t Hot. eapply task_rely; [apply R|by apply Ht].
    + rewrite U1. intros d Hd. by apply Hrn, U2.
  - split; cbn; [done| |].
    + intros o' t. rewrite lookup_insert_Some. intros [[<- <-]|[_ Ht']]; [|by apply Ht]. by destruct call.
    + intros d Hd. destruct (Hrn d Hd) as [?|(o' & t & Ho' & Hrun)]; [by left|right]. exists o', t.
      by rewrite lookup_insert_ne by congruence.
  - by apply posted_inv.
  - pose proof (segment_sound o _ _ _ _ _ _ [] Hseg Hi (body_spec o call c Hi (Ht _ _ Ho))) as S.
    eapply (settled_inv o call c co [] ws); [done|done|by destruct call| |done].
    destruct call; [done..|]. eapply segment_eventless; [exact Hseg|apply discovery_eventless].
  - destruct (Ht _ _ Ho) as (_ & Hw & He). pose proof (resumes_wp o _ _ _ _ _ _ Hw Hr) as Hw'.
    pose proof (segment_sound o _ _ _ _ _ _ _ Hseg Hi Hw') as S.
    replace (seen ++ x :: ws) with ((seen ++ [x]) ++ ws) by (by rewrite <- app_assoc).
    eapply (settled_inv o call start co' (seen ++ [x]) ws); [done|done|by destruct call| |done].
    destruct call; [done..|]. eapply segment_eventless; [exact Hseg|]. revert He. destruct Hr; cbn; [auto|auto|done].
Qed.

Lemma steps_inv s s' : rtc (step ssl) s s' -> sys_inv s -> sys_inv s'.
Proof. induction 1 as [|s1 s2 s3 Hs _ IH]; [done|]. intros Hi. by eapply IH, step_inv. Qed.

Lemma reachable_inv s : reachable ssl s -> sys_inv s.
Proof. intros (id & salt & now & Hid & Hr). eapply steps_inv; [exact Hr|by apply initial_inv]. Qed.

Lemma drive_inv w ms s s' : Forall move_given ms -> drive ssl w ms s = Some s' -> sys_inv s -> sys_inv s'.
Proof. intros Hg D. eapply steps_inv, drive_steps; [exact Hg|exact D]. Qed.

End SystemTheory.
