(* ===== verification/Liveness.v ===== *)
(** * Liveness: every operation comes to an end

    Whatever the system answers to the sends and the batch handlers to their batches, an
    operation that was started completes when nothing happens but its own: time passes,
    what was posted runs, and a wait that is over is resumed.  No reply, no signal and no
    Stopping is needed; what an operation waits for is a timer of its own, or a discovery
    that somebody is working on ([Impl::ensureEngine], [Impl::runDiscovery],
    [Impl::transact] of [src/Client.cpp]). *)

From stdpp Require Import gmap relations.
From S2P Require Import Prelude Errors Oids Values Pdu Usm V3Message Client Engines Coroutine Strand Exchange Requests Walk System.

Section Liveness.
Context {Endpoint : Type} `{Countable Endpoint} {net : Net Endpoint} {ssl : OpenSSL} {L : OpenSSLLaws ssl}.
Local Notation client := (Client (Endpoint := Endpoint)).
Local Notation Obs := (Obs (Endpoint := Endpoint)).
Local Notation Call := (Call (Endpoint := Endpoint)).
Local Notation System := (System (Endpoint := Endpoint)).
Local Notation Task := (Task (Endpoint := Endpoint)).
Local Notation Move := (Move (Endpoint := Endpoint)).
Local Notation ginv := (ginv (ssl := ssl)).
Local Notation sys_inv := (sys_inv (ssl := ssl)).
Local Notation task_ok := (task_ok (ssl := ssl)).
Local Notation wp o := (wpc o (rely (ssl := ssl) o) (guar (ssl := ssl) o)).
Context (w : World (Endpoint := Endpoint)).
Implicit Types (job : Job (Endpoint := Endpoint)) (c : client) (o : op) (ws seen : list Obs) (call : Call) (s : System) (t : Task).

(** The moves that need nobody's help. *)
Definition patient (m : Move) : Prop :=
  match m with Tick _ | Post _ | Begin _ | Resume _ => True | _ => False end.

Definition reaches s s' : Prop := exists ms, Forall patient ms /\ drive ssl w ms s = Some s'.

(** Reached by moves of operation [o] only. *)
Definition alone o s s' : Prop :=
  reaches s s' /\ forall o' t, o' <> o -> s_tasks s !! o' = Some t -> s_tasks s' !! o' = Some t.

#[global] Instance reaches_preorder : PreOrder reaches.
Proof.
  split.
  - intros s. by exists [].
  - intros s1 s2 s3 (ms1 & P1 & D1) (ms2 & P2 & D2). exists (ms1 ++ ms2). split; [by apply Forall_app|].
    by rewrite (drive_app _ _ _ _ _ _ D1).
Qed.

#[global] Instance alone_preorder o : PreOrder (alone o).
Proof.
  split; [by split|]. intros s1 s2 s3 [A1 A2] [B1 B2]. split; [by transitivity s2|]. auto.
Qed.

Lemma reaches_inv s s' : reaches s s' -> sys_inv s -> sys_inv s'.
Proof.
  intros (ms & P & D). eapply drive_inv; [|exact D]. eapply Forall_impl; [|exact P]. by intros [].
Qed.

(** One move. *)
Lemma move_reaches s m s' : patient m -> move ssl w s m = Some s' -> reaches s s'.
Proof. intros P M. exists [m]. split; [by constructor|]. cbn. by rewrite M. Qed.

Lemma run_exists {A} o (Q : A -> list Obs -> client -> Prop) (co : Co A) c seen : wp o co Q seen c ->
  exists ws co' c', run w co c = Some (ws, co', c').
Proof.
  revert c seen. induction co as [a|m IH|v6 k IH|to d k IH|l k IH|d k IH|b k IH] using Co_induction;
    intros c seen Hw; cbn in Hw |- *; try (by eexists _, _, _).
  - destruct (m c) as [co1 c1| |] eqn:E; [|done..]. destruct Hw as [_ Hw]. by eapply IH.
  - by eapply IH.
  - destruct (IH _ c _ (Hw c (w_batch w c b) ltac:(reflexivity))) as (ws & co' & c' & ->). by eexists _, _, _.
Qed.

(** A wait that is over is resumed. *)
Lemma resume_alone o call start co seen x co1 s : sys_inv s ->
  s_tasks s !! o = Some (Suspended call start co seen) -> resume w o (s_client s) co = Some (x, co1) ->
  exists ws co' c' s', run w co1 (s_client s) = Some (ws, co', c') /\ alone o s s' /\
    s_tasks s' !! o = Some (settle call start co' ((seen ++ [x]) ++ ws)).
Proof.
  intros Hi Ho Hr. destruct (si_tasks _ Hi _ _ Ho) as (_ & Hw & _). pose proof (resume_resumes _ _ _ _ _ _ Hr) as Hrs.
  destruct (run_exists o _ co1 _ _ (resumes_wp o _ _ _ _ _ _ Hw Hrs)) as (ws & co' & c' & Hrun).
  exists ws, co', c', (mkSystem c' (<[o := settle call start co' ((seen ++ [x]) ++ ws)]> (s_tasks s))).
  split; [done|]. split; [split|].
  - apply (move_reaches s (Resume o)); [done|]. cbn. rewrite Ho, Hr, Hrun. done.
  - intros o' t Hne Ht. cbn. by rewrite lookup_insert_ne.
  - cbn. by rewrite lookup_insert_eq.
Qed.

(** A timer of one's own runs out. *)
Lemma timer_alone o l s : own_timer o l (s_client s) ->
  exists s', alone o s s' /\ s_tasks s' = s_tasks s /\ timer_over l (s_client s') = true.
Proof.
  intros [_ [p Hp]]. destruct (timer_over l (s_client s)) eqn:E; [by exists s|].
  assert (m_now (s_client s) <= p_expiry p) as Hn.
  { unfold timer_over in E. rewrite Hp in E. apply orb_false_iff in E as [_ E%Z.leb_gt]. lia. }
  exists (mkSystem (with_now (p_expiry p) (s_client s)) (s_tasks s)). split; [split; [|done]|split; [done|]].
  - apply (move_reaches s (Tick (p_expiry p))); [done|]. cbn. by rewrite (proj2 (Z.leb_le _ _) Hn).
  - unfold timer_over. cbn. rewrite Hp, Z.leb_refl. apply orb_true_r.
Qed.

Definition over o call s : Prop := exists start answer seen, s_tasks s !! o = Some (Finished call start answer seen).

(** ** By induction on what the operation has still to do *)

Section Finishes.
Context (o : op) (call : Call) (goes : System -> System -> Prop) `{!PreOrder goes}.
Hypothesis goes_alone : forall s s', alone o s s' -> goes s s'.
Hypothesis goes_reaches : forall s s', goes s s' -> reaches s s'.
Hypothesis wakes : forall s start d k seen, sys_inv s -> s_tasks s !! o = Some (Suspended call start (CoEvent d k) seen) ->
  exists s', goes s s' /\ s_tasks s' !! o = Some (Suspended call start (CoEvent d k) seen) /\
    event_over o d (s_client s') = true.

(** Where a segment ended, it goes on from there. *)
Definition goes_on (co0 : Co Answer) : Prop := forall c ws co c' start seen s,
  run w co0 c = Some (ws, co, c') -> sys_inv s -> s_tasks s !! o = Some (settle call start co seen) ->
  exists s', goes s s' /\ over o call s'.

Lemma resume_goes (co k : Co Answer) x s s0 start seen : goes_on k -> sys_inv s0 -> goes s0 s ->
  s_tasks s !! o = Some (Suspended call start co seen) -> resume w o (s_client s) co = Some (x, k) ->
  exists s', goes s0 s' /\ over o call s'.
Proof.
  intros IH Hi0 Hg Ho Hr. assert (sys_inv s) as Hi by (eapply reaches_inv; [by apply goes_reaches|done]).
  destruct (resume_alone o call start co seen x k s Hi Ho Hr) as (ws & co' & c' & s1 & Hrun & Ha & Ho1).
  assert (sys_inv s1) as Hi1 by (eapply reaches_inv; [apply Ha|done]).
  destruct (IH _ _ _ _ start _ s1 Hrun Hi1 Ho1) as (s2 & Hg2 & Hov).
  exists s2. split; [|done]. transitivity s; [done|]. transitivity s1; [by apply goes_alone|done].
Qed.

Lemma co_goes_on (co : Co Answer) : goes_on co.
Proof.
  induction co as [a|m IH|v6 k IH|to d k IH|l k IH|d k IH|b k IH] using Co_induction;
    intros c ws co c' start seen s; cbn [run].
  - intros [= <- <- <-] _ Ho. exists s. split; [done|]. by exists start, a, seen.
  - destruct (m c) as [co1 c1| |] eqn:E; [|done..]. by apply (IH c co1 c1 E).
  - by apply IH.
  - intros [= <- <- <-] Hi Ho. by eapply (resume_goes (CoSend to d k) (k (w_send w (s_client s) to d))).
  - intros [= <- <- <-] Hi Ho. destruct (si_tasks _ Hi _ _ Ho) as (_ & [Ht _] & _).
    destruct (timer_alone o l s Ht) as (s1 & Ha & Et & Hov). rewrite <- Et in Ho.
    eapply (resume_goes (CoTimer l k) k); [done|exact Hi|by apply goes_alone|exact Ho|]. cbn. by rewrite Hov.
  - intros [= <- <- <-] Hi Ho. destruct (wakes s start d k seen Hi Ho) as (s1 & Hg & Ho1 & Hov).
    eapply (resume_goes (CoEvent d k) k); [done|exact Hi|exact Hg|exact Ho1|]. cbn. by rewrite Hov.
  - destruct (run w (k _) c) as [[[ws1 co1] c1]|] eqn:E; [|done]. intros [= <- <- <-]. by eapply IH.
Qed.

Lemma queued_goes s : sys_inv s -> s_tasks s !! o = Some (Queued call) -> exists s', goes s s' /\ over o call s'.
Proof.
  intros Hi Ho. pose proof (si_tasks _ Hi _ _ Ho) as Hok.
  destruct (run_exists o _ _ _ _ (body_spec o call _ (si_client _ Hi) Hok)) as (ws & co' & c' & Hrun).
  set (s1 := mkSystem c' (<[o := settle call (s_client s) co' ([] ++ ws)]> (s_tasks s))).
  assert (alone o s s1) as Ha.
  { split; [|intros o' t Hne Ht; cbn; by rewrite lookup_insert_ne].
    apply (move_reaches s (Begin o)); [done|]. cbn. by rewrite Ho, Hrun. }
  destruct (co_goes_on _ _ _ _ _ (s_client s) ([] ++ ws) s1 Hrun) as (s2 & Hg & Hov).
  - eapply reaches_inv; [apply Ha|done].
  - cbn. by rewrite lookup_insert_eq.
  - exists s2. split; [|done]. transitivity s1; [by apply goes_alone|done].
Qed.

Lemma suspended_goes s start co seen : sys_inv s -> s_tasks s !! o = Some (Suspended call start co seen) ->
  exists s', goes s s' /\ over o call s'.
Proof.
  intros Hi Ho. destruct (si_tasks _ Hi _ _ Ho) as (Hs & _).
  apply (co_goes_on co (s_client s) [] co (s_client s) start seen); [by destruct co|done|]. rewrite Ho. by destruct co.
Qed.

End Finishes.

(** ** Discoveries, which wait for no other operation *)

Lemma discovery_alone o job s t : sys_inv s -> s_tasks s !! o = Some t -> runs (j_discovery job) t ->
  exists s', alone o s s' /\ finished (j_discovery job) (s_client s').
Proof.
  intros Hi Ho Hr.
  assert (exists job' s', j_discovery job' = j_discovery job /\ alone o s s' /\ over o (CallDiscovery job') s')
    as (job' & s' & E & Ha & start & a & seen & Hov).
  { assert (forall job' s start d k seen, sys_inv s ->
      s_tasks s !! o = Some (Suspended (CallDiscovery job') start (CoEvent d k) seen) -> False) as Hev.
    { intros job' s1 start d k seen Hi1 Ho1. by destruct (si_tasks _ Hi1 _ _ Ho1) as (_ & _ & ?). }
    destruct t as [[| | |job']|[| | |job'] start co seen|]; try done; exists job'.
    - destruct (queued_goes o (CallDiscovery job') (alone o)) with s as (s' & ? & ?); try done; [by intros ? ? []| |by exists s'].
      intros s1 start d k seen Hi1 Ho1. by destruct (Hev job' s1 start d k seen).
    - destruct (suspended_goes o (CallDiscovery job') (alone o)) with s start co seen as (s' & ? & ?); try done;
        [by intros ? ? []| |by exists s'].
      intros s1 start1 d k seen1 Hi1 Ho1. by destruct (Hev job' s1 start1 d k seen1). }
  exists s'. split; [done|]. rewrite <- E. assert (sys_inv s') as Hi' by (eapply reaches_inv; [apply Ha|done]).
  by destruct (si_tasks _ Hi' _ _ Hov) as [_ ?].
Qed.

(** A discovery in the queue gets its turn. *)
Lemma posted_turn s jobs1 job jobs2 : m_posted (s_client s) = jobs1 ++ job :: jobs2 ->
  exists o s', reaches s s' /\ s_tasks s !! o = None /\ s_tasks s' !! o = Some (Queued (CallDiscovery job)) /\
    forall o' t, s_tasks s !! o' = Some t -> s_tasks s' !! o' = Some t.
Proof.
  assert (forall s job jobs, m_posted (s_client s) = job :: jobs ->
    let o := fresh (dom (s_tasks s)) in
    s_tasks s !! o = None /\
    reaches s (mkSystem (with_posted jobs (s_client s)) (<[o := Queued (CallDiscovery job)]> (s_tasks s)))) as Hone.
  { clear. intros s job jobs Hp o. assert (s_tasks s !! o = None) as Ho by apply not_elem_of_dom, is_fresh.
    split; [done|]. apply (move_reaches s (Post o)); [done|]. cbn. by rewrite Hp, Ho. }
  revert s. induction jobs1 as [|job1 jobs1 IH]; intros s Hp.
  - destruct (Hone s job jobs2 Hp) as [Ho Hr]. eexists _, _. split; [exact Hr|]. split; [done|]. cbn.
    split; [by rewrite lookup_insert_eq|]. intros o' t Ht. rewrite lookup_insert_ne; [done|]. intros <-. congruence.
  - destruct (Hone s job1 (jobs1 ++ job :: jobs2) Hp) as [Ho1 Hr1]. set (s1 := mkSystem _ _) in Hr1.
    assert (forall o' t, s_tasks s !! o' = Some t -> s_tasks s1 !! o' = Some t) as Hk.
    { intros o' t Ht. cbn. rewrite lookup_insert_ne; [done|]. intros <-. congruence. }
    destruct (IH s1 eq_refl) as (o & s2 & Hr2 & Ho & Hq & Hk2). exists o, s2. split; [by transitivity s1|].
    split; [|split; [done|by auto]]. destruct (s_tasks s !! o) as [t|] eqn:E; [|done]. apply Hk in E. congruence.
Qed.

(** Whoever waits for a discovery is woken. *)
Lemma event_wakes o call s start d k seen : sys_inv s -> s_tasks s !! o = Some (Suspended call start (CoEvent d k) seen) ->
  exists s', reaches s s' /\ s_tasks s' !! o = Some (Suspended call start (CoEvent d k) seen) /\
    event_over o d (s_client s') = true.
Proof.
  intros Hi Ho.
  assert (forall s', reaches s s' -> s_tasks s' !! o = Some (Suspended call start (CoEvent d k) seen) ->
    finished d (s_client s') -> event_over o d (s_client s') = true) as Hwoken.
  { intros s' Hr Ho' (x & Hx & Hf). pose proof (reaches_inv _ _ Hr Hi) as Hi'.
    destruct (si_tasks _ Hi' _ _ Ho') as (_ & [(y & Hy & Hreg) _] & _). assert (y = x) as -> by congruence.
    unfold event_over. rewrite Hx. apply bool_decide_eq_true. destruct Hreg as [Hw|?]; [|done].
    rewrite (ginv_waited _ (si_client _ Hi') _ _ Hx) in Hf; [done|]. intros E. rewrite E in Hw. set_solver. }
  destruct (si_tasks _ Hi _ _ Ho) as (_ & [(x & Hx & Hreg) _] & Hev). destruct (d_finished x) eqn:Hf.
  { exists s. split; [done|]. split; [done|]. apply Hwoken; [done|done|by exists x]. }
  assert (unfinished d (s_client s)) as Hun by (by exists x).
  assert (exists o2 s1 t job, o2 <> o /\ reaches s s1 /\ j_discovery job = d /\ s_tasks s1 !! o2 = Some t /\ runs d t /\
    s_tasks s1 !! o = Some (Suspended call start (CoEvent d k) seen)) as (o2 & s1 & t & job & Hne & Hr1 & Ej & Ho2 & Hrun & Ho1).
  { destruct (si_runners _ Hi _ Hun) as [(job & Hj & Ej)|(o2 & t & Ho2 & Hrun)].
    - apply list_elem_of_split in Hj as (jobs1 & jobs2 & Hj).
      destruct (posted_turn s jobs1 job jobs2 Hj) as (o2 & s1 & Hr & Hn & Hq & Hk).
      exists o2, s1, (Queued (CallDiscovery job)), job. split; [congruence|]. by auto 10.
    - assert (exists job, j_discovery job = d) as [job Ej] by (destruct t as [[]|[]|]; try done; by eexists).
      exists o2, s, t, job. split; [|done]. intros ->. rewrite Ho in Ho2. injection Ho2 as <-. by destruct call. }
  subst d. destruct (discovery_alone o2 job s1 t (reaches_inv _ _ Hr1 Hi) Ho2 Hrun) as (s2 & [Hr2 Hk] & Hfin).
  assert (s_tasks s2 !! o = Some (Suspended call start (CoEvent (j_discovery job) k) seen)) as Ho' by (by apply Hk).
  assert (reaches s s2) as Hr by (by transitivity s1). exists s2. split; [done|]. split; [done|]. by apply Hwoken.
Qed.

(** ** Every operation *)

Definition task_call t : Call :=
  match t with Queued call | Suspended call _ _ _ | Finished call _ _ _ => call end.

Lemma every_operation_ends s o t : sys_inv s -> s_tasks s !! o = Some t -> exists s', reaches s s' /\ over o (task_call t) s'.
Proof.
  intros Hi Ho. destruct t as [call|call start co seen|call start a seen]; cbn [task_call].
  - apply (queued_goes o call reaches); try done; [by intros ? ? []|]. intros. by eapply event_wakes.
  - apply (suspended_goes o call reaches) with start co seen; try done; [by intros ? ? []|]. intros. by eapply event_wakes.
  - exists s. split; [done|]. by exists start, a, seen.
Qed.

End Liveness.
