(* ===== verification/Operations.v ===== *)
(** * Operations: what a caller can count on

    The interface of [include/snmpio/Client.hpp]: the asynchronous operations with their
    two overloads, and [Community], [Target] and [WalkOptions] of
    [include/snmpio/Target.hpp].  The theorems are about every state a Client can reach,
    whatever the network delivers and whatever the callers do: what a request, a Walk or a
    discovery was seen to send, what stands behind what it handed out, and that it ends. *)

From stdpp Require Import gmap relations sorting.
From S2P Require Import Prelude Errors Oids Values Ber BerWriter BerReader BerRoundtrip Pdu Usm V3Message Client Engines Coroutine Strand Exchange Requests Walk System Liveness.

(** ** The interface *)

(** [std::string value]. *)
Record Community : Type := mkCommunity { value : cstring }.

(** What a request travels under: [std::variant<Community, Credentials>], built from
    either. *)
Class Authorizes (A : Type) : Type := as_auth : A -> Auth.

#[export] Instance community_authorizes : Authorizes Community := fun community => AuthCommunity (value community).
#[export] Instance credentials_authorizes : Authorizes Credentials := AuthCredentials.

Section Interface.
Context {Endpoint : Type} {A : Type} `{!Authorizes A}.
Local Notation Target := (Target (Endpoint := Endpoint)).
Local Notation Call := (Call (Endpoint := Endpoint)).

(** The defaults of [Target] and [WalkOptions]. *)
Definition default_target (ep : Endpoint) : Target := mkTarget ep 2000 1.
Definition default_walk : WalkOptions := mkWalkOptions 10.

Definition asyncGet (target : Target) (auth : A) (oids : list Oid) : Call :=
  CallRequest target (as_auth auth) (makePdu Get (toVarbinds oids)).

Definition asyncGetNext (target : Target) (auth : A) (oids : list Oid) : Call :=
  CallRequest target (as_auth auth) (makePdu GetNext (toVarbinds oids)).

Definition asyncGetBulk (target : Target) (auth : A) (oids : list Oid) (nonRepeaters maxRepetitions : Z) : Call :=
  CallRequest target (as_auth auth) (makeBulkPdu (toVarbinds oids) nonRepeaters maxRepetitions).

Definition asyncSet (target : Target) (auth : A) (varbinds : list Varbind) : Call :=
  CallRequest target (as_auth auth) (makePdu SetPdu varbinds).

Definition asyncWalk (target : Target) (auth : A) (base : Oid) (options : WalkOptions) : Call :=
  CallWalk target (as_auth auth) base options.

Definition asyncWalkCollect (target : Target) (auth : A) (base : Oid) (options : WalkOptions) : Call :=
  CallWalkCollect target (as_auth auth) base options.

End Interface.

(** ** What every operation comes to *)

Section Operations.
Context {Endpoint : Type} `{Countable Endpoint} {net : Net Endpoint} {ssl : OpenSSL} {L : OpenSSLLaws ssl}.
Local Notation client := (Client (Endpoint := Endpoint)).
Local Notation Target := (Target (Endpoint := Endpoint)).
Local Notation Obs := (Obs (Endpoint := Endpoint)).
Local Notation Call := (Call (Endpoint := Endpoint)).
Local Notation System := (System (Endpoint := Endpoint)).
Local Notation Task := (Task (Endpoint := Endpoint)).
Local Notation World := (World (Endpoint := Endpoint)).
Local Notation Move := (Move (Endpoint := Endpoint)).
Local Notation ginv := (ginv (ssl := ssl)).
Local Notation backed := (backed (ssl := ssl)).
Local Notation wp o := (wpc o (rely (ssl := ssl) o) (guar (ssl := ssl) o)).
Implicit Types (c : client) (o : op) (seen : list Obs) (call : Call) (s : System) (t : Task) (target : Target)
  (auth : Auth) (w : World).

(** Up to eight hundred names make a request that may be passed on. *)
Lemma names_given {A} `{!Authorizes A} target (a : A) oids : auth_given (as_auth a) -> 0 <= timeout target ->
  Forall Oids.oid_ok oids -> (length oids <= 800)%nat ->
  call_given (asyncGet target a oids) /\ call_given (asyncGetNext target a oids) /\
  forall nonRepeaters maxRepetitions, int32_ok nonRepeaters -> int32_ok maxRepetitions ->
    call_given (asyncGetBulk target a oids nonRepeaters maxRepetitions).
Proof. intros Ha Ht Ho Hl. split_and!; intros; (split; [done|]; split; [by apply oids_request_given|done]). Qed.

(** An operation that is over kept its contract. *)
Lemma finished_honoured s o call start answer seen : reachable ssl s ->
  s_tasks s !! o = Some (Finished call start answer seen) -> exists c', honoured (ssl := ssl) o call start answer seen c' /\ since c' (s_client s).
Proof. intros Hr Ho. by destruct (si_tasks _ (reachable_inv _ Hr) _ _ Ho). Qed.

(** Started, and not over. *)
Definition outstanding o s : bool :=
  match s_tasks s !! o with Some (Queued _) | Some (Suspended _ _ _ _) => true | _ => false end.

(** And in the state in which it ended. *)
Lemma finishing_honoured s s' o call start answer seen : reachable ssl s -> step ssl s s' ->
  outstanding o s = true ->
  s_tasks s' !! o = Some (Finished call start answer seen) ->
  honoured (ssl := ssl) o call start answer seen (s_client s').
Proof.
  intros Hr Hs Hout Ho. destruct (reachable_inv _ Hr) as [Hi Ht _].
  assert (forall call' start' answer' seen', s_tasks s !! o <> Some (Finished call' start' answer' seen')) as Hun.
  { intros call' start' answer' seen' E. unfold outstanding in Hout. by rewrite E in Hout. }
  destruct Hs as [c c' ts He|o1 call1 c ts Ho1 Hg|o1 job jobs c ts Hp Ho1|o1 call1 c ts ws co c' Ho1 Hseg
    |o1 call1 start1 co seen1 x c ts co1 ws co' c' Ho1 Hres Hseg]; cbn in *.
  1: by apply Hun in Ho.
  all: revert Ho; rewrite lookup_insert_Some; intros [[-> E]|[_ Ho]]; try done; try (by apply Hun in Ho).
  - destruct (segment_sound o _ _ _ _ _ _ [] Hseg Hi (body_spec o call1 c Hi (Ht _ _ Ho1))) as [_ _ Hw _ _ _].
    destruct co; try done. cbn in E. by injection E as <- <- <- <-.
  - destruct (Ht _ _ Ho1) as (_ & Hw1 & _). pose proof (resumes_wp o _ _ _ _ _ _ Hw1 Hres) as Hw2.
    destruct (segment_sound o _ _ _ _ _ _ _ Hseg Hi Hw2) as [_ _ Hw _ _ _].
    destruct co'; try done. cbn in E. injection E as <- <- <- <-. cbn in Hw. by rewrite <- app_assoc in Hw.
Qed.

(** ** Requests *)

(** C1: A request that is over failed with an error and no data, or hands out exactly the
    PDU of a datagram the socket delivered from the target's endpoint, whose request-id is
    the one in the datagrams the request last sent there, at least one: for a Community a v2c
    Response under that Community; for Credentials a Response that names the very Engine
    those datagrams were addressed to, decrypted with the user's privacy key for that Engine
    where it was encrypted and, where the user authenticates, with a digest made with the
    user's key for that Engine. *)
Theorem requests_backed s o target auth pdu start r seen : reachable ssl s ->
  s_tasks s !! o = Some (Finished (CallRequest target auth pdu) start (RequestResult r) seen) ->
  (exists ec, r = refuse ec /\ is_error ec = true) \/
  (exists response engineId, r = toResult response /\
    backed_at (ssl := ssl) (m_received (s_client s)) target auth engineId response /\
    answers target (asks (ssl := ssl) auth pdu engineId) seen response).
Proof.
  intros Hr Ho. destruct (finished_honoured _ _ _ _ _ _ Hr Ho) as (c' & [_ _ _ _ _ _ _ _ C _] & [_ Hl]).
  destruct C as [?|(response & engineId & E & Hb & Ha)]; [by left|right]. exists response, engineId. split; [done|].
  split; [by eapply backed_at_mono|done].
Qed.

(** C5: What a request sends goes to its target and is its own PDU in its own name: under
    SNMPv3 at the user's level, at authPriv with nothing of the ScopedPDU in the clear and
    opened to it by the user's privacy key for the Engine addressed, and signed with the
    user's key for that Engine.  It sends at most one datagram per
    attempt, and a second round of attempts only under SNMPv3; nothing at all if some Oid of
    the PDU has no encoding. *)
Theorem requests_speak s o target auth pdu start r seen : reachable ssl s ->
  s_tasks s !! o = Some (Finished (CallRequest target auth pdu) start (RequestResult r) seen) ->
  Forall (talks target (utters (ssl := ssl) auth pdu)) seen /\ (sends seen <= exchanges auth * attempts_of target)%nat /\
  (unencodable pdu -> sends seen = 0%nat).
Proof. intros Hr Ho. by destruct (finished_honoured _ _ _ _ _ _ Hr Ho) as (c' & [] & _). Qed.



(** A request started once Stopping has begun, or with a level its protocols cannot give,
    is refused with the error for it before anything is sent or waited for. *)
Theorem requests_refused_early s o target auth pdu start r seen e : reachable ssl s ->
  s_tasks s !! o = Some (Finished (CallRequest target auth pdu) start (RequestResult r) seen) ->
  refused_early start auth = Some e -> seen = [] /\ r = refuse (make_error_code e).
Proof. intros Hr Ho. destruct (finished_honoured _ _ _ _ _ _ Hr Ho) as (c' & [] & _). auto. Qed.

(** C10: A request that comes to its end while the Client is stopping, or after a terminal
    signal, fails: with [ClientStopped] if the Client is stopping, or with
    [operation_aborted] if the request was cancelled. *)
Theorem requests_end_when_told s s' o target auth pdu start r seen : reachable ssl s -> step ssl s s' ->
  outstanding o s = true ->
  s_tasks s' !! o = Some (Finished (CallRequest target auth pdu) start (RequestResult r) seen) ->
  ending o (s_client s') = true -> exists ec, r = refuse ec /\ ended o (s_client s') ec.
Proof. intros Hr Hs Hun Ho. by destruct (finishing_honoured _ _ _ _ _ _ _ Hr Hs Hun Ho). Qed.

(** ** Walks *)

(** An ascent, as an order on everything that was handed over. *)
Lemma ascent_sorted log target auth base bs : ascent (ssl := ssl) log target auth base bs ->
  StronglySorted Oids.oid_lt (base :: (vb_name <$> concat bs)) /\ Forall (in_subtree base) (concat bs).
Proof. intros [_ A2 A3]. split; [by apply continues_sorted|done]. Qed.


Lemma verdict_ok o target auth base more ec c : walk_verdict (ssl := ssl) o target auth base more ec c -> is_error ec = false ->
  more = true /\ ec = no_error /\ exists response vb, backed (m_received c) target auth response /\ vb ∈ varbinds response /\ past_subtree base vb.
Proof.
  intros [[_ ->]|[(? & ? & ?)|[(_ & e & He & ->)|[[_ Hs]|(_ & He & _)]]]]; try done.
  - intros Hx. apply elem_of_cons in He as [->|He]; [done|]. apply elem_of_cons in He as [->|He]; [done|].
    apply list_elem_of_singleton in He as ->. done.
  - unfold stopNow in Hs. destruct (aborted _); [injection Hs as <-; by rewrite aborted_is_error|].
    destruct (negb _); [|done]. by injection Hs as <-.
  - by rewrite He.
Qed.

(** C16: A Walk succeeds only if every batch was wanted and a Response that answers it shows
    the end of the Subtree; a handler that says no is not called again, and the Walk then
    ends with [WalkIncomplete]. *)
Theorem walks_tell_the_end s o target auth base options start ec seen : reachable ssl s ->
  s_tasks s !! o = Some (Finished (CallWalk target auth base options) start (WalkResult ec) seen) ->
  exists more, heeds more seen /\ (more = false -> ec = make_error_code WalkIncomplete) /\
    (is_error ec = false -> more = true /\
       exists response vb, backed (m_received (s_client s)) target auth response /\ vb ∈ varbinds response /\ past_subtree base vb).
Proof.
  intros Hr Ho. destruct (finished_honoured _ _ _ _ _ _ Hr Ho) as (c' & [_ _ _ (more & Hh & Hv)] & [_ Hl]). exists more.
  split; [done|]. split.
  - intros ->. unfold walk_verdict in Hv. naive_solver.
  - intros He. destruct (verdict_ok _ _ _ _ _ _ _ Hv He) as (? & _ & response & vb & Hb & Hx). split; [done|].
    exists response, vb. split; [by eapply backed_mono|done].
Qed.

(** A collecting Walk returns Varbinds in strictly ascending order inside the Subtree,
    none if it was dropped by a terminal signal, and succeeds only if a Response that
    answers it shows the end of the Subtree. *)
Theorem walks_collect s o target auth base options start r seen : reachable ssl s ->
  s_tasks s !! o = Some (Finished (CallWalkCollect target auth base options) start (CollectResult r) seen) ->
  StronglySorted Oids.oid_lt (base :: (vb_name <$> r.2)) /\ Forall (in_subtree base) r.2 /\
  (r.1 = operation_aborted -> r.2 = []) /\
  (is_error r.1 = false -> exists response vb, backed (m_received (s_client s)) target auth response /\ vb ∈ varbinds response /\ past_subtree base vb).
Proof.
  intros Hr Ho. destruct (finished_honoured _ _ _ _ _ _ Hr Ho) as (c' & [_ _ Hv (bs & Ha & E)] & [_ Hl]).
  destruct (ascent_sorted _ _ _ _ _ Ha) as [H1 H2]. split_and!.
  - rewrite E. case_bool_decide; [|done]. by repeat constructor.
  - rewrite E. case_bool_decide; [by apply Forall_nil|done].
  - intros Hx. rewrite E. by rewrite bool_decide_true.
  - intros He. destruct (verdict_ok _ _ _ _ _ _ _ Hv He) as (_ & _ & response & vb & Hb & Hx). exists response, vb.
    split; [by eapply backed_mono|done].
Qed.


(** ** Engines *)



(** ** Progress *)

(** C14: Nobody waits in vain: an operation suspended on a discovery has been woken, or the
    discovery is in the strand's queue or run by another operation that is not over. *)
Theorem waiters_served s o call start d k seen : reachable ssl s ->
  s_tasks s !! o = Some (Suspended call start (CoEvent d k) seen) ->
  event_over o d (s_client s) = true \/
  (exists job, job ∈ m_posted (s_client s) /\ j_discovery job = d) \/
  (exists o' t, o' <> o /\ s_tasks s !! o' = Some t /\ runs d t).
Proof.
  intros Hr Ho. destruct (reachable_inv _ Hr) as [Hi Ht Hrun]. destruct (Ht _ _ Ho) as (_ & [(x & Hx & Hreg) _] & Hev).
  destruct Hreg as [Hw|Hw]; [right|left; unfold event_over; by rewrite Hx, bool_decide_true].
  assert (unfinished d (s_client s)) as Hun.
  { exists x. split; [done|]. apply (ginv_waited _ Hi _ _ Hx). set_solver. }
  destruct (Hrun _ Hun) as [?|(o' & t & Ho' & Ht')]; [by left|right]. exists o', t. split; [|done].
  intros ->. rewrite Ho in Ho'. injection Ho' as <-. by destruct call.
Qed.

(** What has to be the case for a move to be made. *)
Definition enabled w s (m : Move) : Prop :=
  match m with
  | Deliver _ from => socket_of (is_v6 from) (s_client s) = SocketOpen
  | Stop => True
  | FinishStopping => m_stopping (s_client s) = true
  | Signal _ _ => True
  | Tick t => m_now (s_client s) <= t
  | Start o _ => s_tasks s !! o = None
  | Post o => m_posted (s_client s) <> [] /\ s_tasks s !! o = None
  | Begin o => exists call, s_tasks s !! o = Some (Queued call)
  | Resume o => exists call start co seen, s_tasks s !! o = Some (Suspended call start co seen) /\
      is_Some (resume w o (s_client s) co)
  end.

(** C7: Nothing that can happen to a Client in a reachable state is undefined or runs out of
    fuel: every datagram is received, every operation that begins or is resumed runs to its
    next suspension or its end. *)
Theorem moves_defined w s m : reachable ssl s -> move_given m -> enabled w s m -> is_Some (move ssl w s m).
Proof.
  intros Hr Hg He. pose proof (reachable_inv _ Hr) as Hi. destruct m as [bs from| | |o z|t|o call|o|o|o]; cbn -[arrive] in *.
  - rewrite He. destruct (arrive_rely (s_client s) bs from Hg (si_client _ Hi)) as (c' & -> & _). done.
  - done.
  - by rewrite He.
  - done.
  - by rewrite (proj2 (Z.leb_le _ _) He).
  - by rewrite He.
  - destruct He as [Hp ->]. by destruct (m_posted (s_client s)).
  - destruct He as [call Ho]. rewrite Ho. pose proof (si_tasks _ Hi _ _ Ho) as Hok.
    destruct (run_exists w o _ _ _ _ (body_spec o call _ (si_client _ Hi) Hok)) as (ws & co & c' & ->). done.
  - destruct He as (call & start & co & seen & Ho & [[x co1] Hres]). rewrite Ho, Hres.
    destruct (resume_alone w o call start co seen x co1 s Hi Ho Hres) as (ws & co' & c' & _ & -> & _). done.
Qed.

(** C4: From every reachable state, every operation that was started comes to its end by time
    passing, queued work running and waits that are over being resumed, whatever the system
    answers to the sends and the handlers to their batches: no reply, signal or Stopping is
    needed. *)
Theorem operations_complete w s o t : reachable ssl s -> s_tasks s !! o = Some t ->
  exists ms s' start answer seen, Forall patient ms /\ drive ssl w ms s = Some s' /\
    s_tasks s' !! o = Some (Finished (task_call t) start answer seen).
Proof.
  intros Hr Ho. destruct (every_operation_ends w s o t (reachable_inv _ Hr) Ho) as (s' & (ms & P & D) & start & a & seen & Hov).
  by exists ms, s', start, a, seen.
Qed.

(** ** One exchange *)


End Operations.
