(* ===== verification/Examples.v ===== *)
(** * Examples: the programs of [examples/]

    The six programs that come with the library: what [main] makes of its arguments, the
    operation it starts, and what it prints when that is over.  A program is a [Launch]
    followed by a [Finish]; what happens in between is any run of [System].  Asio's
    [make_address], its endpoints, and the text of a system's error are parameters. *)

From stdpp Require Import gmap relations sorting.
From S2P Require Import Prelude Errors Oids Values Ber Pdu Usm V3Message Client Engines Coroutine Strand Exchange Requests Walk System Operations.

(** ** What the programs use of C and of Asio *)

Definition isspace (c : Z) : bool := (c =? 32) || ((9 <=? c) && (c <=? 13)).

Fixpoint skip_spaces (s : cstring) : cstring :=
  match s with
  | c :: rest => if isspace c then skip_spaces rest else s
  | [] => []
  end.

(** [std::atoi]: nothing is reported, and a number that does not fit an [int] is undefined
    ([None]). *)
Definition atoi (s : cstring) : option Z :=
  let s := skip_spaces s in
  let '(negative, s) := match s with
                        | c :: rest => if c =? chr_minus then (true, rest)
                                       else if c =? 43 then (false, rest) else (false, s)
                        | [] => (false, s)
                        end in
  let v := dec_value (Oids.digit_run s) in
  let v := if (negative : bool) then - v else v in
  if (-2147483648 <=? v) && (v <=? 2147483647) then Some v else None.

(** [asio::ip::make_address] throws ([None]) on what is not an address. *)
Record Asio (Endpoint : Type) : Type := mkAsio {
  Address : Type;
  make_address : cstring -> option Address;
  endpoint_at : Address -> Z -> Endpoint;
  system_message : ErrorCode -> cstring }.
Arguments Address {Endpoint}.
Arguments make_address {Endpoint}.
Arguments endpoint_at {Endpoint}.
Arguments system_message {Endpoint}.

(** What is written to [std::cout] and to [std::cerr]. *)
Inductive Said : Type := Out (text : cstring) | Err (text : cstring).

Definition endl : cstring := [10].

(** ** Programs *)

(** [main] up to the start of the operation: it returns; an exception leaves it; undefined
    behaviour; or it starts something. *)
Inductive Launch (A : Type) : Type :=
| Exits (status : Z) (said : list Said)
| Throws
| Undefined
| Launches (a : A).
Arguments Exits {A}.
Arguments Throws {A}.
Arguments Undefined {A}.
Arguments Launches {A}.

Definition launch_bind {A B} (m : Launch A) (k : A -> Launch B) : Launch B :=
  match m with
  | Exits status said => Exits status said
  | Throws => Throws
  | Undefined => Undefined
  | Launches a => k a
  end.

(** And after it: what is printed and [main]'s status; [None] is undefined behaviour. *)
Definition Finish : Type := option (list Said * Z).

Declare Scope launch_scope.
Notation "'let@' x := m 'in' k" := (launch_bind m (fun x => k))
  (at level 200, x name, m at level 100, k at level 200) : launch_scope.

Section Examples.
Context {Endpoint : Type} (asio : Asio Endpoint).
Local Notation Target := (Target (Endpoint := Endpoint)).
Local Notation Call := (Call (Endpoint := Endpoint)).
Local Open Scope launch_scope.

(** [argv[i]]; the pointer behind the last argument is null. *)
Definition argument (argv : list cstring) (i : nat) : Launch cstring :=
  match argv !! i with Some text => Launches text | None => Undefined end.

Definition usage {A} (argv : list cstring) (text : string) : Launch A :=
  let@ name := argument argv 0 in
  Exits 2 [Err (str "usage: " ++ name ++ str text ++ endl)].

(** [{make_address(argv[1]), static_cast<std::uint16_t>(std::atoi(argv[2]))}]. *)
Definition target_of (argv : list cstring) : Launch Target :=
  let@ address := argument argv 1 in
  match make_address asio address with
  | None => Throws
  | Some address =>
      let@ port := argument argv 2 in
      match atoi port with
      | None => Undefined
      | Some port => Launches (default_target (endpoint_at asio address (wrap 16 port)))
      end
  end.

Definition parse_oid (text : cstring) (complaint : string) : Launch Oid :=
  match Oids.parse text with
  | Some (Some oid) => Launches oid
  | Some None => Exits 2 [Err (str complaint ++ text ++ endl)]
  | None => Undefined
  end.

(** [ec.message()]. *)
Definition message (ec : ErrorCode) : cstring :=
  match ec_category ec with
  | errorCategory => SnmpioCategory.message (ec_value ec)
  | agentErrorCategory => AgentCategory.message (ec_value ec)
  | _ => system_message asio ec
  end.

(** [vb.name.toString() << " = " << snmpio::toString(vb.val) << "\n"]. *)
Definition row (vb : Varbind) : Said := Out (Oids.toString (vb_name vb) ++ str " = " ++ Values.toString (vb_val vb) ++ endl).

(** [response.varbinds.front().val]. *)
Definition front (response : ResponseResult) : option Value := vb_val <$> head (r_varbinds response).

(** *** [get.cpp] *)

Definition sysDescr : Oid := [1; 3; 6; 1; 2; 1; 1; 1; 0].

Definition get_main (argv : list cstring) : Launch Call :=
  if negb (length argv =? 4)%nat then usage argv " <address> <port> <community>"
  else
    let@ target := target_of argv in
    let@ community := argument argv 3 in
    Launches (asyncGet target (mkCommunity community) [sysDescr]).

Definition get_handler (ec : ErrorCode) (response : ResponseResult) : Finish :=
  if is_error ec then Some ([Err (str "GET failed: " ++ message ec ++ endl)], 0)
  else
    match front response with
    | Some val => Some ([Out (Values.toString val ++ endl)], 0)
    | None => None
    end.

(** *** [set.cpp] *)

Definition sysContact : Oid := [1; 3; 6; 1; 2; 1; 1; 4; 0].

Definition set_main (argv : list cstring) : Launch Call :=
  if negb (length argv =? 6)%nat then usage argv " <address> <port> <user> <password> <sysContact>"
  else
    let@ target := target_of argv in
    let@ user := argument argv 3 in
    let@ password := argument argv 4 in
    let@ contact := argument argv 5 in
    Launches (asyncSet target (mkCredentials user AuthPriv Sha256 password Aes128 password)
                [mkVarbind sysContact (ValOctets contact)]).

Definition set_handler (ec : ErrorCode) (response : ResponseResult) : Finish :=
  if negb (is_error ec) then
    match front response with
    | Some val => Some ([Out (str "sysContact.0 = " ++ Values.toString val ++ endl)], 0)
    | None => None
    end
  else if bool_decide (ec_category ec = agentErrorCategory)
  then Some ([Err (str "SET refused: " ++ message ec ++ str " (error-status " ++ to_chars (ec_value ec) ++
                   str "), error-index " ++ to_chars (r_errorIndex response) ++ endl)], 1)
  else Some ([Err (str "SET failed: " ++ message ec ++ endl)], 1).

(** *** [getnext.cpp] *)

(** [for (int i = 4; i < argc; ++i)]. *)
Fixpoint parse_oids (args : list cstring) (oids : list Oid) : Launch (list Oid) :=
  match args with
  | [] => Launches oids
  | arg :: args => let@ oid := parse_oid arg "bad OID: " in parse_oids args (oids ++ [oid])
  end.

Definition getnext_main (argv : list cstring) : Launch Call :=
  if (length argv <? 5)%nat then usage argv " <address> <port> <user> <oid>..."
  else
    let@ target := target_of argv in
    let@ user := argument argv 3 in
    let@ oids := parse_oids (drop 4 argv) [] in
    Launches (asyncGetNext target (mkCredentials user NoAuthNoPriv AuthNone [] PrivNone []) oids).

(** [use_future] folds the error into an exception, caught here. *)
Definition getnext_finish (ec : ErrorCode) (response : ResponseResult) : Finish :=
  if is_error ec then Some ([Err (str "GETNEXT failed: " ++ message ec ++ endl)], 1)
  else Some (row <$> r_varbinds response, 0).

(** *** [getbulk.cpp] *)

Definition sysUpTime : Oid := [1; 3; 6; 1; 2; 1; 1; 3].
Definition ifDescr : Oid := [1; 3; 6; 1; 2; 1; 2; 2; 1; 2].
Definition ifType : Oid := [1; 3; 6; 1; 2; 1; 2; 2; 1; 3].

Definition getbulk_main (argv : list cstring) : Launch Call :=
  if negb (length argv =? 5)%nat then usage argv " <address> <port> <user> <password>"
  else
    let@ target := target_of argv in
    let@ user := argument argv 3 in
    let@ password := argument argv 4 in
    Launches (asyncGetBulk target (mkCredentials user AuthNoPriv Sha512 password PrivNone []) [sysUpTime; ifDescr; ifType] 1 4).

Definition getbulk_run (ec : ErrorCode) (response : ResponseResult) : Finish :=
  if is_error ec then Some ([Err (str "GETBULK failed: " ++ message ec ++ endl)], 0)
  else Some (row <$> r_varbinds response, 0).

(** *** [walk-collect.cpp] *)

Definition collect_main (argv : list cstring) : Launch Call :=
  if negb (length argv =? 6)%nat then usage argv " <address> <port> <user> <password> <base-oid>"
  else
    let@ target := target_of argv in
    let@ user := argument argv 3 in
    let@ password := argument argv 4 in
    let@ text := argument argv 5 in
    let@ base := parse_oid text "bad base OID: " in
    Launches (asyncWalkCollect target (mkCredentials user AuthPriv Sha1 password Aes128 password) base default_walk).

Definition collect_run (ec : ErrorCode) (varbinds : list Varbind) : Finish :=
  Some ((if is_error ec then [Err (str "walk ended: " ++ message ec ++ endl)] else []) ++ (row <$> varbinds), 0).

(** *** [walk.cpp] *)

(** [std::from_chars] on a [std::size_t], over the whole argument, and not zero. *)
Definition parse_limit (text : cstring) : Launch Z :=
  match Oids.from_chars text with
  | (stopped, Some n) =>
      if negb (stopped =? length text)%nat || (n =? 0) then Exits 2 [Err (str "bad limit: " ++ text ++ endl)]
      else Launches n
  | (_, None) => Exits 2 [Err (str "bad limit: " ++ text ++ endl)]
  end.

Definition walk_main (argv : list cstring) : Launch (Call * option Z) :=
  if negb (length argv =? 6)%nat && negb (length argv =? 7)%nat
  then usage argv " <address> <port> <user> <password> <base-oid> [limit]"
  else
    let@ target := target_of argv in
    let@ user := argument argv 3 in
    let@ password := argument argv 4 in
    let@ text := argument argv 5 in
    let@ base := parse_oid text "bad base OID: " in
    let@ limit := (if (length argv =? 7)%nat
                   then let@ arg := argument argv 6 in let@ n := parse_limit arg in Launches (Some n)
                   else Launches None) in
    Launches (asyncWalk target (mkCredentials user AuthPriv Sha1 password Aes256C password) base (mkWalkOptions 10), limit).

(** What [onBatch] captures: the rows printed, and whether some were kept back. *)
Record Printing : Type := mkPrinting { rows : Z; withheld : bool; printed : list Said }.

(** [limit && rows == *limit]. *)
Definition at_limit (limit : option Z) (p : Printing) : bool :=
  match limit with Some n => rows p =? n | None => false end.

Fixpoint print_batch (limit : option Z) (batch : list Varbind) (p : Printing) : Printing :=
  match batch with
  | [] => p
  | vb :: batch =>
      if at_limit limit p then mkPrinting (rows p) true (printed p)
      else print_batch limit batch (mkPrinting (wrap 64 (rows p + 1)) (withheld p) (printed p ++ [row vb]))
  end.

(** The batch handler: what it prints, whether it emits the signal, and what it answers. *)
Definition onBatch (limit : option Z) (batch : list Varbind) (p : Printing) : Printing * bool * bool :=
  let p := print_batch limit batch p in (p, at_limit limit p, true).

(** [run], over the batches the handler was given. *)
Definition walk_run (limit : option Z) (batches : list (list Varbind)) (ec : ErrorCode) : Finish :=
  let p := fold_left (fun p batch => (onBatch limit batch p).1.1) batches (mkPrinting 0 false []) in
  let ec := if negb (is_error ec) && withheld p then make_error_code WalkIncomplete else ec in
  Some (printed p ++ (if is_error ec
                      then [Err (str "walk ended after " ++ to_chars (rows p) ++ str " rows: " ++ message ec ++ endl)] else []), 0).

(** *** The programs together *)

Inductive Program : Type := ExampleGet | ExampleSet | ExampleGetNext | ExampleGetBulk | ExampleWalkCollect | ExampleWalk.

(** The operation a program starts, and the limit it was given. *)
Definition main_of (program : Program) (argv : list cstring) : Launch (Call * option Z) :=
  let plain (m : Launch Call) := launch_bind m (fun call => Launches (call, None)) in
  match program with
  | ExampleGet => plain (get_main argv)
  | ExampleSet => plain (set_main argv)
  | ExampleGetNext => plain (getnext_main argv)
  | ExampleGetBulk => plain (getbulk_main argv)
  | ExampleWalkCollect => plain (collect_main argv)
  | ExampleWalk => walk_main argv
  end.

(** What it makes of the answer and of the batches before it. *)
Definition finish_of (program : Program) (limit : option Z) (answer : Answer) (batches : list (list Varbind)) : Finish :=
  match program, answer with
  | ExampleGet, RequestResult r => get_handler r.1 r.2
  | ExampleSet, RequestResult r => set_handler r.1 r.2
  | ExampleGetNext, RequestResult r => getnext_finish r.1 r.2
  | ExampleGetBulk, RequestResult r => getbulk_run r.1 r.2
  | ExampleWalkCollect, CollectResult r => collect_run r.1 r.2
  | ExampleWalk, WalkResult ec => walk_run limit batches ec
  | _, _ => None
  end.

End Examples.

(** ** Theory *)

(** *** Arguments *)

Lemma launch_bind_inv {A B} (m : Launch A) (k : A -> Launch B) b : launch_bind m k = Launches b ->
  exists a, m = Launches a /\ k a = Launches b.
Proof. destruct m; try done. cbn. eauto. Qed.

Lemma launch_bind_undefined {A B} (m : Launch A) (k : A -> Launch B) : launch_bind m k = Undefined ->
  m = Undefined \/ exists a, m = Launches a /\ k a = Undefined.
Proof. destruct m; try done; [by left|]. right. eauto. Qed.

(** What was launched, step by step. *)
Ltac launched := repeat first
  [ match goal with H : launch_bind _ _ = Launches _ |- _ => apply launch_bind_inv in H as (? & ? & ?) end
  | match goal with H : (if ?b then _ else _) = Launches _ |- _ => destruct b eqn:? end
  | match goal with H : Launches _ = Launches _ |- _ => injection H as H; subst end
  | match goal with H : usage _ _ = Launches _ |- _ => unfold usage in H end
  | progress simplify_eq/= ].

Section Theory.
Context {Endpoint : Type} `{Countable Endpoint} {net : Net Endpoint} {ssl : OpenSSL} {L : OpenSSLLaws ssl} (asio : Asio Endpoint).
Local Notation Target := (Target (Endpoint := Endpoint)).
Local Notation Call := (Call (Endpoint := Endpoint)).
Local Notation Obs := (Obs (Endpoint := Endpoint)).
Local Notation backed := (backed (ssl := ssl)).
Implicit Types (call : Call) (argv : list cstring) (target : Target) (seen : list Obs) (program : Program).

(** Arguments a program can be given: strings of octets, none enormous. *)
Definition argv_ok argv : Prop := Forall (fun arg => octets_ok arg /\ zlen arg <= 65535) argv /\ (length argv <= 800)%nat.

Lemma argument_ok argv i text : argv_ok argv -> argument argv i = Launches text -> octets_ok text /\ zlen text <= 65535.
Proof.
  intros [Ha _]. unfold argument. destruct (argv !! i) as [x|] eqn:E; [|done]. intros [= <-]. exact (Forall_lookup_1 _ _ _ _ Ha E).
Qed.

Lemma parse_oid_ok text complaint o : parse_oid text complaint = Launches o -> Oids.oid_ok o.
Proof.
  unfold parse_oid. destruct (Oids.parse_sound text) as (r & -> & Hr). destruct r as [x|]; [|done]. intros [= <-]. by apply (Hr x).
Qed.

Lemma parse_oids_ok args oids oids' : parse_oids args oids = Launches oids' -> Forall Oids.oid_ok oids ->
  Forall Oids.oid_ok oids' /\ length oids' = (length oids + length args)%nat.
Proof.
  revert oids. induction args as [|arg args IH]; cbn [parse_oids]; intros oids E Ho.
  - injection E as <-. split; [done|cbn; lia].
  - apply launch_bind_inv in E as (o & Ho' & E). apply parse_oid_ok in Ho'.
    destruct (IH _ E) as [H1 H2]; [by apply Forall_app; split; [|apply Forall_singleton]|]. split; [done|].
    rewrite length_app in H2. cbn in *. lia.
Qed.

Lemma target_of_ok argv target : target_of asio argv = Launches target -> 0 <= timeout target.
Proof. unfold target_of. intros E. launched. repeat (case_match; launched); done. Qed.

Ltac literal_oids := repeat constructor; cbn; lia.

Lemma contact_given contact : octets_ok contact -> zlen contact <= 65535 ->
  request_given (makePdu SetPdu [mkVarbind sysContact (ValOctets contact)]).
Proof.
  intros Ho Hl. apply request_ok_given. split.
  { do 3 (split; [done|]). apply Forall_singleton. split; [literal_oids|done]. }
  eexists. split; [reflexivity|]. cbn [concat]. rewrite app_nil_r.
  pose proof (enc_tlv_bound tag.octetString contact ltac:(lia)) as B1. set (x := enc_tlv tag.octetString contact) in *.
  set (n := enc_tlv tag.objectIdentifier _). assert (zlen n = 10) as Hn by reflexivity.
  pose proof (enc_tlv_bound tag.sequence (n ++ x) ltac:(rewrite zlen_app; lia)) as B2. rewrite zlen_app in B2.
  set (y := enc_tlv tag.sequence (n ++ x)) in *. pose proof (enc_tlv_bound tag.sequence y ltac:(lia)). lia.
Qed.

(** A program starts only what the Client's contract is about. *)
Lemma main_given program argv call limit : argv_ok argv -> main_of asio program argv = Launches (call, limit) -> call_given call.
Proof.
  intros Ha E. destruct program; cbn [main_of] in E;
    unfold get_main, set_main, getnext_main, getbulk_main, collect_main, walk_main in E; launched;
    repeat match goal with
    | Hx : target_of asio argv = Launches _ |- _ => apply target_of_ok in Hx
    | Hx : argument argv _ = Launches _ |- _ => apply (argument_ok _ _ _ Ha) in Hx as [? ?]
    | Hx : parse_oid _ _ = Launches _ |- _ => apply parse_oid_ok in Hx
    | Hx : parse_oids _ _ = Launches _ |- _ => apply parse_oids_ok in Hx as [? ?]; [|by apply Forall_nil]
    end; (split; [by repeat split; try apply Forall_nil|]); (split; [|done || by split]).
  - change [mkVarbind sysDescr ValNull] with (toVarbinds [sysDescr]). apply oids_request_given; try done; [literal_oids|cbn; lia].
  - by apply contact_given.
  - apply oids_request_given; try done. destruct Ha as [_ Hn]. cbn in *. rewrite length_drop in *. lia.
  - apply (oids_request_given GetBulk 1 4 [sysUpTime; ifDescr; ifType]); try done; [literal_oids|cbn; lia].
  - done.
  - done.
  - done.
Qed.

Lemma argument_undefined argv i : argument argv i = Undefined -> (length argv <= i)%nat.
Proof. unfold argument. destruct (argv !! i) eqn:E; [done|]. intros _. by apply lookup_ge_None. Qed.

Lemma parse_oid_defined text complaint : parse_oid text complaint <> Undefined.
Proof. unfold parse_oid. destruct (Oids.parse_sound text) as (r & -> & _). by destruct r. Qed.

Lemma parse_oids_defined args oids : parse_oids args oids <> Undefined.
Proof.
  revert oids. induction args as [|arg args IH]; intros oids; cbn [parse_oids]; [done|].
  intros [E|(o & _ & E)]%launch_bind_undefined; [by apply parse_oid_defined in E|by apply IH in E].
Qed.

Lemma parse_limit_defined text : parse_limit text <> Undefined.
Proof. unfold parse_limit. destruct (Oids.from_chars text) as [n [x|]]; [|done]. by destruct (_ || _). Qed.

Lemma target_of_undefined argv : (3 <= length argv)%nat -> target_of asio argv = Undefined ->
  exists port, argv !! 2%nat = Some port /\ atoi port = None.
Proof.
  intros Hl [E|(address & _ & E)]%launch_bind_undefined; [apply argument_undefined in E; lia|].
  destruct (make_address asio address); [|done].
  apply launch_bind_undefined in E as [E|(port & E & Ea)]; [apply argument_undefined in E; lia|]. exists port.
  unfold argument in E. destruct (argv !! 2%nat); [|done]. injection E as ->. by destruct (atoi port).
Qed.

(** [main] is defined, but for a port that does not fit an [int]. *)
Lemma main_defined program argv : argv <> [] -> main_of asio program argv = Undefined ->
  exists port, argv !! 2%nat = Some port /\ atoi port = None.
Proof.
  intros Hne E. assert (0 < length argv)%nat as Hpos by (by destruct argv; [|cbn; lia]).
  destruct program; cbn [main_of] in E;
    unfold get_main, set_main, getnext_main, getbulk_main, collect_main, walk_main in E;
    repeat first
    [ match goal with Hx : launch_bind _ _ = Undefined |- _ => apply launch_bind_undefined in Hx as [Hx|(? & ? & Hx)] end
    | match goal with Hx : (if ?b then _ else _) = Undefined |- _ => destruct b eqn:? end
    | match goal with Hx : usage _ _ = Undefined |- _ => unfold usage in Hx end ];
    try done;
    try (match goal with Hx : argument _ _ = Undefined |- _ => apply argument_undefined in Hx end);
    try (match goal with Hx : parse_oid _ _ = Undefined |- _ => by apply parse_oid_defined in Hx end);
    try (match goal with Hx : parse_oids _ _ = Undefined |- _ => by apply parse_oids_defined in Hx end);
    try (match goal with Hx : parse_limit _ = Undefined |- _ => by apply parse_limit_defined in Hx end);
    try (match goal with Hx : target_of _ _ = Undefined |- _ => apply target_of_undefined; [|done] end).
  all: rewrite ?andb_true_iff, ?andb_false_iff, ?negb_true_iff, ?negb_false_iff, ?Nat.eqb_eq, ?Nat.eqb_neq, ?Nat.ltb_ge in *; try (exfalso; lia); lia.
Qed.

(** *** What is printed *)

(** Whom an operation speaks to, and as whom. *)
Definition party call : option (Target * Auth) :=
  match call with
  | CallRequest target auth _ | CallWalk target auth _ _ | CallWalkCollect target auth _ _ => Some (target, auth)
  | CallDiscovery _ => None
  end.

Definition row_text (vb : Varbind) : cstring := Oids.toString (vb_name vb) ++ str " = " ++ Values.toString (vb_val vb) ++ endl.

(** The ways a program shows a Varbind. *)
Definition shown (vb : Varbind) : list cstring :=
  [row_text vb; Values.toString (vb_val vb) ++ endl; str "sysContact.0 = " ++ Values.toString (vb_val vb) ++ endl].

(** A line on [std::cout] shows a Varbind of a Response the operation's target stands behind. *)
Definition told (log : list (Octets * Endpoint)) call (x : Said) : Prop :=
  match x with
  | Out text => exists target auth response vb, party call = Some (target, auth) /\ backed log target auth response /\
      vb ∈ varbinds response /\ text ∈ shown vb
  | Err _ => True
  end.

Definition is_out (x : Said) : bool := match x with Out _ => true | Err _ => false end.

Lemma rows_told log call target auth vbs : party call = Some (target, auth) ->
  Forall (fun vb => exists response, backed log target auth response /\ vb ∈ varbinds response) vbs ->
  Forall (told log call) (row <$> vbs).
Proof.
  intros Hp Hv. apply Forall_fmap. eapply Forall_impl; [|exact Hv]. intros vb (response & Hb & Hi).
  exists target, auth, response, vb. do 3 (split; [done|]). set_solver.
Qed.

(** The limit of a Walk: the first so many rows, and whether there are more. *)
Definition limited {A} (limit : option Z) (l : list A) : list A :=
  match limit with Some n => take (Z.to_nat n) l | None => l end.

Definition exceeds {A} (limit : option Z) (l : list A) : bool :=
  match limit with Some n => n <? zlen l | None => false end.

Record prints (limit : option Z) (found : list Varbind) (p : Printing) : Prop := {
  pr_rows n : limit = Some n -> rows p = Z.min n (zlen found);
  pr_printed : printed p = row <$> limited limit found;
  pr_withheld : withheld p = exceeds limit found }.

Lemma prints_one limit found p vb : (forall n, limit = Some n -> 0 < n < 2 ^ 64) -> prints limit found p ->
  at_limit limit p = false ->
  prints limit (found ++ [vb]) (mkPrinting (wrap 64 (rows p + 1)) (withheld p) (printed p ++ [row vb])).
Proof.
  intros Hn [H1 H2 H3] Ha. destruct limit as [n|]; cbn [at_limit limited exceeds] in *.
  2: { split; [done| |done]. cbn. by rewrite H2, fmap_app. }
  specialize (Hn n eq_refl). specialize (H1 n eq_refl). apply Z.eqb_neq in Ha.
  assert (zlen found < n) as Hlt by lia. split; cbn [rows printed withheld].
  - intros n' [= <-]. rewrite zlen_app, wrap_small by lia. cbn [length]. lia.
  - rewrite H2. cbn [limited]. rewrite (take_ge found), (take_ge (found ++ [vb])) by (rewrite ?length_app; cbn [length]; lia).
    by rewrite fmap_app.
  - rewrite H3. cbn [exceeds]. rewrite zlen_app. cbn [length]. destruct (Z.ltb_spec n (zlen found)), (Z.ltb_spec n (zlen found + Z.of_nat 1)); try done; lia.
Qed.

Lemma print_batch_spec limit batch p found : (forall n, limit = Some n -> 0 < n < 2 ^ 64) -> prints limit found p ->
  prints limit (found ++ batch) (print_batch limit batch p).
Proof.
  intros Hn. revert p found. induction batch as [|vb batch IH]; intros p found Hp; cbn [print_batch]; [by rewrite app_nil_r|].
  destruct (at_limit limit p) eqn:Ha.
  2: { replace (found ++ vb :: batch) with ((found ++ [vb]) ++ batch) by (by rewrite <- app_assoc). by apply IH, prints_one. }
  destruct Hp as [H1 H2 H3]. destruct limit as [n|]; [|done]. cbn [at_limit limited exceeds] in *. apply Z.eqb_eq in Ha.
  specialize (Hn n eq_refl). specialize (H1 n eq_refl). split; cbn [rows printed withheld limited exceeds].
  - intros n' [= <-]. rewrite zlen_app. lia.
  - by rewrite H2, take_app_le by lia.
  - symmetry. apply Z.ltb_lt. rewrite zlen_app, zlen_cons. lia.
Qed.

Lemma walk_printed limit batches : (forall n, limit = Some n -> 0 < n < 2 ^ 64) ->
  prints limit (concat batches) (fold_left (fun p batch => (onBatch limit batch p).1.1) batches (mkPrinting 0 false [])).
Proof.
  intros Hn. induction batches as [|batch batches IH] using rev_ind.
  - split; [intros n E; specialize (Hn n E); cbn; lia| |]; destruct limit as [n|]; cbn; [by destruct (Z.to_nat n)|done| |done].
    specialize (Hn n eq_refl). symmetry. apply Z.ltb_ge. lia.
  - rewrite fold_left_app, concat_app. cbn [fold_left concat]. rewrite app_nil_r. by apply print_batch_spec.
Qed.

(** *** The programs tell the truth *)

(** A Walk that ended well reached the end of its Subtree. *)
Definition whole (log : list (Octets * Endpoint)) call : Prop :=
  match call with
  | CallWalk target auth base _ | CallWalkCollect target auth base _ =>
      exists response vb, backed log target auth response /\ vb ∈ varbinds response /\ past_subtree base vb
  | _ => True
  end.

(** What a program prints, once its operation is over. *)
Record honest (log : list (Octets * Endpoint)) call (limit : option Z) (answer : Answer) seen (said : list Said) : Prop := {
  ho_told : Forall (told log call) said;
  ho_limit n : limit = Some n -> zlen (List.filter is_out said) <= n;
  ho_silent : Forall (fun x => is_out x = true) said -> whole log call /\
    match answer with
    | RequestResult r => is_error r.1 = false
    | CollectResult r => is_error r.1 = false /\ said = row <$> r.2
    | WalkResult ec => is_error ec = false /\ said = row <$> concat (batches seen)
    | DiscoveryResult => False
    end }.

Lemma parse_limit_range text n : parse_limit text = Launches n -> 0 < n < 2 ^ 64.
Proof.
  unfold parse_limit, Oids.from_chars. destruct (Oids.digit_run text) as [|d ds] eqn:Ed; [done|].
  destruct (Z.ltb_spec (dec_value (d :: ds)) (2 ^ 64)) as [Hlt|]; [|done].
  destruct (negb _) eqn:E1; [done|]. destruct (Z.eqb_spec (dec_value (d :: ds)) 0) as [|Hne]; [done|]. cbn [orb]. intros [= <-].
  enough (0 <= dec_value (d :: ds)) by lia. rewrite <- Ed. apply Oids.dec_value_nonneg, Oids.digit_run_nonneg.
Qed.

Lemma main_limit program argv call limit n : main_of asio program argv = Launches (call, limit) -> limit = Some n -> 0 < n < 2 ^ 64.
Proof.
  intros E ->. destruct program; cbn [main_of] in E; unfold walk_main in E; launched.
  by eapply parse_limit_range.
Qed.

(** Which operation it is. *)
Lemma main_shape program argv call limit : main_of asio program argv = Launches (call, limit) ->
  match program with
  | ExampleWalk => exists target auth base options, call = CallWalk target auth base options
  | ExampleWalkCollect => limit = None /\ exists target auth base options, call = CallWalkCollect target auth base options
  | _ => limit = None /\ exists target auth pdu, call = CallRequest target auth pdu
  end.
Proof.
  intros E. destruct program; cbn [main_of] in E;
    unfold get_main, set_main, getnext_main, getbulk_main, collect_main, walk_main in E; launched; eauto 10.
Qed.

(** Undefined behaviour after the operation: there is no first Varbind. *)
Definition no_front (log : list (Octets * Endpoint)) program call : Prop :=
  program ∈ [ExampleGet; ExampleSet] /\
  exists target auth response, party call = Some (target, auth) /\ backed log target auth response /\ varbinds response = [].

Lemma said_error log call limit answer seen text : (forall n, limit = Some n -> 0 < n) -> honest log call limit answer seen [Err text].
Proof.
  intros Hn. split; [by apply Forall_singleton| |].
  - intros n E. specialize (Hn n E). cbn. lia.
  - intros Hx. by inversion Hx.
Qed.

Lemma request_honest log program target auth pdu r seen said status :
  (exists ec, r = refuse ec /\ is_error ec = true) \/ (exists response, r = toResult response /\ backed log target auth response) ->
  finish_of asio program None (RequestResult r) (batches seen) = Some (said, status) ->
  honest log (CallRequest target auth pdu) None (RequestResult r) seen said.
Proof.
  intros Hr E. destruct (is_error r.1) eqn:Ee.
  { assert (exists text, said = [Err text]) as [text ->]; [|by apply said_error].
    revert E. destruct program; cbn [finish_of]; try done;
      unfold get_handler, set_handler, getnext_finish, getbulk_run; rewrite Ee; cbn [negb]; try case_bool_decide; intros [= <- _]; by eexists. }
  assert (exists response, backed log target auth response /\ r_varbinds r.2 = varbinds response) as (response & Hb & Hv).
  { destruct Hr as [(ec & -> & Hx)|(response & -> & Hb)]; [cbn in Ee; congruence|]. exists response. split; [done|].
    unfold toResult. by destruct (negb _). }
  assert (forall said, Forall (told log (CallRequest target auth pdu)) said -> honest log (CallRequest target auth pdu) None (RequestResult r) seen said)
    as Hdone by (intros x Hx; by split).
  apply Hdone.
  assert (forall val text, front r.2 = Some val -> (forall vb, vb_val vb = val -> text ∈ shown vb) ->
    Forall (told log (CallRequest target auth pdu)) [Out text]) as Hone.
  { intros val text Hf Ht. apply Forall_singleton. unfold front in Hf. destruct (r_varbinds r.2) as [|vb vbs] eqn:Er; [done|].
    injection Hf as Hf. exists target, auth, response, vb. split; [done|]. split; [done|]. rewrite <- Hv. split; [set_solver|by apply Ht]. }
  assert (Forall (told log (CallRequest target auth pdu)) (row <$> r_varbinds r.2)) as Hrows.
  { eapply rows_told; [done|]. rewrite Hv. apply list.Forall_forall. intros vb Hin. by exists response. }
  revert E. destruct program; cbn [finish_of]; try done; unfold get_handler, set_handler, getnext_finish, getbulk_run; rewrite Ee; cbn [negb].
  - destruct (front r.2) as [val|] eqn:Ef; [|done]. intros [= <- _]. eapply Hone; [done|]. intros vb <-. set_solver.
  - destruct (front r.2) as [val|] eqn:Ef; [|done]. intros [= <- _]. eapply Hone; [done|]. intros vb <-. set_solver.
  - by intros [= <- _].
  - by intros [= <- _].
Qed.

Lemma ascent_backed log target auth base bs : ascent (ssl := ssl) log target auth base bs ->
  Forall (fun vb => exists response, backed log target auth response /\ vb ∈ varbinds response) (concat bs).
Proof.
  intros [Hb _ _]. induction Hb as [|b bs [_ (response & Hr & rest & Hp)] _ IH]; cbn [concat]; [by apply Forall_nil|].
  apply Forall_app. split; [|done]. apply list.Forall_forall. intros vb Hin. exists response. split; [done|]. rewrite Hp. set_solver.
Qed.

Lemma limited_sub {A} limit (l : list A) (P : A -> Prop) : Forall P l -> Forall P (limited limit l).
Proof. destruct limit as [n|]; [apply Forall_take|done]. Qed.

Lemma limited_whole {A} limit (l : list A) : exceeds limit l = false -> limited limit l = l.
Proof. destruct limit as [n|]; [|done]. cbn. intros Hx%Z.ltb_ge. apply take_ge. lia. Qed.

Lemma rows_out vbs : List.filter is_out (row <$> vbs) = row <$> vbs.
Proof. induction vbs as [|vb vbs IH]; cbn; [done|]. by f_equal. Qed.

Lemma rows_complaint vbs text : ~ Forall (fun x => is_out x = true) ((row <$> vbs) ++ [Err text]).
Proof. intros [_ Hx]%Forall_app. by inversion Hx. Qed.

Lemma walk_honest log target auth base options limit ec seen said status :
  (forall n, limit = Some n -> 0 < n < 2 ^ 64) -> ascent (ssl := ssl) log target auth base (batches seen) ->
  (is_error ec = false -> whole log (CallWalk target auth base options)) ->
  walk_run asio limit (batches seen) ec = Some (said, status) ->
  honest log (CallWalk target auth base options) limit (WalkResult ec) seen said.
Proof.
  intros Hn Ha Hw E. unfold walk_run in E. pose proof (walk_printed limit (batches seen) Hn) as [P1 P2 P3].
  set (p := fold_left _ _ _) in *. set (found := concat (batches seen)) in *. injection E as <- _. rewrite P2, P3. split.
  - apply Forall_app. split; [|by case_match; [apply Forall_singleton|apply Forall_nil]].
    eapply rows_told; [done|]. by eapply limited_sub, ascent_backed.
  - intros n ->. specialize (Hn n eq_refl). rewrite List.filter_app, rows_out, zlen_app, length_fmap. cbn [limited]. rewrite length_take.
    assert (forall (b : bool) text, List.filter is_out (if b then [Err text] else []) = []) as -> by (by intros []). cbn [length]. lia.
  - destruct (is_error ec) eqn:Ee; cbn [negb andb].
    { rewrite Ee. by intros []%rows_complaint. }
    destruct (exceeds limit found) eqn:Ex; [by intros []%rows_complaint|]. intros _. rewrite Ee, app_nil_r, limited_whole by done.
    split; [by apply Hw|done].
Qed.

Lemma collect_honest log target auth base options r seen said status :
  (exists bs, ascent (ssl := ssl) log target auth base bs /\ (r.2 = [] \/ r.2 = concat bs)) ->
  (is_error r.1 = false -> whole log (CallWalkCollect target auth base options)) ->
  collect_run asio r.1 r.2 = Some (said, status) ->
  honest log (CallWalkCollect target auth base options) None (CollectResult r) seen said.
Proof.
  intros (bs & Ha & Hr) Hw E. unfold collect_run in E. injection E as <- _. split; [|done|].
  - apply Forall_app. split; [by destruct (is_error r.1); [apply Forall_singleton|apply Forall_nil]|].
    eapply rows_told; [done|]. destruct Hr as [->| ->]; [by apply Forall_nil|by eapply ascent_backed].
  - destruct (is_error r.1) eqn:Ee; [by intros Hx; inversion Hx|]. intros _. split; [by apply Hw|done].
Qed.

(** What the answer of an operation stands for. *)
Lemma finished_whole s o call start answer seen : reachable ssl s ->
  s_tasks s !! o = Some (Finished call start answer seen) ->
  let log := m_received (s_client s) in
  match call, answer with
  | CallRequest target auth _, RequestResult r =>
      (exists ec, r = refuse ec /\ is_error ec = true) \/ (exists response, r = toResult response /\ backed log target auth response)
  | CallWalk target auth base _, WalkResult ec =>
      ascent (ssl := ssl) log target auth base (batches seen) /\ (is_error ec = false -> whole log call)
  | CallWalkCollect target auth base _, CollectResult r =>
      (exists bs, ascent (ssl := ssl) log target auth base bs /\ (r.2 = [] \/ r.2 = concat bs)) /\ (is_error r.1 = false -> whole log call)
  | CallDiscovery _, DiscoveryResult => True
  | _, _ => False
  end.
Proof.
  intros Hr Ho log. destruct (finished_honoured _ _ _ _ _ _ Hr Ho) as (c' & Hh & [_ Hl]).
  assert (forall target auth base, (exists response vb, backed (m_received c') target auth response /\ vb ∈ varbinds response /\ past_subtree base vb) ->
    exists response vb, backed log target auth response /\ vb ∈ varbinds response /\ past_subtree base vb) as Hm.
  { intros target auth base (response & vb & Hb & Hx). exists response, vb. split; [by eapply backed_mono|done]. }
  destruct call as [target auth pdu|target auth base options|target auth base options|job], answer as [r|ec|r|]; cbn [honoured] in Hh; try done.
  - destruct Hh as [_ _ _ _ _ _ _ _ [?|(response & eid & E & Hb & _)] _]; [by left|right]. exists response. split; [done|].
    exists eid. by eapply backed_at_mono.
  - destruct Hh as [_ _ Ha (more & _ & Hv)]. split; [by eapply ascent_mono|]. intros He.
    destruct (verdict_ok _ _ _ _ _ _ _ Hv He) as (_ & _ & Hx). by apply Hm.
  - destruct Hh as [_ _ Hv (bs & Ha & E)]. split.
    + exists bs. split; [by eapply ascent_mono|]. rewrite E. case_bool_decide; [by left|by right].
    + intros He. destruct (verdict_ok _ _ _ _ _ _ _ Hv He) as (_ & _ & Hx). by apply Hm.
Qed.

(** C39: The example programs tell the truth.  Whatever their arguments and whatever the
    network delivers, once the operation a program started is over: every line on
    [std::cout] shows a Varbind of a Response received from the target, under the program's
    community or vouched for under its user; a Walk with a limit prints no more
    rows than that; and a program that does not complain on [std::cerr] was answered, a
    Walk to the end of its Subtree and with every row it found printed, also where the
    limit fell on the last batch.  The one thing left undefined is the first Varbind of a
    Response that has none, in [get.cpp] and [set.cpp]. *)
Theorem programs_honest program argv call limit s o start answer seen :
  main_of asio program argv = Launches (call, limit) -> reachable ssl s ->
  s_tasks s !! o = Some (Finished call start answer seen) ->
  let log := m_received (s_client s) in
  match finish_of asio program limit answer (batches seen) with
  | Some (said, _) => honest log call limit answer seen said
  | None => no_front log program call
  end.
Proof.
  intros Hmain Hr Ho log. pose proof (finished_whole _ _ _ _ _ _ Hr Ho) as Hf. cbn zeta in Hf. fold log in Hf.
  pose proof (main_shape _ _ _ _ Hmain) as Hs. pose proof (fun n => main_limit _ _ _ _ n Hmain) as Hn.
  assert (forall target auth pdu, program <> ExampleWalk -> program <> ExampleWalkCollect -> limit = None -> call = CallRequest target auth pdu ->
    match finish_of asio program limit answer (batches seen) with
    | Some (said, _) => honest log call limit answer seen said
    | None => no_front log program call
    end) as Hreq.
  { intros target auth pdu H1 H2 -> ->. destruct answer as [r|ec|r|]; try done.
    destruct (finish_of asio program None (RequestResult r) (batches seen)) as [[said status]|] eqn:E; [by eapply request_honest|].
    assert (program ∈ [ExampleGet; ExampleSet] /\ is_error r.1 = false /\ r_varbinds r.2 = []) as (Hp & He & Hv).
    { revert E. destruct program; cbn [finish_of]; try done; unfold get_handler, set_handler, getnext_finish, getbulk_run, front;
        destruct (is_error r.1); cbn [negb]; try case_bool_decide; try done; destruct (r_varbinds r.2); try done; intros _; (split; [set_solver|done]). }
    split; [done|]. destruct Hf as [(ec & -> & Hx)|(response & -> & Hb)]; [cbn in He; congruence|].
    exists target, auth, response. do 2 (split; [done|]). revert Hv. unfold toResult. by destruct (negb _). }
  destruct program; try (destruct Hs as (Hl & target & auth & pdu & Hc); by eapply Hreq).
  - destruct Hs as (-> & target & auth & base & options & ->). destruct answer as [r|ec|r|]; try done. destruct Hf as [H1 H2].
    cbn [finish_of]. destruct (collect_run asio r.1 r.2) as [[said status]|] eqn:E; [|done]. by eapply collect_honest.
  - destruct Hs as (target & auth & base & options & ->). destruct answer as [r|ec|r|]; try done. destruct Hf as [H1 H2].
    cbn [finish_of]. destruct (walk_run asio limit (batches seen) ec) as [[said status]|] eqn:E; [|done]. by eapply walk_honest.
Qed.

End Theory.
