(* ===== verification/Runs.v ===== *)
(** * Runs: an exchange that is answered, step by step

    What the scheduler makes of the coroutines of [Exchange] where the system is kind: a
    coroutine is run in parts, and an exchange goes from its send, through its wait, to its
    end when the reply has come. *)

From stdpp Require Import gmap relations.
From S2P Require Import Prelude Errors Oids Values Ber BerWriter BerReader BerRoundtrip Pdu Usm V3Message Client Engines Coroutine Strand Exchange Requests Walk System.

Section Runs.
Context {Endpoint : Type} `{Countable Endpoint} {net : Net Endpoint} {ssl : OpenSSL} {L : OpenSSLLaws ssl}.
Local Notation client := (Client (Endpoint := Endpoint)).
Local Notation pending := (Pending (Endpoint := Endpoint)).
Local Notation Co := (Co (Endpoint := Endpoint)).
Local Notation Target := (Target (Endpoint := Endpoint)).
Local Notation Obs := (Obs (Endpoint := Endpoint)).
Local Notation System := (System (Endpoint := Endpoint)).
Local Notation Task := (Task (Endpoint := Endpoint)).
Local Notation Call := (Call (Endpoint := Endpoint)).
Implicit Types (c : client) (o : op) (s : System) (target : Target).

(** ** Running a coroutine in parts *)

Lemma run_bind {A B} (w : World (Endpoint := Endpoint)) (co : Co A) (k : A -> Co B) c : run w (co_bind co k) c =
  match run w co c with
  | Some (ws, CoRet x, c1) =>
      match run w (k x) c1 with Some (ws', co', c2) => Some (ws ++ ws', co', c2) | None => None end
  | Some (ws, co', c1) => Some (ws, co_bind co' k, c1)
  | None => None
  end.
Proof.
  revert c. induction co as [x|m IH|v6 k' IH|to d k' IH|l k' IH|d k' IH|b k' IH] using Co_induction; intros c; cbn [run co_bind].
  - by destruct (run w (k x) c) as [[[ws co'] c2]|].
  - destruct (m c) as [co1 c1| |] eqn:E; [|done..]. by eapply IH.
  - apply IH.
  - done.
  - done.
  - done.
  - rewrite IH. destruct (run w (k' _) c) as [[[ws co1] c1]|]; [|done].
    destruct co1; try done. by destruct (run w (k a) c1) as [[[ws' co'] c2]|].
Qed.

Lemma run_sync {A} (w : World (Endpoint := Endpoint)) (m : M client A) c x c1 : m c = Done x c1 ->
  run w (sync m) c = Some ([], CoRet x, c1).
Proof. intros E. cbn. by rewrite E. Qed.

(** A segment, and what follows it. *)
Lemma run_then {A B} (w : World (Endpoint := Endpoint)) (m : M client A) (k : A -> Co B) c x c1 : m c = Done x c1 ->
  run w (co_bind (sync m) k) c = run w (k x) c1.
Proof. intros E. rewrite run_bind, (run_sync _ _ _ _ _ E). by destruct (run w (k x) c1) as [[[ws' co'] c2]|]. Qed.

(** What is left to do with an exchange's outcome: it runs on from where the exchange
    stops. *)
Class Context {A B} (K : Co A -> Co B) : Prop := {
  ctx_same co c co' c' : run fair co c = run fair co' c' -> run fair (K co) c = run fair (K co') c';
  ctx_send co c to d k c1 : run fair co c = Some ([], CoSend to d k, c1) ->
    run fair (K co) c = Some ([], CoSend to d (fun ec => K (k ec)), c1);
  ctx_timer co c l k c1 : run fair co c = Some ([], CoTimer l k, c1) -> run fair (K co) c = Some ([], CoTimer l (K k), c1) }.

#[global] Instance context_bind {A B} (k : A -> Co B) : Context (fun co => co_bind co k).
Proof. split; intros; rewrite !run_bind; by simplify_eq/=; rewrite ?H0. Qed.

Lemma context_comp {A B C} (K : Co B -> Co C) (K' : Co A -> Co B) : Context K -> Context K' -> Context (fun co => K (K' co)).
Proof.
  intros HK HK'. split; intros.
  - by apply (ctx_same (Context := HK)), ctx_same.
  - by apply (ctx_send (Context := HK) (K' co)), ctx_send.
  - by apply (ctx_timer (Context := HK) (K' co)), ctx_timer.
Qed.

Lemma ctx_ret {A B} (K : Co A -> Co B) `{!Context K} co c x c1 : run fair co c = Some ([], CoRet x, c1) ->
  run fair (K co) c = run fair (K (CoRet x)) c1.
Proof. intros E. by apply ctx_same. Qed.

(** One move, and the state it leads to. *)
Lemma move_inv w m s s' : move_given m -> move ssl w s m = Some s' -> sys_inv (ssl := ssl) s -> sys_inv (ssl := ssl) s'.
Proof. intros Hg M. by eapply step_inv, move_step. Qed.

Lemma drive_cons w m ms s s1 : move ssl w s m = Some s1 -> drive ssl w (m :: ms) s = drive ssl w ms s1.
Proof. intros M. cbn [drive]. by rewrite M. Qed.

Lemma round_given o reply (to : Endpoint) : datagram_ok reply -> Forall move_given [Resume o; Deliver reply to; Resume o].
Proof. intros Hd. do 3 (apply List.Forall_cons; [done|]). by apply List.Forall_nil. Qed.

(** ** An exchange that is answered *)

Section Answered.
Context (o : op) (target : Target) (datagram : Octets) (key : Z) (l : loc).

(** From the end of a wait, from the end of a send, and to the end. *)
Definition waited (n : nat) (ec : ErrorCode) : Co ErrorCode :=
  (sync (let! q := load l in store_pending l (with_waiting Idle (p_woken q) (p_expiry q) q)) ;*
   let^ pending := load l in
   let^ c := get_st in
   if p_answered pending || m_stopping c || aborted (cancelled o c) then CoRet ec
   else if softCancelled (cancelled o c) then async_wait l Unslotted ;* CoRet ec
   else attempts o n target datagram l ec)%co.

Definition sent (n : nat) (ec : ErrorCode) : Co ErrorCode :=
  match attempts o (S n) target datagram l no_error with CoSend _ _ k => k ec | co => co end.

Definition to_the_end (co : Co ErrorCode) : Co ErrorCode := co_bind co (fun ec => sync (conclude o key l ec)).

Definition rounds : nat := Z.to_nat (retries target).

(** What an exchange leaves alone. *)
Record same_elsewhere c c' : Prop := {
  el_engines : m_engines c' = m_engines c;
  el_engineAt : m_engineAt c' = m_engineAt c;
  el_now : m_now c' = m_now c;
  el_discoveries : m_discoveries c' = m_discoveries c;
  el_discovering : m_discovering c' = m_discovering c;
  el_posted : m_posted c' = m_posted c }.

#[global] Instance same_elsewhere_preorder : PreOrder same_elsewhere.
Proof. split; [by intros c|]. intros c1 c2 c3 [] []. split; congruence. Qed.

(** The table with the request in it, and a socket to send it from. *)
Definition with_open c : client :=
  match socket_of (is_v6 (endpoint target)) c with
  | NoSocket => with_socket (is_v6 (endpoint target)) SocketOpen c
  | _ => c
  end.
Definition with_entry c : client := with_pending (<[key := l]> (m_pending c)) (with_open c).

Lemma socketFor_run c : run fair (socketFor (endpoint target)) c = Some ([], CoRet no_error, with_open c).
Proof.
  unfold socketFor, with_open. rewrite (run_then _ _ _ _ (socket_of (is_v6 (endpoint target)) c) c) by done.
  by destruct (socket_of _ c).
Qed.

Lemma with_open_same c : m_heap (with_open c) = m_heap c /\ m_stopping (with_open c) = m_stopping c /\
  m_cancelled (with_open c) = m_cancelled c /\ same_elsewhere c (with_open c) /\
  (socket_of (is_v6 (endpoint target)) c <> SocketClosed -> socket_of (is_v6 (endpoint target)) (with_open c) = SocketOpen).
Proof.
  unfold with_open, with_socket. destruct (socket_of _ c) eqn:E; [unfold socket_of; destruct (is_v6 _)|..]; by repeat split.
Qed.

Lemma with_open_pending c : m_pending (with_open c) = m_pending c.
Proof. unfold with_open, with_socket. destruct (socket_of _ c); [destruct (is_v6 _)|..]; done. Qed.

Lemma transact_begins c : m_stopping c = false -> 0 <= retries target -> m_pending c !! key = None ->
  run fair (transact o target datagram key l) c =
    Some ([], CoSend (endpoint target) datagram (fun ec => to_the_end (sent rounds ec)), with_entry c).
Proof.
  intros Hs Hr Hf. unfold transact. rewrite (run_then _ _ _ _ (m_stopping c) c) by done. rewrite Hs. cbn iota.
  rewrite run_bind, socketFor_run. change (is_error no_error) with false. cbn iota.
  rewrite (run_then _ _ _ _ tt (with_entry c)).
  2: { unfold emplace_pending, modify, bind, get_st, set_st, ret, with_entry. by rewrite with_open_pending, Hf. }
  assert (Z.to_nat (retries target + 1) = S rounds) as -> by (unfold rounds; lia).
  rewrite run_bind. reflexivity.
Qed.

Definition asleep c (q : pending) : client :=
  updated c l (with_waiting Slotted false (m_now c + timeout target * 1000000) q).

Lemma transact_waits n q c : m_stopping c = false -> m_heap c !! l = Some q ->
  run fair (to_the_end (sent n no_error)) c = Some ([], CoTimer l (to_the_end (waited n no_error)), asleep c q).
Proof.
  intros Hs Hq. unfold to_the_end. rewrite run_bind.
  assert (run fair (sent n no_error) c = Some ([], CoTimer l (waited n no_error), asleep c q)) as ->; [|done].
  unfold sent. cbn [attempts]. rewrite (run_then _ _ _ _ (m_stopping c) c) by done.
  rewrite Hs. change (is_error no_error || false) with false. cbn iota.
  set (q1 := with_waiting (p_waiting q) (p_woken q) (m_now c + timeout target * 1000000) q).
  rewrite (run_then _ _ _ _ tt (updated c l q1)).
  2: { unfold expires_after. rewrite (bind_done _ _ _ _ _ (load_run c l q Hq)). done. }
  rewrite run_bind. unfold async_wait.
  erewrite (run_then _ _ _ _ tt (asleep c q)); [reflexivity|].
  rewrite (bind_done _ _ _ _ _ (load_run (updated c l q1) l q1 (lookup_insert_eq _ _ _))).
  unfold store_pending, modify, bind, get_st, set_st, asleep, updated. cbn. by rewrite insert_insert_eq.
Qed.

Definition over_with c (q : pending) : client :=
  with_pending (delete key (m_pending c)) (updated c l (with_waiting Idle (p_woken q) (p_expiry q) q)).

Lemma transact_ends n q c : m_stopping c = false -> cancelled o c = 0 -> m_heap c !! l = Some q -> p_answered q = true ->
  run fair (to_the_end (waited n no_error)) c = Some ([], CoRet no_error, over_with c q).
Proof.
  intros Hs Hc Hq Ha. set (q1 := with_waiting Idle (p_woken q) (p_expiry q) q). set (c1 := updated c l q1).
  assert (m_heap c1 !! l = Some q1) as Hq1 by (by apply lookup_insert_eq).
  assert (run fair (waited n no_error) c = Some ([], CoRet no_error, c1)) as E.
  { unfold waited. rewrite (run_then _ _ _ _ tt c1) by (by rewrite (bind_done _ _ _ _ _ (load_run c l q Hq))).
    rewrite (run_then _ _ _ _ _ _ (load_run c1 l q1 Hq1)), (run_then _ _ _ _ c1 c1) by done.
    change (p_answered q1) with (p_answered q). by rewrite Ha. }
  unfold to_the_end. rewrite run_bind, E. erewrite run_sync; [done|]. unfold conclude.
  set (c2 := with_pending (delete key (m_pending c)) c1). rewrite (bind_done _ _ c1 tt c2), (bind_done _ _ c2 c2 c2) by done.
  rewrite (bind_done _ _ _ _ _ (load_run c2 l q1 Hq1)). change (cancelled o c2) with (cancelled o c). rewrite Hc.
  change (aborted 0) with false. cbn iota. change (p_answered q1) with (p_answered q). change (m_stopping c2) with (m_stopping c).
  by rewrite Ha, Hs.
Qed.

(** What is outstanding once a request was sent. *)
Record waits (q : pending) c : Prop := {
  wt_pending : m_pending c !! key = Some l;
  wt_object : m_heap c !! l = Some q;
  wt_stopping : m_stopping c = false;
  wt_cancelled : cancelled o c = 0;
  wt_socket : socket_of (is_v6 (endpoint target)) c = SocketOpen }.

Lemma with_entry_waits q c : m_heap c !! l = Some q -> m_stopping c = false -> cancelled o c = 0 ->
  socket_of (is_v6 (endpoint target)) c <> SocketClosed -> waits q (with_entry c).
Proof.
  intros Hq Hs Hc Hso. destruct (with_open_same c) as (O1 & O2 & O3 & _ & O4). split; cbn.
  - by apply lookup_insert_eq.
  - by rewrite O1.
  - by rewrite O2.
  - unfold cancelled in *. cbn. by rewrite O3.
  - by apply O4.
Qed.

Lemma asleep_inv q c : client_inv c -> client_inv (asleep c q).
Proof.
  intros [I1 I2 I3]. split; [done| |done]. intros id l' Hl'. cbn. destruct (decide (l = l')) as [<-|]; [by rewrite lookup_insert_eq|].
  rewrite lookup_insert_ne by done. by eapply I2.
Qed.

(** The reply comes, and the exchange is over. *)
Definition answered_by (q : pending) (security : UsmParameters) (response : Pdu) (authenticated : bool) c : pending :=
  cancel_timer (answer security response authenticated (with_waiting Slotted false (m_now c + timeout target * 1000000) q)).

Definition served (q : pending) (reply : Octets) (security : UsmParameters) (response : Pdu) (authenticated : bool) c : client :=
  let q3 := answered_by q security response authenticated c in
  over_with (updated (with_received ((reply, endpoint target) :: m_received c) (asleep c q)) l q3) q3.

Lemma served_answer q reply security response authenticated c :
  let p := answered_by q security response authenticated c in
  load l (served q reply security response authenticated c) =
    Done (with_waiting Idle (p_woken p) (p_expiry p) p) (served q reply security response authenticated c).
Proof. intros p. apply load_run. by apply lookup_insert_eq. Qed.

Lemma served_same q reply security response authenticated c : same_elsewhere c (served q reply security response authenticated c).
Proof. by split. Qed.

Lemma with_entry_same c : same_elsewhere c (with_entry c).
Proof. destruct (with_open_same c) as (_ & _ & _ & [] & _). by split. Qed.

(** A send, a reply, and the end of the wait. *)
Lemma round_trip (K : Co ErrorCode -> Co Answer) `{!Context K} n q c (ts : gmap op Task) call start seen reply
    security response authenticated ws co c5 : waits q c ->
  ts !! o = Some (Suspended call start (CoSend (endpoint target) datagram (fun ec => K (to_the_end (sent n ec)))) seen) ->
  arrive ssl reply (endpoint target) (asleep c q) =
    Done tt (updated (with_received ((reply, endpoint target) :: m_received c) (asleep c q)) l
               (answered_by q security response authenticated c)) ->
  run fair (K (CoRet no_error)) (served q reply security response authenticated c) = Some (ws, co, c5) ->
  drive ssl fair [Resume o; Deliver reply (endpoint target); Resume o] (mkSystem c ts) =
    Some (mkSystem c5 (<[o := settle call start co (seen ++ [Sent (endpoint target) datagram no_error; Waited l (m_now c)] ++ ws)]> ts)).
Proof.
  intros [W1 W2 W3 W4 W5] Ho Ea Ek. cbn [drive].
  assert (move ssl fair (mkSystem c ts) (Resume o) = Some (mkSystem (asleep c q)
    (<[o := Suspended call start (CoTimer l (K (to_the_end (waited n no_error)))) (seen ++ [Sent (endpoint target) datagram no_error])]> ts))) as ->.
  { cbn [move s_tasks s_client]. rewrite Ho. cbn [resume fair w_send].
    rewrite (ctx_timer _ _ _ _ _ (transact_waits n q c W3 W2)). cbn [after_run settle]. by rewrite app_nil_r. }
  set (c3 := updated _ l _) in Ea. set (q3 := answered_by q security response authenticated c) in *.
  cbn [move s_tasks s_client]. change (socket_of (is_v6 (endpoint target)) (asleep c q)) with (socket_of (is_v6 (endpoint target)) c).
  rewrite W5, Ea. cbn [move s_tasks s_client]. rewrite lookup_insert_eq. cbn [resume].
  assert (m_heap c3 !! l = Some q3) as Hq3 by (by apply lookup_insert_eq).
  assert (timer_over l c3 = true) as -> by (unfold timer_over; by rewrite Hq3).
  rewrite (ctx_ret K _ _ _ _ (transact_ends n q3 c3 W3 W4 Hq3 eq_refl)).
  change (over_with c3 q3) with (served q reply security response authenticated c). rewrite Ek. cbn [after_run].
  rewrite insert_insert_eq. by rewrite <- !app_assoc.
Qed.

End Answered.

End Runs.
