(* ===== verification/Agent.v ===== *)
(** * Agent: the Scripted Agent the Client is fuzzed against

    Models [fuzz/HostileAgent.hpp]: the [Script] that every choice is read from, and the
    Agent that reads each request and answers it with what the script says, from silence and
    compliant replies to rewritten, mutated and signed-again ones.  The Agent's sockets are
    the list of the datagrams it was told to send; the static key cache and the salt counter
    of the process are part of its state. *)

From stdpp Require Import gmap.
From S2P Require Import Prelude Errors Oids Values Ber BerWriter BerReader BerRoundtrip Pdu Usm V3Message Client Engines Coroutine Strand Exchange Requests Walk System Liveness Operations.

(** An object inside another: [m] runs on the part. *)
Definition zoom {S T A} (part : T -> S) (put : S -> T -> T) (m : M S A) : M T A := fun t =>
  match m (part t) with
  | Done a s => Done a (put s t)
  | Undef => Undef
  | OutOfFuel => OutOfFuel
  end.

(** An [ec] that is not looked at: what is returned with an error is empty. *)
Definition or_empty {S} (m : M S (ErrorCode + Octets)) : M S Octets :=
  let! r := m in ret (match r with inr out => out | inl _ => [] end).

(** [if (f(..., ec))]. *)
Definition succeeds {S A} (m : M S (ErrorCode + A)) : M S bool :=
  let! r := m in ret (match r with inr _ => true | inl _ => false end).

(** ** The script *)

Module Script.

Record Script : Type := mkScript { m_data : Octets; m_pos : nat }.

Definition new (data : Octets) : Script := mkScript data 0.

Definition exhausted (s : Script) : bool := (length (m_data s) <=? m_pos s)%nat.

Definition byte : M Script Z :=
  let! s := get_st in
  if exhausted s then ret 0
  else
    let! b := deref (m_data s !! m_pos s) in
    set_st (mkScript (m_data s) (S (m_pos s))) ;;;
    ret b.

(** [%] by zero is undefined. *)
Definition pick (n : nat) : M Script nat :=
  let! b := byte in
  if (n =? 0)%nat then undef else ret (Z.to_nat b mod n)%nat.

Fixpoint int32_loop (todo : nat) (v : Z) : M Script Z :=
  match todo with
  | O => ret v
  | S todo' =>
      let! b := byte in
      int32_loop todo' (Z.lor (wrap 32 (Z.shiftl v 8)) b)
  end.

Definition int32 : M Script Z :=
  let! v := int32_loop 4 0 in
  ret (swrap 32 v).

Definition bytes (n : nat) : M Script Octets :=
  let! s := get_st in
  let n := if exhausted s then 0%nat else Nat.min n (length (m_data s) - m_pos s) in
  set_st (mkScript (m_data s) (m_pos s + n)) ;;;
  ret (take n (drop (m_pos s) (m_data s))).

End Script.

(** ** What is agreed with the fuzzer *)

Inductive Mode : Type := ModeV2c | ModeNoAuthNoPriv | ModeAuthNoPriv | ModeAuthPriv.

#[export] Instance Mode_eq_dec : EqDecision Mode.
Proof. solve_decision. Defined.

Record Profile : Type := mkProfile { pr_mode : Mode; pr_community : Community; pr_creds : Credentials }.

Definition requestOid (index : nat) : Oid := [1; 3; 6; 1; 2; 1; 1; wrap 32 (Z.of_nat index + 1); 0].

Definition requestIndexOf (pdu : Pdu) : option nat :=
  match varbinds pdu with
  | [] => None
  | vb :: _ =>
      let name := vb_name vb in
      let base := [1; 3; 6; 1; 2; 1; 1] in
      if negb (length name =? length base + 2)%nat || negb (Oids.isPrefixOf base name)
         || (Oids.subid name (length base) =? 0)
      then None
      else if negb (Oids.subid name (length base + 1) =? 0) then None
      else Some (Z.to_nat (Oids.subid name (length base) - 1))
  end.

Record Keys : Type := mkKeys { k_auth : Octets; k_priv : Octets }.

Definition usmReport (counter : Z) : Pdu :=
  mkPdu Report 0 0 0 [mkVarbind [1; 3; 6; 1; 6; 3; 15; 1; 1; counter; 0] (ValCounter32 1)].

(** ** The Agent's data *)

Inductive Owner : Type := OwnerRequest | OwnerDiscovery | OwnerUnknown.

#[export] Instance Owner_eq_dec : EqDecision Owner.
Proof. solve_decision. Defined.

Record Seen : Type := mkSeen { owner : Owner; requestIndex : nat; sn_level : SecurityLevel; sn_engineId : Octets }.

Definition default_seen : Seen := mkSeen OwnerUnknown 0 NoAuthNoPriv [].

Definition notInTimeWindows : Z := 2.
Definition unknownUserNames : Z := 3.
Definition unknownEngineIds : Z := 4.
Definition wrongDigests : Z := 5.
Definition decryptionErrors : Z := 6.

Record V2cReply : Type := mkV2cReply { r2_community : cstring; r2_pdu : Pdu }.

Record V3Reply : Type := mkV3Reply {
  r_header : V3Header;
  r_usm : UsmParameters;
  r_scoped : ScopedPdu;
  r_keys : Keys;
  corruptAuth : bool;
  corruptPriv : bool }.

Definition m_engineId : Octets := [0x80; 0x00; 0x1f; 0x88; 0x01; 0x02; 0x03; 0x04].
Definition m_boots : Z := 3.
Definition m_time : Z := 1000.
Definition timeWindow : Z := 150.

Definition KeyRow : Type := AuthProtocol * PrivProtocol * Octets.

Record Agent : Type := mkAgent {
  a_script : Script.Script;
  a_profile : Profile;
  a_keys : Keys;
  a_seen : gmap Z Seen;
  a_ids : list Z;
  (** the static [cache] of [keysFor] *)
  a_cache : gmap KeyRow Keys;
  (** the salt counter of [src/Usm.cpp] *)
  a_salt : Salt;
  (** what was handed to [send], last first *)
  a_sent : list (Octets * bool) }.

Definition with_script (x : Script.Script) (a : Agent) : Agent :=
  mkAgent x (a_profile a) (a_keys a) (a_seen a) (a_ids a) (a_cache a) (a_salt a) (a_sent a).
Definition with_seen (x : gmap Z Seen) (ids : list Z) (a : Agent) : Agent :=
  mkAgent (a_script a) (a_profile a) (a_keys a) x ids (a_cache a) (a_salt a) (a_sent a).
Definition with_cache (x : gmap KeyRow Keys) (a : Agent) : Agent :=
  mkAgent (a_script a) (a_profile a) (a_keys a) (a_seen a) (a_ids a) x (a_salt a) (a_sent a).
Definition with_a_salt (x : Salt) (a : Agent) : Agent :=
  mkAgent (a_script a) (a_profile a) (a_keys a) (a_seen a) (a_ids a) (a_cache a) x (a_sent a).
Definition with_sent (x : list (Octets * bool)) (a : Agent) : Agent :=
  mkAgent (a_script a) (a_profile a) (a_keys a) (a_seen a) (a_ids a) (a_cache a) (a_salt a) x.

(** Reads of the script, and draws of a salt. *)
Definition scripted {A} (m : M Script.Script A) : M Agent A := zoom a_script with_script m.
Definition salted {A} (m : M Salt A) : M Agent A := zoom a_salt with_a_salt m.

(** ** The Agent's operations *)

Section HostileAgent.
Context (ssl : OpenSSL).

Definition keysFor (creds : Credentials) (engineId : Octets) : M Agent Keys :=
  if negb (isAuthenticated (level creds)) || bool_decide (engineId = []) then ret (mkKeys [] [])
  else
    let cacheKey := (authProtocol creds, privProtocol creds, engineId) in
    let! a := get_st in
    match a_cache a !! cacheKey with
    | Some keys => ret keys
    | None =>
        (if (256 <=? size (a_cache a))%nat then modify (with_cache ∅) else ret tt) ;;;
        let! auth := or_empty (localizedAuthKey ssl creds engineId) in
        let! priv := (if isEncrypted (level creds) then or_empty (localizedPrivKey ssl creds engineId) else ret []) in
        modify (fun a => with_cache (<[cacheKey := mkKeys auth priv]> (a_cache a)) a) ;;;
        ret (mkKeys auth priv)
    end.

(** [HostileAgent::HostileAgent]; the cache and the salt counter are the process's. *)
Definition construct (profile : Profile) (script : Script.Script) (cache : gmap KeyRow Keys) (salt : Salt) : outcome Agent unit :=
  (let! keys := keysFor (pr_creds profile) m_engineId in
   modify (fun a => mkAgent (a_script a) (a_profile a) keys (a_seen a) (a_ids a) (a_cache a) (a_salt a) (a_sent a)))
  (mkAgent script profile (mkKeys [] []) ∅ [] cache salt []).

Definition seen (id : Z) (a : Agent) : option Seen := a_seen a !! id.

Definition remember (id : Z) (s : Seen) : M Agent unit :=
  modify (fun a => match a_seen a !! id with
                   | None => with_seen (<[id := s]> (a_seen a)) (a_ids a ++ [id]) a
                   | Some _ => a
                   end).

Definition anotherId : M Agent Z :=
  let! a := get_st in
  if bool_decide (a_ids a = []) then scripted Script.int32
  else
    let! i := scripted (Script.pick (length (a_ids a))) in
    deref (a_ids a !! i).

Definition seenFrom (pdu : Pdu) : Seen :=
  if bool_decide (varbinds pdu = []) then mkSeen OwnerDiscovery 0 NoAuthNoPriv []
  else match requestIndexOf pdu with
       | Some index => mkSeen OwnerRequest index NoAuthNoPriv []
       | None => default_seen
       end.

Definition respondTo (request : Pdu) : Pdu :=
  mkPdu Response (requestId request) 0 0 (map (fun vb => mkVarbind (vb_name vb) (ValInt32 42)) (varbinds request)).

Definition replyCount : M Agent nat :=
  let! a := get_st in
  if Script.exhausted (a_script a) then ret 1%nat
  else
    let! b := scripted Script.byte in
    ret ((Z.to_nat b + 1) mod 4)%nat.

(** ** Changes by the script's choice *)

(** [switch (m_script->pick(4))], with [default: break;]. *)
Definition among4 {A} (one two three other : M Agent A) : M Agent A :=
  let! i := scripted (Script.pick 4) in
  match i with 1%nat => one | 2%nat => two | 3%nat => three | _ => other end.

Definition rewriteId (id : Z) : M Agent Z :=
  among4 anotherId (scripted Script.int32) (ret (swrap 32 (wrap 32 (wrap 32 id + 1)))) (ret id).

Definition with_type (t : PduType) (pdu : Pdu) : Pdu :=
  mkPdu t (requestId pdu) (errorStatus pdu) (errorIndex pdu) (varbinds pdu).
Definition with_varbinds (vbs : list Varbind) (pdu : Pdu) : Pdu :=
  mkPdu (pdu_type pdu) (requestId pdu) (errorStatus pdu) (errorIndex pdu) vbs.
Definition with_status (status index : Z) (pdu : Pdu) : Pdu :=
  mkPdu (pdu_type pdu) (requestId pdu) status index (varbinds pdu).

(** The four changes of [rewritePdu], one after the other. *)
Definition rewriteType (pdu : Pdu) : M Agent Pdu :=
  let! i := scripted (Script.pick 5) in
  ret match i with
      | 1%nat => with_type Response pdu
      | 2%nat => with_type Report pdu
      | 3%nat => with_type Get pdu
      | 4%nat => with_type GetBulk pdu
      | _ => pdu
      end.

Definition rewriteCounter (pdu : Pdu) : M Agent Pdu :=
  let! counter := scripted (Script.pick 9) in
  ret (if (counter =? 0)%nat then pdu
       else if (counter =? 8)%nat
       then with_varbinds [mkVarbind [1; 3; 6; 1; 2; 1; 1; 1; 0] (ValCounter32 1)] pdu
       else with_varbinds (varbinds (usmReport (Z.of_nat counter))) pdu).

Definition rewriteStatus (pdu : Pdu) : M Agent Pdu :=
  let! status := scripted Script.byte in
  ret (if status =? 0 then pdu else with_status (status - 128) 1 pdu).

Definition rewriteEnd (pdu : Pdu) : M Agent Pdu :=
  let! i := scripted (Script.pick 3) in
  ret match i with
      | 1%nat => with_varbinds [] pdu
      | 2%nat => with_varbinds (varbinds pdu ++ [mkVarbind [1; 3; 6; 1; 2; 1; 2] (ValException EndOfMibView)]) pdu
      | _ => pdu
      end.

Definition rewritePdu (pdu : Pdu) : M Agent Pdu :=
  let! pdu := rewriteType pdu in
  let! pdu := rewriteCounter pdu in
  let! pdu := rewriteStatus pdu in
  rewriteEnd pdu.

Definition rewriteV2c (reply : V2cReply) : M Agent V2cReply :=
  let! id := rewriteId (requestId (r2_pdu reply)) in
  let! pdu := rewritePdu (with_requestId id (r2_pdu reply)) in
  let! i := scripted (Script.pick 2) in
  ret (mkV2cReply (if (i =? 1)%nat then str "private" else r2_community reply) pdu).

Definition rewriteLevel (l : SecurityLevel) : M Agent SecurityLevel :=
  among4 (ret NoAuthNoPriv) (ret AuthNoPriv) (ret AuthPriv) (ret l).

Definition rewriteEngineId (request : V3Message) (engineId : Octets) : M Agent Octets :=
  among4 (ret (u_engineId (security request))) (ret [])
    (let! n := scripted (Script.pick 40) in scripted (Script.bytes n)) (ret engineId).

Definition rewriteTime (boots time : Z) : M Agent (Z * Z) :=
  among4 (let! boots := scripted Script.int32 in let! time := scripted Script.int32 in ret (boots, time))
    (ret (m_boots - 1, time)) (ret (boots, m_time - 1000)) (ret (boots, time)).

(** The key that signs: the keys, and which of them is corrupted. *)
Definition rewriteKeys (request : V3Message) (keys : Keys) : M Agent (Keys * bool * bool) :=
  among4 (let! a := get_st in
          let! keys := keysFor (pr_creds (a_profile a)) (u_engineId (security request)) in ret (keys, false, false))
    (ret (keys, true, false)) (ret (keys, false, true)) (ret (keys, false, false)).

Definition rewriteV3 (reply : V3Reply) (request : V3Message) : M Agent V3Reply :=
  let! id := rewriteId (msgId (r_header reply)) in
  let! pduId := rewriteId (requestId (s_pdu (r_scoped reply))) in
  let! pdu := rewritePdu (with_requestId pduId (s_pdu (r_scoped reply))) in
  let! l := rewriteLevel (h_level (r_header reply)) in
  let! engineId := rewriteEngineId request (u_engineId (r_usm reply)) in
  let! bt := rewriteTime (u_boots (r_usm reply)) (u_time (r_usm reply)) in
  let! i := scripted (Script.pick 2) in
  let user := if (i =? 1)%nat then str "intruder" else u_userName (r_usm reply) in
  let! k := rewriteKeys request (r_keys reply) in
  let h := r_header reply in
  ret (mkV3Reply (mkV3Header id (maxSize h) l (reportable h) (securityModel h))
         (mkUsmParameters engineId bt.1 bt.2 user (u_authParams (r_usm reply)) (u_privParams (r_usm reply)))
         (mkScopedPdu (contextEngineId (r_scoped reply)) (contextName (r_scoped reply)) pdu)
         k.1.1 (corruptAuth reply || k.1.2) (corruptPriv reply || k.2)).

(** ** Encoding *)

(** [key.front() ^= 0xFF]. *)
Definition flip_front {S} (key : Octets) : M S Octets :=
  match key with [] => undef | b :: key => ret (Z.lxor b 0xFF :: key) end.

Definition encode (reply : V3Reply) : M Agent Octets :=
  let! a := get_st in
  let creds := pr_creds (a_profile a) in
  let auth := if bool_decide (authProtocol creds = AuthNone) then Sha1 else authProtocol creds in
  let authKey := if bool_decide (k_auth (r_keys reply) = []) then replicate (Z.to_nat (keySize ssl auth)) 0x5A
                 else k_auth (r_keys reply) in
  let! authKey := (if corruptAuth reply then flip_front authKey else ret authKey) in
  let priv := if bool_decide (privProtocol creds = PrivNone) then Aes128 else privProtocol creds in
  let privKey := if bool_decide (k_priv (r_keys reply) = []) then replicate (privKeySize priv) 0xA5
                 else k_priv (r_keys reply) in
  let! privKey := (if corruptPriv reply then flip_front privKey else ret privKey) in
  or_empty (salted (encodeV3Message ssl (r_header reply) (r_usm reply) (r_scoped reply) auth authKey priv privKey)).

Definition encodeV2c (reply : V2cReply) : M Agent Octets := or_empty (encodeV2cMessage (r2_community reply) (r2_pdu reply)).

(** The field is zeroed in place, and stays so if no digest can be made. *)
Definition resign (bytes : Octets) (reply : V3Reply) : M Agent Octets :=
  let! a := get_st in
  let auth := authProtocol (pr_creds (a_profile a)) in
  if bool_decide (auth = AuthNone) || bool_decide (k_auth (r_keys reply) = []) then ret bytes
  else
    let! r := decodeV3Message bytes in
    match r with
    | inl _ => ret bytes
    | inr msg =>
        let width := authParamsSize auth in
        if negb (isAuthenticated (h_level (header msg))) || negb (length (u_authParams (security msg)) =? width)%nat
        then ret bytes
        else
          let! blanked := fill_zeros (Z.to_nat (authParamsOffset msg)) width bytes in
          let! d := authDigest ssl auth (k_auth (r_keys reply)) blanked in
          match d with
          | inr digest => if (length digest =? width)%nat then copy_to digest blanked (Z.to_nat (authParamsOffset msg))
                          else ret blanked
          | inl _ => ret blanked
          end
    end.

(** One change to the octets at [at_]; there is at least one octet. *)
Definition mutate_at (bytes : Octets) (at_ : nat) : M Agent Octets :=
  let! i := scripted (Script.pick 4) in
  match i with
  | 0%nat =>
      let! bit := scripted (Script.pick 8) in
      let! b := deref (bytes !! at_) in
      ret (<[at_ := Z.lxor b (to_byte (Z.shiftl 1 (Z.of_nat bit)))]> bytes)
  | 1%nat =>
      let! b := scripted Script.byte in
      store bytes at_ b
  | 2%nat => ret (resize at_ bytes)
  | _ =>
      let! b := scripted Script.byte in
      ret (take at_ bytes ++ b :: drop at_ bytes)
  end.

Fixpoint mutate_loop (ops : nat) (bytes : Octets) : M Agent Octets :=
  match ops with
  | O => ret bytes
  | S ops' =>
      if bool_decide (bytes = []) then ret bytes
      else
        let! high := scripted Script.byte in
        let! low := scripted Script.byte in
        let! bytes := mutate_at bytes (Z.to_nat (Z.lor (Z.shiftl high 8) low) mod length bytes) in
        mutate_loop ops' bytes
  end.

Definition mutate (bytes : Octets) : M Agent Octets :=
  let! ops := scripted (Script.pick 6) in
  mutate_loop ops bytes.

Definition send (bytes : Octets) (fromTarget : bool) : M Agent unit :=
  modify (fun a => with_sent ((bytes, fromTarget) :: a_sent a) a).

(** ** Replies *)

(** The loop of [sendReplies], with the reply's own [rewrite], [encode] and [resign]. *)
Fixpoint reply_loop {R} (n : nat) (compliant : R) (rewrite : R -> M Agent R) (encode : R -> M Agent Octets)
    (resign : Octets -> R -> M Agent Octets) : M Agent unit :=
  match n with
  | O => ret tt
  | S n' =>
      let! choice := scripted Script.byte in
      let fromTarget := Z.land choice 0x80 =? 0 in
      let! bytes :=
        match choice mod 5 with
        | 0 => encode compliant
        | 1 => let! reply := rewrite compliant in encode reply
        | 2 => let! reply := rewrite compliant in let! bytes := encode reply in mutate bytes
        | 3 => let! reply := rewrite compliant in let! bytes := encode reply in
               let! bytes := mutate bytes in resign bytes reply
        | _ => let! n := scripted Script.byte in scripted (Script.bytes (Z.to_nat n * 2))
        end in
      send bytes fromTarget ;;;
      reply_loop n' compliant rewrite encode resign
  end.

Definition sendReplies {R} (compliant : R) (rewrite : R -> M Agent R) (encode : R -> M Agent Octets)
    (resign : Octets -> R -> M Agent Octets) : M Agent unit :=
  let! n := replyCount in
  reply_loop n compliant rewrite encode resign.

Definition answerV2c (datagram : Octets) : M Agent unit :=
  let! r := decodeV2cMessage datagram in
  match r with
  | inl _ => ret tt
  | inr msg =>
      remember (requestId (v2c_pdu msg)) (seenFrom (v2c_pdu msg)) ;;;
      sendReplies (mkV2cReply (v2c_community msg) (respondTo (v2c_pdu msg))) rewriteV2c encodeV2c
        (fun bytes _ => ret bytes)
  end.

(** [std::abs(usm.time - m_time) > timeWindow], where the difference and its magnitude have
    to fit an [int]. *)
Definition outside_window {S} (time : Z) : M S bool :=
  if decide (int32_ok (time - m_time) /\ int32_ok (Z.abs (time - m_time))) then ret (timeWindow <? Z.abs (time - m_time)) else undef.

(** What comes to [report(counter, level)], or to the compliant Response ([None]). *)
Definition verdictV3 (request : V3Message) (authenticated readable : bool) : M Agent (option (Z * SecurityLevel)) :=
  let! a := get_st in
  let creds := pr_creds (a_profile a) in
  let usm := security request in
  let authenticates := isAuthenticated (h_level (header request)) in
  if negb readable then ret (Some (decryptionErrors, NoAuthNoPriv))
  else if negb (bool_decide (u_engineId usm = m_engineId)) then ret (Some (unknownEngineIds, NoAuthNoPriv))
  else if authenticates && negb (bool_decide (u_userName usm = userName creds)) then ret (Some (unknownUserNames, NoAuthNoPriv))
  else if authenticates && negb authenticated then ret (Some (wrongDigests, NoAuthNoPriv))
  else
    let! late := (if authenticates then
                    if negb (u_boots usm =? m_boots) then ret true else outside_window (u_time usm)
                  else ret false) in
    ret (if (late : bool) then Some (notInTimeWindows, level creds) else None).

Definition compliantV3 (request : V3Message) (authenticated readable : bool) : M Agent V3Reply :=
  let! a := get_st in
  let! verdict := verdictV3 request authenticated readable in
  let l := match verdict with Some (_, l) => l | None => h_level (header request) end in
  let pdu := match verdict with
             | Some (counter, _) => with_requestId (requestId (s_pdu (scoped request))) (usmReport counter)
             | None => respondTo (s_pdu (scoped request))
             end in
  ret (mkV3Reply (mkV3Header (msgId (header request)) defaultMaxMessageSize l false securityModelUsm)
         (mkUsmParameters m_engineId m_boots m_time (userName (pr_creds (a_profile a))) [] [])
         (mkScopedPdu m_engineId [] pdu) (a_keys a) false false).

Definition answerV3 (datagram : Octets) : M Agent unit :=
  let! r := decodeV3Message datagram in
  match r with
  | inl _ => ret tt
  | inr msg =>
      let! a := get_st in
      let creds := pr_creds (a_profile a) in
      let! keys := keysFor creds (u_engineId (security msg)) in
      let! authenticated := (if isAuthenticated (h_level (header msg))
                             then succeeds (verifyAuth ssl datagram msg (authProtocol creds) (k_auth keys))
                             else ret false) in
      let! opened := (if isEncrypted (h_level (header msg)) then decryptScopedPdu ssl msg (privProtocol creds) (k_priv keys)
                      else ret (inr msg)) in
      let readable := match opened with inr _ => true | inl _ => false end in
      let request := match opened with inr msg => msg | inl _ => msg end in
      let s := if readable then seenFrom (s_pdu (scoped request)) else default_seen in
      remember (msgId (header request))
        (mkSeen (owner s) (requestIndex s) (h_level (header request)) (u_engineId (security request))) ;;;
      let! compliant := compliantV3 request authenticated readable in
      sendReplies compliant (fun reply => rewriteV3 reply request) encode resign
  end.

Definition answer (datagram : Octets) : M Agent unit :=
  let! a := get_st in
  if bool_decide (pr_mode (a_profile a) = ModeV2c) then answerV2c datagram else answerV3 datagram.

(** [receive] and its handler, which hands on what arrives, one datagram after another. *)
Fixpoint serve (datagrams : list Octets) : M Agent unit :=
  match datagrams with
  | [] => ret tt
  | datagram :: rest => answer datagram ;;; serve rest
  end.

End HostileAgent.
