(* ===== verification/AgentTheory.v ===== *)
(** * AgentTheory: the Scripted Agent answers

    The theory of [Agent]: whatever the request and whatever the script, the Agent of
    [fuzz/HostileAgent.hpp] answers without undefined behaviour, with one exception; its key
    cache gives what would be derived; and with its script spent it answers the way a
    compliant Agent does. *)

From stdpp Require Import gmap.
From S2P Require Import Prelude Errors Oids Values Ber BerWriter BerReader BerRoundtrip Pdu Usm V3Message Echo Client Engines Coroutine Strand Exchange Requests Walk System Liveness Operations Agent.

Section AgentTheory.
Context {ssl : OpenSSL} {L : OpenSSLLaws ssl}.
Implicit Types (a : Agent) (p : Profile).

(** Credentials as the fuzzer makes them: a privacy protocol where the level is
    encrypted, and nowhere else. *)
Record profile_ok p : Prop := {
  po_user : octets_ok (userName (pr_creds p)) /\ zlen (userName (pr_creds p)) <= 65535;
  po_passwords : octets_ok (authPassword (pr_creds p)) /\ octets_ok (privPassword (pr_creds p));
  po_auth : isAuthenticated (level (pr_creds p)) = true -> authProtocol (pr_creds p) <> AuthNone;
  po_priv : isEncrypted (level (pr_creds p)) = negb (bool_decide (privProtocol (pr_creds p) = PrivNone)) }.

Definition octets_or_none (r : ErrorCode + Octets) : Octets := match r with inr out => out | inl _ => [] end.

(** The keys at an Engine, by their definition. *)
Definition derived_keys (creds : Credentials) (row : KeyRow) : Keys :=
  let '(auth, priv, engineId) := row in
  mkKeys (octets_or_none (derived_auth (ssl := ssl) auth (authPassword creds) engineId))
    (if bool_decide (priv = PrivNone) then []
     else octets_or_none (derived_priv (ssl := ssl) auth (privPassword creds) priv engineId)).

Definition keys_at (creds : Credentials) (engineId : Octets) : Keys :=
  if negb (isAuthenticated (level creds)) || bool_decide (engineId = []) then mkKeys [] []
  else derived_keys creds (authProtocol creds, privProtocol creds, engineId).

Definition cache_ok p (cache : gmap KeyRow Keys) : Prop :=
  forall row keys, cache !! row = Some keys -> keys = derived_keys (pr_creds p) row.

(** The cache holds what would be derived; the ids are the keys of what was seen, each
    once. *)
Record agent_inv p a : Prop := {
  ai_profile : a_profile a = p;
  ai_script : octets_ok (Script.m_data (a_script a));
  ai_keys : a_keys a = keys_at (pr_creds p) m_engineId;
  ai_cache : cache_ok p (a_cache a);
  ai_seen id : id ∈ a_ids a <-> is_Some (a_seen a !! id);
  ai_unique : NoDup (a_ids a);
  ai_ids : Forall int32_ok (a_ids a) }.

(** Nothing is remembered, nothing is sent. *)
Record frame a a' : Prop := {
  fr_seen : a_seen a' = a_seen a;
  fr_ids : a_ids a' = a_ids a;
  fr_sent : a_sent a' = a_sent a }.

#[local] Instance frame_preorder : PreOrder frame.
Proof. split; [by intros a|]. intros a1 a2 a3 [A1 A2 A3] [B1 B2 B3]. split; congruence. Qed.

Definition quiet {A} p (m : M Agent A) (Q : A -> Prop) a : Prop :=
  wp m (fun x a' => agent_inv p a' /\ frame a a' /\ Q x) a.

Lemma quiet_ret {A} p (x : A) (Q : A -> Prop) a : agent_inv p a -> Q x -> quiet p (ret x) Q a.
Proof. intros Hi HQ. apply wp_ret. done. Qed.

Lemma quiet_bind {A B} p (m : M Agent A) (k : A -> M Agent B) P Q a : quiet p m P a ->
  (forall x a', agent_inv p a' -> frame a a' -> P x -> quiet p (k x) Q a') -> quiet p (bind m k) Q a.
Proof.
  intros Hm Hk. apply wp_bind. eapply wp_mono; [exact Hm|]. intros x a1 (Hi & Hf & HP).
  eapply wp_mono; [by apply Hk|]. intros y a2 (Hi2 & Hf2 & HQ). split; [done|]. split; [by transitivity a1|done].
Qed.

Lemma quiet_get {B} p (k : Agent -> M Agent B) Q a : quiet p (k a) Q a -> quiet p (bind get_st k) Q a.
Proof. done. Qed.

Lemma quiet_mono {A} p (m : M Agent A) (P Q : A -> Prop) a : quiet p m P a -> (forall x, P x -> Q x) -> quiet p m Q a.
Proof. intros Hm HPQ. eapply wp_mono; [exact Hm|]. intros x a' (? & ? & ?). auto. Qed.

(** ** Reading the script *)

(** A read moves the cursor, and what it gives is octets. *)
Lemma scripted_quiet {A} p (m : M Script.Script A) (Q : A -> Prop) a : agent_inv p a ->
  (exists x pos, m (a_script a) = Done x (Script.mkScript (Script.m_data (a_script a)) pos) /\ Q x) ->
  quiet p (scripted m) Q a.
Proof.
  intros [? ? ? ? ? ? ?] (x & pos & E & HQ). unfold quiet, wp, scripted, zoom. rewrite E. split; [by split|]. by split.
Qed.

Lemma byte_run s : octets_ok (Script.m_data s) ->
  exists b pos, Script.byte s = Done b (Script.mkScript (Script.m_data s) pos) /\ byte_ok b.
Proof.
  intros Ho. unfold Script.byte, bind, get_st, Script.exhausted. destruct (Nat.leb_spec (length (Script.m_data s)) (Script.m_pos s)) as [|Hl].
  - exists 0, (Script.m_pos s). split; [by destruct s|]. unfold byte_ok. lia.
  - destruct (lookup_lt_is_Some_2 _ _ Hl) as [b Hb]. rewrite Hb. eexists b, _. split; [done|].
    by eapply (Forall_lookup_1 byte_ok).
Qed.

Lemma byte_quiet p a : agent_inv p a -> quiet p (scripted Script.byte) byte_ok a.
Proof.
  intros Hi. apply scripted_quiet; [done|]. destruct (byte_run (a_script a) (ai_script _ _ Hi)) as (b & pos & E & Hb). eauto.
Qed.

Lemma pick_quiet p n a : agent_inv p a -> n <> 0%nat -> quiet p (scripted (Script.pick n)) (fun i => (i < n)%nat) a.
Proof.
  intros Hi Hn. apply scripted_quiet; [done|]. destruct (byte_run (a_script a) (ai_script _ _ Hi)) as (b & pos & E & Hb).
  unfold Script.pick. rewrite (bind_done _ _ _ _ _ E). destruct (Nat.eqb_spec n 0); [done|]. eexists _, pos. split; [done|].
  by apply Nat.mod_upper_bound.
Qed.

Lemma int32_loop_run todo v s : octets_ok (Script.m_data s) ->
  exists w pos, Script.int32_loop todo v s = Done w (Script.mkScript (Script.m_data s) pos).
Proof.
  revert v s. induction todo as [|todo IH]; intros v s Ho; cbn [Script.int32_loop].
  - exists v, (Script.m_pos s). by destruct s.
  - destruct (byte_run s Ho) as (b & pos & E & _). rewrite (bind_done _ _ _ _ _ E).
    destruct (IH (Z.lor (wrap 32 (Z.shiftl v 8)) b) (Script.mkScript (Script.m_data s) pos) Ho) as (w & pos' & E'). by exists w, pos'.
Qed.

Lemma swrap_int32 z : int32_ok (swrap 32 z).
Proof. unfold swrap, int32_ok. pose proof (Z.mod_pos_bound (z + 2 ^ (32 - 1)) (2 ^ 32) ltac:(lia)). lia. Qed.

Lemma int32_quiet p a : agent_inv p a -> quiet p (scripted Script.int32) int32_ok a.
Proof.
  intros Hi. apply scripted_quiet; [done|]. destruct (int32_loop_run 4 0 (a_script a) (ai_script _ _ Hi)) as (w & pos & E).
  unfold Script.int32. rewrite (bind_done _ _ _ _ _ E). eexists _, pos. split; [done|apply swrap_int32].
Qed.

Lemma bytes_quiet p n a : agent_inv p a ->
  quiet p (scripted (Script.bytes n)) (fun bs => octets_ok bs /\ (length bs <= n)%nat) a.
Proof.
  intros Hi. apply scripted_quiet; [done|]. unfold Script.bytes, bind, get_st, set_st, ret. eexists _, _. split; [reflexivity|]. split.
  - apply Forall_take, Forall_drop, (ai_script _ _ Hi).
  - rewrite length_take. destruct (Script.exhausted _); lia.
Qed.

(** ** Keys *)

Lemma with_cache_inv p cache a : agent_inv p a -> cache_ok p cache ->
  agent_inv p (with_cache cache a) /\ frame a (with_cache cache a).
Proof. intros [? ? ? ? ? ? ?] Hc. by split. Qed.

(** What is derived is what the cache would give, and only the cache changes. *)
Lemma keysFor_run p a engineId : profile_ok p -> cache_ok p (a_cache a) ->
  exists cache, keysFor ssl (pr_creds p) engineId a = Done (keys_at (pr_creds p) engineId) (with_cache cache a) /\ cache_ok p cache.
Proof.
  intros [_ [Ha Hp] _ Hpriv] Hi. unfold keysFor, keys_at. assert (with_cache (a_cache a) a = a) as Hsame by (by destruct a).
  destruct (negb _ || _); [exists (a_cache a); by rewrite Hsame|]. rewrite (bind_done _ _ a a a) by done.
  set (row := (_, _, engineId)). destruct (a_cache a !! row) as [keys|] eqn:E.
  { exists (a_cache a). rewrite Hsame. by rewrite (Hi _ _ E). }
  set (cache := if (256 <=? size (a_cache a))%nat then ∅ else a_cache a).
  rewrite (bind_done _ _ a tt (with_cache cache a)) by (unfold cache; destruct (_ <=? _)%nat; [done|by rewrite Hsame]).
  exists (<[row := derived_keys (pr_creds p) row]> cache). split.
  - rewrite (bind_done _ _ _ (k_auth (derived_keys (pr_creds p) row)) (with_cache cache a)).
    2: { unfold or_empty. by rewrite (bind_done _ _ _ _ _ (localizedAuthKey_run _ _ _ Ha)). }
    rewrite (bind_done _ _ _ (k_priv (derived_keys (pr_creds p) row)) (with_cache cache a)); [done|]. rewrite Hpriv.
    cbn [derived_keys k_priv row]. case_bool_decide as Hn; cbn [negb]; [done|]. unfold or_empty.
    by rewrite (bind_done _ _ _ _ _ (localizedPrivKey_run _ _ _ Hp)).
  - intros row' keys. rewrite lookup_insert_Some. intros [[<- <-]|[_ Hl]]; [done|]. unfold cache in Hl.
    destruct (_ <=? _)%nat; [by rewrite lookup_empty in Hl|by apply Hi].
Qed.

Lemma keysFor_quiet p a engineId : profile_ok p -> agent_inv p a ->
  quiet p (keysFor ssl (pr_creds p) engineId) (fun keys => keys = keys_at (pr_creds p) engineId) a.
Proof.
  intros Hp Hi. destruct (keysFor_run p a engineId Hp (ai_cache _ _ Hi)) as (cache & E & Hc).
  eapply wp_eq; [exact E|]. by destruct (with_cache_inv p cache a Hi Hc).
Qed.

(** ** Rewriting *)

(** The sub-identifiers of a literal Oid. *)
Ltac subids := cbn [vb_name]; repeat (apply List.Forall_cons; [unfold uint32_ok; lia|]); apply List.Forall_nil.

(** A PDU with an encoding of less than [n] octets. *)
Definition fits (n : Z) (pdu : Pdu) : Prop :=
  pdu_ok pdu /\ exists vs, enc_varbinds (varbinds pdu) = Some vs /\ zlen vs < n.

Lemma fits_request pdu : fits (2 ^ 20) pdu <-> request_ok pdu.
Proof. done. Qed.

Lemma fits_le n m pdu : n <= m -> fits n pdu -> fits m pdu.
Proof. intros Hl (H1 & vs & H2 & H3). split; [done|]. exists vs. split; [done|lia]. Qed.

Lemma anotherId_quiet p a : agent_inv p a -> quiet p anotherId int32_ok a.
Proof.
  intros Hi. unfold anotherId. apply quiet_get. case_bool_decide as Hn; [by apply int32_quiet|].
  eapply quiet_bind; [apply pick_quiet; [done|by destruct (a_ids a)]|]. cbn beta. intros i a1 Hi1 _ Hlt.
  destruct (lookup_lt_is_Some_2 _ _ Hlt) as [id Hid]. rewrite Hid. apply quiet_ret; [done|].
  eapply (Forall_lookup_1 int32_ok); [apply (ai_ids _ _ Hi)|done].
Qed.

Lemma among4_quiet {A} p (m1 m2 m3 m0 : M Agent A) (Q : A -> Prop) a : agent_inv p a ->
  (forall a', agent_inv p a' -> quiet p m1 Q a') -> (forall a', agent_inv p a' -> quiet p m2 Q a') ->
  (forall a', agent_inv p a' -> quiet p m3 Q a') -> (forall a', agent_inv p a' -> quiet p m0 Q a') ->
  quiet p (among4 m1 m2 m3 m0) Q a.
Proof.
  intros Hi H1 H2 H3 H0. unfold among4. eapply quiet_bind; [by apply pick_quiet|]. cbn beta. intros i a1 Hi1 _ _.
  destruct i as [|[|[|[|i]]]]; auto.
Qed.

Lemma rewriteId_quiet p id a : agent_inv p a -> int32_ok id -> quiet p (rewriteId id) int32_ok a.
Proof.
  intros Hi Hid. apply among4_quiet; [done|..]; intros a1 Hi1.
  - by apply anotherId_quiet.
  - by apply int32_quiet.
  - apply quiet_ret; [done|apply swrap_int32].
  - by apply quiet_ret.
Qed.

Lemma usmReport_fits (counter : nat) pdu : (counter < 9)%nat -> pdu_ok pdu ->
  fits 100 (with_varbinds (varbinds (usmReport (Z.of_nat counter))) pdu).
Proof.
  intros Hc (H1 & H2 & H3 & _). split.
  - do 3 (split; [done|]). apply Forall_singleton. split; [|by unfold value_ok, uint32_ok; cbn].
    subids.
  - do 9 (destruct counter as [|counter]; [eexists; split; [vm_compute; reflexivity|vm_compute; reflexivity]|]). lia.
Qed.

Lemma rewriteCounter_quiet p pdu n a : agent_inv p a -> 100 <= n -> fits n pdu -> quiet p (rewriteCounter pdu) (fits n) a.
Proof.
  intros Hi Hn Hp. unfold rewriteCounter. eapply quiet_bind; [by apply pick_quiet|]. cbn beta. intros i a1 Hi1 _ Hlt.
  apply quiet_ret; [done|]. destruct (i =? 0)%nat; [done|]. destruct Hp as [Hok _]. destruct (i =? 8)%nat.
  - split; [|eexists; split; [vm_compute; reflexivity|apply (Z.lt_le_trans _ 100); [vm_compute; reflexivity|done]]]. destruct Hok as (H1 & H2 & H3 & _).
    do 3 (split; [done|]). apply Forall_singleton. split; [|by unfold value_ok, uint32_ok; cbn].
    subids.
  - eapply fits_le; [exact Hn|by apply usmReport_fits].
Qed.

Lemma push_fits n vb vbb pdu : fits n pdu -> varbind_ok vb -> enc_varbind vb = Some vbb -> zlen vbb + n < 2 ^ 26 ->
  fits (n + zlen vbb + 6) (with_varbinds (varbinds pdu ++ [vb]) pdu).
Proof.
  intros [(H1 & H2 & H3 & H4) (vs & He & Hl)] Hv Hb Hs. split; [do 3 (split; [done|]); apply Forall_app; by split; [|apply Forall_singleton]|].
  unfold enc_varbinds in *. cbn [varbinds with_varbinds]. destruct (mapM enc_varbind (varbinds pdu)) as [l|] eqn:El; [|done].
  injection He as <-. assert (mapM enc_varbind (varbinds pdu ++ [vb]) = Some (l ++ [vbb])) as ->.
  { apply mapM_Some. apply mapM_Some in El. apply Forall2_app; [done|]. by constructor. }
  cbn [mbind option_bind]. eexists. split; [done|]. rewrite length_enc_tlv in Hl. rewrite concat_app. cbn [concat]. rewrite app_nil_r.
  pose proof (enc_tlv_bound tag.sequence (concat l ++ vbb) ltac:(rewrite zlen_app; lia)) as B. rewrite zlen_app in B. lia.
Qed.

Lemma rewritePdu_quiet p pdu a : agent_inv p a -> fits (2 ^ 19) pdu -> quiet p (rewritePdu pdu) (fits (2 ^ 20)) a.
Proof.
  intros Hi Hp. unfold rewritePdu. eapply (quiet_bind _ _ _ (fits (2 ^ 19))).
  { unfold rewriteType. eapply quiet_bind; [by apply pick_quiet|]. cbn beta. intros i a1 Hi1 _ _. apply quiet_ret; [done|].
    by destruct i as [|[|[|[|[|i]]]]]. }
  intros pdu1 a1 Hi1 _ Hp1. eapply quiet_bind; [apply (rewriteCounter_quiet p pdu1 (2 ^ 19)); [done|lia|done]|]. intros pdu2 a2 Hi2 _ Hp2.
  eapply (quiet_bind _ _ _ (fits (2 ^ 19))).
  { unfold rewriteStatus. eapply quiet_bind; [by apply byte_quiet|]. cbn beta. intros b a3 Hi3 _ Hb. apply quiet_ret; [done|].
    destruct (b =? 0); [done|]. destruct Hp2 as [(H1 & H2 & H3 & H4) Hv]. split; [|done].
    split; [done|]. cbn. unfold byte_ok, int32_ok in *. split; [lia|]. split; [lia|done]. }
  intros pdu3 a3 Hi3 _ Hp3. unfold rewriteEnd. eapply quiet_bind; [by apply pick_quiet|]. cbn beta. intros i a4 Hi4 _ _.
  apply quiet_ret; [done|]. assert (fits (2 ^ 20) pdu3) by (eapply fits_le; [|exact Hp3]; lia). destruct i as [|[|[|i]]]; [done| | |done].
  - destruct Hp3 as [(H1 & H2 & H3 & _) _]. split; [|by eexists]. do 3 (split; [done|]). by apply Forall_nil.
  - eapply fits_le; [|eapply push_fits; [exact Hp3| |vm_compute; reflexivity|]]; [vm_compute; discriminate| |vm_compute; reflexivity].
    split; [|done]. subids.
Qed.

(** A v2c reply that can be encoded. *)
Definition v2c_reply_ok (n : Z) (r : V2cReply) : Prop :=
  octets_ok (r2_community r) /\ zlen (r2_community r) <= 65535 /\ fits n (r2_pdu r).

Lemma fits_id n id pdu : int32_ok id -> fits n pdu -> fits n (with_requestId id pdu).
Proof. intros Hid [(H1 & H2 & H3 & H4) Hv]. split; [|done]. exact (conj Hid (conj H2 (conj H3 H4))). Qed.

Lemma rewriteV2c_quiet p r a : agent_inv p a -> v2c_reply_ok (2 ^ 19) r ->
  quiet p (rewriteV2c r) (v2c_reply_ok (2 ^ 20)) a.
Proof.
  intros Hi (H1 & H2 & H3). unfold rewriteV2c. eapply quiet_bind; [apply rewriteId_quiet; [done|apply H3]|].
  intros id a1 Hi1 _ Hid. eapply quiet_bind; [apply rewritePdu_quiet; [done|by apply fits_id]|].
  intros pdu a2 Hi2 _ Hp. eapply quiet_bind; [by apply pick_quiet|]. cbn beta. intros i a3 Hi3 _ _. apply quiet_ret; [done|].
  destruct (i =? 1)%nat; [|done]. split; [|split; [vm_compute; discriminate|done]].
  apply (bool_decide_unpack _). vm_compute. exact I.
Qed.

Definition wire (n : Z) (bs : Octets) : Prop := octets_ok bs /\ zlen bs < n.

Lemma encodeV2c_quiet p r a : agent_inv p a -> v2c_reply_ok (2 ^ 20) r -> quiet p (encodeV2c r) (wire (2 ^ 25)) a.
Proof.
  intros Hi (H1 & H2 & H3). pose proof H3 as [(Hid & _) _].
  destruct (encode_v2c_step (requestId (r2_pdu r)) (r2_community r) (r2_pdu r) a H3 Hid H1 H2) as (out & E & He & Hl).
  assert (with_requestId (requestId (r2_pdu r)) (r2_pdu r) = r2_pdu r) as Hsame by (by destruct (r2_pdu r)).
  rewrite Hsame in E, He. unfold encodeV2c, or_empty, quiet. apply wp_bind. eapply wp_eq; [exact E|]. apply wp_ret.
  split; [done|]. split; [done|]. split; [|lia].
  eapply (enc_v2c_octets (mkV2cMessage (r2_community r) (r2_pdu r))); [exact (conj H1 (proj1 H3))|exact He|lia].
Qed.

(** And an SNMPv3 one. *)
Record v3_reply_ok (n : Z) (r : V3Reply) : Prop := {
  vo_header : header_ok (r_header r);
  vo_usm : usm_ok (r_usm r);
  vo_sizes : zlen (u_engineId (r_usm r)) <= 65535 /\ zlen (u_userName (r_usm r)) <= 65535 /\ u_privParams (r_usm r) = [];
  vo_context : contextEngineId (r_scoped r) = m_engineId /\ contextName (r_scoped r) = [];
  vo_pdu : fits n (s_pdu (r_scoped r)) }.

Lemma rewriteEngineId_quiet p request eid a : agent_inv p a -> id_ok eid -> id_ok (u_engineId (security request)) ->
  quiet p (rewriteEngineId request eid) id_ok a.
Proof.
  intros Hi He Hr. apply among4_quiet; [done|..]; intros a1 Hi1; [by apply quiet_ret| | |by apply quiet_ret].
  - apply quiet_ret; [done|]. split; [by apply Forall_nil|done].
  - eapply quiet_bind; [by apply pick_quiet|]. cbn beta. intros n a2 Hi2 _ Hn.
    eapply quiet_mono; [by apply bytes_quiet|]. intros bs [Ho Hl]. split; [done|lia].
Qed.

Lemma rewriteTime_quiet p boots time a : agent_inv p a -> int32_ok boots -> int32_ok time ->
  quiet p (rewriteTime boots time) (fun bt => int32_ok bt.1 /\ int32_ok bt.2) a.
Proof.
  intros Hi Hb Ht. apply among4_quiet; [done|..]; intros a1 Hi1; [|apply quiet_ret; [done|]; split; done..].
  eapply quiet_bind; [by apply int32_quiet|]. intros b a2 Hi2 _ Hb'. eapply quiet_bind; [by apply int32_quiet|].
  intros t a3 Hi3 _ Ht'. by apply quiet_ret.
Qed.

Lemma rewriteV3_quiet p r request a : profile_ok p -> agent_inv p a -> v3_reply_ok (2 ^ 19) r ->
  id_ok (u_engineId (security request)) -> quiet p (rewriteV3 ssl r request) (v3_reply_ok (2 ^ 20)) a.
Proof.
  intros Hp Hi [(Hh1 & Hh2 & Hh3) (Hu1 & Hu2 & Hu3 & Hu4 & Hu5 & Hu6) (Hs1 & Hs2 & Hs3) Hc Hpdu] Hr. unfold rewriteV3.
  eapply quiet_bind; [by apply rewriteId_quiet|]. intros id a1 Hi1 _ Hid.
  eapply quiet_bind; [apply rewriteId_quiet; [done|apply Hpdu]|]. intros pid a2 Hi2 _ Hpid.
  eapply quiet_bind; [apply rewritePdu_quiet; [done|by apply fits_id]|]. intros pdu a3 Hi3 _ Hpdu'.
  eapply (quiet_bind _ _ _ (fun _ => True)); [apply among4_quiet; [done|..]; intros; by apply quiet_ret|]. intros l a4 Hi4 _ _.
  eapply quiet_bind; [apply rewriteEngineId_quiet; [done|by split|done]|]. intros eid a5 Hi5 _ Heid.
  eapply quiet_bind; [by apply rewriteTime_quiet|]. intros [b t] a6 Hi6 _ [Hb Ht].
  eapply quiet_bind; [by apply pick_quiet|]. cbn beta. intros i a7 Hi7 _ _.
  eapply (quiet_bind _ _ _ (fun _ => True)).
  { apply among4_quiet; [done|..]; intros a8 Hi8; [|by apply quiet_ret..]. apply quiet_get. rewrite (ai_profile _ _ Hi8).
    eapply quiet_bind; [by apply keysFor_quiet|]. intros k a9 Hi9 _ _. by apply quiet_ret. }
  intros k a8 Hi8 _ _. apply quiet_ret; [done|]. assert (octets_ok (str "intruder")) as Hin
    by (apply (bool_decide_unpack _); vm_compute; exact I).
  split; cbn; [done| | |done|done].
  - split; [apply Heid|]. split; [done|]. split; [done|]. split; [by destruct (i =? 1)%nat|done].
  - split; [apply Heid|]. split; [by destruct (i =? 1)%nat|done].
Qed.

(** ** Encoding *)

Lemma flip_front_quiet p key (b : bool) a : agent_inv p a -> key <> [] ->
  quiet p (if b then flip_front key else ret key) (fun _ => True) a.
Proof. intros Hi Hne. destruct b; [destruct key; [done|]|]; by apply quiet_ret. Qed.

Lemma salted_quiet {A} p (m : M Salt A) (Q : A -> Prop) a : agent_inv p a ->
  (exists x s, m (a_salt a) = Done x s /\ Q x) -> quiet p (salted m) Q a.
Proof.
  intros [? ? ? ? ? ? ?] (x & s & E & HQ). unfold quiet, wp, salted, zoom. rewrite E. split; [by split|]. by split.
Qed.

(** An encodable reply has a ScopedPDU to encode. *)
Lemma reply_scoped n r : n <= 2 ^ 20 -> v3_reply_ok n r -> scoped_ok (r_scoped r) /\
  exists sc vs, enc_scoped (r_scoped r) = Some sc /\ enc_varbinds (varbinds (s_pdu (r_scoped r))) = Some vs /\
    zlen sc <= zlen vs + zlen m_engineId + 60 /\ zlen sc < 2 ^ 20 + 2 ^ 17.
Proof.
  intros Hn [_ _ _ [Hc1 Hc2] Hp]. apply (fits_le _ (2 ^ 20)) in Hp; [|done].
  assert (id_ok m_engineId) as Hid by (split; [apply (bool_decide_unpack _); vm_compute; exact I|vm_compute; discriminate]).
  pose proof (request_scoped (requestId (s_pdu (r_scoped r))) m_engineId (s_pdu (r_scoped r)) Hp (proj1 (proj1 Hp)) Hid) as Hx.
  assert (mkScopedPdu m_engineId [] (with_requestId (requestId (s_pdu (r_scoped r))) (s_pdu (r_scoped r))) = r_scoped r) as E.
  { destruct (r_scoped r) as [ce cn [t i st ix vbs]]. cbn in *. by subst. }
  by rewrite E in Hx.
Qed.

Lemma stand_in_auth creds : (if bool_decide (authProtocol creds = AuthNone) then Sha1 else authProtocol creds) <> AuthNone.
Proof. by case_bool_decide. Qed.

Lemma encode_quiet p r a : agent_inv p a -> v3_reply_ok (2 ^ 20) r -> quiet p (encode ssl r) (wire (2 ^ 25)) a.
Proof.
  intros Hi Hr. unfold encode. apply quiet_get. set (creds := pr_creds _).
  set (auth := if bool_decide (authProtocol creds = AuthNone) then Sha1 else authProtocol creds).
  set (priv := if bool_decide (privProtocol creds = PrivNone) then Aes128 else privProtocol creds).
  eapply (quiet_bind _ _ _ (fun _ => True)).
  { apply flip_front_quiet; [done|]. case_bool_decide; [|done]. pose proof (stand_in_auth creds) as Ha. fold auth in Ha.
    unfold keySize. rewrite digestFor_some by done. destruct (md_size_cases auth Ha) as [Hz _].
    intros E%(f_equal length). rewrite length_replicate in E. cbn in E. lia. }
  intros key a1 Hi1 _ _. eapply (quiet_bind _ _ _ (fun _ => True)).
  { apply flip_front_quiet; [done|]. case_bool_decide; [|done]. unfold priv. case_bool_decide; [done|].
    by destruct (privProtocol creds). }
  intros pkey a2 Hi2 _ _. destruct (reply_scoped _ _ ltac:(done) Hr) as [Hs (sc & vs & He & Hvs & Hsz & Hl)].
  destruct Hr as [Hh Hu (Hs1 & Hs2 & Hs3) _ _]. unfold or_empty. eapply (quiet_bind _ _ _ (fun o => wire (2 ^ 25) (octets_or_none o))).
  - apply salted_quiet; [done|].
    destruct (encodeV3Message_outcome (r_header r) (r_usm r) (r_scoped r) auth key priv pkey sc (a_salt a2) tt Hh Hu Hs He)
      as (o & s & E & Ho); [rewrite Hs3; cbn [length]; lia|].
    exists o, s. split; [done|]. destruct o as [|out]; [split; [by apply Forall_nil|done]|].
    destruct Ho as (msg & _ & _ & [Ho Hlo] & _). split; [done|]. cbn [octets_or_none]. lia.
  - intros o a3 Hi3 _ Ho. by apply quiet_ret.
Qed.

Lemma resign_quiet p bytes r a : agent_inv p a -> wire (2 ^ 26) bytes -> quiet p (resign ssl bytes r) (wire (2 ^ 26)) a.
Proof.
  intros Hi [Ho Hl]. unfold resign. apply quiet_get. set (auth := authProtocol _).
  case_bool_decide as Ha; cbn [orb]; [by apply quiet_ret|]. case_bool_decide; [by apply quiet_ret|].
  unfold quiet. apply wp_bind. eapply wp_eq; [apply decodeV3Message_run; [done|lia]|].
  destruct (dec_v3 bytes) as [e|msg] eqn:Ed; [by apply quiet_ret|].
  destruct (_ || _) eqn:Ew; [by apply quiet_ret|]. apply orb_false_iff in Ew as [_ Hw%negb_false_iff%Nat.eqb_eq].
  destruct (dec_v3_at bytes msg Ed Ho) as (H0 & H1 & H2). rewrite Hw in H1.
  set (off := Z.to_nat (authParamsOffset msg)). set (w := authParamsSize auth) in *.
  assert (off + w <= length bytes)%nat as Hfit by lia.
  apply wp_bind. eapply wp_eq; [by apply fill_zeros_run|]. set (blanked := take off bytes ++ _).
  assert (wire (2 ^ 26) blanked) as [Hbo Hbl].
  { split; [|unfold blanked; rewrite !length_app, length_take, length_replicate, length_drop; lia].
    apply Forall_app. split; [by apply Forall_take|]. apply Forall_app. split; [|by apply Forall_drop].
    apply Forall_replicate. unfold byte_ok. lia. }
  apply wp_bind. destruct (authDigest_run auth (k_auth (r_keys r)) blanked a Ha) as (mac & _ & E & Hd & Hdo).
  fold w in E, Hd, Hdo. eapply wp_eq; [exact E|]. cbn beta iota. rewrite Hd, Nat.eqb_refl.
  assert (length (take off bytes) = off) as Htk by (rewrite length_take; lia).
  set (digest := take w mac) in *. eapply (wp_eq _ _ _ (take off bytes ++ digest ++ drop (off + w) bytes) a).
  - rewrite <- Htk at 1. apply copy_to_run. by rewrite length_replicate.
  - split; [done|]. split; [done|]. split; [|rewrite !length_app, length_take, length_drop; lia].
    apply Forall_app. split; [by apply Forall_take|]. apply Forall_app. split; [done|by apply Forall_drop].
Qed.

(** ** Mutation *)

Definition grown (bytes : Octets) (k : nat) (bs : Octets) : Prop := octets_ok bs /\ (length bs <= length bytes + k)%nat.

Lemma mutate_at_quiet p bytes i a : agent_inv p a -> octets_ok bytes -> (i < length bytes)%nat ->
  quiet p (mutate_at bytes i) (grown bytes 1) a.
Proof.
  intros Hi Ho Hlt. unfold mutate_at. eapply quiet_bind; [by apply pick_quiet|]. cbn beta. intros n a1 Hi1 _ _.
  destruct n as [|[|[|n]]].
  - eapply quiet_bind; [by apply pick_quiet|]. cbn beta. intros bit a2 Hi2 _ _.
    destruct (lookup_lt_is_Some_2 _ _ Hlt) as [b Hb]. rewrite Hb. apply quiet_ret; [done|]. split; [|rewrite length_insert; lia].
    apply Forall_insert; [done|]. apply Toy.lxor_octet; [by eapply (Forall_lookup_1 byte_ok)|apply to_byte_ok].
  - eapply quiet_bind; [by apply byte_quiet|]. intros b a2 Hi2 _ Hb. eapply wp_eq; [by apply store_run|].
    split; [done|]. split; [done|]. split; [by apply Forall_insert|rewrite length_insert; lia].
  - apply quiet_ret; [done|]. rewrite resize_short by lia. split; [by apply Forall_take|rewrite length_take; lia].
  - eapply quiet_bind; [by apply byte_quiet|]. intros b a2 Hi2 _ Hb. apply quiet_ret; [done|]. split.
    + apply Forall_app. split; [by apply Forall_take|]. apply List.Forall_cons; [done|by apply Forall_drop].
    + rewrite length_app, length_take. cbn [length]. rewrite length_drop. lia.
Qed.

Lemma mutate_loop_quiet p ops bytes a : agent_inv p a -> octets_ok bytes ->
  quiet p (mutate_loop ops bytes) (grown bytes ops) a.
Proof.
  revert bytes a. induction ops as [|ops IH]; intros bytes a Hi Ho; cbn [mutate_loop].
  { apply quiet_ret; [done|]. split; [done|lia]. }
  case_bool_decide as Hne; [apply quiet_ret; [done|]; split; [done|lia]|].
  eapply quiet_bind; [by apply byte_quiet|]. intros high a1 Hi1 _ _. eapply quiet_bind; [by apply byte_quiet|].
  intros low a2 Hi2 _ _. eapply quiet_bind.
  { apply mutate_at_quiet; [done|done|]. apply Nat.mod_upper_bound. by destruct bytes. }
  intros bs a3 Hi3 _ [Hbo Hbl]. eapply quiet_mono; [by apply IH|]. intros out [H1 H2]. split; [done|lia].
Qed.

Lemma mutate_quiet p bytes a : agent_inv p a -> wire (2 ^ 25) bytes -> quiet p (mutate bytes) (wire (2 ^ 26)) a.
Proof.
  intros Hi [Ho Hl]. unfold mutate. eapply quiet_bind; [by apply pick_quiet|]. cbn beta. intros ops a1 Hi1 _ Hops.
  eapply quiet_mono; [by apply mutate_loop_quiet|]. intros out [H1 H2]. split; [done|lia].
Qed.

(** ** Replies *)

(** What answering does: [m] is remembered, where nothing was, and [n] datagrams are sent. *)
Record replied (n : nat) (m : gmap Z Seen) a a' : Prop := {
  rp_sent : exists out, a_sent a' = out ++ a_sent a /\ length out = n /\ Forall (fun x => wire (2 ^ 26) x.1) out;
  rp_seen : a_seen a' = a_seen a ∪ m }.

Lemma send_inv p bytes from a : agent_inv p a -> agent_inv p (with_sent ((bytes, from) :: a_sent a) a).
Proof. intros [? ? ? ? ? ? ?]. by split. Qed.

Section Loop.
Context {R : Type} (p : Profile) (ok ok' : R -> Prop) (rewrite_ : R -> M Agent R) (encode_ : R -> M Agent Octets)
  (resign_ : Octets -> R -> M Agent Octets).
Context (ok_ok' : forall r, ok r -> ok' r)
  (rewrite_quiet : forall r a, agent_inv p a -> ok r -> quiet p (rewrite_ r) ok' a)
  (encode_wire : forall r a, agent_inv p a -> ok' r -> quiet p (encode_ r) (wire (2 ^ 25)) a)
  (resign_wire : forall bs r a, agent_inv p a -> wire (2 ^ 26) bs -> quiet p (resign_ bs r) (wire (2 ^ 26)) a).

Lemma one_reply_quiet compliant choice a : agent_inv p a -> ok compliant ->
  quiet p (match choice mod 5 with
           | 0 => encode_ compliant
           | 1 => let! reply := rewrite_ compliant in encode_ reply
           | 2 => let! reply := rewrite_ compliant in let! bytes := encode_ reply in mutate bytes
           | 3 => let! reply := rewrite_ compliant in let! bytes := encode_ reply in
                  let! bytes := mutate bytes in resign_ bytes reply
           | _ => let! n := scripted Script.byte in scripted (Script.bytes (Z.to_nat n * 2))
           end) (wire (2 ^ 26)) a.
Proof.
  intros Hi Hr.
  assert (forall r a', agent_inv p a' -> ok' r -> quiet p (encode_ r) (wire (2 ^ 26)) a') as He.
  { intros r a' Hi' Hr'. eapply quiet_mono; [by apply encode_wire|]. intros bs [? ?]. split; [done|lia]. }
  assert (forall r a', agent_inv p a' -> ok' r -> quiet p (let! bytes := encode_ r in mutate bytes) (wire (2 ^ 26)) a') as Hm.
  { intros r a' Hi' Hr'. eapply quiet_bind; [by apply encode_wire|]. intros bs a2 Hi2 _ Hbs. by apply mutate_quiet. }
  assert (quiet p (let! n := scripted Script.byte in scripted (Script.bytes (Z.to_nat n * 2))) (wire (2 ^ 26)) a) as Hn.
  { eapply quiet_bind; [by apply byte_quiet|]. intros n a1 Hi1 _ Hb. eapply quiet_mono; [by apply bytes_quiet|].
    unfold byte_ok in Hb. intros bs [? ?]. split; [done|lia]. }
  destruct (choice mod 5) as [|[[|[]|]|[|[]|]|]|]; try done; [by apply He; auto|..];
    (eapply quiet_bind; [by apply rewrite_quiet|]; intros r a1 Hi1 _ Hr1).
  - eapply (quiet_bind _ _ _ (wire (2 ^ 25))); [by apply encode_wire|]. intros bs a2 Hi2 _ Hbs.
    eapply quiet_bind; [by apply mutate_quiet|]. intros bs' a3 Hi3 _ Hbs'. by apply resign_wire.
  - by apply Hm.
  - by apply He.
Qed.

Lemma reply_loop_spec n compliant a : agent_inv p a -> ok compliant ->
  wp (reply_loop n compliant rewrite_ encode_ resign_) (fun _ a' => agent_inv p a' /\ replied n ∅ a a') a.
Proof.
  intros Hi Hr. revert a Hi. induction n as [|n IH]; intros a Hi; cbn [reply_loop].
  { apply wp_ret. split; [done|]. split; [|by rewrite (right_id_L ∅ (∪))]. by exists []. }
  apply wp_bind. eapply wp_mono; [by apply byte_quiet|]. intros choice a1 (Hi1 & [F1 _ F3] & _).
  apply wp_bind. eapply wp_mono; [by apply one_reply_quiet|]. intros bytes a2 (Hi2 & [G1 _ G3] & Ho).
  apply wp_bind. eapply wp_eq; [done|]. eapply wp_mono; [by apply IH, send_inv|].
  intros [] a3 (Hi3 & [(out & S1 & S2 & S3) S4]). split; [done|]. split.
  - exists (out ++ [(bytes, Z.land choice 128 =? 0)]). cbn in S1. rewrite S1, G3, F3, <- app_assoc, length_app. cbn.
    split; [done|]. split; [lia|]. apply Forall_app. split; [done|]. by apply Forall_singleton.
  - cbn in S4. by rewrite G1, F1 in S4.
Qed.

End Loop.

Lemma replyCount_quiet p a : agent_inv p a -> quiet p replyCount (fun n => (n <= 3)%nat) a.
Proof.
  intros Hi. unfold replyCount. apply quiet_get. destruct (Script.exhausted _); [apply quiet_ret; [done|lia]|].
  eapply quiet_bind; [by apply byte_quiet|]. intros b a1 Hi1 _ _. apply quiet_ret; [done|].
  pose proof (Nat.mod_upper_bound (Z.to_nat b + 1) 4 ltac:(done)). lia.
Qed.

Lemma remember_spec p id sn a : agent_inv p a -> int32_ok id ->
  wp (remember id sn) (fun _ a' => agent_inv p a' /\ a_sent a' = a_sent a /\ a_script a' = a_script a /\
    a_seen a' = a_seen a ∪ {[id := sn]}) a.
Proof.
  intros [? ? ? ? Hs Hu Hid] Hok. unfold remember. eapply wp_eq; [done|]. destruct (a_seen a !! id) as [x|] eqn:E.
  - split; [by split|]. do 2 (split; [done|]). symmetry. apply map_eq. intros k. rewrite lookup_union. destruct (decide (id = k)) as [<-|Hne].
    + by rewrite E, union_Some_l.
    + rewrite lookup_singleton_ne by done. by rewrite (right_id_L None (∪)).
  - split; [split; [done..| | |]; cbn|].
    + intros id'. rewrite elem_of_app, list_elem_of_singleton, lookup_insert_is_Some, Hs.
      destruct (decide (id = id')) as [<-|Hne]; [rewrite E|]; split; naive_solver.
    + apply list.NoDup_app. split; [done|]. split; [|apply NoDup_singleton]. intros x Hx ->%list_elem_of_singleton.
      apply Hs in Hx as [y Hy]. congruence.
    + apply Forall_app. split; [done|]. by apply Forall_singleton.
    + do 2 (split; [done|]). by apply insert_union_singleton_r.
Qed.

(** What the compliant answer to a request can be encoded as. *)
Lemma respondTo_fits n pdu : Z.of_nat n <= 65535 -> taken n pdu -> fits (2 ^ 19) (respondTo pdu).
Proof.
  intros Hn [(H1 & _ & _ & _) Hw Hs]. destruct (echo_size (varbinds pdu) Hw ltac:(lia)) as (vs & He & Hl).
  split; [|exists vs; split; [exact He|lia]]. do 3 (split; [done|]). eapply Forall_impl; [|by apply echoed_wire]. apply wire_varbind_ok.
Qed.

Lemma replied_from n m a a1 a2 : a_sent a1 = a_sent a -> a_seen a1 = a_seen a ∪ m -> replied n ∅ a1 a2 -> replied n m a a2.
Proof. intros E Hs [Ho Hs2]. split; [by rewrite <- E|]. by rewrite Hs2, Hs, (right_id_L ∅ (∪)). Qed.

Lemma sendReplies_spec {R} p (ok ok' : R -> Prop) rewrite_ encode_ resign_ compliant a :
  (forall r, ok r -> ok' r) -> (forall r a, agent_inv p a -> ok r -> quiet p (rewrite_ r) ok' a) ->
  (forall r a, agent_inv p a -> ok' r -> quiet p (encode_ r) (wire (2 ^ 25)) a) ->
  (forall bs r a, agent_inv p a -> wire (2 ^ 26) bs -> quiet p (resign_ bs r) (wire (2 ^ 26)) a) ->
  agent_inv p a -> ok compliant ->
  wp (sendReplies compliant rewrite_ encode_ resign_) (fun _ a' => agent_inv p a' /\ exists n, (n <= 3)%nat /\ replied n ∅ a a') a.
Proof.
  intros H1 H2 H3 H4 Hi Hc. unfold sendReplies. apply wp_bind. eapply wp_mono; [by apply replyCount_quiet|].
  intros n a1 (Hi1 & [F1 _ F3] & Hn). eapply wp_mono; [by eapply reply_loop_spec|]. intros [] a2 (Hi2 & Hr).
  split; [done|]. exists n. split; [done|]. eapply replied_from; [done|by rewrite F1, (right_id_L ∅ (∪))|done].
Qed.

(** What every request comes to, and what is remembered of it. *)
Definition answers_safely p (m : M Agent unit) (seen : gmap Z Seen) a : Prop :=
  wp m (fun _ a' => agent_inv p a' /\ exists n, (n <= 3)%nat /\ replied n seen a a') a.

Lemma silent_safe p a : agent_inv p a -> answers_safely p (ret tt) ∅ a.
Proof.
  intros Hi. apply wp_ret. split; [done|]. exists 0%nat. split; [lia|]. split; [by exists []|by rewrite (right_id_L ∅ (∪))].
Qed.

Definition remembers_v2c (datagram : Octets) : gmap Z Seen :=
  match dec_whole p_v2c datagram with inr msg => {[requestId (v2c_pdu msg) := seenFrom (v2c_pdu msg)]} | inl _ => ∅ end.

Lemma answerV2c_safe p datagram a : agent_inv p a -> datagram_ok datagram -> answers_safely p (answerV2c datagram) (remembers_v2c datagram) a.
Proof.
  intros Hi [Ho Hl]. unfold answers_safely, answerV2c, remembers_v2c. apply wp_bind.
  eapply wp_eq; [apply decodeV2cMessage_spec; [done|lia]|]. destruct (dec_whole p_v2c datagram) as [e|msg] eqn:Ed.
  { by apply silent_safe. }
  destruct (v2c_taken datagram msg Ed Ho) as (Ht & Hco & Hcl). apply wp_bind.
  eapply wp_mono; [apply (remember_spec p); [done|apply Ht]|]. intros [] a1 (Hi1 & S1 & _ & S3).
  eapply wp_mono.
  { eapply (sendReplies_spec p (v2c_reply_ok (2 ^ 19)) (v2c_reply_ok (2 ^ 20))); [| | | |exact Hi1|].
    - intros r (H1 & H2 & H3). do 2 (split; [done|]). eapply fits_le; [|exact H3]. lia.
    - intros. by apply rewriteV2c_quiet.
    - intros. by apply encodeV2c_quiet.
    - intros. by apply quiet_ret.
    - split; [done|]. split; [cbn; lia|]. eapply respondTo_fits; [|exact Ht]. lia. }
  intros [] a2 (Hi2 & n & Hn & Hr). split; [done|]. exists n. split; [done|]. by eapply replied_from.
Qed.

(** ** SNMPv3 *)

(** What the Agent makes of a request: whether its digest is the user's, and what it says
    once it is opened. *)
Definition authentic p (datagram : Octets) (msg : V3Message) : bool :=
  if isAuthenticated (h_level (header msg)) then
    match verifyAuth ssl datagram msg (authProtocol (pr_creds p)) (k_auth (keys_at (pr_creds p) (u_engineId (security msg)))) tt with
    | Done (inr _) _ => true
    | _ => false
    end
  else false.

Definition opened p (msg : V3Message) : option V3Message :=
  if isEncrypted (h_level (header msg)) then
    match decryptScopedPdu ssl msg (privProtocol (pr_creds p)) (k_priv (keys_at (pr_creds p) (u_engineId (security msg)))) tt with
    | Done (inr msg') _ => Some msg'
    | _ => None
    end
  else Some msg.

(** What RFC 3414 has an Agent answer: a Report, or the Response. *)
Definition verdict p (msg : V3Message) (authenticated readable : bool) : option (Z * SecurityLevel) :=
  let usm := security msg in
  let authenticates := isAuthenticated (h_level (header msg)) in
  if negb readable then Some (decryptionErrors, NoAuthNoPriv)
  else if negb (bool_decide (u_engineId usm = m_engineId)) then Some (unknownEngineIds, NoAuthNoPriv)
  else if authenticates && negb (bool_decide (u_userName usm = userName (pr_creds p))) then Some (unknownUserNames, NoAuthNoPriv)
  else if authenticates && negb authenticated then Some (wrongDigests, NoAuthNoPriv)
  else if authenticates && negb ((u_boots usm =? m_boots) && (Z.abs (u_time usm - m_time) <=? timeWindow))
  then Some (notInTimeWindows, level (pr_creds p))
  else None.

Definition reply_to p (request : V3Message) (v : option (Z * SecurityLevel)) : V3Reply :=
  mkV3Reply
    (mkV3Header (msgId (header request)) defaultMaxMessageSize
       (match v with Some (_, l) => l | None => h_level (header request) end) false securityModelUsm)
    (mkUsmParameters m_engineId m_boots m_time (userName (pr_creds p)) [] [])
    (mkScopedPdu m_engineId []
       (match v with
        | Some (counter, _) => with_requestId (requestId (s_pdu (scoped request))) (usmReport counter)
        | None => respondTo (s_pdu (scoped request))
        end))
    (keys_at (pr_creds p) m_engineId) false false.

(** A request whose time, where it comes to be compared, can be. *)
Definition clocked p (request : V3Message) (authenticated readable : bool) : Prop :=
  readable = true -> u_engineId (security request) = m_engineId -> isAuthenticated (h_level (header request)) = true ->
  u_userName (security request) = userName (pr_creds p) -> authenticated = true -> u_boots (security request) = m_boots ->
  int32_ok (u_time (security request) - m_time) /\ int32_ok (Z.abs (u_time (security request) - m_time)).

Lemma verdictV3_run p request authenticated readable a : agent_inv p a ->
  (clocked p request authenticated readable ->
     verdictV3 request authenticated readable a = Done (verdict p request authenticated readable) a) /\
  (~ clocked p request authenticated readable -> verdictV3 request authenticated readable a = Undef).
Proof.
  intros Hi. unfold verdictV3, verdict, clocked. rewrite (bind_done _ _ a a a) by done. rewrite (ai_profile _ _ Hi).
  destruct readable; cbn [negb]; [|by split; [|intros []]].
  case_bool_decide as He; cbn [negb]; [|by split; [|intros []]]. destruct (isAuthenticated _); cbn [andb]; [|by split; [|intros []]].
  case_bool_decide as Hu; cbn [negb]; [|by split; [|intros []]]. destruct authenticated; cbn [negb]; [|by split; [|intros []]].
  destruct (Z.eqb_spec (u_boots (security request)) m_boots) as [Hb|Hb]; cbn [negb andb]; [|by split; [|intros []]].
  unfold outside_window. split; intros Hc.
  - rewrite decide_True by auto. unfold bind. cbn. by rewrite <- Z.ltb_antisym.
  - rewrite decide_False; [done|]. intros Hx. by apply Hc.
Qed.

Lemma compliantV3_run p request authenticated readable a : agent_inv p a ->
  (clocked p request authenticated readable ->
     compliantV3 request authenticated readable a = Done (reply_to p request (verdict p request authenticated readable)) a) /\
  (~ clocked p request authenticated readable -> compliantV3 request authenticated readable a = Undef).
Proof.
  intros Hi. destruct (verdictV3_run p request authenticated readable a Hi) as [H1 H2].
  unfold compliantV3. rewrite (bind_done _ _ a a a) by done. split; intros Hc; [|unfold bind; by rewrite H2].
  rewrite (bind_done _ _ _ _ _ (H1 Hc)). unfold reply_to. rewrite (ai_profile _ _ Hi), (ai_keys _ _ Hi).
  by destruct (verdict _ _ _ _) as [[counter l]|].
Qed.

(** What is remembered of an SNMPv3 request. *)
Definition seen_of (request : V3Message) (readable : bool) : Seen :=
  let s := if readable then seenFrom (s_pdu (scoped request)) else default_seen in
  mkSeen (owner s) (requestIndex s) (h_level (header request)) (u_engineId (security request)).

(** The request as it was read, and the answer to it. *)
Definition request_of p msg : V3Message := match opened p msg with Some request => request | None => msg end.
Definition readable p msg : bool := match opened p msg with Some _ => true | None => false end.
Definition compliant p datagram msg : V3Reply :=
  reply_to p (request_of p msg) (verdict p (request_of p msg) (authentic p datagram msg) (readable p msg)).

Lemma opened_run {S} p datagram msg (a : S) : datagram_ok datagram -> dec_v3 datagram = inr msg ->
  let priv := privProtocol (pr_creds p) in
  let key := k_priv (keys_at (pr_creds p) (u_engineId (security msg))) in
  exists r, (if isEncrypted (h_level (header msg)) then decryptScopedPdu ssl msg priv key else ret (inr msg)) a = Done r a /\
    match r with inr msg' => opened p msg = Some msg' | inl _ => opened p msg = None end /\
    header (request_of p msg) = header msg /\ security (request_of p msg) = security msg /\
    taken (length datagram) (s_pdu (scoped (request_of p msg))).
Proof.
  intros [Ho Hl] Hd priv key. destruct (dec_v3_wf datagram msg Hd Ho) as [Heo Hel].
  pose proof (v3_taken datagram msg Hd Ho) as Ht. unfold request_of, opened.
  destruct (isEncrypted _); [|by exists (inr msg)].
  destruct (decryptScopedPdu_total msg priv key a Heo ltac:(lia)) as (r & E & Hr). exists r. split; [done|].
  fold priv key. rewrite (decryptScopedPdu_state msg priv key r a tt Heo ltac:(lia) E).
  destruct r as [e|msg']; [done|]. do 3 (split; [apply Hr || done|]).
  eapply taken_le; [|by eapply decrypted_taken; [| |exact E]; [done|lia]]. lia.
Qed.

Lemma authentic_run {S} p datagram msg (a : S) : datagram_ok datagram -> dec_v3 datagram = inr msg ->
  (if isAuthenticated (h_level (header msg))
   then succeeds (verifyAuth ssl datagram msg (authProtocol (pr_creds p)) (k_auth (keys_at (pr_creds p) (u_engineId (security msg)))))
   else ret false) a = Done (authentic p datagram msg) a.
Proof.
  intros [Ho Hl] Hd. unfold authentic. destruct (isAuthenticated _); [|done]. set (auth := authProtocol _). set (key := k_auth _).
  destruct (verifyAuth_total datagram msg auth key a Ho ltac:(lia) Hd) as (r & E).
  unfold succeeds. rewrite (bind_done _ _ _ _ _ E). destruct (verifyAuth_total datagram msg auth key tt Ho ltac:(lia) Hd) as (r' & E').
  rewrite E'. destruct r as [|[]], r' as [|[]]; try done;
    [apply (verifyAuth_state _ _ _ _ tt a Ho ltac:(lia) Hd) in E'|apply (verifyAuth_state _ _ _ _ a tt Ho ltac:(lia) Hd) in E];
    congruence.
Qed.

Lemma verdict_counter p request authenticated readable counter l :
  verdict p request authenticated readable = Some (counter, l) -> 2 <= counter <= 6.
Proof.
  unfold verdict. do 5 (destruct (_ : bool); [by intros [= <- _]|]). done.
Qed.

Lemma usmReport_ok counter id : 2 <= counter <= 6 -> int32_ok id -> fits (2 ^ 19) (with_requestId id (usmReport counter)).
Proof.
  intros Hc Hid. apply fits_id; [done|]. apply (fits_le 100); [lia|].
  destruct (usmReport_fits (Z.to_nat counter) (usmReport counter) ltac:(lia)) as [H1 H2].
  - split; [done|]. split; [done|]. split; [done|]. apply Forall_singleton. split; [|by unfold value_ok, uint32_ok; cbn]. subids.
  - rewrite Z2Nat.id in H1, H2 by lia. by split.
Qed.

Lemma compliant_fits p datagram msg : profile_ok p -> datagram_ok datagram -> dec_v3 datagram = inr msg ->
  v3_reply_ok (2 ^ 19) (compliant p datagram msg).
Proof.
  intros [[Hu1 Hu2] _ _ _] [Ho Hl] Hd. destruct (opened_run p datagram msg tt (conj Ho Hl) Hd) as (r & _ & _ & Hh & Hs & Htk).
  destruct (dec_v3_parts datagram msg Hd Ho) as (cc & rest & [[Hid _] _ _ _ _]).
  assert (octets_ok m_engineId) as He by (apply (bool_decide_unpack _); vm_compute; exact I). split; cbn; try done.
  - split; [by rewrite Hh|done].
  - split; [done|]. split; [done|]. split; [done|]. split; [done|]. split; by apply Forall_nil.
  - destruct (verdict _ _ _ _) as [[counter l]|] eqn:Ev; [|by eapply respondTo_fits; [|exact Htk]; lia].
    apply usmReport_ok; [by eapply verdict_counter|apply Htk].
Qed.

(** Up to the reply: the request is read, and remembered. *)
Lemma answerV3_read p datagram msg a : profile_ok p -> agent_inv p a -> datagram_ok datagram -> dec_v3 datagram = inr msg ->
  exists a', answerV3 ssl datagram a =
      (let! reply := compliantV3 (request_of p msg) (authentic p datagram msg) (readable p msg) in
       sendReplies reply (fun reply => rewriteV3 ssl reply (request_of p msg)) (encode ssl) (resign ssl)) a' /\
    agent_inv p a' /\ a_sent a' = a_sent a /\ a_script a' = a_script a /\
    a_seen a' = a_seen a ∪ {[msgId (header msg) := seen_of (request_of p msg) (readable p msg)]}.
Proof.
  intros Hp Hi Hdg Hd. pose proof Hdg as [Ho Hl].
  unfold answerV3. rewrite (bind_done _ _ _ _ _ (decodeV3Message_run datagram a Ho ltac:(lia))), Hd.
  rewrite (bind_done _ _ a a a) by done. rewrite (ai_profile _ _ Hi).
  destruct (keysFor_run p a (u_engineId (security msg)) Hp (ai_cache _ _ Hi)) as (cache & E1 & Hc). rewrite (bind_done _ _ _ _ _ E1).
  destruct (with_cache_inv p cache a Hi Hc) as [Hi1 _].
  set (a1 := with_cache cache a) in *. rewrite (bind_done _ _ _ _ _ (authentic_run p datagram msg a1 Hdg Hd)).
  destruct (opened_run p datagram msg a1 Hdg Hd) as (r & Er & Hr & Hh & _ & _). rewrite (bind_done _ _ _ _ _ Er).
  assert (match r with inr m => m | inl _ => msg end = request_of p msg) as -> by (unfold request_of; destruct r; by rewrite Hr).
  assert (match r with inr _ => true | inl _ => false end = readable p msg) as -> by (unfold readable; destruct r; by rewrite Hr).
  destruct (dec_v3_parts datagram msg Hd Ho) as (cc & rest & [[Hid _] _ _ _ _]).
  change (mkSeen _ _ _ _) with (seen_of (request_of p msg) (readable p msg)). rewrite Hh.
  destruct (proj1 (wp_done _ _ _) (remember_spec p (msgId (header msg)) (seen_of (request_of p msg) (readable p msg)) a1 Hi1 Hid))
    as ([] & a2 & E2 & Hi2 & S1 & S2 & S3). rewrite (bind_done _ _ _ _ _ E2). exists a2. do 4 (split; [done|]). exact S3.
Qed.

Definition measured p (datagram : Octets) (msg : V3Message) : Prop :=
  clocked p (request_of p msg) (authentic p datagram msg) (readable p msg).

Definition remembers_v3 p (datagram : Octets) : gmap Z Seen :=
  match dec_v3 datagram with
  | inr msg => {[msgId (header msg) := seen_of (request_of p msg) (readable p msg)]}
  | inl _ => ∅
  end.

(** What the Agent remembers of a datagram: the identifier it carries, and whose it is. *)
Definition remembers p (datagram : Octets) : gmap Z Seen :=
  if bool_decide (pr_mode p = ModeV2c) then remembers_v2c datagram else remembers_v3 p datagram.

Lemma answerV3_safe p datagram a : profile_ok p -> agent_inv p a -> datagram_ok datagram ->
  (forall msg, dec_v3 datagram = inr msg -> measured p datagram msg) -> answers_safely p (answerV3 ssl datagram) (remembers_v3 p datagram) a.
Proof.
  intros Hp Hi Hdg Ht. pose proof Hdg as [Ho Hl]. unfold remembers_v3. destruct (dec_v3 datagram) as [e|msg] eqn:Ed.
  { unfold answers_safely, answerV3. apply wp_bind. eapply wp_eq; [apply decodeV3Message_run; [done|lia]|]. rewrite Ed. by apply silent_safe. }
  destruct (answerV3_read p datagram msg a Hp Hi Hdg Ed) as (a1 & E & Hi1 & S1 & _ & S2).
  unfold answers_safely, wp. rewrite E.
  rewrite (bind_done _ _ _ _ _ (proj1 (compliantV3_run p _ _ _ a1 Hi1) (Ht msg eq_refl))). fold (compliant p datagram msg).
  destruct (opened_run p datagram msg tt Hdg Ed) as (_ & _ & _ & _ & Hs & _).
  destruct (dec_v3_usm datagram msg Ed Ho) as (_ & _ & He1 & He2).
  eapply wp_mono.
  { eapply (sendReplies_spec p (v3_reply_ok (2 ^ 19)) (v3_reply_ok (2 ^ 20))); [| | | |exact Hi1|by apply compliant_fits].
    - intros r [H1 H2 H3 H4 H5]. split; [done..|]. eapply fits_le; [|exact H5]. lia.
    - intros r a' Hi' Hr. apply rewriteV3_quiet; [done..|]. rewrite Hs. split; [done|lia].
    - intros. by apply encode_quiet.
    - intros. by apply resign_quiet. }
  intros [] a6 (Hi6 & n & Hn & Hr). split; [done|]. exists n. split; [done|]. by eapply replied_from.
Qed.

Lemma answer_safe p datagram a : profile_ok p -> agent_inv p a -> datagram_ok datagram ->
  (pr_mode p <> ModeV2c -> forall msg, dec_v3 datagram = inr msg -> measured p datagram msg) -> answers_safely p (answer ssl datagram) (remembers p datagram) a.
Proof.
  intros Hp Hi Hd Ht. unfold answers_safely, answer, remembers. apply wp_bind. eapply wp_eq; [done|]. rewrite (ai_profile _ _ Hi).
  case_bool_decide; [by apply answerV2c_safe|]. apply answerV3_safe; auto.
Qed.

Lemma construct_run p script cache salt : profile_ok p -> octets_ok (Script.m_data script) -> cache_ok p cache ->
  exists a, construct ssl p script cache salt = Done tt a /\ agent_inv p a /\
    a_script a = script /\ a_sent a = [] /\ a_seen a = ∅.
Proof.
  intros Hp Ho Hc. unfold construct. set (a0 := mkAgent _ _ _ _ _ _ _ _).
  destruct (keysFor_run p a0 m_engineId Hp Hc) as (cache' & E & Hc'). rewrite (bind_done _ _ _ _ _ E).
  eexists. split; [done|]. split; [|done]. split; cbn; try done; [|apply NoDup_nil_2].
  intros id. rewrite lookup_empty. split; [by intros ?%not_elem_of_nil|by intros [? ?]].
Qed.

(** Requests one after the other. *)
Lemma serve_safe p datagrams a : profile_ok p -> agent_inv p a -> Forall datagram_ok datagrams ->
  (pr_mode p <> ModeV2c -> forall d msg, d ∈ datagrams -> dec_v3 d = inr msg -> measured p d msg) ->
  wp (serve ssl datagrams) (fun _ a' => agent_inv p a' /\ exists n, (n <= 3 * length datagrams)%nat /\ replied n (⋃ (remembers p <$> datagrams)) a a') a.
Proof.
  intros Hp. revert a. induction datagrams as [|d ds IH]; intros a Hi Hd Ht; cbn [serve].
  { apply wp_ret. split; [done|]. exists 0%nat. split; [lia|]. split; [by exists []|cbn; by rewrite (right_id_L ∅ (∪))]. }
  apply list.Forall_cons in Hd as [Hd Hds]. apply wp_bind. eapply wp_mono.
  { apply (answer_safe p d a Hp Hi Hd). intros Hm msg. apply Ht; [done|]. apply elem_of_cons. by left. }
  intros [] a1 (Hi1 & n & Hn & Hr). eapply wp_mono.
  { apply IH; [done..|]. intros Hm d' msg Hin. apply Ht; [done|]. apply elem_of_cons. by right. }
  intros [] a2 (Hi2 & n2 & Hn2 & Hr2). split; [done|]. exists (n + n2)%nat. cbn [length]. split; [lia|].
  destruct Hr as [(o1 & A1 & A2 & A3) A4], Hr2 as [(o2 & B1 & B2 & B3) B4]. split; [|cbn; by rewrite B4, A4, (assoc_L (∪))].
  exists (o2 ++ o1). rewrite B1, A1, app_assoc, length_app. split; [done|]. split; [lia|]. by apply Forall_app.
Qed.

Lemma answer_undef p datagram msg a : profile_ok p -> agent_inv p a -> pr_mode p <> ModeV2c -> datagram_ok datagram ->
  dec_v3 datagram = inr msg -> ~ measured p datagram msg -> answer ssl datagram a = Undef.
Proof.
  intros Hp Hi Hm Hdg Hd Hn. unfold answer. rewrite (bind_done _ _ a a a) by done.
  rewrite (ai_profile _ _ Hi), bool_decide_false by done.
  destruct (answerV3_read p datagram msg a Hp Hi Hdg Hd) as (a1 & -> & Hi1 & _).
  unfold bind. by rewrite (proj2 (compliantV3_run p _ _ _ a1 Hi1) Hn).
Qed.

(** ** With the script spent *)

Definition spent a : Prop := Script.exhausted (a_script a) = true.

Lemma spent_byte a : spent a -> scripted Script.byte a = Done 0 a.
Proof. intros Hs. unfold scripted, zoom, Script.byte, bind, get_st. rewrite Hs. by destruct a. Qed.

(** One reply, from the target, and the compliant one. *)
Lemma sendReplies_spent {R} (compliant : R) rewrite_ encode_ resign_ a : spent a ->
  sendReplies compliant rewrite_ encode_ resign_ a = (let! bytes := encode_ compliant in send bytes true) a.
Proof.
  intros Hs. unfold sendReplies, replyCount. rewrite (bind_done _ _ a 1%nat a).
  2: { unfold bind, get_st. by rewrite Hs. }
  cbn [reply_loop]. rewrite (bind_done _ _ _ _ _ (spent_byte a Hs)).
  change (0 mod 5) with 0. change (Z.land 0 128 =? 0) with true. cbn iota. unfold bind. by destruct (encode_ compliant a).
Qed.

(** The Agent after one more reply to one more request. *)
Record complied p id sn a out a' : Prop := {
  cp_inv : agent_inv p a';
  cp_spent : spent a';
  cp_sent : a_sent a' = (out, true) :: a_sent a;
  cp_seen : a_seen a' = a_seen a ∪ {[id := sn]} }.

Lemma answerV2c_spent p datagram msg a : agent_inv p a -> spent a -> pr_mode p = ModeV2c -> datagram_ok datagram ->
  dec_whole p_v2c datagram = inr msg ->
  exists out a', answer ssl datagram a = Done tt a' /\
    complied p (requestId (v2c_pdu msg)) (seenFrom (v2c_pdu msg)) a out a' /\
    enc_v2c (mkV2cMessage (v2c_community msg) (respondTo (v2c_pdu msg))) = Some out /\ octets_ok out /\ zlen out < 2 ^ 21.
Proof.
  intros Hi Hs Hm [Ho Hl] Hd. destruct (v2c_taken datagram msg Hd Ho) as (Ht & Hco & Hcl).
  pose proof (respondTo_fits (length datagram) (v2c_pdu msg) ltac:(lia) Ht) as Hf.
  pose proof (tk_ok _ _ Ht) as [Hid _].
  unfold answer. rewrite (bind_done _ _ a a a) by done. rewrite (ai_profile _ _ Hi), Hm, bool_decide_true by done.
  unfold answerV2c. rewrite (bind_done _ _ _ _ _ (decodeV2cMessage_spec datagram a Ho ltac:(lia))), Hd.
  destruct (proj1 (wp_done _ _ _) (remember_spec p (requestId (v2c_pdu msg)) (seenFrom (v2c_pdu msg)) a Hi Hid))
    as ([] & a1 & E1 & Hi1 & S1 & S2 & S3). rewrite (bind_done _ _ _ _ _ E1).
  rewrite sendReplies_spent by (unfold spent; by rewrite S2).
  assert (request_ok (respondTo (v2c_pdu msg))) as Hrq by (eapply fits_le; [|exact Hf]; lia).
  destruct (encode_v2c_step (requestId (v2c_pdu msg)) (v2c_community msg) (respondTo (v2c_pdu msg)) a1 Hrq Hid Hco ltac:(lia))
    as (out & E & He & Hlo).
  change (with_requestId (requestId (v2c_pdu msg)) (respondTo (v2c_pdu msg))) with (respondTo (v2c_pdu msg)) in E, He.
  exists out, (with_sent ((out, true) :: a_sent a1) a1). split.
  { unfold encodeV2c, or_empty. unfold bind. cbn [r2_community r2_pdu]. by rewrite E. }
  split; [split; [by apply send_inv|unfold spent; cbn; by rewrite S2|cbn; by rewrite S1|exact S3]|].
  split; [done|]. split; [|done].
  eapply (enc_v2c_octets (mkV2cMessage (v2c_community msg) (respondTo (v2c_pdu msg)))); [split; [done|apply Hf]|exact He|lia].
Qed.

(** The keys the Agent signs and encrypts with. *)
Definition sign_auth p : AuthProtocol := if bool_decide (authProtocol (pr_creds p) = AuthNone) then Sha1 else authProtocol (pr_creds p).
Definition sign_key p (keys : Keys) : Octets :=
  if bool_decide (k_auth keys = []) then replicate (Z.to_nat (keySize ssl (sign_auth p))) 0x5A else k_auth keys.
Definition seal_priv p : PrivProtocol := if bool_decide (privProtocol (pr_creds p) = PrivNone) then Aes128 else privProtocol (pr_creds p).
Definition seal_key p (keys : Keys) : Octets :=
  if bool_decide (k_priv keys = []) then replicate (privKeySize (seal_priv p)) 0xA5 else k_priv keys.

(** Derived or stood in for, the key fits the cipher. *)
Lemma seal_key_fits p eid : key_fits (seal_priv p) (seal_key p (keys_at (pr_creds p) eid)).
Proof.
  split; [unfold seal_priv; by case_bool_decide|]. unfold seal_key.
  case_bool_decide as Hk; [by rewrite length_replicate|]. revert Hk. unfold keys_at. destruct (negb _ || _); [done|].
  cbn [derived_keys k_priv]. unfold seal_priv. case_bool_decide; [done|].
  destruct (derived_priv _ _ _ _) as [|key] eqn:E; [done|]. cbn. intros _. by rewrite (derived_priv_length _ _ _ _ _ E).
Qed.

(** What a receiver with the Agent's keys reads in an encoded reply. *)
Record conveys {T} (t : T) p (r : V3Reply) (out : Octets) (msg : V3Message) : Prop := {
  cv_decodes : dec_v3 out = inr msg;
  cv_header : header msg = r_header r;
  cv_security : security msg = with_params (r_usm r) (u_authParams (security msg)) (u_privParams (security msg));
  cv_digest : isAuthenticated (h_level (header msg)) = true ->
    verifyAuth ssl out msg (sign_auth p) (sign_key p (r_keys r)) t = Done (inr tt) t;
  cv_scoped : if isEncrypted (h_level (header msg))
    then exists msg', decryptScopedPdu ssl msg (seal_priv p) (seal_key p (r_keys r)) t = Done (inr msg') t /\
      scoped msg' = r_scoped r /\ header msg' = header msg /\ security msg' = security msg
    else scoped msg = r_scoped r }.

Lemma encode_clean {T} (t : T) p r a eid : agent_inv p a -> v3_reply_ok (2 ^ 20) r ->
  r_keys r = keys_at (pr_creds p) eid -> corruptAuth r = false -> corruptPriv r = false ->
  (isEncrypted (h_level (r_header r)) = true -> seal_priv p = Des -> OSSL_PROVIDER_load ssl = true) ->
  exists out salt msg, encode ssl r a = Done out (with_a_salt salt a) /\ octets_ok out /\ conveys t p r out msg /\
    forall vs, enc_varbinds (varbinds (s_pdu (r_scoped r))) = Some vs ->
      zlen out <= zlen vs + zlen (u_engineId (r_usm r)) + zlen (u_userName (r_usm r)) + 300.
Proof.
  intros Hi Hr Hk Hca Hcp Hdes. destruct (reply_scoped _ _ ltac:(done) Hr) as [Hs (sc & vs & He & Hvs & Hsz & Hl)].
  pose proof Hr as [Hh Hu (Hs1 & Hs2 & Hs3) _ _].
  destruct (encoded_decodes (r_header r) (r_usm r) (r_scoped r) (sign_auth p) (sign_key p (r_keys r)) (seal_priv p)
    (seal_key p (r_keys r)) sc (a_salt a) t Hh Hu Hs He) as (out & salt & msg & E & Ho & Hlo & Hd & H1 & H2 & H3 & H4).
  - rewrite Hs3. cbn [length]. lia.
  - intros _. apply stand_in_auth.
  - intros He'. split; [rewrite Hk; apply seal_key_fits|by apply Hdes].
  - exists out, salt, msg. split.
    { unfold encode. rewrite (bind_done _ _ a a a) by done. rewrite Hca, Hcp, (ai_profile _ _ Hi).
      rewrite !(bind_done (ret _) _ a _ a eq_refl). unfold or_empty, salted, zoom, bind.
      fold (sign_auth p) (seal_priv p). fold (sign_key p (r_keys r)) (seal_key p (r_keys r)). by rewrite E. }
    split; [done|]. split; cycle 1.
    { intros vs' Hvs'. rewrite Hs3 in Hlo. assert (vs' = vs) as -> by congruence. change (zlen m_engineId) with 8 in Hsz. cbn [length] in Hlo. lia. }
    split; [done..| |]; rewrite H1; [done|]. destruct (isEncrypted _); [|apply H4].
    destruct H4 as (_ & msg' & H4 & H5). exists msg'. split; [done|]. split; [done|].
    rewrite <- H1. by eapply decryptScopedPdu_keeps.
Qed.
Lemma answerV3_spent {T} (t : T) p datagram msg a : profile_ok p -> agent_inv p a -> spent a -> pr_mode p <> ModeV2c ->
  datagram_ok datagram -> dec_v3 datagram = inr msg -> measured p datagram msg ->
  (isEncrypted (h_level (r_header (compliant p datagram msg))) = true -> seal_priv p = Des -> OSSL_PROVIDER_load ssl = true) ->
  exists out a' raw, answer ssl datagram a = Done tt a' /\
    complied p (msgId (header msg)) (seen_of (request_of p msg) (readable p msg)) a out a' /\
    octets_ok out /\ conveys t p (compliant p datagram msg) out raw /\
    forall vs, enc_varbinds (varbinds (s_pdu (r_scoped (compliant p datagram msg)))) = Some vs ->
      zlen out <= zlen vs + zlen m_engineId + zlen (userName (pr_creds p)) + 300.
Proof.
  intros Hp Hi Hs Hm Hdg Hd Ht Hdes. unfold answer. rewrite (bind_done _ _ a a a) by done.
  rewrite (ai_profile _ _ Hi), bool_decide_false by done.
  destruct (answerV3_read p datagram msg a Hp Hi Hdg Hd) as (a1 & -> & Hi1 & S1 & S2 & S3).
  rewrite (bind_done _ _ _ _ _ (proj1 (compliantV3_run p _ _ _ a1 Hi1) Ht)). fold (compliant p datagram msg).
  rewrite sendReplies_spent by (unfold spent; by rewrite S2).
  assert (v3_reply_ok (2 ^ 20) (compliant p datagram msg)) as Hr.
  { destruct (compliant_fits p datagram msg Hp Hdg Hd) as [H1 H2 H3 H4 H5]. split; [done..|]. eapply fits_le; [|exact H5]. lia. }
  destruct (encode_clean t p (compliant p datagram msg) a1 m_engineId Hi1 Hr eq_refl eq_refl eq_refl Hdes)
    as (out & salt & raw & E3 & Hoo & Hc).
  rewrite (bind_done _ _ _ _ _ E3). eexists out, _, raw. split; [done|]. split; [|done].
  assert (agent_inv p (with_a_salt salt a1)) as Hi3 by (destruct Hi1; by split).
  split; [by apply send_inv|unfold spent; cbn; by rewrite S2|cbn; by rewrite S1|exact S3].
Qed.

(** ** Properties *)

Lemma constructed_serves p script cache salt datagrams : profile_ok p -> octets_ok script -> cache_ok p cache ->
  Forall datagram_ok datagrams ->
  (pr_mode p <> ModeV2c -> forall d msg, d ∈ datagrams -> dec_v3 d = inr msg -> measured p d msg) ->
  exists a a', construct ssl p (Script.new script) cache salt = Done tt a /\ serve ssl datagrams a = Done tt a' /\
    agent_inv p a' /\ (length (a_sent a') <= 3 * length datagrams)%nat /\ Forall (fun x => wire (2 ^ 26) x.1) (a_sent a') /\
    a_seen a' = ⋃ (remembers p <$> datagrams).
Proof.
  intros Hp Ho Hc Hd Ht. destruct (construct_run p (Script.new script) cache salt Hp Ho Hc) as (a & E & Hi & _ & Hs & Hse).
  destruct (proj1 (wp_done _ _ _) (serve_safe p datagrams a Hp Hi Hd Ht)) as ([] & a' & E' & Hi' & n & Hn & [(out & S1 & S2 & S3) S4]).
  rewrite Hs, app_nil_r in S1. rewrite Hse, (left_id_L ∅ (∪)) in S4. exists a, a'. do 3 (split; [done|]). rewrite S1. by split; [lia|].
Qed.

(** C25: Whatever the fuzzer's input, its Agent answers.  Constructed from any script and a
    key cache that holds what would be derived, and then given any datagrams one after the
    other, the Agent runs to the end without undefined behaviour, sends at most three
    datagrams for each it gets, none of 2^26 octets or more, and has seen each identifier
    in the first datagram that carries it, with the owner that datagram names; at SNMPv3, as long as no authenticated request of its own user that carries its own
    engineID and boots has a time too far from its clock for an [int]. *)
Theorem agent_answers p script cache salt datagrams : profile_ok p -> octets_ok script -> cache_ok p cache ->
  Forall datagram_ok datagrams ->
  (pr_mode p <> ModeV2c -> forall d msg, d ∈ datagrams -> dec_v3 d = inr msg -> measured p d msg) ->
  exists a a', construct ssl p (Script.new script) cache salt = Done tt a /\ serve ssl datagrams a = Done tt a' /\
    agent_inv p a' /\ (length (a_sent a') <= 3 * length datagrams)%nat /\ Forall (fun x => wire (2 ^ 26) x.1) (a_sent a') /\
    a_seen a' = ⋃ (remembers p <$> datagrams).
Proof. apply constructed_serves. Qed.

(** The Agent's comparison of clocks overflows.  A request of its own user, with a digest
    that verifies, for its own engineID and its own boots, and a time of -2147482648 or less
    makes [std::abs(usm.time - m_time)] undefined, whatever else is in it. *)
Theorem agent_overflows p datagram msg a : profile_ok p -> agent_inv p a -> pr_mode p <> ModeV2c -> datagram_ok datagram ->
  dec_v3 datagram = inr msg -> readable p msg = true -> authentic p datagram msg = true ->
  u_engineId (security msg) = m_engineId -> u_userName (security msg) = userName (pr_creds p) ->
  u_boots (security msg) = m_boots -> u_time (security msg) <= -2147482648 -> answer ssl datagram a = Undef.
Proof.
  intros Hp Hi Hm Hdg Hd Hr Ha He Hu Hb Ht. eapply (answer_undef p datagram msg); [done..|].
  destruct (opened_run p datagram msg tt Hdg Hd) as (_ & _ & _ & Hh & Hs & _).
  assert (isAuthenticated (h_level (header msg)) = true) as Hau by (revert Ha; unfold authentic; by destruct (isAuthenticated _)).
  unfold measured, clocked. rewrite Hr, Ha, Hh, Hs. intros Hx. specialize (Hx eq_refl He Hau Hu eq_refl Hb) as [_ Hx].
  unfold int32_ok, m_time in Hx. lia.
Qed.

(** The Agent's static key cache is transparent.  Whether it hits, misses or has just been
    cleared at its bound of 256 entries, [keysFor] gives the keys that would be derived for
    that engineID, none at a level that does not authenticate, and leaves a cache of which
    the same holds. *)
Theorem keysFor_derives p engineId a : profile_ok p -> cache_ok p (a_cache a) ->
  exists cache, keysFor ssl (pr_creds p) engineId a = Done (keys_at (pr_creds p) engineId) (with_cache cache a) /\ cache_ok p cache.
Proof. apply keysFor_run. Qed.

End AgentTheory.
