(* ===== verification/Composition.v ===== *)
(** * Composition: a Client and an Agent

    The Client of [Operations] and the Agent of [Agent], with its script spent, talking to
    each other: what the Client sends the Agent reads and answers, and what the Agent sends
    the Client accepts as the answer. *)

From stdpp Require Import gmap relations.
From S2P Require Import Prelude Errors Oids Values Ber BerWriter BerReader BerRoundtrip Pdu Usm V3Message Echo Client Engines Coroutine Strand Exchange Requests Walk System Liveness Operations Runs Agent AgentTheory.

Section Composition.
Context {Endpoint : Type} `{Countable Endpoint} {net : Net Endpoint} {ssl : OpenSSL} {L : OpenSSLLaws ssl}.
Local Notation client := (Client (Endpoint := Endpoint)).
Local Notation pending := (Pending (Endpoint := Endpoint)).
Local Notation Co := (Co (Endpoint := Endpoint)).
Local Notation Target := (Target (Endpoint := Endpoint)).
Local Notation Obs := (Obs (Endpoint := Endpoint)).
Local Notation System := (System (Endpoint := Endpoint)).
Local Notation agent_inv := (agent_inv (ssl := ssl)).
Implicit Types (c : client) (o : op) (s : System) (target : Target) (a : Agent) (p : Profile).

(** ** Dialogues *)

(** Where a datagram comes from that the Agent sends from its second socket. *)
Context (stranger : Endpoint).

(** What the Agent sent between two of its states, in order. *)
Definition replies_between (a a' : Agent) : list (Octets * bool) := rev (take (length (a_sent a') - length (a_sent a)) (a_sent a')).

(** The datagram that an operation sends reaches the Agent; its replies arrive; and the
    operation goes on. *)
Definition talk (o : op) (x : System * Agent) : option (System * Agent) :=
  match s_tasks x.1 !! o with
  | Some (Suspended _ _ (CoSend to datagram _) _) =>
      match answer ssl datagram x.2 with
      | Done tt a' =>
          let deliveries := map (fun r : Octets * bool => Deliver r.1 (if r.2 then to else stranger)) (replies_between x.2 a') in
          match drive ssl fair (Resume o :: deliveries ++ [Resume o]) x.1 with
          | Some s' => Some (s', a')
          | None => None
          end
      | _ => None
      end
  | _ => None
  end.

Inductive Turn : Type := Do (m : Move (Endpoint := Endpoint)) | Talk (o : op).

Definition turn (x : System * Agent) (t : Turn) : option (System * Agent) :=
  match t with
  | Do m => match move ssl fair x.1 m with Some s' => Some (s', x.2) | None => None end
  | Talk o => talk o x
  end.

Fixpoint converse (ts : list Turn) (x : System * Agent) : option (System * Agent) :=
  match ts with
  | [] => Some x
  | t :: ts => match turn x t with Some x => converse ts x | None => None end
  end.

Lemma converse_app ts1 ts2 x y : converse ts1 x = Some y -> converse (ts1 ++ ts2) x = converse ts2 y.
Proof. revert x. induction ts1 as [|t ts1 IH]; intros x; cbn [converse app]; [by intros [= ->]|]. destruct (turn x t); [apply IH|done]. Qed.

Lemma converse_do m ts s s' a : move ssl fair s m = Some s' -> converse (Do m :: ts) (s, a) = converse ts (s', a).
Proof. intros M. cbn [converse turn fst snd]. by rewrite M. Qed.

(** One reply, from where it was asked. *)
Lemma converse_talk o ts s s' a a' call start to datagram k seen reply :
  s_tasks s !! o = Some (Suspended call start (CoSend to datagram k) seen) -> answer ssl datagram a = Done tt a' ->
  a_sent a' = (reply, true) :: a_sent a -> drive ssl fair [Resume o; Deliver reply to; Resume o] s = Some s' ->
  converse (Talk o :: ts) (s, a) = converse ts (s', a').
Proof.
  intros Ho Ea Hs D. cbn [converse turn]. unfold talk. cbn [fst snd]. rewrite Ho, Ea.
  assert (replies_between a a' = [(reply, true)]) as ->.
  { unfold replies_between. rewrite Hs. cbn [length]. replace (S (length (a_sent a)) - length (a_sent a))%nat with 1%nat by lia. done. }
  cbn [map app fst snd]. by rewrite D.
Qed.

(** ** A v2c request *)

(** A v2c message that fits a datagram. *)
Definition carried (msg : V2cMessage) : Prop := exists out, enc_v2c msg = Some out /\ zlen out <= 65535.

(** The Pending of a v2c request, and the rest of the request once its exchange is over. *)
Definition v2c_pending target (community : cstring) (id : Z) : pending :=
  with_community community (blank_pending (endpoint target) id).

Definition after_v2c (l : loc) (co : Co ErrorCode) : Co Answer :=
  (let* r := (let* ec := co in
              if is_error ec then CoRet (ec, empty_response)
              else let^ pending := load l in CoRet (toResult (p_response pending))) in
   CoRet (RequestResult r))%co.

#[local] Instance after_v2c_context l : Context (after_v2c l).
Proof. apply (context_comp (fun co => co_bind co _) (fun co => co_bind co _)); apply context_bind. Qed.

Lemma v2c_begins o target community pdu c : ginv (ssl := ssl) c -> m_stopping c = false ->
  socket_of (is_v6 (endpoint target)) c <> SocketClosed -> 0 <= retries target -> m_pending c !! m_nextId c = None ->
  request_ok pdu -> octets_ok community -> zlen community <= 65535 ->
  exists datagram l c1,
    run fair (body ssl o (CallRequest target (AuthCommunity community) pdu)) c =
      Some ([], CoSend (endpoint target) datagram
                  (fun ec => after_v2c l (to_the_end o (m_nextId c) l (sent o target datagram l (rounds target) ec))), c1) /\
    enc_v2c (mkV2cMessage community (with_requestId (m_nextId c) pdu)) = Some datagram /\
    waits o target (m_nextId c) l (v2c_pending target community (m_nextId c)) c1.
Proof.
  intros Hi Hs Hso Hr Hf Hp Hc Hcl. destruct (inv_nextId _ (ginv_client _ Hi)) as [N1 N2].
  cbn [body doRequest]. unfold doRequestV2c, after_v2c. rewrite run_bind, (run_then _ _ _ _ (m_stopping c) c) by done.
  rewrite Hs. cbn iota. set (c1 := with_cancelled (<[o := 0]> (m_cancelled c)) c). rewrite (run_then _ _ _ _ tt c1) by done.
  set (id := m_nextId c). set (c2 := with_nextId (if m_nextId c1 =? 2147483647 then 1 else m_nextId c1 + 1) c1).
  rewrite (run_then _ _ _ _ id c2) by done.
  destruct (encode_v2c_step id community pdu c2 Hp ltac:(unfold int32_ok; lia) Hc Hcl) as (out & E & He & _).
  rewrite (run_then _ _ _ _ _ _ E). set (l := (o, fresh (set_map (D := gset nat) snd (dom (m_heap c2))))).
  set (c3 := updated c2 l (v2c_pending target community id)).
  rewrite (run_then _ _ _ _ l c3), run_bind, (transact_begins o target out id l c3 Hs Hr Hf) by done.
  exists out, l, (with_entry target id l c3). split; [done|]. split; [done|].
  apply with_entry_waits; [by apply lookup_insert_eq|done| |done]. unfold cancelled. cbn. by rewrite lookup_insert_eq.
Qed.

(** A reply that is in time. *)
Lemma v2c_received o target community id l c reply response :
  let q := v2c_pending target community id in
  let c2 := asleep target l c q in
  client_inv c2 -> waits o target id l q c ->
  octets_ok community -> pdu_ok response -> pdu_type response = Response -> requestId response = id ->
  enc_v2c (mkV2cMessage community response) = Some reply -> zlen reply <= 65535 ->
  arrive ssl reply (endpoint target) c2 =
    Done tt (updated (with_received ((reply, endpoint target) :: m_received c) c2) l
               (answered_by target q (p_security q) response (p_replyAuthenticated q) c)).
Proof.
  intros q c2 Hi [W1 W2 _ _ _] Hc Hp Ht Hid He Hl. set (msg := mkV2cMessage community response) in *.
  assert (octets_ok reply) as Ho by (eapply (enc_v2c_octets msg); [by split|done|lia]).
  assert (dec_whole p_v2c reply = inr msg) as Hd by exact (codec_whole _ _ _ msg _ v2c_codec (conj Hc Hp) He ltac:(lia)).
  unfold arrive. set (c3 := with_received ((reply, endpoint target) :: m_received c) c2). rewrite (bind_done _ _ c2 tt c3) by done.
  unfold receive. rewrite (bind_done _ _ _ _ _ (v2c_version reply msg c3 Ho ltac:(lia) Hd)).
  change (versionV2c =? versionV2c) with true. cbn iota.
  set (q2 := with_waiting Slotted false (m_now c + timeout target * 1000000) q).
  assert (m_heap c3 !! l = Some q2) as Hq2 by (by apply lookup_insert_eq).
  assert (accepts_v2c c3 reply (endpoint target) l q2 msg) as Ha by (split; [done|done|by cbn; rewrite Hid|done..]).
  assert (client_inv c3) as Hi3 by (destruct Hi; by split).
  destruct (deliverV2c_run c3 reply (endpoint target) (conj Ho Hl) Hi3) as [[_ Hn]|(l' & q' & msg' & Ha' & E)]; [by destruct (Hn l q2 msg)|].
  rewrite E. destruct Ha as [A1 _ A3 A4 _ _ _], Ha' as [B1 _ B3 B4 _ _ _].
  assert (msg' = msg) as -> by congruence. assert (l' = l) as -> by congruence. by assert (q' = q2) as -> by congruence.
Qed.

(** The compliant Agent's answer to a v2c message. *)
Definition v2c_answer (community : cstring) (pdu : Pdu) : V2cMessage := mkV2cMessage community (respondTo pdu).

(** The Agent's side of it. *)
Lemma v2c_asked p a community asked datagram : agent_inv p a -> spent a -> pr_mode p = ModeV2c ->
  octets_ok community -> pdu_ok asked -> enc_v2c (mkV2cMessage community asked) = Some datagram -> zlen datagram <= 65535 ->
  pdu_ok (respondTo asked) /\ exists reply a', answer ssl datagram a = Done tt a' /\
    complied (ssl := ssl) p (requestId asked) (seenFrom asked) a reply a' /\ enc_v2c (v2c_answer community asked) = Some reply.
Proof.
  intros Ha Hsp Hm Hc Hp He Hl. set (m := mkV2cMessage community asked) in *.
  assert (octets_ok datagram) as Ho by (eapply (enc_v2c_octets m); [by split|done|lia]).
  assert (dec_whole p_v2c datagram = inr m) as Hd by exact (codec_whole _ _ _ m _ v2c_codec (conj Hc Hp) He ltac:(lia)).
  destruct (v2c_taken datagram m Hd Ho) as [Htk _]. split; [by destruct (respondTo_fits (length datagram) _ ltac:(lia) Htk)|].
  destruct (answerV2c_spent p datagram m a Ha Hsp Hm (conj Ho Hl) Hd) as (reply & a' & Ea & Hcp & Her & _). by exists reply, a'.
Qed.

Lemma v2c_served c ts o target community pdu p a : sys_inv (ssl := ssl) (mkSystem c ts) ->
  let call := CallRequest target (AuthCommunity community) pdu in
  let asked := with_requestId (m_nextId c) pdu in
  ts !! o = Some (Queued call) -> m_stopping c = false ->
  socket_of (is_v6 (endpoint target)) c <> SocketClosed -> 0 <= retries target -> m_pending c !! m_nextId c = None ->
  agent_inv p a -> spent a -> pr_mode p = ModeV2c ->
  carried (mkV2cMessage community asked) -> carried (v2c_answer community asked) ->
  exists s' a' seen, converse [Do (Begin o); Talk o] (mkSystem c ts, a) = Some (s', a') /\
    s_tasks s' !! o = Some (Finished call c (RequestResult (no_error, mkResponse (echoed (varbinds pdu)) 0)) seen).
Proof.
  intros Hi call asked Ho Hs Hso Hr Hf Ha Hsp Hm (d & Hd & Hl) (reply & Hr0 & Hlr).
  pose proof (si_client _ Hi) as Hg. cbn in Hg. destruct (si_tasks _ Hi _ _ Ho) as ([Hc1 Hc2] & Hp & Ht).
  assert (int32_ok (m_nextId c)) as Hid by (destruct (inv_nextId _ (ginv_client _ Hg)); unfold int32_ok; lia).
  assert (request_ok pdu) as Hp'.
  { apply request_given_ok; [done|]. intros Hn. revert Hd. unfold enc_v2c, enc_pdu. cbn [v2c_pdu varbinds with_requestId asked].
    unfold unencodable in Hn. by rewrite Hn. }
  assert (pdu_ok asked) as Hpa by (destruct Hp as [(_ & P1 & P2 & P3) _]; exact (conj Hid (conj P1 (conj P2 P3)))).
  destruct (v2c_begins o target community pdu c Hg Hs Hso Hr Hf Hp' Hc1 Hc2) as (d' & l & c1 & E1 & He & W).
  fold call in E1. fold asked in He. assert (d' = d) as -> by congruence.
  destruct (v2c_asked p a community asked d Ha Hsp Hm Hc1 Hpa He Hl) as (Hpr & reply' & a' & Ea & [_ _ Hsent _] & Her).
  assert (reply' = reply) as -> by congruence. set (q := v2c_pending target community (m_nextId c)) in *.
  match type of E1 with _ = Some (_, ?x, _) => set (co := x) in E1 end.
  assert (move ssl fair (mkSystem c ts) (Begin o) = Some (mkSystem c1 (<[o := Suspended call c co []]> ts))) as M1
    by (cbn [move s_tasks s_client]; by rewrite Ho, E1).
  assert (client_inv c1) as Hi1 by exact (ginv_client _ (si_client _ (move_inv _ (Begin o) _ _ I M1 Hi))).
  pose proof (v2c_received o target community (m_nextId c) l c1 reply (respondTo asked) (asleep_inv _ _ _ _ Hi1) W
    Hc1 Hpr eq_refl eq_refl Her Hlr) as Earr. fold q in Earr.
  eexists _, a', _. split.
  - rewrite (converse_do _ _ _ _ _ M1). erewrite (converse_talk o [] _ _ a a'); [reflexivity|by apply lookup_insert_eq|exact Ea|exact Hsent|].
    eapply (round_trip o target d (m_nextId c) l (after_v2c l)); [exact W|by apply lookup_insert_eq|exact Earr|].
    unfold after_v2c. rewrite run_bind, run_bind. cbn [run]. change (is_error no_error) with false. cbn iota.
    by rewrite (run_then _ _ _ _ _ _ (served_answer _ _ _ _ _ _ _ _ _)).
  - by apply lookup_insert_eq.
Qed.

(** C3: A v2c request and a compliant Agent understand each other.  From any reachable state
    in which the request is queued, the Client is not stopping and the identifier it draws
    is free, and whatever the Agent has seen before: the request sends its datagram, the
    Agent answers it, and the request succeeds with exactly the names it asked for, each
    with the Agent's value, if the two messages fit a datagram. *)
Theorem v2c_request_served s o target community pdu p a : reachable ssl s ->
  let c := s_client s in
  let call := CallRequest target (AuthCommunity community) pdu in
  let asked := with_requestId (m_nextId c) pdu in
  s_tasks s !! o = Some (Queued call) -> m_stopping c = false ->
  socket_of (is_v6 (endpoint target)) c <> SocketClosed -> 0 <= retries target -> m_pending c !! m_nextId c = None ->
  agent_inv p a -> spent a -> pr_mode p = ModeV2c ->
  carried (mkV2cMessage community asked) -> carried (v2c_answer community asked) ->
  exists s' a' seen, converse [Do (Begin o); Talk o] (s, a) = Some (s', a') /\
    s_tasks s' !! o = Some (Finished call c (RequestResult (no_error, mkResponse (echoed (varbinds pdu)) 0)) seen).
Proof. intros Hr. destruct s as [c ts]. apply v2c_served, reachable_inv, Hr. Qed.

End Composition.
