(* ===== verification/V3Composition.v ===== *)
(** * V3Composition: a Client and an Agent, over SNMPv3

    The exchanges of an SNMPv3 request with the Agent of [Agent], its script spent, that
    knows the same user: the discovery of its Engine, the synchronisation with its clock and
    the request itself. *)

From stdpp Require Import gmap relations.
From S2P Require Import Prelude Errors Oids Values Ber BerWriter BerReader BerRoundtrip Pdu Usm V3Message Echo Client Engines Coroutine Strand Exchange Requests Walk System Liveness Operations Runs Agent AgentTheory Composition.

Section V3Composition.
Context {Endpoint : Type} `{Countable Endpoint} {net : Net Endpoint} {ssl : OpenSSL} {L : OpenSSLLaws ssl}.
Local Notation client := (Client (Endpoint := Endpoint)).
Local Notation pending := (Pending (Endpoint := Endpoint)).
Local Notation Co := (Co (Endpoint := Endpoint)).
Local Notation Target := (Target (Endpoint := Endpoint)).
Local Notation Obs := (Obs (Endpoint := Endpoint)).
Local Notation agent_inv := (agent_inv (ssl := ssl)).
Local Notation keys_at := (keys_at (ssl := ssl)).
Implicit Types (c : client) (o : op) (target : Target) (a : Agent) (p : Profile).

(** ** What the Agent reads *)

(** Protocols and keys for a message at a level, where it needs them: the user's. *)
Definition suits p (l : SecurityLevel) (engineId : Octets) (auth : AuthProtocol) (key : Octets) (priv : PrivProtocol)
    (pkey : Octets) : Prop :=
  (isAuthenticated l = true -> auth = authProtocol (pr_creds p) /\ auth <> AuthNone /\ key = k_auth (keys_at (pr_creds p) engineId)) /\
  (isEncrypted l = true -> priv = privProtocol (pr_creds p) /\ pkey = k_priv (keys_at (pr_creds p) engineId) /\
     key_fits priv pkey /\ (priv = Des -> OSSL_PROVIDER_load ssl = true)).

(** The Agent reads a message the way it was meant. *)
Record reads p (h : V3Header) (u : UsmParameters) (s : ScopedPdu) (datagram : Octets) (msg : V3Message) : Prop := {
  rd_octets : octets_ok datagram;
  rd_decodes : dec_v3 datagram = inr msg;
  rd_msgId : header msg = h;
  rd_header : header (request_of (ssl := ssl) p msg) = h;
  rd_security : exists x y, security (request_of (ssl := ssl) p msg) = with_params u x y;
  rd_scoped : scoped (request_of (ssl := ssl) p msg) = s;
  rd_authentic : authentic (ssl := ssl) p datagram msg = isAuthenticated (h_level h);
  rd_readable : readable (ssl := ssl) p msg = true }.

Lemma encode_reads p h u s auth key priv pkey sc salt :
  header_ok h -> usm_ok u -> scoped_ok s -> enc_scoped s = Some sc ->
  zlen sc + zlen (u_engineId u) + zlen (u_userName u) + zlen (u_privParams u) < 2 ^ 24 ->
  suits p (h_level h) (u_engineId u) auth key priv pkey ->
  exists datagram salt' msg, encodeV3Message ssl h u s auth key priv pkey salt = Done (inr datagram) salt' /\
    zlen datagram <= zlen sc + zlen (u_engineId u) + zlen (u_userName u) + zlen (u_privParams u) + 208 /\
    reads p h u s datagram msg.
Proof.
  intros Hh Hu Hs He Hsz [Sa Sp].
  destruct (encoded_decodes h u s auth key priv pkey sc salt tt Hh Hu Hs He Hsz) as (d & salt' & msg & E & Ho & Hl & Hd & H1 & H2 & H3 & H4).
  { intros Hx. by apply Sa. }
  { intros Hx. by apply Sp. }
  exists d, salt', msg. split; [done|]. split; [done|].
  assert (exists msg', opened (ssl := ssl) p msg = Some msg' /\ scoped msg' = s /\ header msg' = h /\ security msg' = security msg)
    as (msg' & Eo & Hsc & Hhd & Hse).
  { unfold opened. rewrite H1. destruct (isEncrypted (h_level h)) eqn:Ee; [|by exists msg; destruct H4].
    destruct H4 as (_ & msg' & Ed & Hsc). destruct (Sp eq_refl) as (-> & -> & _). rewrite H2. cbn [with_params u_engineId].
    rewrite Ed. exists msg'. split; [done|]. split; [done|]. rewrite <- H1, <- H2. by eapply decryptScopedPdu_keeps. }
  assert (request_of (ssl := ssl) p msg = msg') as Er by (unfold request_of; by rewrite Eo).
  split; rewrite ?Er; try done; [by rewrite Hse, H2; eauto| |unfold readable; by rewrite Eo].
  unfold authentic. rewrite H1. destruct (isAuthenticated (h_level h)); [|done].
  destruct (Sa eq_refl) as (-> & _ & ->). rewrite H2. cbn [with_params u_engineId]. by rewrite H3.
Qed.

(** ** What the Client accepts *)

(** A Pending that can check and open what the Agent sends at a level. *)
Record expects p target (l : SecurityLevel) (q : pending) : Prop := {
  ex_v3 : p_v3 q = true;
  ex_from : p_from q = endpoint target;
  ex_auth : isAuthenticated l = true -> p_authRequired q = true /\ p_authProtocol q = authProtocol (pr_creds p) /\
    p_authProtocol q <> AuthNone /\ p_authKey q = k_auth (keys_at (pr_creds p) m_engineId) /\ p_authKey q <> [];
  ex_priv : isEncrypted l = true -> p_privProtocol q = privProtocol (pr_creds p) /\ p_privProtocol q <> PrivNone /\
    p_privKey q = k_priv (keys_at (pr_creds p) m_engineId) /\ p_privKey q <> [] }.

(** What makes a reply of the Agent an answer to an exchange. *)
Record suffices p target (request : V3Message) (v : option (Z * SecurityLevel)) (q : pending) c : Prop := {
  sf_expects : expects p target (h_level (r_header (reply_to (ssl := ssl) p request v))) q;
  sf_digest : isAuthenticated (h_level (r_header (reply_to (ssl := ssl) p request v))) = false ->
    p_authRequired q = false \/ v <> None;
  sf_sync : match v with
            | Some (counter, l) => p_timeSyncPhase q && negb (isAuthenticated l) && (counter =? notInTimeWindows) = false
            | None => (p_engineId q = [] \/ p_engineId q = m_engineId) /\
                requestId (s_pdu (scoped request)) = p_requestId q /\
                (p_authRequired q = true -> forall u, u_boots u = m_boots -> u_time u = m_time -> timely c (endpoint target) u = true)
            end }.

Lemma sign_with p q : p_authProtocol q = authProtocol (pr_creds p) -> p_authProtocol q <> AuthNone ->
  p_authKey q = k_auth (keys_at (pr_creds p) m_engineId) -> p_authKey q <> [] ->
  sign_auth p = p_authProtocol (Endpoint := Endpoint) q /\ sign_key (ssl := ssl) p (keys_at (pr_creds p) m_engineId) = p_authKey q.
Proof.
  intros H1 H2 H3 H4. unfold sign_key, sign_auth. rewrite <- H3, !bool_decide_false by congruence. done.
Qed.

Lemma seal_with p q : p_privProtocol q = privProtocol (pr_creds p) -> p_privProtocol q <> PrivNone ->
  p_privKey q = k_priv (keys_at (pr_creds p) m_engineId) -> p_privKey q <> [] ->
  seal_priv p = p_privProtocol (Endpoint := Endpoint) q /\ seal_key p (keys_at (pr_creds p) m_engineId) = p_privKey q.
Proof.
  intros H1 H2 H3 H4. unfold seal_key, seal_priv. rewrite <- H3, !bool_decide_false by congruence. done.
Qed.

Lemma report_counter (counter id : Z) : reportsNotInTimeWindows (with_requestId id (usmReport counter)) = (counter =? notInTimeWindows).
Proof.
  unfold reportsNotInTimeWindows. change (usmStatsCounter _) with (Some counter).
  change (bool_decide (pdu_type _ = Report)) with true. unfold notInTimeWindows, usmStatsNotInTimeWindows.
  destruct (Z.eqb_spec counter 2) as [->|Hn]; [done|]. apply bool_decide_false. by intros [= ?].
Qed.

(** Where the octets came from does not matter to what they convey. *)
Lemma conveys_state {T} (t : T) p r out raw : octets_ok out -> zlen out <= 65535 ->
  conveys (ssl := ssl) tt p r out raw -> conveys (ssl := ssl) t p r out raw.
Proof.
  intros Ho Hl [C1 C2 C3 C4 C5]. split; [done..| |].
  - intros Hx. eapply verifyAuth_state; [done|lia|done|by apply C4].
  - destruct (isEncrypted _); [|done]. destruct C5 as (msg' & E & Hx). exists msg'. split; [|done].
    destruct (dec_v3_wf out raw C1 Ho) as [Heo Hel]. eapply decryptScopedPdu_state; [done|lia|exact E].
Qed.

Definition agents_clock (u : UsmParameters) : Prop := u_engineId u = m_engineId /\ u_boots u = m_boots /\ u_time u = m_time.

Lemma reply_accepted p target request v q c l out raw :
  let r := reply_to (ssl := ssl) p request v in
  conveys (ssl := ssl) c p r out raw -> suffices p target request v q c ->
  m_pending c !! msgId (header request) = Some l -> m_heap c !! l = Some q ->
  exists msg, accepts_v3 (ssl := ssl) c out (endpoint target) l q raw msg (isAuthenticated (h_level (r_header r))) /\
    s_pdu (scoped msg) = s_pdu (r_scoped r) /\ agents_clock (security msg).
Proof.
  intros r [C1 C2 C3 C4 C5] [[E1 E2 E3 E4] S2 S3] Hp Hq. rewrite C2 in C4, C5. fold r in E3, E4, S2.
  assert (agents_clock (security raw)) as Hclock by (by rewrite C3).
  assert (exists msg, opens (ssl := ssl) c q raw msg /\ scoped msg = r_scoped r /\ security msg = security raw) as (msg & Hop & Hsc & Hse).
  { unfold opens. rewrite C2. destruct (isEncrypted (h_level (r_header r))) eqn:Ee; [|by exists raw].
    destruct (E4 eq_refl) as (P1 & P2 & P3 & P4). destruct (seal_with p q P1 P2 P3 P4) as [X1 X2].
    destruct C5 as (msg & Ed & Hs1 & _ & Hs2). cbn [r_keys reply_to r] in Ed. rewrite X1, X2 in Ed. by exists msg. }
  exists msg. split; [|split; [by rewrite Hsc|by rewrite Hse]]. split.
  - split; [done|by rewrite C2|done|done|by rewrite E2].
  - unfold digest_verdict. destruct (isAuthenticated (h_level (r_header r))) eqn:Ea.
    + destruct (E3 eq_refl) as (P0 & P1 & P2 & P3 & P4). destruct (sign_with p q P1 P2 P3 P4) as [X1 X2].
      split; [done|]. split; [intros [Hx _]; rewrite C2 in Hx; by rewrite Hx in Ea|].
      specialize (C4 eq_refl). cbn [r_keys reply_to r] in C4. by rewrite X1, X2 in C4.
    + destruct (S2 eq_refl) as [Hx|Hx]; [by left|right]. unfold exempt. rewrite C2.
      destruct v as [[counter lv]|]; [|done]. cbn [r_header reply_to r h_level] in Ea |- *.
      assert (lv = NoAuthNoPriv) as -> by (by destruct lv). split; [done|]. cbn in C5. by rewrite C5.
  - done.
  - unfold Client.answers. rewrite Hsc. destruct v as [[counter lv]|]; cbn [reply_to r r_scoped s_pdu r_header h_level].
    + rewrite report_counter. by split.
    + destruct S3 as (H1 & H2 & H3). split; [by rewrite !andb_false_r|]. intros _. rewrite Hse. destruct Hclock as (K1 & K2 & K3).
      split; [destruct H1 as [? | ->]; [by left|by right]|]. split; [done|]. split; [done|]. intros Hx. by apply H3.
Qed.

(** An opened message is accepted as it stands. *)
Lemma accepted_arrives c bs from l q raw msg authenticated : datagram_ok bs -> client_inv c ->
  accepts_v3 (ssl := ssl) (with_received ((bs, from) :: m_received c) c) bs from l q raw msg authenticated ->
  arrive ssl bs from c = Done tt (answered_with (with_received ((bs, from) :: m_received c) c) l q msg authenticated).
Proof.
  intros Hd Hi Ha. set (c1 := with_received _ c) in *. assert (client_inv c1) as Hi1 by (destruct Hi; by split).
  unfold arrive. rewrite (bind_done _ _ c tt c1) by done. pose proof Ha as [[Hdec _ _ _ _] _ _ _]. destruct Hd as [Ho Hl].
  unfold receive. rewrite (bind_done _ _ _ _ _ (v3_version bs raw c1 Hdec Ho ltac:(lia))).
  change (versionV3 =? versionV2c) with false. change (versionV3 =? versionV3) with true. cbn iota.
  destruct (deliverV3_run c1 bs from (conj Ho Hl) Hi1) as [(l' & p' & raw' & msg' & a' & Ha' & E)|(_ & _ & _ & Hn)]; [|by apply Hn in Ha].
  destruct (accepts_v3_unique _ _ _ _ _ _ _ _ _ _ _ _ _ Ha Ha') as (-> & -> & -> & -> & ->). exact E.
Qed.

(** A request goes out, the Agent answers it, and the answer is accepted. *)
Lemma v3_turn p a o target l q c h u s d msg : profile_ok p -> agent_inv p a -> spent a -> pr_mode p <> ModeV2c ->
  reads p h u s d msg -> zlen d <= 65535 -> waits o target (msgId h) l q c -> client_inv c ->
  let v := verdict p (request_of (ssl := ssl) p msg) (isAuthenticated (h_level h)) true in
  let r := reply_to (ssl := ssl) p (request_of (ssl := ssl) p msg) v in
  clocked p (request_of (ssl := ssl) p msg) (isAuthenticated (h_level h)) true ->
  (isEncrypted (h_level (r_header r)) = true -> seal_priv p = Des -> OSSL_PROVIDER_load ssl = true) ->
  suffices p target (request_of (ssl := ssl) p msg) v q c ->
  (exists vs, enc_varbinds (varbinds (s_pdu (r_scoped r))) = Some vs /\ zlen vs + zlen (userName (pr_creds p)) <= 65000) ->
  exists reply a' security, answer ssl d a = Done tt a' /\ agent_inv p a' /\ spent a' /\ a_sent a' = (reply, true) :: a_sent a /\
    agents_clock security /\ datagram_ok reply /\
    arrive ssl reply (endpoint target) (asleep target l c q) =
      Done tt (updated (with_received ((reply, endpoint target) :: m_received c) (asleep target l c q)) l
                 (answered_by target q security (s_pdu (r_scoped r)) (isAuthenticated (h_level (r_header r))) c)).
Proof.
  intros Hp Ha Hs Hm [R1 R2 R3 R4 R5 R6 R7 R8] Hl [W1 W2 _ _ _] Hi v r Hc Hdes Hsf (vs & Hvs & Hsz).
  assert (compliant (ssl := ssl) p d msg = r) as Ecmp by (unfold compliant, r, v; by rewrite R7, R8).
  destruct (answerV3_spent tt p d msg a Hp Ha Hs Hm (conj R1 Hl) R2) as (reply & a' & raw & Ea & [A1 A2 A3 _] & Ho & Hcv & Hlen).
  { unfold measured. by rewrite R7, R8. }
  { by rewrite Ecmp. }
  rewrite Ecmp in Hcv, Hlen. specialize (Hlen vs Hvs). change (zlen m_engineId) with 8 in Hlen.
  assert (zlen reply <= 65535) as Hlr by lia.
  set (c3 := with_received ((reply, endpoint target) :: m_received c) (asleep target l c q)).
  set (q2 := with_waiting Slotted false (m_now c + timeout target * 1000000) q).
  assert (suffices p target (request_of (ssl := ssl) p msg) v q2 c3) as Hsf2 by (destruct Hsf as [[? ? ? ?] ? ?]; by split; [split|..]).
  destruct (reply_accepted p target (request_of (ssl := ssl) p msg) v q2 c3 l reply raw) as (msg' & Hacc & Hpdu & Hclk).
  { by apply conveys_state. }
  { exact Hsf2. }
  { rewrite R4. exact W1. }
  { by apply lookup_insert_eq. }
  exists reply, a', (security msg'). do 5 (split; [done|]). split; [by split|].
  rewrite (accepted_arrives (asleep target l c q) reply (endpoint target) l q2 raw msg' _ (conj Ho Hlr) (asleep_inv _ _ _ _ Hi) Hacc).
  unfold answered_with. fold r in Hpdu. by rewrite Hpdu.
Qed.

(** ** What the Client sends *)

(** A Client that can draw keys and identifiers. *)
Definition sane c : Prop := keys_ok (ssl := ssl) c /\ 1 <= m_nextId c <= 2147483647.

Lemma ginv_sane c : ginv (ssl := ssl) c -> sane c.
Proof. intros Hi. split; [apply Hi|apply (inv_nextId _ (ginv_client _ Hi))]. Qed.

(** A Client that can start an exchange. *)
Record ready o target c : Prop := {
  ry_stopping : m_stopping c = false;
  ry_cancelled : cancelled o c = 0;
  ry_socket : socket_of (is_v6 (endpoint target)) c <> SocketClosed;
  ry_retries : 0 <= retries target;
  ry_free : m_pending c !! m_nextId c = None }.

(** Draw an identifier, encode, make the Pending, send. *)
Definition sending {B} o target (l : SecurityLevel) (usm : UsmParameters) (pdu : Pdu) (auth : AuthProtocol) (key : Octets)
    (priv : PrivProtocol) (pkey : Octets) (q : Z -> pending) (fail : ErrorCode -> B) (rest : loc -> ErrorCode -> Co B) : Co B :=
  (let^ id := nextId in
   or_return (with_salts (encodeV3Message ssl (discoveryHeader id l) usm
                (mkScopedPdu (u_engineId usm) [] (with_requestId id pdu)) auth key priv pkey)) fail (fun datagram =>
   let^ m := new_pending o (q id) in
   let* ec := transact o target datagram id m in
   rest m ec))%co.

(** What has been sent, and who is to be asked. *)
Record sent_v3 p o target (l : SecurityLevel) (usm : UsmParameters) (pdu : Pdu) (q : Z -> pending) c d (m : loc) (msg : V3Message) c1
  : Prop := {
  st_reads : reads p (discoveryHeader (m_nextId c) l) usm (mkScopedPdu (u_engineId usm) [] (with_requestId (m_nextId c) pdu)) d msg;
  st_size : zlen d <= 65535;
  st_waits : waits o target (m_nextId c) m (q (m_nextId c)) c1;
  st_same : same_elsewhere c c1;
  st_pending : m_pending c !! m_nextId c = None /\ m_pending c1 = <[m_nextId c := m]> (m_pending c);
  st_cancelled : m_cancelled c1 = m_cancelled c;
  st_next : m_nextId c1 = (if m_nextId c =? 2147483647 then 1 else m_nextId c + 1) }.

Lemma sending_run {B} p o target l usm pdu auth key priv pkey q (fail : ErrorCode -> B) (rest : loc -> ErrorCode -> Co B) c :
  sane c -> ready o target c -> fits 60000 pdu -> usm_ok usm -> u_privParams usm = [] ->
  zlen (u_engineId usm) <= 100 -> zlen (u_userName usm) <= 100 ->
  suits p l (u_engineId usm) auth key priv pkey ->
  exists d m msg c1, run fair (sending o target l usm pdu auth key priv pkey q fail rest) c =
      Some ([], CoSend (endpoint target) d (fun ec => co_bind (to_the_end o (m_nextId c) m (sent o target d m (rounds target) ec)) (rest m)), c1) /\
    sent_v3 p o target l usm pdu q c d m msg c1.
Proof.
  intros [_ [N1 N2]] [Y1 Y2 Y3 Y4 Y5] Hf Hu Hpp He Hn Hsu.
  unfold sending. set (id := m_nextId c). set (c1 := with_nextId (if m_nextId c =? 2147483647 then 1 else m_nextId c + 1) c).
  rewrite (run_then _ _ _ _ id c1) by done. assert (int32_ok id) as Hid by (unfold int32_ok; lia).
  assert (request_ok pdu) as Hr by (apply fits_request; eapply fits_le; [|exact Hf]; lia).
  destruct (request_scoped id (u_engineId usm) pdu Hr Hid) as [Hs (sc & vs & Hsc & Hvs & Hz & Hl)]; [split; [apply Hu|lia]|].
  destruct Hf as [_ (vs' & Hvs' & Hlv)]. assert (vs' = vs) as -> by congruence.
  set (s := mkScopedPdu (u_engineId usm) [] (with_requestId id pdu)) in *.
  destruct (encode_reads p (discoveryHeader id l) usm s auth key priv pkey sc (m_salt c1)) as (d & salt & msg & E & Hd & Hrd);
    [|done|exact Hs|exact Hsc|rewrite Hpp; cbn [length]; lia|exact Hsu|].
  { split; [exact Hid|]. by split. }
  rewrite Hpp in Hd. cbn [length] in Hd. unfold or_return.
  set (c2 := with_salt salt c1). rewrite (run_then _ _ _ _ (inr d) c2) by (unfold with_salts; by rewrite E).
  set (m := (o, fresh (set_map (D := gset nat) snd (dom (m_heap c2))))). set (c3 := updated c2 m (q id)).
  rewrite (run_then _ _ _ _ m c3), run_bind, (transact_begins o target d id m c3 Y1 Y4 Y5) by done.
  exists d, m, msg, (with_entry target id m c3). split; [done|]. split; [exact Hrd|lia| | | | |].
  - apply with_entry_waits; [by apply lookup_insert_eq|done..].
  - transitivity c3; [by split|apply with_entry_same].
  - done.
  - destruct (with_open_same target c3) as (_ & _ & O3 & _). exact O3.
  - unfold with_entry, with_open, with_socket. by destruct (socket_of _ c3); [destruct (is_v6 _)|..].
Qed.

(** ** Keys *)

Definition keyed (creds : Credentials) : Prop :=
  (isAuthenticated (level creds) = true -> authPassword creds <> []) /\
  (isEncrypted (level creds) = true -> privPassword creds <> []).

Lemma user_auth_key p engineId : profile_ok p -> keyed (pr_creds p) -> engineId <> [] ->
  isAuthenticated (level (pr_creds p)) = true ->
  derived_auth (ssl := ssl) (authProtocol (pr_creds p)) (authPassword (pr_creds p)) engineId = inr (k_auth (keys_at (pr_creds p) engineId)) /\
  k_auth (keys_at (pr_creds p) engineId) <> [].
Proof.
  intros [_ _ Hpa _] [Hk _] He Ha. specialize (Hk Ha). specialize (Hpa Ha). unfold AgentTheory.keys_at. rewrite Ha, bool_decide_false by done.
  cbn [negb orb derived_keys k_auth]. unfold derived_auth. rewrite !bool_decide_false by done. cbn [octets_or_none]. split; [done|].
  unfold localized. by apply digest_nonempty.
Qed.

Lemma user_priv_key p engineId : profile_ok p -> keyed (pr_creds p) -> engineId <> [] ->
  isEncrypted (level (pr_creds p)) = true ->
  derived_priv (ssl := ssl) (authProtocol (pr_creds p)) (privPassword (pr_creds p)) (privProtocol (pr_creds p)) engineId =
    inr (k_priv (keys_at (pr_creds p) engineId)) /\
  key_fits (privProtocol (pr_creds p)) (k_priv (keys_at (pr_creds p) engineId)) /\ k_priv (keys_at (pr_creds p) engineId) <> [].
Proof.
  intros [_ _ Hpa Hpp] [_ Hk] He Hx. specialize (Hk Hx). pose proof (encrypted_authenticates _ Hx) as Ha. specialize (Hpa Ha).
  rewrite Hx in Hpp. symmetry in Hpp. apply negb_true_iff, bool_decide_eq_false in Hpp.
  unfold AgentTheory.keys_at. rewrite Ha, bool_decide_false by done. cbn [negb orb derived_keys k_priv]. rewrite bool_decide_false by done.
  destruct (derived_priv (ssl := ssl) (authProtocol (pr_creds p)) (privPassword (pr_creds p)) (privProtocol (pr_creds p)) engineId)
    as [ec|key] eqn:E.
  - unfold derived_priv, derived_auth in E. rewrite !bool_decide_false in E by done. done.
  - cbn [octets_or_none]. pose proof (derived_priv_length _ _ _ _ _ E) as Hl. split; [done|]. split; [split; [done|lia]|].
    intros ->. cbn in Hl. by destruct (privProtocol (pr_creds p)).
Qed.

(** The user's keys, drawn from the cache or derived. *)
Definition auth_key_of (creds : Credentials) (engineId : Octets) : M client (ErrorCode + option Octets) :=
  if isAuthenticated (level creds)
  then let+ k := localizedKey ssl creds engineId in ret (inr (Some k)) else ret (inr None).
Definition priv_key_of (creds : Credentials) (engineId : Octets) : M client (ErrorCode + option Octets) :=
  if isEncrypted (level creds)
  then let+ k := localizedPrivacyKey ssl creds engineId in ret (inr (Some k)) else ret (inr None).

Lemma keys_run p c engineId : profile_ok p -> keyed (pr_creds p) -> engineId <> [] -> keys_ok (ssl := ssl) c -> creds_ok (pr_creds p) ->
  exists key pkey k1 k2, let c1 := with_keys k1 c in let c2 := with_keys k2 c1 in
    auth_key_of (pr_creds p) engineId c = Done (inr key) c1 /\ priv_key_of (pr_creds p) engineId c1 = Done (inr pkey) c2 /\
    keys_ok (ssl := ssl) c2 /\
    (isAuthenticated (level (pr_creds p)) = true -> key = Some (k_auth (keys_at (pr_creds p) engineId))) /\
    (isEncrypted (level (pr_creds p)) = true -> pkey = Some (k_priv (keys_at (pr_creds p) engineId))).
Proof.
  intros Hp Hk He Hi (_ & _ & Ho1 & Ho2 & _ & Hpp).
  assert (exists key k1, auth_key_of (pr_creds p) engineId c = Done (inr key) (with_keys k1 c) /\ keys_ok (ssl := ssl) (with_keys k1 c) /\
    (isAuthenticated (level (pr_creds p)) = true -> key = Some (k_auth (keys_at (pr_creds p) engineId)))) as (key & k1 & E1 & Hi1 & K1).
  { unfold auth_key_of. destruct (isAuthenticated (level (pr_creds p))) eqn:Ea; [|exists None, (m_keys c); by rewrite with_same_keys].
    destruct (auth_key_step c (pr_creds p) engineId Hi Ho1) as (k & E & Hok). destruct (user_auth_key p engineId Hp Hk He Ea) as [Hd _].
    rewrite Hd in E. exists (Some (k_auth (keys_at (pr_creds p) engineId))), k. rewrite (bind_sum_inr _ _ _ _ _ E).
    done. }
  exists key. set (c1 := with_keys k1 c) in *.
  assert (exists pkey k2, priv_key_of (pr_creds p) engineId c1 = Done (inr pkey) (with_keys k2 c1) /\ keys_ok (ssl := ssl) (with_keys k2 c1) /\
    (isEncrypted (level (pr_creds p)) = true -> pkey = Some (k_priv (keys_at (pr_creds p) engineId)))) as (pkey & k2 & E2 & Hi2 & K2).
  { unfold priv_key_of. destruct (isEncrypted (level (pr_creds p))) eqn:Ea; [|exists None, (m_keys c1); by rewrite with_same_keys].
    destruct (priv_key_step c1 (pr_creds p) engineId Hi1 Ho2 (Hpp eq_refl)) as (k & E & Hok).
    destruct (user_priv_key p engineId Hp Hk He Ea) as [Hd _].
    rewrite Hd in E. exists (Some (k_priv (keys_at (pr_creds p) engineId))), k. rewrite (bind_sum_inr _ _ _ _ _ E).
    done. }
  by exists pkey, k1, k2.
Qed.

(** ** The Agent's verdict *)

Lemma verdict_unknown p h u s d msg : reads p h u s d msg -> u_engineId u <> m_engineId ->
  verdict p (request_of (ssl := ssl) p msg) (isAuthenticated (h_level h)) true = Some (unknownEngineIds, NoAuthNoPriv) /\
  clocked p (request_of (ssl := ssl) p msg) (isAuthenticated (h_level h)) true.
Proof.
  intros [_ _ _ _ (x & y & Hs) _ _ _] He. unfold verdict, clocked. rewrite Hs. cbn [negb with_params u_engineId].
  rewrite bool_decide_false by done. split; [done|]. by intros _ Hx.
Qed.

Lemma verdict_late p h u s d msg : reads p h u s d msg -> u_engineId u = m_engineId -> u_userName u = userName (pr_creds p) ->
  isAuthenticated (h_level h) = true -> u_boots u <> m_boots ->
  verdict p (request_of (ssl := ssl) p msg) (isAuthenticated (h_level h)) true = Some (notInTimeWindows, level (pr_creds p)) /\
  clocked p (request_of (ssl := ssl) p msg) (isAuthenticated (h_level h)) true.
Proof.
  intros [_ _ _ Hh (x & y & Hs) _ _ _] He Hu Ha Hb. unfold verdict, clocked. rewrite Hh, Ha, Hs.
  cbn [negb andb with_params u_engineId u_userName u_boots u_time]. rewrite !bool_decide_true by done. cbn [negb].
  destruct (Z.eqb_spec (u_boots u) m_boots); [done|]. split; [done|]. by intros.
Qed.

Lemma verdict_in_time p h u s d msg : reads p h u s d msg -> u_engineId u = m_engineId ->
  (isAuthenticated (h_level h) = true -> u_userName u = userName (pr_creds p) /\ u_boots u = m_boots /\ 850 <= u_time u <= 1150) ->
  verdict p (request_of (ssl := ssl) p msg) (isAuthenticated (h_level h)) true = None /\
  clocked p (request_of (ssl := ssl) p msg) (isAuthenticated (h_level h)) true.
Proof.
  intros [_ _ _ Hh (x & y & Hs) _ _ _] He Ha. unfold verdict, clocked. rewrite Hh, Hs.
  cbn [negb with_params u_engineId u_userName u_boots u_time]. rewrite bool_decide_true by done. cbn [negb].
  destruct (isAuthenticated (h_level h)); cbn [andb]; [|by split]. destruct (Ha eq_refl) as (-> & -> & Ht). unfold m_time, timeWindow.
  rewrite bool_decide_true, Z.eqb_refl by done. cbn [negb andb]. split; [|intros; unfold int32_ok; lia].
  by rewrite (proj2 (Z.leb_le _ _)) by lia.
Qed.

(** ** The request *)

Lemma profile_creds p : profile_ok p -> creds_ok (pr_creds p).
Proof.
  intros [[H1 H2] [H3 H4] H5 H6]. repeat (split; [done|]). intros Hx. rewrite Hx in H6. symmetry in H6.
  by apply negb_true_iff, bool_decide_eq_false in H6.
Qed.

Section Served.
Context (p : Profile) (target : Target).
Let creds := pr_creds p.
Context (Hp : profile_ok p) (Hk : keyed creds) (Hmode : pr_mode p <> ModeV2c) (Huser : zlen (userName creds) <= 100)
  (Hdes : privProtocol creds = Des -> OSSL_PROVIDER_load ssl = true).

Lemma user_suits engineId key pkey : engineId <> [] ->
  (isAuthenticated (level creds) = true -> key = Some (k_auth (keys_at creds engineId))) ->
  (isEncrypted (level creds) = true -> pkey = Some (k_priv (keys_at creds engineId))) ->
  suits p (level creds) engineId (authProtocol creds) (keySpan key) (privProtocol creds) (keySpan pkey).
Proof.
  intros He K1 K2. split; intros Hx.
  - rewrite (K1 Hx). split; [done|]. by split; [apply (po_auth _ Hp)|].
  - rewrite (K2 Hx). destruct (user_priv_key p engineId Hp Hk He Hx) as (_ & Hf & _). split; [done|]. split; [done|]. exact (conj Hf Hdes).
Qed.

(** The Pending of a request or of a time-sync message, at the Agent's Engine. *)
Definition user_pending (key pkey : option Octets) (sync : bool) (id : Z) : pending :=
  v3_pending (endpoint target) id (isAuthenticated (level creds)) (authProtocol creds) (privProtocol creds) (keySpan key)
    (keySpan pkey) m_engineId sync.

Lemma user_expects key pkey sync id :
  (isAuthenticated (level creds) = true -> key = Some (k_auth (keys_at creds m_engineId))) ->
  (isEncrypted (level creds) = true -> pkey = Some (k_priv (keys_at creds m_engineId))) ->
  expects p target (level creds) (user_pending key pkey sync id).
Proof.
  intros K1 K2. split; [done|done| |]; intros Hx; cbn.
  - rewrite (K1 Hx). destruct (user_auth_key p m_engineId Hp Hk ltac:(done) Hx) as [_ Hne].
    split; [done|]. split; [done|]. by split; [apply (po_auth _ Hp)|].
  - rewrite (K2 Hx). destruct (user_priv_key p m_engineId Hp Hk ltac:(done) Hx) as (_ & [Hf _] & Hne). done.
Qed.

(** Once its exchange is over, and before: the iteration of [doRequestV3]'s loop. *)
Definition after_request (l : loc) (mayRetry : bool) (retry : Co (ErrorCode * ResponseResult)) (ec : ErrorCode)
  : Co (ErrorCode * ResponseResult) :=
  (if is_error ec then CoRet (refuse ec)
   else
     let^ q := load l in
     if bool_decide (pdu_type (p_response q) = Report) then
       let^ failure := handleReport (endpoint target) q mayRetry in
       match failure with None => retry | Some ec => CoRet (refuse ec) end
     else
       (if p_replyAuthenticated q then observeEngineTime (endpoint target) (p_security q) else ret tt) ;^
       CoRet (toResult (p_response q)))%co.

Definition request_usm (e : EngineState) c : UsmParameters :=
  mkUsmParameters (e_engineId e) (e_boots e) (projected e c) (userName creds) [] [].

Definition known_engine o pdu (mayRetry : bool) (retry : Co (ErrorCode * ResponseResult)) : Co (ErrorCode * ResponseResult) :=
  (let^ c := get_st in
   match engineAt c (endpoint target) with
   | None => CoRet (refuse (make_error_code UnknownEngineId))
   | Some e =>
       or_return (auth_key_of creds (e_engineId e)) refuse (fun key =>
       or_return (priv_key_of creds (e_engineId e)) refuse (fun pkey =>
       sending o target (level creds) (request_usm e c) pdu (authProtocol creds) (keySpan key) (privProtocol creds) (keySpan pkey)
         (fun id => v3_pending (endpoint target) id (isAuthenticated (level creds)) (authProtocol creds) (privProtocol creds)
                      (keySpan key) (keySpan pkey) (e_engineId e) false)
         refuse (fun l => after_request l mayRetry retry)))
   end)%co.

Lemma exchangeV3_known o pdu mayRetry retry :
  exchangeV3 ssl o target creds pdu mayRetry retry =
  (let* ec := ensureEngine o target creds in
   if is_error ec then CoRet (refuse ec) else known_engine o pdu mayRetry retry)%co.
Proof. reflexivity. Qed.

(** The Agent's Engine, known and, where it matters, in step. *)
Record in_step (e : EngineState) c : Prop := {
  is_at : engineAt c (endpoint target) = Some e;
  is_engine : e_engineId e = m_engineId;
  is_timed : isAuthenticated (level creds) = true ->
    e_timeSynced e = true /\ e_boots e = m_boots /\ 850 <= e_time e + elapsed c (e_at e) <= 1150 }.

Lemma in_step_same e c c' : same_elsewhere c c' -> in_step e c -> in_step e c'.
Proof.
  intros [S1 S2 S3 _ _ _] [I1 I2 I3]. split; [|done|].
  - unfold engineAt in *. by rewrite S1, S2.
  - unfold elapsed in *. by rewrite S3.
Qed.

Lemma in_step_timely e c u : in_step e c -> isAuthenticated (level creds) = true -> u_boots u = m_boots -> u_time u = m_time ->
  timely c (endpoint target) u = true.
Proof.
  intros [I1 I2 I3] Ha Hb Ht. destruct (I3 Ha) as (Hs & Heb & Het). apply engineAt_some in I1 as (id & E1 & E2).
  unfold timely. rewrite E1, E2, Hs, Hb, Heb, Ht. cbn [negb]. unfold m_boots, bootsCeiling, m_time, timeWindowSeconds in *.
  cbn. apply Z.geb_le. lia.
Qed.

Lemma in_step_projected e c : in_step e c -> isAuthenticated (level creds) = true -> 850 <= projected e c <= 1150.
Proof.
  intros [_ _ I3] Ha. destruct (I3 Ha) as (_ & _ & Ht). unfold projected. rewrite Z.min_l by (unfold timeCeiling; lia).
  unfold swrap. rewrite Z.mod_small by lia. lia.
Qed.

Lemma request_sends o pdu mayRetry retry c e : ginv (ssl := ssl) c -> ready o target c -> in_step e c -> fits 60000 pdu ->
  exists key pkey c0 d m msg c1,
    (isAuthenticated (level creds) = true -> key = Some (k_auth (keys_at creds m_engineId))) /\
    (isEncrypted (level creds) = true -> pkey = Some (k_priv (keys_at creds m_engineId))) /\
    run fair (known_engine o pdu mayRetry retry) c =
      Some ([], CoSend (endpoint target) d (fun ec => co_bind (to_the_end o (m_nextId c0) m (sent o target d m (rounds target) ec))
                  (after_request m mayRetry retry)), c1) /\
    same_elsewhere c c0 /\
    sent_v3 p o target (level creds) (request_usm e c) pdu (user_pending key pkey false) c0 d m msg c1.
Proof.
  intros Hi [Y1 Y2 Y3 Y4 Y5] He Hf. pose proof He as [I1 I2 _]. pose proof (profile_creds p Hp) as Hcr.
  destruct (keys_run p c m_engineId Hp Hk ltac:(done) (ginv_keys _ Hi) Hcr) as (key & pkey & k1 & k2 & E1 & E2 & Hi2 & K1 & K2).
  unfold known_engine. rewrite (run_then _ _ _ _ c c) by done. rewrite I1, I2. unfold or_return at 1.
  rewrite (run_then _ _ _ _ _ _ E1). unfold or_return at 1. rewrite (run_then _ _ _ _ _ _ E2).
  set (c2 := with_keys k2 (with_keys k1 c)) in *. apply engineAt_some in I1 as (eid & A1 & A2).
  destruct (inv_engines _ (ginv_client _ Hi) _ _ A2) as (_ & Hb & _).
  destruct (sending_run p o target (level creds) (request_usm e c) pdu (authProtocol creds) (keySpan key) (privProtocol creds)
    (keySpan pkey) (user_pending key pkey false) refuse (fun l => after_request l mayRetry retry) c2 (conj Hi2 (inv_nextId _ (ginv_client _ Hi)))) as (d & m & msg & c3 & E & S).
  - by split.
  - done.
  - apply user_usm_ok; [done| |done|apply swrap_int32]. rewrite I2.
    split; [apply (bool_decide_unpack _); vm_compute; exact I|vm_compute; discriminate].
  - done.
  - cbn. rewrite I2. vm_compute. discriminate.
  - done.
  - cbn. rewrite I2. by apply user_suits.
  - exists key, pkey, c2, d, m, msg, c3. do 2 (split; [done|]). split; [exact E|]. split; [by split|exact S].
Qed.

Lemma seal_des : seal_priv p = Des -> OSSL_PROVIDER_load ssl = true.
Proof. unfold seal_priv. case_bool_decide; [done|]. apply Hdes. Qed.

Definition after_v3 (l : loc) (mayRetry : bool) (retry : Co (ErrorCode * ResponseResult)) (co : Co ErrorCode) : Co Answer :=
  (let* r := (let* ec := co in after_request l mayRetry retry ec) in CoRet (RequestResult r))%co.

#[local] Instance after_v3_context l mayRetry retry : Context (after_v3 l mayRetry retry).
Proof. apply (context_comp (fun co => co_bind co _) (fun co => co_bind co _)); apply context_bind. Qed.

Lemma observe_runs (b : bool) from u c : exists c', (if b then observeEngineTime from u else ret tt) c = Done tt c'.
Proof.
  destruct b; [|by exists c]. unfold observeEngineTime. rewrite (bind_done _ _ c c c) by done. destruct (engineAt c from); [|by exists c].
  destruct (_ =? _); [by exists c|]. destruct (_ <? _); [by exists c|]. destruct (_ && _); by eexists.
Qed.

Lemma request_round o pdu mayRetry retry key pkey c0 d m msg c1 e c (ts : gmap op (Task (Endpoint := Endpoint))) call start seen a :
  (isAuthenticated (level creds) = true -> key = Some (k_auth (keys_at creds m_engineId))) ->
  (isEncrypted (level creds) = true -> pkey = Some (k_priv (keys_at creds m_engineId))) ->
  sent_v3 p o target (level creds) (request_usm e c) pdu (user_pending key pkey false) c0 d m msg c1 ->
  in_step e c -> in_step e c1 -> client_inv c1 ->
  ts !! o = Some (Suspended call start (CoSend (endpoint target) d (fun ec => after_v3 m mayRetry retry
    (to_the_end o (m_nextId c0) m (sent o target d m (rounds target) ec)))) seen) ->
  agent_inv p a -> spent a -> fits 60000 (respondTo pdu) ->
  exists reply a' c5 ws, answer ssl d a = Done tt a' /\ agent_inv p a' /\ spent a' /\ a_sent a' = (reply, true) :: a_sent a /\
    drive ssl fair [Resume o; Deliver reply (endpoint target); Resume o] (mkSystem c1 ts) =
      Some (mkSystem c5 (<[o := Finished call start (RequestResult (no_error, mkResponse (echoed (varbinds pdu)) 0))
                             (seen ++ Sent (endpoint target) d no_error :: ws)]> ts)).
Proof.
  intros K1 K2 [Hr Hz W _ _ _ _] He He1 Hi Ho Ha Hsp [_ (vs & Hvs & Hvl)].
  destruct (verdict_in_time _ _ _ _ _ _ Hr) as [Hv Hc]; [apply He| |].
  { intros Hx. destruct (is_timed _ _ He Hx) as (_ & Hb & _). split; [done|]. split; [done|]. by apply in_step_projected. }
  pose proof Hr as [_ _ _ Rh _ Rs _ _].
  destruct (v3_turn p a o target m _ c1 _ _ _ d msg Hp Ha Hsp Hmode Hr Hz W Hi) as (reply & a' & sec & Ea & A1 & A2 & A3 & Hclk & _ & Earr).
  - exact Hc.
  - intros _. apply seal_des.
  - rewrite Hv. split; cbn [r_header reply_to h_level]; rewrite ?Rh.
    + by apply user_expects.
    + by left.
    + rewrite Rs. split; [by right|]. split; [done|]. intros Hx u. by apply in_step_timely with e.
  - rewrite Hv. cbn [r_scoped reply_to s_pdu]. rewrite Rs. exists vs. split; [exact Hvs|]. pose proof Huser. unfold creds in *. lia.
  - rewrite Hv in Earr. cbn [r_scoped reply_to s_pdu r_header h_level] in Earr. rewrite Rs, Rh in Earr. cbn [h_level discoveryHeader] in Earr.
    set (q := user_pending key pkey false (m_nextId c0)) in *. set (au := isAuthenticated (level creds)) in *.
    set (resp := respondTo (with_requestId (m_nextId c0) pdu)) in *.
    destruct (observe_runs (p_replyAuthenticated (answered_by target q sec resp au c1)) (endpoint target) sec
      (served target (m_nextId c0) m q reply sec resp au c1)) as (c5 & Eo).
    assert (run fair (after_v3 m mayRetry retry (CoRet no_error)) (served target (m_nextId c0) m q reply sec resp au c1) =
      Some ([], CoRet (RequestResult (toResult resp)), c5)) as Ek.
    { unfold after_v3. rewrite run_bind, run_bind. cbn [run]. unfold after_request. change (is_error no_error) with false. cbn iota.
      rewrite (run_then _ _ _ _ _ _ (served_answer _ _ _ _ _ _ _ _ _)). rewrite bool_decide_false by done.
      by rewrite (run_then _ _ _ _ _ _ Eo). }
    exists reply, a', c5, [Waited m (m_now c1)]. do 4 (split; [done|]).
    by rewrite (round_trip o target d (m_nextId c0) m _ _ _ _ _ _ _ _ _ _ _ _ _ _ _ W Ho Earr Ek).
Qed.

(** What no exchange changes for the others. *)
Record quietly c c' : Prop := {
  ql_stopping : m_stopping c' = m_stopping c;
  ql_cancelled : m_cancelled c' = m_cancelled c;
  ql_pending : m_pending c' = m_pending c;
  ql_sockets : m_v4 c' = m_v4 c /\ m_v6 c' = m_v6 c }.

(** ** The discovery *)

(** The two phases, once the exchange of each is over. *)
Definition after_sync (engineId : Octets) (l : loc) (ec : ErrorCode) : Co ErrorCode :=
  (if is_error ec then CoRet ec
   else
     let^ q := load l in
     if negb (p_replyAuthenticated q) then CoRet (reportError (usmStatsCounter (p_response q)))
     else if u_boots (p_security q) =? bootsCeiling then CoRet (make_error_code NotInTimeWindow)
     else record_baseline engineId (p_security q) ;^ CoRet no_error)%co.

Definition after_identity o (l : loc) (ec : ErrorCode) : Co ErrorCode :=
  (if is_error ec then CoRet ec
   else
     let^ q := load l in
     if bool_decide (u_engineId (p_security q) = []) then CoRet (make_error_code UnknownEngineId)
     else
       let^ engine := record_identity (endpoint target) (p_security q) in
       if negb (isAuthenticated (level creds)) then CoRet no_error
       else if e_timeSynced engine then CoRet no_error
       else timeSync ssl o target creds (u_engineId (p_security q)))%co.

Definition no_usm : UsmParameters := mkUsmParameters [] 0 0 [] [] [].
Definition identity_pending (id : Z) : pending := v3_pending (endpoint target) id false AuthNone PrivNone [] [] [] false.

Lemma discoverEngine_sends o :
  discoverEngine ssl o target creds =
  sending o target NoAuthNoPriv no_usm discovery_pdu AuthNone [] PrivNone [] identity_pending id (after_identity o).
Proof. reflexivity. Qed.

Lemma timeSync_sends o engineId :
  timeSync ssl o target creds engineId =
  or_return (localizedKey ssl creds engineId) id (fun key =>
  or_return (priv_key_of creds engineId) id (fun pkey =>
  sending o target (level creds) (zero_usm creds engineId) discovery_pdu (authProtocol creds) key (privProtocol creds) (keySpan pkey)
    (fun id => v3_pending (endpoint target) id true (authProtocol creds) (privProtocol creds) key (keySpan pkey) engineId true)
    id (after_sync engineId))).
Proof. reflexivity. Qed.

Lemma discovery_fits : fits 60000 discovery_pdu.
Proof. split; [apply discovery_request_ok|]. by eexists. Qed.

Lemma identity_run o c : sane c -> ready o target c ->
  exists d m msg c1, run fair (discoverEngine ssl o target creds) c =
      Some ([], CoSend (endpoint target) d (fun ec => co_bind (to_the_end o (m_nextId c) m (sent o target d m (rounds target) ec))
                  (after_identity o m)), c1) /\
    sent_v3 p o target NoAuthNoPriv no_usm discovery_pdu identity_pending c d m msg c1.
Proof.
  intros Hs Hr. rewrite discoverEngine_sends. apply sending_run; [done|done|apply discovery_fits| |done|done|done|by split].
  repeat split; try done; by apply Forall_nil.
Qed.

Lemma sync_run o c : sane c -> ready o target c -> isAuthenticated (level creds) = true ->
  exists key pkey c0 d m msg c1,
    key = Some (k_auth (keys_at creds m_engineId)) /\
    (isEncrypted (level creds) = true -> pkey = Some (k_priv (keys_at creds m_engineId))) /\
    run fair (timeSync ssl o target creds m_engineId) c =
      Some ([], CoSend (endpoint target) d (fun ec => co_bind (to_the_end o (m_nextId c0) m (sent o target d m (rounds target) ec))
                  (after_sync m_engineId m)), c1) /\
    same_elsewhere c c0 /\ quietly c c0 /\
    sent_v3 p o target (level creds) (zero_usm creds m_engineId) discovery_pdu (user_pending key pkey true) c0 d m msg c1.
Proof.
  intros [Hok Hn] [Y1 Y2 Y3 Y4 Y5] Ha. pose proof (profile_creds p Hp) as Hcr.
  destruct (keys_run p c m_engineId Hp Hk ltac:(done) Hok Hcr) as (key & pkey & k1 & k2 & E1 & E2 & Hi2 & K1 & K2).
  specialize (K1 Ha). subst key. rewrite timeSync_sends. unfold or_return at 1.
  assert (localizedKey ssl creds m_engineId c = Done (inr (k_auth (keys_at creds m_engineId))) (with_keys k1 c)) as E1'.
  { unfold auth_key_of in E1. fold creds in E1. rewrite Ha in E1. unfold bind_sum, bind in E1.
    destruct (localizedKey ssl creds m_engineId c) as [[ec|k] c'| |]; try done. by injection E1 as -> ->. }
  rewrite (run_then _ _ _ _ _ _ E1'). unfold or_return at 1. rewrite (run_then _ _ _ _ _ _ E2).
  set (key := k_auth (keys_at creds m_engineId)) in *. set (c2 := with_keys k2 (with_keys k1 c)) in *.
  assert (id_ok m_engineId) as Hid by (split; [apply (bool_decide_unpack _); vm_compute; exact I|vm_compute; discriminate]).
  destruct (sending_run p o target (level creds) (zero_usm creds m_engineId) discovery_pdu (authProtocol creds) key (privProtocol creds)
    (keySpan pkey) (user_pending (Some key) pkey true) id (after_sync m_engineId) c2 (conj Hi2 Hn)) as (d & m & msg & c3 & E & S).
  - by split.
  - apply discovery_fits.
  - by apply user_usm_ok.
  - done.
  - vm_compute. discriminate.
  - done.
  - apply (user_suits m_engineId (Some key) pkey); [done|done|exact K2].
  - exists (Some key), pkey, c2, d, m, msg, c3. do 2 (split; [done|]). split; [|split; [by split|split; [by split|exact S]]].
    rewrite <- E. unfold user_pending. by rewrite Ha.
Qed.

(** What is left of a discovery once its phases are over. *)
Definition finish_job (d : loc) (co : Co ErrorCode) : Co Answer :=
  (let* _x := (let* ec := co in sync (finish_discovery target d ec)) in CoRet DiscoveryResult)%co.

#[local] Instance finish_job_context d : Context (finish_job d).
Proof. apply (context_comp (fun co => co_bind co _) (fun co => co_bind co _)); apply context_bind. Qed.

#[local] Instance phase_context d (k : ErrorCode -> Co ErrorCode) : Context (fun co => finish_job d (co_bind co k)).
Proof. apply (context_comp (finish_job d) (fun co => co_bind co k)); apply _. Qed.

Lemma discovery_body o d : body ssl o (CallDiscovery (mkJob target creds d)) = finish_job d (discoverEngine ssl o target creds).
Proof. reflexivity. Qed.

(** A discovery that is over, and what it is known by. *)
Definition discovery_over (d : loc) (x : Discovery) c c' : Prop :=
  m_discoveries c' = <[d := mkDiscovery ∅ (d_woken x ∪ d_waiting x) no_error true]> (m_discoveries c) /\
  m_engines c' = m_engines c /\ m_engineAt c' = m_engineAt c /\ m_now c' = m_now c /\ quietly c c'.

Lemma finish_job_run d x c : m_discoveries c !! d = Some x ->
  exists c', run fair (finish_job d (CoRet no_error)) c = Some ([], CoRet DiscoveryResult, c') /\ discovery_over d x c c'.
Proof.
  intros Hd. unfold finish_job. eexists. rewrite run_bind, run_bind. cbn [run co_bind sync].
  unfold finish_discovery, load_discovery, store_discovery, modify, bind, get_st, set_st, ret, deref. rewrite Hd. cbn.
  rewrite lookup_insert_eq. cbn. split; [done|]. split; [|by repeat split]. by rewrite insert_insert_eq.
Qed.

(** The pair the Agent gives, as it is first noted. *)
Definition noted c : EngineState := mkEngineState m_engineId m_boots m_time (m_now c) false.
Definition with_engine (e : EngineState) c : client :=
  with_engines (<[m_engineId := e]> (m_engines c)) (with_engineAt (<[endpoint target := m_engineId]> (m_engineAt c)) c).

Lemma identity_answered o d m q reply sec resp au key c : agents_clock sec ->
  e_timeSynced (engine_slot m_engineId c) = false ->
  let c2 := served target key m q reply sec resp au c in
  run fair (finish_job d (co_bind (CoRet no_error) (after_identity o m))) c2 =
    run fair (finish_job d (if isAuthenticated (level creds) then timeSync ssl o target creds m_engineId else CoRet no_error))
      (with_engine (noted c) c2).
Proof.
  intros (S1 & S2 & S3) Hu c2. cbn [co_bind]. unfold after_identity. change (is_error no_error) with false. cbn iota.
  apply ctx_same. rewrite (run_then _ _ _ c2 _ c2 (served_answer target key m q reply sec resp au c)). cbn [p_security with_waiting answered_by cancel_timer Client.answer].
  rewrite S1, bool_decide_false by done.
  assert (record_identity (endpoint target) sec c2 = Done (noted c) (with_engine (noted c) c2)) as E.
  { unfold record_identity. rewrite (bind_done _ _ c2 c2 c2) by done. rewrite S1, S2, S3. change (engine_slot m_engineId c2) with (engine_slot m_engineId c).
    by rewrite Hu. }
  erewrite (run_then _ _ _ _ _ _ E). destruct (isAuthenticated (level creds)); done.
Qed.

Lemma sync_answered d m q reply sec resp key c : agents_clock sec ->
  e_engineId (engine_slot m_engineId c) = m_engineId ->
  let c2 := served target key m q reply sec resp true c in
  let e := mkEngineState m_engineId m_boots m_time (m_now c) true in
  run fair (finish_job d (co_bind (CoRet no_error) (after_sync m_engineId m))) c2 =
    run fair (finish_job d (CoRet no_error)) (with_engines (<[m_engineId := e]> (m_engines c2)) c2).
Proof.
  intros (S1 & S2 & S3) He c2 e. cbn [co_bind]. unfold after_sync. change (is_error no_error) with false. cbn iota.
  apply ctx_same. rewrite (run_then _ _ _ c2 _ c2 (served_answer target key m q reply sec resp true c)).
  cbn [p_security p_replyAuthenticated with_waiting answered_by cancel_timer Client.answer negb].
  rewrite S2. change (m_boots =? bootsCeiling) with false. cbn iota.
  assert (record_baseline m_engineId sec c2 = Done tt (with_engines (<[m_engineId := e]> (m_engines c2)) c2)) as E.
  { unfold record_baseline. rewrite (bind_done _ _ c2 c2 c2) by done. change (engine_slot m_engineId c2) with (engine_slot m_engineId c).
    by rewrite He, S2, S3. }
  by erewrite (run_then _ _ _ _ _ _ E).
Qed.

(** What an exchange that was served leaves: everything but its Pending. *)
Record calm (key : Z) c c' : Prop := {
  cm_same : same_elsewhere c c';
  cm_keys : m_keys c' = m_keys c;
  cm_next : m_nextId c' = m_nextId c;
  cm_stopping : m_stopping c' = m_stopping c;
  cm_cancelled : m_cancelled c' = m_cancelled c;
  cm_sockets : m_v4 c' = m_v4 c /\ m_v6 c' = m_v6 c;
  cm_pending : m_pending c' = delete key (m_pending c) }.

Lemma served_calm key m q reply sec resp au c : calm key c (served target key m q reply sec resp au c).
Proof. by split. Qed.

(** Between two exchanges. *)
Record back c c' : Prop := {
  bk_stopping : m_stopping c' = false;
  bk_cancelled : m_cancelled c' = m_cancelled c;
  bk_pending : m_pending c' = m_pending c;
  bk_socket : socket_of (is_v6 (endpoint target)) c' = SocketOpen }.

(** Phase one. *)
Lemma identity_round o d c c1 dg m msg (ts : gmap op (Task (Endpoint := Endpoint))) call start seen a :
  sent_v3 p o target NoAuthNoPriv no_usm discovery_pdu identity_pending c dg m msg c1 -> client_inv c1 ->
  e_timeSynced (engine_slot m_engineId c1) = false ->
  ts !! o = Some (Suspended call start (CoSend (endpoint target) dg (fun ec => finish_job d
    (co_bind (to_the_end o (m_nextId c) m (sent o target dg m (rounds target) ec)) (after_identity o m)))) seen) ->
  agent_inv p a -> spent a ->
  exists reply a' c2, answer ssl dg a = Done tt a' /\ agent_inv p a' /\ spent a' /\ a_sent a' = (reply, true) :: a_sent a /\
    datagram_ok reply /\ calm (m_nextId c) c1 c2 /\
    forall ws co c5, run fair (finish_job d (if isAuthenticated (level creds) then timeSync ssl o target creds m_engineId else CoRet no_error))
        (with_engine (noted c1) c2) = Some (ws, co, c5) ->
      drive ssl fair [Resume o; Deliver reply (endpoint target); Resume o] (mkSystem c1 ts) =
        Some (mkSystem c5 (<[o := settle call start co (seen ++ [Sent (endpoint target) dg no_error; Waited m (m_now c1)] ++ ws)]> ts)).
Proof.
  intros [Hr Hz W _ _ _ _] Hi Hu Ho Ha Hsp. destruct (verdict_unknown _ _ _ _ _ _ Hr ltac:(done)) as [Hv Hc].
  pose proof Hr as [_ _ _ Rh _ Rs _ _].
  destruct (v3_turn p a o target m _ c1 _ _ _ dg msg Hp Ha Hsp Hmode Hr Hz W Hi) as (reply & a' & sec & Ea & A1 & A2 & A3 & Hclk & Hdg & Earr).
  - exact Hc.
  - rewrite Hv. done.
  - rewrite Hv. split; [by split|by left|done].
  - rewrite Hv. cbn [r_scoped reply_to s_pdu]. eexists. split; [vm_compute; reflexivity|]. pose proof Huser. unfold creds in *.
    etransitivity; [apply Z.add_le_mono_l; eassumption|vm_compute; discriminate].
  - rewrite Hv in Earr. cbn [r_scoped reply_to s_pdu r_header h_level] in Earr.
    match type of Earr with _ = Done _ (updated _ _ (answered_by _ ?q _ ?r ?b _)) =>
      exists reply, a', (served target (m_nextId c) m q reply sec r b c1) end.
    do 5 (split; [done|]). split; [apply served_calm|]. intros ws co c5 E.
    eapply (round_trip o target dg (m_nextId c) m (fun co => finish_job d (co_bind co (after_identity o m)))); [exact W|exact Ho|exact Earr|].
    cbn beta. by rewrite identity_answered.
Qed.

(** Phase two. *)
Lemma sync_round o d x key pkey c0 c1 dg m msg (ts : gmap op (Task (Endpoint := Endpoint))) call start seen a :
  isAuthenticated (level creds) = true -> key = Some (k_auth (keys_at creds m_engineId)) ->
  (isEncrypted (level creds) = true -> pkey = Some (k_priv (keys_at creds m_engineId))) ->
  sent_v3 p o target (level creds) (zero_usm creds m_engineId) discovery_pdu (user_pending key pkey true) c0 dg m msg c1 ->
  client_inv c1 -> engineAt c1 (endpoint target) = Some (noted c1) -> m_discoveries c1 !! d = Some x ->
  ts !! o = Some (Suspended call start (CoSend (endpoint target) dg (fun ec => finish_job d
    (co_bind (to_the_end o (m_nextId c0) m (sent o target dg m (rounds target) ec)) (after_sync m_engineId m)))) seen) ->
  agent_inv p a -> spent a ->
  exists reply a' c5 ws, answer ssl dg a = Done tt a' /\ agent_inv p a' /\ spent a' /\ a_sent a' = (reply, true) :: a_sent a /\ datagram_ok reply /\
    drive ssl fair [Resume o; Deliver reply (endpoint target); Resume o] (mkSystem c1 ts) =
      Some (mkSystem c5 (<[o := Finished call start DiscoveryResult (seen ++ Sent (endpoint target) dg no_error :: ws)]> ts)) /\
    back c0 c5 /\ in_step (mkEngineState m_engineId m_boots m_time (m_now c1) true) c5 /\
    m_discoveries c5 !! d = Some (mkDiscovery ∅ (d_woken x ∪ d_waiting x) no_error true).
Proof.
  intros Hau Hkey K2 [Hr Hz W _ HP HC _] Hi He Hd Ho Ha Hsp. destruct (verdict_late _ _ _ _ _ _ Hr) as [Hv Hc]; [done|done|exact Hau|done|].
  pose proof Hr as [_ _ _ Rh _ Rs _ _].
  destruct (v3_turn p a o target m _ c1 _ _ _ dg msg Hp Ha Hsp Hmode Hr Hz W Hi) as (reply & a' & sec & Ea & A1 & A2 & A3 & Hclk & Hdg & Earr).
  - exact Hc.
  - intros _. apply seal_des.
  - rewrite Hv. split; cbn [r_header reply_to h_level]; fold creds.
    + by apply user_expects.
    + by rewrite Hau.
    + by rewrite Hau.
  - rewrite Hv. cbn [r_scoped reply_to s_pdu]. eexists. split; [vm_compute; reflexivity|]. pose proof Huser. unfold creds in *.
    etransitivity; [apply Z.add_le_mono_l; eassumption|vm_compute; discriminate].
  - rewrite Hv in Earr. cbn [r_scoped reply_to s_pdu r_header h_level] in Earr. fold creds in Earr. rewrite Hau in Earr.
    match type of Earr with _ = Done _ (updated _ _ (answered_by _ ?q' _ ?r' _ _)) => set (q := q') in *; set (resp := r') in * end.
    apply engineAt_some in He as (eid & B1 & B2). destruct (inv_engines _ Hi _ _ B2) as (Heid & _). cbn in Heid. subst eid.
    assert (e_engineId (engine_slot m_engineId c1) = m_engineId) as Hslot by (unfold engine_slot; by rewrite B2).
    set (c2 := served target (m_nextId c0) m q reply sec resp true c1).
    set (e := mkEngineState m_engineId m_boots m_time (m_now c1) true). set (c3 := with_engines (<[m_engineId := e]> (m_engines c2)) c2).
    destruct (finish_job_run d x c3 Hd) as (c5 & E5 & (D1 & D2 & D3 & D4 & [Q1 Q2 Q3 [Q4 Q5]])).
    exists reply, a', c5, [Waited m (m_now c1)]. do 5 (split; [done|]). split; [|split; [|split]].
    + eapply (round_trip o target dg (m_nextId c0) m (fun co => finish_job d (co_bind co (after_sync m_engineId m))) _ _ _ _ _ _ _ _ _ _ _ [] (CoRet DiscoveryResult));
        [exact W|exact Ho|exact Earr|]. cbn beta. by rewrite sync_answered.
    + destruct W as [_ _ W3 _ W5], HP as [HP1 HP2]. split; [by rewrite Q1|by rewrite Q2| |].
      * rewrite Q3. cbn. by rewrite HP2, delete_insert_id.
      * unfold socket_of in *. by rewrite Q4, Q5.
    + split; [|done|].
      * apply engineAt_some. exists m_engineId. rewrite D3, D2. cbn. by rewrite lookup_insert_eq.
      * intros _. split; [done|]. split; [done|]. unfold elapsed. rewrite D4. cbn [e_time e_at].
        change (m_now c3) with (m_now c1). rewrite Z.sub_diag. split; vm_compute; discriminate.
    + by rewrite D1, lookup_insert_eq.
Qed.

(** ** From nothing *)

(** What a request does first: it waits for the discovery it asked for. *)
Definition woken_up o (d : loc) : Co ErrorCode :=
  (let^ discovery := load_discovery d in
   let^ c := get_st in
   if m_stopping c then CoRet (make_error_code ClientStopped)
   else if negb (cancelled o c =? 0) || negb (d_finished discovery) then CoRet operation_aborted
   else CoRet (d_ec discovery))%co.

Definition last_try o pdu : Co (ErrorCode * ResponseResult) :=
  exchangeV3 ssl o target creds pdu false (CoRet (refuse (make_error_code UnexpectedReport))).

Definition after_discovery o pdu (co : Co ErrorCode) : Co Answer :=
  (let* r := (let* ec := co in if is_error ec then CoRet (refuse ec) else known_engine o pdu true (last_try o pdu)) in
   CoRet (RequestResult r))%co.

(** Parked: the job posted, the waiter registered, the rest as it was. *)
Definition parked o (d : loc) c : client :=
  with_discoveries (<[d := mkDiscovery {[o]} ∅ no_error false]> (m_discoveries c))
    (with_posted (m_posted c ++ [mkJob target creds d])
       (with_discovering (<[endpoint target := d]> (m_discovering c)) (with_cancelled (<[o := 0]> (m_cancelled c)) c))).

Lemma request_parks o pdu c : m_stopping c = false -> engineAt c (endpoint target) = None -> m_discovering c !! endpoint target = None ->
  exists d, run fair (body ssl o (CallRequest target (AuthCredentials creds) pdu)) c =
    Some ([], CoEvent d (after_discovery o pdu (woken_up o d)), parked o d c).
Proof.
  intros Hs He Hd. cbn [body doRequest]. unfold doRequestV3. pose proof (profile_creds p Hp) as (_ & _ & _ & _ & C1 & C2).
  rewrite run_bind, (run_then _ _ _ _ (m_stopping c) c) by done. rewrite Hs. cbn iota.
  set (c1 := with_cancelled (<[o := 0]> (m_cancelled c)) c). rewrite (run_then _ _ _ _ tt c1) by done.
  assert (isEncrypted (level creds) && bool_decide (privProtocol creds = PrivNone) = false) as ->.
  { destruct (isEncrypted (level creds)) eqn:E; [|done]. by rewrite bool_decide_false by (by apply C2). }
  assert (isAuthenticated (level creds) && bool_decide (authProtocol creds = AuthNone) = false) as ->.
  { destruct (isAuthenticated (level creds)) eqn:E; [|done]. by rewrite bool_decide_false by (by apply C1). }
  cbn iota. rewrite exchangeV3_known, run_bind. unfold ensureEngine.
  rewrite (run_then _ _ _ _ c1 c1) by done. change (engineAt c1 (endpoint target)) with (engineAt c (endpoint target)). rewrite He. cbn iota.
  change (m_discovering c1) with (m_discovering c). rewrite Hd.
  set (d := (o, fresh (set_map (D := gset nat) snd (dom (m_discoveries c1))))). exists d.
  set (c2 := with_posted (m_posted c ++ [mkJob target creds d]) (with_discovering (<[endpoint target := d]> (m_discovering c))
    (with_discoveries (<[d := mkDiscovery ∅ ∅ no_error false]> (m_discoveries c1)) c1))).
  rewrite (run_then _ _ _ _ d c2) by done. rewrite run_bind. unfold wait_done.
  erewrite (run_then _ _ _ _ tt (parked o d c)); [reflexivity|].
  unfold load_discovery, store_discovery, modify, bind, get_st, set_st, ret, deref. cbn. rewrite lookup_insert_eq. cbn.
  unfold parked, c2, with_discoveries. cbn. rewrite insert_insert_eq.
  assert (∅ ∖ {[o]} = (∅ : gset op)) as -> by set_solver. by rewrite union_empty_r_L.
Qed.

(** Woken up, it finds the Engine. *)
Lemma woken_run o d x pdu c : m_discoveries c !! d = Some x -> d_finished x = true -> d_ec x = no_error ->
  m_stopping c = false -> cancelled o c = 0 ->
  run fair (after_discovery o pdu (woken_up o d)) c =
    run fair (let* r := known_engine o pdu true (last_try o pdu) in CoRet (RequestResult r))%co c.
Proof.
  intros Hd Hf He Hs Hc. unfold after_discovery. apply (ctx_same (Context := context_bind _)).
  assert (run fair (woken_up o d) c = Some ([], CoRet no_error, c)) as E.
  { unfold woken_up. rewrite (run_then _ _ _ _ x c), (run_then _ _ _ _ c c) by (done || (unfold load_discovery, bind, get_st; by rewrite Hd)).
    by rewrite Hs, Hc, Hf, He. }
  by rewrite (ctx_ret (fun co => co_bind co _) _ _ _ _ E).
Qed.

Definition discovery_turns o : list (Turn (Endpoint := Endpoint)) :=
  Do (Begin o) :: Talk o :: (if isAuthenticated (level creds) then [Talk o] else []).

Lemma discovery_served stranger o d x c (ts : gmap op (Task (Endpoint := Endpoint))) a : sys_inv (ssl := ssl) (mkSystem c ts) ->
  let call := CallDiscovery (mkJob target creds d) in
  ts !! o = Some (Queued call) -> ready o target c -> m_pending c = ∅ -> m_engines c !! m_engineId = None ->
  m_discoveries c !! d = Some x -> agent_inv p a -> spent a ->
  exists c5 a' e seen, converse stranger (ssl := ssl) (discovery_turns o) (mkSystem c ts, a) =
      Some (mkSystem c5 (<[o := Finished call c DiscoveryResult seen]> ts), a') /\
    sys_inv (ssl := ssl) (mkSystem c5 (<[o := Finished call c DiscoveryResult seen]> ts)) /\
    agent_inv p a' /\ spent a' /\ back c c5 /\ in_step e c5 /\
    m_discoveries c5 !! d = Some (mkDiscovery ∅ (d_woken x ∪ d_waiting x) no_error true).
Proof.
  intros Hi call Ho Hry Hpe Hen Hd Ha Hsp. pose proof (si_client _ Hi) as Hg. cbn in Hg.
  destruct (identity_run o c (ginv_sane c Hg) Hry) as (dg & m & msg & c1 & E1 & S1).
  set (co1 := CoSend (endpoint target) dg (fun ec => finish_job d
    (co_bind (to_the_end o (m_nextId c) m (sent o target dg m (rounds target) ec)) (after_identity o m)))).
  set (ts1 := <[o := Suspended call c co1 []]> ts).
  assert (move ssl fair (mkSystem c ts) (Begin o) = Some (mkSystem c1 ts1)) as M1.
  { cbn [move s_tasks s_client]. rewrite Ho. unfold call. rewrite discovery_body. by rewrite (ctx_send _ _ _ _ _ _ E1). }
  pose proof (move_inv _ (Begin o) _ _ I M1 Hi) as Hi1. pose proof (si_client _ Hi1) as Hg1. cbn in Hg1.
  pose proof S1 as [_ _ W1 [X1 X2 X3 X4 X5 X6] [P1 P2] C1 N1].
  assert (m_engines c1 !! m_engineId = None) as Hen1 by (by rewrite X1).
  destruct (identity_round o d c c1 dg m msg ts1 call c [] a S1 (ginv_client _ Hg1)) as (r1 & a1 & c2 & Ea1 & A1 & A2 & A3 & Hdg1 & Hcm & Hdrive);
    [unfold engine_slot; by rewrite Hen1|by apply lookup_insert_eq|done|done|].
  unfold discovery_turns. rewrite (converse_do _ _ _ _ _ _ M1).
  destruct Hcm as [[Y1 Y2 Y3 Y4 Y5 Y6] Yk Yn Ys Yc [Yv4 Yv6] Yp].
  set (c3 := with_engine (noted c1) c2) in *.
  assert (m_discoveries c3 !! d = Some x) as Hd3 by (cbn; by rewrite Y4, X4).
  assert (m_pending c3 = m_pending c) as Hpe3 by (cbn; by rewrite Yp, P2, delete_insert_id).
  destruct W1 as [_ _ W13 W14 W15].
  destruct (isAuthenticated (level creds)) eqn:Hau.
  2: { destruct (finish_job_run d x c3 Hd3) as (c5 & E5 & (D1 & D2 & D3 & D4 & [Q1 Q2 Q3 [Q4 Q5]])).
    pose proof (Hdrive _ _ _ E5) as D. unfold ts1 in D at 2. rewrite insert_insert_eq in D.
    eexists c5, a1, (noted c1), _. split; [by rewrite (converse_talk stranger o [] _ _ _ _ _ _ _ _ _ _ _ (lookup_insert_eq _ _ _) Ea1 A3 D)|].
    split; [exact (drive_inv _ _ _ _ (round_given _ _ _ Hdg1) D Hi1)|]. do 2 (split; [done|]). split; [|split].
    - split; [by rewrite Q1; cbn; rewrite Ys|by rewrite Q2; cbn; rewrite Yc|by rewrite Q3|].
      unfold socket_of in *. rewrite Q4, Q5. cbn. by rewrite Yv4, Yv6.
    - split; [|done|by rewrite Hau]. apply engineAt_some. exists m_engineId. rewrite D2, D3. cbn. by rewrite !lookup_insert_eq.
    - by rewrite D1, lookup_insert_eq. }
  destruct (sync_run o c3) as (key & pkey & c0 & dg2 & m2 & msg2 & c4 & K1 & K2 & E2 & [Z1 Z2 Z3 Z4 Z5 Z6] & [Q1 Q2 Q3 [Q4 Q5]] & S2).
  { destruct (ginv_sane c1 Hg1) as [G1 G2]. unfold sane, Engines.keys_ok. cbn. rewrite Yk, Yn. by split. }
  { destruct Hry as [_ _ _ R4 _]. split; [by cbn; rewrite Ys| | |done|by rewrite Hpe3, Hpe].
    - unfold cancelled in *. cbn. by rewrite Yc.
    - unfold socket_of in *. cbn. rewrite Yv4, Yv6, W15. done. }
  { done. }
  pose proof (Hdrive _ _ _ (ctx_send _ _ _ _ _ _ E2)) as D. unfold ts1 in D at 2. rewrite insert_insert_eq in D. cbn [settle] in D.
  rewrite (converse_talk stranger o [Talk o] _ _ _ _ _ _ _ _ _ _ _ (lookup_insert_eq _ _ _) Ea1 A3 D).
  pose proof (drive_inv _ _ _ _ (round_given _ _ _ Hdg1) D Hi1) as Hs4. pose proof (ginv_client _ (si_client _ Hs4)) as Hi4. cbn in Hi4.
  match type of D with _ = Some (mkSystem _ ?t) => set (ts4 := t) in * end.
  pose proof S2 as [_ _ _ [V1 V2 V3 V4 V5 V6] _ _ _].
  assert (m_now c4 = m_now c1) as Hnow by (rewrite V3, Z3; cbn; by rewrite Y3).
  assert (engineAt c4 (endpoint target) = Some (noted c4)) as Hat.
  { apply engineAt_some. exists m_engineId. rewrite V1, V2, Z1, Z2. cbn. rewrite !lookup_insert_eq. unfold noted. by rewrite Hnow. }
  assert (m_discoveries c4 !! d = Some x) as Hd4 by (by rewrite V4, Z4).
  destruct (sync_round o d x key pkey c0 c4 dg2 m2 msg2 ts4 call c _ a1 Hau K1 K2 S2 Hi4 Hat Hd4 (lookup_insert_eq _ _ _) A1 A2)
    as (r2 & a2 & c5 & ws & Ea2 & B1 & B2 & B3 & Hdg2 & D2 & [F1 F2 F3 F4] & Hin & Hdd).
  unfold ts4 in D2 at 2. rewrite insert_insert_eq in D2. eexists c5, a2, _, _.
  split; [by rewrite (converse_talk stranger o [] _ _ _ _ _ _ _ _ _ _ _ (lookup_insert_eq _ _ _) Ea2 B3 D2)|].
  split; [exact (drive_inv _ _ _ _ (round_given _ _ _ Hdg2) D2 Hs4)|]. do 2 (split; [done|]). split; [|split; [exact Hin|exact Hdd]].
  split; [done|rewrite F2, Q2; cbn; by rewrite Yc|by rewrite F3, Q3|done].
Qed.

Lemma v3_served stranger o o2 pdu c (ts : gmap op (Task (Endpoint := Endpoint))) a : sys_inv (ssl := ssl) (mkSystem c ts) ->
  let call := CallRequest target (AuthCredentials creds) pdu in
  ts !! o = Some (Queued call) -> ts !! o2 = None -> ready o2 target c -> m_pending c = ∅ -> m_posted c = [] ->
  m_discovering c !! endpoint target = None -> m_engineAt c !! endpoint target = None -> m_engines c !! m_engineId = None ->
  fits 60000 pdu -> fits 60000 (respondTo pdu) -> agent_inv p a -> spent a ->
  exists s' a' seen,
    converse stranger (ssl := ssl) (Do (Begin o) :: Do (Post o2) :: discovery_turns o2 ++ [Do (Resume o); Talk o]) (mkSystem c ts, a) =
      Some (s', a') /\
    s_tasks s' !! o = Some (Finished call c (RequestResult (no_error, mkResponse (echoed (varbinds pdu)) 0)) seen).
Proof.
  intros Hi call Ho Ho2 [R1 R2 R3 R4 R5] Hpe Hpo Hdi Hat Hen Hf Hfr Ha Hsp. assert (o2 <> o) as Hne by congruence.
  assert (engineAt c (endpoint target) = None) as Hea by (unfold engineAt; by rewrite Hat).
  destruct (request_parks o pdu c R1 Hea Hdi) as (d & E1). fold call in E1. set (c1 := parked o d c) in *.
  set (k := after_discovery o pdu (woken_up o d)) in *. set (ts1 := <[o := Suspended call c (CoEvent d k) []]> ts).
  assert (move ssl fair (mkSystem c ts) (Begin o) = Some (mkSystem c1 ts1)) as M1 by (cbn [move s_tasks s_client]; by rewrite Ho, E1).
  set (job := mkJob target creds d). set (c2 := with_posted [] c1). set (ts2 := <[o2 := Queued (CallDiscovery job)]> ts1).
  assert (move ssl fair (mkSystem c1 ts1) (Post o2) = Some (mkSystem c2 ts2)) as M2.
  { cbn [move s_tasks s_client]. unfold c1, parked. cbn [m_posted with_discoveries with_posted]. rewrite Hpo. cbn [app].
    unfold ts1. by rewrite lookup_insert_ne, Ho2 by done. }
  pose proof (move_inv _ (Post o2) _ _ I M2 (move_inv _ (Begin o) _ _ I M1 Hi)) as Hi2.
  destruct (discovery_served stranger o2 d (mkDiscovery {[o]} ∅ no_error false) c2 ts2 a Hi2) as (c5 & a5 & e & seen5 & E5 & Hi5 & A1 & A2 &
    [B1 B2 B3 B4] & Hin & Hd5); [by apply lookup_insert_eq| |done|done|by apply lookup_insert_eq|done|done|].
  { split; [done| |done|done|done]. unfold cancelled in *. cbn. by rewrite lookup_insert_ne. }
  set (ts5 := <[o2 := _]> ts2) in *. pose proof (si_client _ Hi5) as Hg5. cbn in Hg5.
  assert (ts5 !! o = Some (Suspended call c (CoEvent d k) [])) as Ho5.
  { unfold ts5, ts2, ts1. rewrite !lookup_insert_ne by done. by apply lookup_insert_eq. }
  assert (cancelled o c5 = 0) as Hc5 by (unfold cancelled; rewrite B2; cbn; by rewrite lookup_insert_eq).
  destruct (request_sends o pdu true (last_try o pdu) c5 e Hg5) as (key & pkey & c0 & dg & m & msg & c6 & K1 & K2 & E6 & Hs0 & S6).
  { split; [done|done|by rewrite B4|done|by rewrite B3; cbn; rewrite Hpe]. }
  { done. }
  { done. }
  assert (move ssl fair (mkSystem c5 ts5) (Resume o) = Some (mkSystem c6 (<[o := Suspended call c (CoSend (endpoint target) dg (fun ec =>
    after_v3 m true (last_try o pdu) (to_the_end o (m_nextId c0) m (sent o target dg m (rounds target) ec)))) [Parked d]]> ts5))) as M6.
  { cbn [move s_tasks s_client]. rewrite Ho5. cbn [resume].
    assert (event_over o d c5 = true) as -> by (unfold event_over; rewrite Hd5; apply bool_decide_eq_true; set_solver).
    unfold k. rewrite (woken_run o d _ pdu c5 Hd5 eq_refl eq_refl B1 Hc5).
    by rewrite (ctx_send (K := fun co => co_bind co (fun r => CoRet (RequestResult r))) _ _ _ _ _ _ E6). }
  pose proof (move_inv _ (Resume o) _ _ I M6 Hi5) as Hi6. pose proof (ginv_client _ (si_client _ Hi6)) as Hg6. cbn in Hg6.
  match type of M6 with _ = Some (mkSystem _ ?t) => set (ts6 := t) in * end.
  assert (in_step e c6) as Hin6 by (apply (in_step_same e c0); [apply S6|by apply (in_step_same e c5)]).
  destruct (request_round o pdu true (last_try o pdu) key pkey c0 dg m msg c6 e c5 ts6 call c [Parked d] a5 K1 K2 S6 Hin Hin6 Hg6
    (lookup_insert_eq _ _ _) A1 A2 Hfr) as (r6 & a6 & c7 & ws & Ea & _ & _ & Hs6 & D6).
  eexists _, a6, _. rewrite (converse_do _ _ _ _ _ _ M1), (converse_do _ _ _ _ _ _ M2), (converse_app _ _ _ _ _ E5), (converse_do _ _ _ _ _ _ M6).
  rewrite (converse_talk stranger o [] _ _ _ _ _ _ _ _ _ _ _ (lookup_insert_eq _ _ _) Ea Hs6 D6). split; [done|]. by apply lookup_insert_eq.
Qed.

End Served.

(** C2: An SNMPv3 request and a compliant Agent understand each other, from nothing and at
    every security level.  In a reachable state in which the request is queued and the Client
    knows no Engine at the target, has nothing outstanding and is not stopping: the request
    asks for a discovery; the discovery's identity probe is answered with the Agent's
    engineID; where the user authenticates, its untimely probe is answered with a signed
    Report that gives the Agent's clock; and the request, woken up, is sent in the Agent's
    Time Window, signed and encrypted as the level says, answered, and succeeds with exactly
    the names it asked for, each with the Agent's value. *)
Theorem v3_request_served stranger s o o2 target pdu p a : reachable ssl s -> profile_ok p -> keyed (pr_creds p) ->
  pr_mode p <> ModeV2c -> zlen (userName (pr_creds p)) <= 100 ->
  (privProtocol (pr_creds p) = Des -> OSSL_PROVIDER_load ssl = true) ->
  let c := s_client s in
  let call := CallRequest target (AuthCredentials (pr_creds p)) pdu in
  s_tasks s !! o = Some (Queued call) -> s_tasks s !! o2 = None -> ready o2 target c -> m_pending c = ∅ -> m_posted c = [] ->
  m_discovering c !! endpoint target = None -> m_engineAt c !! endpoint target = None -> m_engines c !! m_engineId = None ->
  fits 60000 pdu -> fits 60000 (respondTo pdu) -> agent_inv p a -> spent a ->
  exists s' a' seen,
    converse stranger (ssl := ssl) (Do (Begin o) :: Do (Post o2) :: discovery_turns p o2 ++ [Do (Resume o); Talk o]) (s, a) = Some (s', a') /\
    s_tasks s' !! o = Some (Finished call c (RequestResult (no_error, mkResponse (echoed (varbinds pdu)) 0)) seen).
Proof. intros Hr Hp Hk Hm Hu Hd. destruct s as [c ts]. by apply v3_served, reachable_inv. Qed.

End V3Composition.
