(* ===== verification/Scenarios.v ===== *)
(** * Scenarios: runs of a Client on concrete input

    A toy network of numbered endpoints, and runs of the scheduler that show the theorems
    of [Operations] at work: a v2c request that is answered, one that is stopped, Walks, and
    an SNMPv3 request that has its Engine discovered first. *)

From stdpp Require Import gmap relations sorting.
From S2P Require Import Prelude Errors Oids Values Ber BerWriter BerReader BerRoundtrip Pdu Usm V3Message Client Engines Coroutine Strand Exchange Requests Walk System Liveness Operations Examples.

(** Endpoints from 100 on are IPv6; 125 is ECANCELED. *)
#[local] Program Instance toy_net : Net nat := {|
  is_v6 n := (100 <=? n)%nat;
  operation_aborted := mkErrorCode 125 systemCategory |}.
Solve Obligations with reflexivity.

#[local] Existing Instance Toy.laws.

Local Notation System := (System (Endpoint := nat)).
Local Notation Move := (Move (Endpoint := nat)).

(** Where a run ends; the first identifier is 5. *)
Definition begun : System := initial 5 1 0.
Definition play (ms : list Move) : System := default begun (drive Toy.ssl fair ms begun).

Definition plays (ms : list Move) : bool := match drive Toy.ssl fair ms begun with Some _ => true | None => false end.

Lemma play_reachable ms : Forall move_given ms -> plays ms = true -> reachable Toy.ssl (play ms).
Proof.
  unfold plays, play. intros Hg Hp. destruct (drive Toy.ssl fair ms begun) as [s|] eqn:E; [|done].
  by apply (drive_reachable Toy.ssl fair ms 5 1 0).
Qed.

(** The moves of a run, one by one. *)
Ltac moves tac := repeat first [apply List.Forall_nil | apply List.Forall_cons; [first [exact I | tac]|]].

(** ** A GET, over v2c *)

Definition public : Community := mkCommunity (str "public").
Definition agent : Target (Endpoint := nat) := default_target 7%nat.
Definition uptime : Oid := [1; 3; 6; 1; 2; 1; 1; 3; 0].
Definition get : Call := asyncGet agent public [uptime].

Lemma uptime_wire : oid_wire uptime.
Proof. split; [apply (bool_decide_unpack _); vm_compute; exact I|reflexivity]. Qed.

Lemma public_given : auth_given (as_auth public).
Proof. split; [apply (bool_decide_unpack _); vm_compute; exact I|vm_compute; discriminate]. Qed.

Lemma get_given : call_given get.
Proof.
  destruct (names_given agent public [uptime]) as [H _]; [apply public_given|cbn; lia| |cbn; lia|exact H].
  apply Forall_singleton, uptime_wire.
Qed.

(** Sent, answered, resumed. *)
Definition get_asked : list Move := [Start 0%nat get; Begin 0%nat; Resume 0%nat].
Definition get_run : list Move := get_asked ++ [Deliver demo_reply_v2c 7%nat; Resume 0%nat].

Lemma get_asked_given : Forall move_given get_asked.
Proof. moves ltac:(apply get_given). Qed.

Lemma get_run_given : Forall move_given get_run.
Proof. apply Forall_app. split; [apply get_asked_given|]. moves ltac:(apply demo_datagram_ok). Qed.

Lemma get_reachable : reachable Toy.ssl (play get_run).
Proof. apply play_reachable; [apply get_run_given|vm_compute; reflexivity]. Qed.

Lemma requests_backed_witness : exists start r seen,
  s_tasks (play get_run) !! 0%nat = Some (Finished get start (RequestResult r) seen) /\
  exists response engineId, r = toResult response /\
    backed_at (ssl := Toy.ssl) (m_received (s_client (play get_run))) agent (as_auth public) engineId response /\
    answers agent (asks (ssl := Toy.ssl) (as_auth public) (makePdu Get (toVarbinds [uptime])) engineId) seen response.
Proof.
  assert (exists start r seen, s_tasks (play get_run) !! 0%nat = Some (Finished get start (RequestResult r) seen) /\
    is_error r.1 = false) as (start & r & seen & E & He) by (eexists _, _, _; split; vm_compute; reflexivity).
  exists start, r, seen. split; [exact E|].
  destruct (requests_backed (play get_run) 0%nat agent (as_auth public) (makePdu Get (toVarbinds [uptime])) start r seen
    get_reachable E) as [(ec & -> & Hx)|H]; [cbn in He; congruence|exact H].
Defined.

Lemma requests_speak_witness : exists start r seen,
  s_tasks (play get_run) !! 0%nat = Some (Finished get start (RequestResult r) seen) /\ (0 < sends seen <= 2)%nat.
Proof.
  assert (exists start r seen, s_tasks (play get_run) !! 0%nat = Some (Finished get start (RequestResult r) seen) /\
    (0 < sends seen)%nat) as (start & r & seen & E & Hn)
    by (eexists _, _, _; split; [vm_compute; reflexivity|vm_compute; lia]).
  exists start, r, seen. split; [exact E|].
  destruct (requests_speak (play get_run) 0%nat agent (as_auth public) (makePdu Get (toVarbinds [uptime])) start r seen
    get_reachable E) as [_ [H _]]. split; [exact Hn|exact H].
Defined.

(** Never answered: two attempts of two seconds. *)
Definition silent_run : list Move :=
  get_asked ++ [Tick 2000000000; Resume 0%nat; Resume 0%nat; Tick 4000000000; Resume 0%nat].

Lemma silent_reachable : reachable Toy.ssl (play silent_run).
Proof.
  apply play_reachable; [|vm_compute; reflexivity]. apply Forall_app. split; [apply get_asked_given|moves ltac:(exact I)].
Qed.


(** Begun too late. *)
Definition late_run : list Move := [Stop; Start 0%nat get; Begin 0%nat].

Lemma late_reachable : reachable Toy.ssl (play late_run).
Proof. apply play_reachable; [moves ltac:(apply get_given)|vm_compute; reflexivity]. Qed.

Lemma requests_refused_early_witness : exists start r,
  s_tasks (play late_run) !! 0%nat = Some (Finished get start (RequestResult r) []) /\
  r = refuse (make_error_code ClientStopped).
Proof.
  assert (exists start r seen, s_tasks (play late_run) !! 0%nat = Some (Finished get start (RequestResult r) seen) /\
    refused_early start (as_auth public) = Some ClientStopped) as (start & r & seen & E & Hx)
    by (eexists _, _, _; split; vm_compute; reflexivity).
  destruct (requests_refused_early (play late_run) 0%nat agent (as_auth public) (makePdu Get (toVarbinds [uptime])) start r seen
    ClientStopped late_reachable E Hx) as [-> ->].
  exists start, (refuse (make_error_code ClientStopped)). split; [exact E|reflexivity].
Defined.

(** Stopped while it waits. *)
Definition stopped_run : list Move := get_asked ++ [Stop; FinishStopping].

Lemma stopped_reachable : reachable Toy.ssl (play stopped_run).
Proof.
  apply play_reachable; [|vm_compute; reflexivity]. apply Forall_app. split; [apply get_asked_given|moves ltac:(exact I)].
Qed.

Lemma requests_end_when_told_witness : exists s' start r seen, step Toy.ssl (play stopped_run) s' /\
  s_tasks s' !! 0%nat = Some (Finished get start (RequestResult r) seen) /\
  exists ec, r = refuse ec /\ ended 0%nat (s_client s') ec.
Proof.
  assert (exists s' start r seen, move Toy.ssl fair (play stopped_run) (Resume 0%nat) = Some s' /\
    s_tasks s' !! 0%nat = Some (Finished get start (RequestResult r) seen) /\ ending 0%nat (s_client s') = true)
    as (s' & start & r & seen & M & E & He) by (eexists _, _, _, _; split; [|split]; vm_compute; reflexivity).
  assert (step Toy.ssl (play stopped_run) s') as Hs by (apply (move_step Toy.ssl fair _ (Resume 0%nat)); [exact I|exact M]).
  exists s', start, r, seen. split; [exact Hs|]. split; [exact E|].
  apply (requests_end_when_told (play stopped_run) s' 0%nat agent (as_auth public) (makePdu Get (toVarbinds [uptime])) start r seen
    stopped_reachable Hs); [vm_compute; reflexivity|exact E|exact He].
Defined.

(** ** Walks *)

Definition system : Oid := [1; 3; 6; 1; 2; 1; 1].

(** One value inside the Subtree, one past it. *)
Definition walk_reply : Octets :=
  match encodeV2cMessage (str "public") (mkPdu Response 5 0 0
          [mkVarbind uptime (ValTimeTicks 4711); mkVarbind [1; 3; 6; 1; 2; 1; 2; 1; 0] (ValTimeTicks 1)]) tt with
  | Done (inr out) _ => out
  | _ => []
  end.

Definition walk_run (call : Call) : list Move :=
  [Start 0%nat call; Begin 0%nat; Resume 0%nat; Deliver walk_reply 7%nat; Resume 0%nat].

Lemma walk_run_given call : call_given call -> Forall move_given (walk_run call).
Proof.
  intros Hc. moves ltac:(first [exact Hc|split; [apply (bool_decide_unpack _); vm_compute; exact I|vm_compute; discriminate]]).
Qed.

Definition stream : Call := asyncWalk agent public system default_walk.
Definition collect : Call := asyncWalkCollect agent public system default_walk.

Lemma system_wire : oid_wire system.
Proof. split; [apply (bool_decide_unpack _); vm_compute; exact I|reflexivity]. Qed.

Lemma walk_args_given : auth_given (as_auth public) /\ Oids.oid_ok system /\ int32_ok (maxRepetitions default_walk) /\ 0 <= timeout agent.
Proof.
  split; [apply public_given|]. split; [apply system_wire|]. split; [unfold int32_ok; cbn; lia|cbn; lia].
Qed.

Lemma stream_reachable : reachable Toy.ssl (play (walk_run stream)).
Proof. apply play_reachable; [apply walk_run_given, walk_args_given|vm_compute; reflexivity]. Qed.

Lemma collect_reachable : reachable Toy.ssl (play (walk_run collect)).
Proof. apply play_reachable; [apply walk_run_given, walk_args_given|vm_compute; reflexivity]. Qed.


Lemma walks_tell_the_end_witness : exists start seen,
  s_tasks (play (walk_run stream)) !! 0%nat = Some (Finished stream start (WalkResult no_error) seen) /\ heeds true seen.
Proof.
  assert (exists start ec seen, s_tasks (play (walk_run stream)) !! 0%nat = Some (Finished stream start (WalkResult ec) seen) /\
    ec = no_error) as (start & ec & seen & E & ->) by (eexists _, _, _; split; vm_compute; reflexivity).
  exists start, seen. split; [exact E|].
  destruct (walks_tell_the_end (play (walk_run stream)) 0%nat agent (as_auth public) system default_walk start no_error seen
    stream_reachable E) as (more & Hh & _ & H). destruct (H eq_refl) as [-> _]. exact Hh.
Defined.

Lemma walks_collect_witness : exists start r seen,
  s_tasks (play (walk_run collect)) !! 0%nat = Some (Finished collect start (CollectResult r) seen) /\
  vb_name <$> r.2 = [uptime] /\ Forall (in_subtree system) r.2.
Proof.
  assert (exists start r seen, s_tasks (play (walk_run collect)) !! 0%nat = Some (Finished collect start (CollectResult r) seen) /\
    vb_name <$> r.2 = [uptime]) as (start & r & seen & E & Hn) by (eexists _, _, _; split; vm_compute; reflexivity).
  exists start, r, seen. split; [exact E|]. split; [exact Hn|].
  destruct (walks_collect (play (walk_run collect)) 0%nat agent (as_auth public) system default_walk start r seen
    collect_reachable E) as (_ & H & _). exact H.
Defined.

Lemma begun_ginv : ginv (ssl := Toy.ssl) (s_client begun).
Proof. exact (si_client _ (initial_inv 5 1 0 ltac:(lia))). Qed.


(** ** A GET, over SNMPv3 *)

Definition user : Credentials := mkCredentials (str "user") NoAuthNoPriv AuthNone [] PrivNone [].
Definition get_v3 : Call := asyncGet agent user [uptime].

Lemma user_given : auth_given (as_auth user).
Proof.
  split; [apply (bool_decide_unpack _); vm_compute; exact I|]. split; [vm_compute; discriminate|]. split; apply List.Forall_nil.
Qed.

Lemma get_v3_given : call_given get_v3.
Proof.
  destruct (names_given agent user [uptime]) as [H _]; [apply user_given|cbn; lia| |cbn; lia|exact H].
  apply Forall_singleton, uptime_wire.
Qed.

(** The Report that says who is there. *)
Definition identity : Octets :=
  match encodeV3Message Toy.ssl (mkV3Header 5 65507 NoAuthNoPriv false 3) (mkUsmParameters demo_engine_id 3 900 [] [] [])
          (mkScopedPdu demo_engine_id [] (mkPdu Report 5 0 0 [mkVarbind [1; 3; 6; 1; 6; 3; 15; 1; 1; 4; 0] (ValCounter32 1)]))
          AuthNone [] PrivNone [] 1 with
  | Done (inr out) _ => out
  | _ => []
  end.

(** Waiting for the discovery it asked for; and that discovery over. *)
Definition parked_run : list Move := [Start 0%nat get_v3; Begin 0%nat].
Definition discovery_run : list Move :=
  parked_run ++ [Post 1%nat; Begin 1%nat; Resume 1%nat; Deliver identity 7%nat; Resume 1%nat].

Lemma parked_given : Forall move_given parked_run.
Proof. moves ltac:(apply get_v3_given). Qed.

Lemma parked_reachable : reachable Toy.ssl (play parked_run).
Proof. apply play_reachable; [apply parked_given|vm_compute; reflexivity]. Qed.

Lemma discovery_reachable : reachable Toy.ssl (play discovery_run).
Proof.
  apply play_reachable; [|vm_compute; reflexivity]. apply Forall_app. split; [apply parked_given|].
  moves ltac:(split; [apply (bool_decide_unpack _); vm_compute; exact I|vm_compute; discriminate]).
Qed.



(** Found, and then never answered. *)
Definition silent_v3_run : list Move :=
  discovery_run ++ [Resume 0%nat; Resume 0%nat; Tick 2000000000; Resume 0%nat; Resume 0%nat; Tick 4000000000; Resume 0%nat].

Lemma silent_v3_reachable : reachable Toy.ssl (play silent_v3_run).
Proof.
  apply play_reachable; [|vm_compute; reflexivity]. apply Forall_app. split; [|moves ltac:(exact I)].
  apply Forall_app. split; [apply parked_given|].
  moves ltac:(split; [apply (bool_decide_unpack _); vm_compute; exact I|vm_compute; discriminate]).
Qed.


(** The discovery the first operation waits for, if it does. *)
Definition parked_on (s : System) : option loc :=
  match s_tasks s !! 0%nat with Some (Suspended _ _ (CoEvent d _) _) => Some d | _ => None end.

Lemma waiters_served_witness : exists job, job ∈ m_posted (s_client (play parked_run)) /\ j_discovery job = (0, 0)%nat.
Proof.
  assert (parked_on (play parked_run) = Some (0, 0)%nat) as P by (vm_compute; reflexivity). unfold parked_on in P.
  destruct (s_tasks (play parked_run) !! 0%nat) as [[|call start [| | | | |d k|] seen|]|] eqn:E; try discriminate P.
  injection P as ->.
  destruct (waiters_served (play parked_run) 0%nat call start (0, 0)%nat k seen parked_reachable E)
    as [Ho|[H|(o' & t & Hne & Ho' & _)]]; [vm_compute in Ho; discriminate|exact H|].
  assert (dom (s_tasks (play parked_run)) = {[0%nat]}) as Hd by (vm_compute; reflexivity).
  apply elem_of_dom_2 in Ho'. rewrite Hd in Ho'. set_solver.
Defined.

Lemma moves_defined_witness : is_Some (move Toy.ssl fair (play get_asked) (Deliver demo_reply_v2c 7%nat)).
Proof.
  apply (moves_defined fair (play get_asked) (Deliver demo_reply_v2c 7%nat)); [|apply demo_datagram_ok|vm_compute; reflexivity].
  apply play_reachable; [apply get_asked_given|vm_compute; reflexivity].
Defined.

(** In a network in which no socket opens. *)
Definition broken : World (Endpoint := nat) :=
  mkWorld (fun _ _ => mkErrorCode 24 systemCategory) (fun _ _ _ => no_error) (fun _ _ => true).

Lemma operations_complete_witness : exists ms s' start answer seen, Forall patient ms /\
  drive Toy.ssl broken ms (play parked_run) = Some s' /\ s_tasks s' !! 0%nat = Some (Finished get_v3 start answer seen).
Proof.
  assert (option_map task_call (s_tasks (play parked_run) !! 0%nat) = Some get_v3) as P by (vm_compute; reflexivity).
  destruct (s_tasks (play parked_run) !! 0%nat) as [t|] eqn:E; [|discriminate P]. injection P as P.
  destruct (operations_complete broken (play parked_run) 0%nat t parked_reachable E) as (ms & s' & start & a & seen & H1 & H2 & H3).
  exists ms, s', start, a, seen. split; [exact H1|]. split; [exact H2|]. rewrite P in H3. exact H3.
Defined.

(** ** One exchange *)

Definition exchange : Pending (Endpoint := nat) := with_community (str "public") (blank_pending 7%nat 5).

Lemma exchange_ginv : ginv (ssl := Toy.ssl) (updated (s_client begun) (0, 0)%nat exchange).
Proof.
  apply (fresh_guar 0%nat (s_client begun)); [reflexivity|reflexivity| |apply begun_ginv].
  apply blank_answer_ok; [reflexivity|reflexivity|]. intros Hx. discriminate Hx.
Qed.


(** ** Two waits that last longer than they need to *)

(** Whether an operation's wait is over. *)
Definition can_resume (o : op) (s : System) : bool :=
  match move Toy.ssl fair s (Resume o) with Some _ => true | None => false end.

(** What a request came to. *)
Definition outcome (o : op) (s : System) : option ErrorCode :=
  match s_tasks s !! o with Some (Finished _ _ (RequestResult r) _) => Some r.1 | _ => None end.

(** A reply that is delivered while the send is in flight ends no wait: the request arms its
    timer and waits out the deadline, and then succeeds. *)
Example early_reply_waits :
  let early := [Start 0%nat get; Begin 0%nat; Deliver demo_reply_v2c 7%nat; Resume 0%nat] in
  can_resume 0%nat (play early) = false /\
  outcome 0%nat (play (early ++ [Tick 2000000000; Resume 0%nat])) = Some no_error.
Proof. split; vm_compute; reflexivity. Qed.

(** A terminal signal (1) after a total one (4) is not noticed before the deadline. *)
Example terminal_after_total_waits :
  let told := get_asked ++ [Signal 0%nat 4; Resume 0%nat; Signal 0%nat 1] in
  can_resume 0%nat (play told) = false /\
  outcome 0%nat (play (told ++ [Tick 2000000000; Resume 0%nat])) = Some operation_aborted.
Proof. split; vm_compute; reflexivity. Qed.

(** ** A request that has no encoding *)

(** Neither a v2c request nor anything of it leaves the Client. *)
Example unencodable_refused :
  let call := asyncGet agent public [[9; 9]] in
  match s_tasks (play [Start 0%nat call; Begin 0%nat]) !! 0%nat with
  | Some (Finished _ _ (RequestResult r) seen) => r = refuse (make_error_code OidNotEncodable) /\ seen = []
  | _ => False
  end.
Proof. vm_compute. by split. Qed.

(** ** The example programs *)

(** Addresses are digits, and name the endpoint whatever the port. *)
Definition toy_asio : Asio nat :=
  mkAsio nat nat (fun text => Z.to_nat <$> atoi text) (fun address _ => address) (fun _ => str "system error").

Definition get_argv : list cstring := [str "example-get"; str "7"; str "161"; str "public"].
Definition get_descr : Call := asyncGet agent public [sysDescr].

Definition descr_run (reply : Octets) : list Move :=
  [Start 0%nat get_descr; Begin 0%nat; Resume 0%nat; Deliver reply 7%nat; Resume 0%nat].

Lemma get_descr_launched : main_of toy_asio ExampleGet get_argv = Launches (get_descr, None).
Proof. reflexivity. Qed.

Lemma get_descr_given : call_given get_descr.
Proof.
  apply (main_given toy_asio ExampleGet get_argv _ None); [|apply get_descr_launched].
  split; [apply (bool_decide_unpack _); vm_compute; exact I|cbn; lia].
Qed.

Lemma descr_reachable reply : datagram_ok reply -> plays (descr_run reply) = true -> reachable Toy.ssl (play (descr_run reply)).
Proof. intros Hr. apply play_reachable. moves ltac:(apply get_descr_given || apply Hr). Qed.

Lemma programs_honest_witness : exists start answer seen said,
  main_of toy_asio ExampleGet get_argv = Launches (get_descr, None) /\
  s_tasks (play (descr_run demo_reply_v2c)) !! 0%nat = Some (Finished get_descr start answer seen) /\
  finish_of toy_asio ExampleGet None answer (batches seen) = Some ([Out said], 0) /\
  honest (ssl := Toy.ssl) (m_received (s_client (play (descr_run demo_reply_v2c)))) get_descr None answer seen [Out said].
Proof.
  assert (exists start answer seen said, s_tasks (play (descr_run demo_reply_v2c)) !! 0%nat = Some (Finished get_descr start answer seen) /\
    finish_of toy_asio ExampleGet None answer (batches seen) = Some ([Out said], 0)) as (start & answer & seen & said & E & Ef)
    by (eexists _, _, _, _; split; vm_compute; reflexivity).
  exists start, answer, seen, said. split; [apply get_descr_launched|]. split; [exact E|]. split; [exact Ef|].
  pose proof (programs_honest (ssl := Toy.ssl) toy_asio ExampleGet get_argv get_descr None (play (descr_run demo_reply_v2c)) 0%nat start answer seen
    get_descr_launched (descr_reachable demo_reply_v2c (proj1 demo_datagram_ok) ltac:(vm_compute; reflexivity)) E) as Hh.
  cbn zeta in Hh. rewrite Ef in Hh. exact Hh.
Defined.

(** A Response without Varbinds, as any Agent may send. *)
Definition bare_reply : Octets :=
  [48; 24; 2; 1; 1; 4; 6; 112; 117; 98; 108; 105; 99; 162; 11; 2; 1; 5; 2; 1; 0; 2; 1; 0; 48; 0].

(** [get.cpp] takes the first Varbind of a Response without looking whether there is one:
    one datagram from the Agent makes it undefined. *)
Theorem get_front_undefined : exists s o start answer seen,
  main_of toy_asio ExampleGet get_argv = Launches (get_descr, None) /\ reachable Toy.ssl s /\
  s_tasks s !! o = Some (Finished get_descr start answer seen) /\
  finish_of toy_asio ExampleGet None answer (batches seen) = None.
Proof.
  exists (play (descr_run bare_reply)), 0%nat. eexists _, _, _. split; [apply get_descr_launched|]. split.
  - apply descr_reachable; [|vm_compute; reflexivity]. split; [apply (bool_decide_unpack _); vm_compute; exact I|vm_compute; discriminate].
  - split; [vm_compute; reflexivity|vm_compute; reflexivity].
Qed.

(** A port that does not fit an [int] is undefined, and one that does not fit sixteen bits
    is another port. *)
Example ports_wrap : atoi (str "99999999999") = None /\
  (fun port => wrap 16 port) <$> atoi (str "65697") = (fun port => wrap 16 port) <$> atoi (str "161").
Proof. split; vm_compute; reflexivity. Qed.
