(* ===== verification/Oracle.v ===== *)
(** * Oracle: what the fuzzer holds against the Client

    Models [fuzz/FuzzClient.cpp]: how an iteration is set up from the fuzzer's input, the
    [Ledger] of what the Agent's datagrams entitle each request to, the [Handler] that counts
    completions, and the judgement of each completion by the rules of the threat model.
    [violated] ends the process: an operation that calls it gives the rule it names.  The
    message it prints, and the event loop between the set-up and the judgement, are not
    modelled here: that loop is the scheduler of [System], and the Agent of [Agent]. *)

From stdpp Require Import gmap.
From S2P Require Import Prelude Errors Oids Values Ber BerWriter BerReader BerRoundtrip Pdu Usm V3Message Client Engines Coroutine Strand Exchange Requests Walk System Liveness Operations Agent.

Module Oracle.

(** What [violated] is told. *)
Inductive Rule : Type := L1 | R5 | R6 | R8.

#[export] Instance Rule_eq_dec : EqDecision Rule.
Proof. solve_decision. Defined.

(** ** The set-up *)

(** [static_cast<Mode>(n)]. *)
Definition Mode_of (n : nat) : Mode :=
  match n with 0%nat => ModeV2c | 1%nat => ModeNoAuthNoPriv | 2%nat => ModeAuthNoPriv | _ => ModeAuthPriv end.

Definition auths : list AuthProtocol := [Md5; Sha1; Sha256].
Definition privs : list PrivProtocol := [Aes128; Aes256; Des].

Definition readProfile : M Script.Script Profile :=
  let! i := Script.pick 4 in
  let mode := Mode_of i in
  let with_creds creds := mkProfile mode (mkCommunity (str "public")) creds in
  if bool_decide (mode = ModeV2c) then ret (with_creds (mkCredentials [] NoAuthNoPriv AuthNone [] PrivNone []))
  else if bool_decide (mode = ModeNoAuthNoPriv)
  then ret (with_creds (mkCredentials (str "fuzzer") NoAuthNoPriv AuthNone [] PrivNone []))
  else
    let! i := Script.pick (length auths) in
    let! auth := deref (auths !! i) in
    if bool_decide (mode = ModeAuthNoPriv)
    then ret (with_creds (mkCredentials (str "fuzzer") AuthNoPriv auth (str "maplesyrup") PrivNone []))
    else
      let! i := Script.pick (length privs) in
      let! priv := deref (privs !! i) in
      ret (with_creds (mkCredentials (str "fuzzer") AuthPriv auth (str "maplesyrup") priv (str "pancakemix"))).

(** ** Reports *)

Definition reportError (report : Pdu) : ErrorCode :=
  let prefix := [1; 3; 6; 1; 6; 3; 15; 1; 1] in
  match varbinds report with
  | [] => make_error_code UnexpectedReport
  | vb :: _ =>
      let name := vb_name vb in
      if negb (Oids.isPrefixOf prefix name) || (length name <=? length prefix)%nat then make_error_code UnexpectedReport
      else match Oids.subid name (length prefix) with
           | 1 => make_error_code UnsupportedSecurityLevel
           | 2 => make_error_code NotInTimeWindow
           | 3 => make_error_code UnknownUserName
           | 4 => make_error_code UnknownEngineId
           | 5 => make_error_code AuthFailed
           | 6 => make_error_code DecryptionError
           | _ => make_error_code UnexpectedReport
           end
  end.

(** ** The Ledger *)

Record Entitlement : Type := mkEntitlement { responses : list Pdu; errors : list ErrorCode }.

(** [m_agent] is the Agent beside it, below. *)
Record Ledger : Type := mkLedger {
  m_sent : list Octets;
  m_entitlements : list Entitlement;
  m_discoveryErrors : list ErrorCode;
  m_unattributed : bool }.

Definition new (requests : nat) : Ledger := mkLedger [] (replicate requests (mkEntitlement [] [])) [] false.

Definition sent (datagram : Octets) (fromTarget : bool) (l : Ledger) : Ledger :=
  if fromTarget then mkLedger (m_sent l ++ [datagram]) (m_entitlements l) (m_discoveryErrors l) (m_unattributed l) else l.

(** [at] throws if there is no such request, and nothing catches it. *)
Definition entitlement {S} (request : nat) (l : Ledger) : M S Entitlement := deref (m_entitlements l !! request).

Definition discoveryErrors (l : Ledger) : list ErrorCode := m_discoveryErrors l.
Definition unattributed (l : Ledger) : bool := m_unattributed l.

(** The Ledger, and the Agent it reads. *)
Record Bench : Type := mkBench { b_agent : Agent; b_ledger : Ledger }.

Definition with_agent (a : Agent) (b : Bench) : Bench := mkBench a (b_ledger b).
Definition update (f : Ledger -> Ledger) : M Bench unit := modify (fun b => mkBench (b_agent b) (f (b_ledger b))).

Definition push_discovery (e : ErrorCode) : M Bench unit :=
  update (fun l => mkLedger (m_sent l) (m_entitlements l) (m_discoveryErrors l ++ [e]) (m_unattributed l)).

Definition grantDiscovery (e : Errc) : M Bench unit := push_discovery (make_error_code e).

Definition credit (seen : Seen) (grant : Entitlement -> Entitlement) : M Bench unit :=
  match owner seen with
  | OwnerRequest =>
      update (fun l =>
        if (requestIndex seen <? length (m_entitlements l))%nat
        then mkLedger (m_sent l) (alter grant (requestIndex seen) (m_entitlements l)) (m_discoveryErrors l) (m_unattributed l)
        else l)
  | OwnerDiscovery => ret tt
  | OwnerUnknown => update (fun l => mkLedger (m_sent l) (m_entitlements l) (m_discoveryErrors l) true)
  end.

Definition push_response (pdu : Pdu) (e : Entitlement) : Entitlement := mkEntitlement (responses e ++ [pdu]) (errors e).
Definition push_error (ec : ErrorCode) (e : Entitlement) : Entitlement := mkEntitlement (responses e) (errors e ++ [ec]).

Section Settling.
Context (ssl : OpenSSL).

Definition settleV2c (datagram : Octets) : M Bench unit :=
  let! r := decodeV2cMessage datagram in
  match r with
  | inl _ => ret tt
  | inr msg =>
      let! b := get_st in
      if negb (bool_decide (pdu_type (v2c_pdu msg) = Response)) then ret tt
      else if negb (bool_decide (v2c_community msg = value (pr_community (a_profile (b_agent b))))) then ret tt
      else match seen (requestId (v2c_pdu msg)) (b_agent b) with
           | None => ret tt
           | Some seen => credit seen (push_response (v2c_pdu msg))
           end
  end.

(** The rest, for a message that was opened and is not discarded. *)
Definition settle_opened (seen : Seen) (msg : V3Message) (isReport verified : bool) : M Bench unit :=
  let pdu := s_pdu (scoped msg) in
  if bool_decide (owner seen = OwnerDiscovery) then
    if bool_decide (sn_engineId seen = []) then
      if bool_decide (u_engineId (security msg) = []) then grantDiscovery UnknownEngineId else ret tt
    else
      (if isReport && negb verified then
         let error := reportError pdu in
         if negb (bool_decide (error = make_error_code NotInTimeWindow)) then push_discovery error else ret tt
       else ret tt) ;;;
      (if verified && (u_boots (security msg) =? 2147483647) then grantDiscovery NotInTimeWindow else ret tt)
  else if isReport then credit seen (push_error (reportError pdu))
  else if bool_decide (owner seen = OwnerRequest) &&
          (negb (bool_decide (u_engineId (security msg) = sn_engineId seen)) ||
           negb (bool_decide (pdu_type pdu = Response)) ||
           negb (requestId pdu =? msgId (header msg)))
  then ret tt
  else credit seen (push_response pdu).

Definition settleV3 (datagram : Octets) : M Bench unit :=
  let! r := decodeV3Message datagram in
  match r with
  | inl _ => ret tt
  | inr msg =>
      let! b := get_st in
      match seen (msgId (header msg)) (b_agent b) with
      | None => ret tt
      | Some seen =>
          let creds := pr_creds (a_profile (b_agent b)) in
          let authRequired := isAuthenticated (sn_level seen) in
          let! keys := zoom b_agent with_agent (keysFor ssl creds (sn_engineId seen)) in
          let! verified := (if authRequired && isAuthenticated (h_level (header msg))
                            then succeeds (verifyAuth ssl datagram msg (authProtocol creds) (k_auth keys))
                            else ret false) in
          let encrypted := isEncrypted (h_level (header msg)) in
          let! opened := (if encrypted then
                            if negb verified then ret None
                            else
                              let! r := decryptScopedPdu ssl msg (privProtocol creds) (k_priv keys) in
                              ret (match r with inr msg => Some msg | inl _ => None end)
                          else ret (Some msg)) in
          match opened with
          | None => ret tt
          | Some msg =>
              let isReport := bool_decide (pdu_type (s_pdu (scoped msg)) = Report) in
              let exempt := isReport && negb encrypted && negb (isAuthenticated (h_level (header msg))) in
              if authRequired && negb exempt && negb verified then ret tt
              else settle_opened seen msg isReport verified
          end
      end
  end.

Fixpoint settle_loop (datagrams : list Octets) : M Bench unit :=
  match datagrams with
  | [] => ret tt
  | datagram :: rest =>
      let! b := get_st in
      (if bool_decide (pr_mode (a_profile (b_agent b)) = ModeV2c) then settleV2c datagram else settleV3 datagram) ;;;
      settle_loop rest
  end.

Definition settle : M Bench unit :=
  let! b := get_st in
  settle_loop (m_sent (b_ledger b)).

End Settling.

(** ** Completions *)

(** [elapsed] in nanoseconds. *)
Record Outcome : Type := mkOutcome {
  invocations : Z;
  destructions : Z;
  code : ErrorCode;
  response : ResponseResult;
  elapsed : Z }.

Definition blank : Outcome := mkOutcome 0 0 no_error empty_response 0.

(** A handler shares its record, one of a list of them, or has been moved from. *)
Record Handler : Type := mkHandler { m_outcome : option nat; m_started : Z }.

(** [Handler(Handler&& other)]: what is made, and what is left of [other]. *)
Definition move_from (other : Handler) : Handler * Handler :=
  (mkHandler (m_outcome other) (m_started other), mkHandler None (m_started other)).

(** [~Handler()]. *)
Definition destroy (h : Handler) (os : list Outcome) : list Outcome :=
  match m_outcome h with
  | None => os
  | Some i => alter (fun o => mkOutcome (invocations o) (destructions o + 1) (code o) (response o) (elapsed o)) i os
  end.

(** [operator()] at [now]; a handler without a record violates L1. *)
Definition invoke (now : Z) (h : Handler) (ec : ErrorCode) (r : ResponseResult) (os : list Outcome) : Rule + list Outcome :=
  match m_outcome h with
  | None => inl L1
  | Some i => inr (alter (fun o => mkOutcome (invocations o + 1) (destructions o) ec r (now - m_started h)) i os)
  end.

(** ** Judgement *)

Definition isDropReason (ec : ErrorCode) : bool :=
  bool_decide (ec = make_error_code AuthFailed) || bool_decide (ec = make_error_code DecryptionFailed) ||
  bool_decide (ec = make_error_code NotInTimeWindow).

(** Whether a Response carried what the request completed with. *)
Definition carries (o : Outcome) (pdu : Pdu) : bool :=
  let status := if is_error (code o) then ec_value (code o) else 0 in
  (errorStatus pdu =? status) && (errorIndex pdu =? r_errorIndex (response o)) &&
  bool_decide (varbinds pdu = r_varbinds (response o)).

Section Judgement.
Context {Endpoint : Type}.
Local Notation Target := (Target (Endpoint := Endpoint)).

Definition judge {S} (request : nat) (o : Outcome) (l : Ledger) (p : Profile) (target : Target) : M S (option Rule) :=
  let! entitled := entitlement request l in
  let rule := if bool_decide (pr_mode p = ModeV2c) || bool_decide (pr_mode p = ModeNoAuthNoPriv) then R8 else R6 in
  if negb (is_error (code o)) || bool_decide (ec_category (code o) = agentErrorCategory) then
    ret (if existsb (carries o) (responses entitled) then None else Some rule)
  else
    let atDeadline := timeout target * (retries target + 1) * 1000000 <=? elapsed o in
    if bool_decide (code o = make_error_code Timeout) then ret (if negb atDeadline then Some R5 else None)
    else
      let spoken := negb (bool_decide (pr_mode p = ModeV2c)) in
      if spoken && (bool_decide (code o ∈ errors entitled) || bool_decide (code o ∈ discoveryErrors l)) then ret None
      else if spoken && isDropReason (code o) then ret (if negb atDeadline then Some R5 else None)
      else if bool_decide (code o = make_error_code LegacyProviderUnavailable) && bool_decide (privProtocol (pr_creds p) = Des)
      then ret None
      else ret (Some rule).

(** ** An iteration *)

Record Setup : Type := mkSetup { s_profile : Profile; s_requests : nat; s_target : Target }.

(** The part of [run] before the event loop; the Agent reads on in the script. *)
Definition prepare (agentEndpoint : Endpoint) : M Script.Script Setup :=
  let! profile := readProfile in
  let! n := Script.pick 4 in
  let! r := Script.pick 2 in
  ret (mkSetup profile (1 + n) (mkTarget agentEndpoint 25 (Z.of_nat r))).

Definition request_call (s : Setup) (i : nat) : Call (Endpoint := Endpoint) :=
  if bool_decide (pr_mode (s_profile s) = ModeV2c)
  then asyncGet (s_target s) (pr_community (s_profile s)) [requestOid i]
  else asyncGet (s_target s) (pr_creds (s_profile s)) [requestOid i].

Definition request_calls (s : Setup) : list (Call (Endpoint := Endpoint)) := map (request_call s) (seq 0 (s_requests s)).

Fixpoint judge_all {S} (todo : list nat) (s : Setup) (os : list Outcome) (l : Ledger) : M S (option Rule) :=
  match todo with
  | [] => ret None
  | i :: todo' =>
      let! o := deref (os !! i) in
      let! v := judge i o l (s_profile s) (s_target s) in
      match v with Some rule => ret (Some rule) | None => judge_all todo' s os l end
  end.

(** And the part after it: [os] are the requests' records. *)
Definition conclude (ssl : OpenSSL) (s : Setup) (os : list Outcome) (stranded : bool) : M Bench (option Rule) :=
  if existsb (fun o => negb (invocations o =? 1) || negb (destructions o =? 1)) os then ret (Some L1)
  else if stranded then ret (Some L1)
  else
    settle ssl ;;;
    let! b := get_st in
    if unattributed (b_ledger b) then ret None else judge_all (seq 0 (s_requests s)) s os (b_ledger b).

End Judgement.

End Oracle.
