(* ===== verification/OracleTheory.v ===== *)
(** * OracleTheory: the judgement is fair

    The theory of [Oracle]: the set-up of an iteration is one the Client accepts, the Ledger
    classifies whatever the Agent sends and entitles each request to exactly the Responses
    that match it, and a Client that keeps its contract is not accused. *)

From stdpp Require Import gmap relations.
From S2P Require Import Prelude Errors Oids Values Ber BerWriter BerReader BerRoundtrip Pdu Usm V3Message Echo Client Engines Coroutine Strand Exchange Requests Walk System Liveness Operations Agent AgentTheory Oracle.

Import Oracle.

(** ** Reports *)

Lemma isPrefixOf_longer o other : Oids.isPrefixOf o other = true -> (length o <= length other)%nat.
Proof. unfold Oids.isPrefixOf. destruct (Nat.ltb_spec (length other) (length o)); [done|lia]. Qed.

(** The oracle's own reading of a Report is the Client's: the error it names for a PDU is
    the one [handleReport] fails a request with. *)
Theorem reportError_agrees pdu : Oracle.reportError pdu = Client.reportError (usmStatsCounter pdu).
Proof.
  unfold Oracle.reportError, usmStatsCounter, usmStatsPrefix. destruct (varbinds pdu) as [|vb vbs]; [done|].
  set (prefix := [1; 3; 6; 1; 6; 3; 15; 1; 1]). destruct (negb _ || _) eqn:E; [done|].
  apply orb_false_iff in E as [_ Hl%Nat.leb_gt]. unfold Oids.subid.
  destruct (lookup_lt_is_Some_2 (vb_name vb) (length prefix) Hl) as [n ->]. cbn [default].
  unfold Client.reportError, usmStatsUnsupportedSecLevels, usmStatsNotInTimeWindows, usmStatsUnknownUserNames,
    usmStatsUnknownEngineIds, usmStatsWrongDigests, usmStatsDecryptionErrors.
  repeat match goal with |- context [n =? ?k] => destruct (Z.eqb_spec n k) as [->|]; [done|] end.
  destruct n as [|[[[]|[]|]|[[]|[]|]|]|]; done.
Qed.

(** ** Which request a datagram is for *)

(** The name a request asks for tells its number. *)
Lemma requestIndexOf_oid i id t st ix : Z.of_nat i + 1 < 2 ^ 32 ->
  requestIndexOf (mkPdu t id st ix (toVarbinds [requestOid i])) = Some i.
Proof.
  intros Hi. unfold requestIndexOf, requestOid. cbn [varbinds toVarbinds map vb_name].
  rewrite wrap_small by lia. set (k := Z.of_nat i + 1). change (length _ =? _)%nat with true.
  unfold Oids.isPrefixOf, Oids.subid. cbn. destruct (Z.eqb_spec k 0); [lia|]. f_equal. lia.
Qed.

Lemma requestOid_ok i : Z.of_nat i + 1 < 2 ^ 32 -> Forall uint32_ok (requestOid i).
Proof.
  intros Hi. unfold requestOid. rewrite wrap_small by lia.
  repeat (apply List.Forall_cons; [unfold uint32_ok; lia|]). apply List.Forall_nil.
Qed.

Lemma requestOid_wire i : Z.of_nat i + 1 < 2 ^ 32 -> oid_wire (requestOid i).
Proof. intros Hi. split; [by apply requestOid_ok|]. unfold requestOid. by rewrite wrap_small by lia. Qed.

Section OracleTheory.
Context {ssl : OpenSSL} {L : OpenSSLLaws ssl}.
Implicit Types (a : Agent) (p : Profile) (l : Ledger) (b : Bench) (i : nat) (d : Octets).

(** ** Reading what was sent *)

(** The checks of [verifyAuth] and [decryptScopedPdu], as functions. *)
Definition verifies (d : Octets) (msg : V3Message) (auth : AuthProtocol) (key : Octets) : bool :=
  match verifyAuth ssl d msg auth key tt with Done (inr _) _ => true | _ => false end.

Definition decrypts (msg : V3Message) (priv : PrivProtocol) (key : Octets) : option V3Message :=
  match decryptScopedPdu ssl msg priv key tt with Done (inr msg') _ => Some msg' | _ => None end.

Lemma verifies_run {S} d msg auth key (s : S) : wire (2 ^ 26) d -> dec_v3 d = inr msg ->
  succeeds (verifyAuth ssl d msg auth key) s = Done (verifies d msg auth key) s.
Proof.
  intros [Ho Hl] Hd. unfold verifies, succeeds. destruct (verifyAuth_total d msg auth key s Ho ltac:(lia) Hd) as (r & E).
  rewrite (bind_done _ _ _ _ _ E). destruct (verifyAuth_total d msg auth key tt Ho ltac:(lia) Hd) as (r' & E').
  rewrite E'. destruct r as [|[]], r' as [|[]]; try done;
    [apply (verifyAuth_state _ _ _ _ tt s Ho ltac:(lia) Hd) in E'|apply (verifyAuth_state _ _ _ _ s tt Ho ltac:(lia) Hd) in E];
    congruence.
Qed.

Lemma decrypts_run {S} d msg priv key (s : S) : wire (2 ^ 26) d -> dec_v3 d = inr msg ->
  (let! r := decryptScopedPdu ssl msg priv key in ret (match r with inr msg => Some msg | inl _ => None end)) s =
    Done (decrypts msg priv key) s.
Proof.
  intros [Ho Hl] Hd. destruct (dec_v3_wf d msg Hd Ho) as [Heo Hel]. unfold decrypts.
  destruct (decryptScopedPdu_total msg priv key s Heo ltac:(lia)) as (r & E & _). rewrite (bind_done _ _ _ _ _ E).
  rewrite (decryptScopedPdu_state msg priv key r s tt Heo ltac:(lia) E). by destruct r.
Qed.

(** A message as [settleV3] opens it for the request it was matched with: whether its digest
    verifies, and what it says. *)
Definition checked p (sn : Seen) (d : Octets) (raw : V3Message) : bool :=
  isAuthenticated (sn_level sn) && isAuthenticated (h_level (header raw)) &&
  verifies d raw (authProtocol (pr_creds p)) (k_auth (keys_at (ssl := ssl) (pr_creds p) (sn_engineId sn))).

Definition unsealed p (sn : Seen) (d : Octets) (raw : V3Message) : option V3Message :=
  if isEncrypted (h_level (header raw)) then
    if checked p sn d raw
    then decrypts raw (privProtocol (pr_creds p)) (k_priv (keys_at (ssl := ssl) (pr_creds p) (sn_engineId sn)))
    else None
  else Some raw.

(** ** Entitlement, by the rule *)

(** The Response a datagram entitles request [i] to, given what the Agent has [seen]: at
    v2c (R8), a Response under the profile's Community whose request-id was seen in
    request [i]; at SNMPv3 (R6), one whose Message ID was, that names the Engine that
    request was addressed to, and whose digest verifies if that request had one. *)
Definition entitles_v2c p (seen : gmap Z Seen) i (d : Octets) : option Pdu :=
  match dec_whole p_v2c d with
  | inl _ => None
  | inr msg =>
      let pdu := v2c_pdu msg in
      match seen !! requestId pdu with
      | Some sn =>
          if bool_decide (pdu_type pdu = Response /\ v2c_community msg = value (pr_community p) /\
                          owner sn = OwnerRequest /\ requestIndex sn = i)
          then Some pdu else None
      | None => None
      end
  end.

Definition entitles_v3 p (seen : gmap Z Seen) i (d : Octets) : option Pdu :=
  match dec_v3 d with
  | inl _ => None
  | inr raw =>
      match seen !! msgId (header raw) with
      | Some sn =>
          match unsealed p sn d raw with
          | Some msg =>
              let pdu := s_pdu (scoped msg) in
              if bool_decide (pdu_type pdu = Response /\ requestId pdu = msgId (header raw) /\
                              u_engineId (security raw) = sn_engineId sn /\
                              (isAuthenticated (sn_level sn) = true -> checked p sn d raw = true) /\
                              owner sn = OwnerRequest /\ requestIndex sn = i)
              then Some pdu else None
          | None => None
          end
      | None => None
      end
  end.

Definition entitles p seen i d : option Pdu :=
  if bool_decide (pr_mode p = ModeV2c) then entitles_v2c p seen i d else entitles_v3 p seen i d.

(** And the error a datagram may fail request [i] with: at SNMPv3, that of a Report whose
    Message ID was seen in request [i], unsigned and in the clear or with a digest that
    verifies if that request had one (R6), any if it had none (R8). *)
Definition fails_v3 p (seen : gmap Z Seen) i (d : Octets) : option ErrorCode :=
  match dec_v3 d with
  | inl _ => None
  | inr raw =>
      match seen !! msgId (header raw) with
      | Some sn =>
          match unsealed p sn d raw with
          | Some msg =>
              let pdu := s_pdu (scoped msg) in
              if bool_decide (pdu_type pdu = Report /\
                              (isAuthenticated (sn_level sn) = true ->
                                 checked p sn d raw = true \/ h_level (header raw) = NoAuthNoPriv) /\
                              owner sn = OwnerRequest /\ requestIndex sn = i)
              then Some (Oracle.reportError pdu) else None
          | None => None
          end
      | None => None
      end
  end.

Definition fails p seen i d : option ErrorCode :=
  if bool_decide (pr_mode p = ModeV2c) then None else fails_v3 p seen i d.

(** ** Settling *)

(** What settling adds: Responses [f i] and errors [g i] for request [i]; nothing else of the
    entries changes. *)
Record accounts (f : nat -> list Pdu) (g : nat -> list ErrorCode) l l' : Prop := {
  ac_sent : m_sent l' = m_sent l;
  ac_size : length (m_entitlements l') = length (m_entitlements l);
  ac_entitled i e : m_entitlements l !! i = Some e ->
    m_entitlements l' !! i = Some (mkEntitlement (responses e ++ f i) (errors e ++ g i)) }.

Lemma accounts_none l l' f g : (forall i, f i = []) -> (forall i, g i = []) -> m_sent l' = m_sent l -> m_entitlements l' = m_entitlements l ->
  accounts f g l l'.
Proof. intros Hf Hg H1 H2. split; [done|by rewrite H2|]. intros i [rs es] He. by rewrite H2, He, Hf, Hg, !app_nil_r. Qed.

Lemma accounts_trans f g f' g' l1 l2 l3 : accounts f g l1 l2 -> accounts f' g' l2 l3 ->
  accounts (fun i => f i ++ f' i) (fun i => g i ++ g' i) l1 l3.
Proof.
  intros [A1 A2 A3] [B1 B2 B3]. split; [congruence|congruence|]. intros i e He. rewrite (B3 _ _ (A3 _ _ He)). cbn. by rewrite <- !app_assoc.
Qed.

Definition settled p (m : M Bench unit) (f : nat -> list Pdu) (g : nat -> list ErrorCode) b : Prop :=
  wp m (fun _ b' => exists cache, b_agent b' = with_cache cache (b_agent b) /\ cache_ok (ssl := ssl) p cache /\
    accounts f g (b_ledger b) (b_ledger b')) b.

Lemma with_own_cache a : with_cache (a_cache a) a = a.
Proof. by destruct a. Qed.

(** A change of the Ledger alone. *)
Lemma update_settled p (u : Ledger -> Ledger) f g b : agent_inv (ssl := ssl) p (b_agent b) ->
  accounts f g (b_ledger b) (u (b_ledger b)) -> settled p (update u) f g b.
Proof.
  intros Hi Ha. eapply wp_eq; [done|]. exists (a_cache (b_agent b)). rewrite with_own_cache. split; [done|].
  split; [apply Hi|done].
Qed.

Lemma ret_settled p f g b : agent_inv (ssl := ssl) p (b_agent b) -> (forall i, f i = []) -> (forall i, g i = []) -> settled p (ret tt) f g b.
Proof.
  intros Hi Hf Hg. apply wp_ret. exists (a_cache (b_agent b)). rewrite with_own_cache. split; [done|].
  split; [apply Hi|by apply accounts_none].
Qed.

Lemma push_discovery_settled p e f g b : agent_inv (ssl := ssl) p (b_agent b) -> (forall i, f i = []) -> (forall i, g i = []) ->
  settled p (push_discovery e) f g b.
Proof. intros Hi Hf Hg. apply update_settled; [done|by apply accounts_none]. Qed.

(** A grant, to the request it is for. *)
Lemma credit_settled p sn grant (f : nat -> list Pdu) (g : nat -> list ErrorCode) b : agent_inv (ssl := ssl) p (b_agent b) ->
  (forall i e, owner sn = OwnerRequest -> requestIndex sn = i -> grant e = mkEntitlement (responses e ++ f i) (errors e ++ g i)) ->
  (forall i, owner sn <> OwnerRequest \/ requestIndex sn <> i -> f i = [] /\ g i = []) -> settled p (credit sn grant) f g b.
Proof.
  intros Hi Hg Hn. unfold credit. destruct (owner sn) eqn:Eo.
  - apply update_settled; [done|]. set (l := b_ledger b). set (k := requestIndex sn) in *.
    destruct (Nat.ltb_spec k (length (m_entitlements l))) as [Hk|Hk].
    + split; [done|apply length_alter|]. intros i e He. cbn [m_entitlements]. destruct (decide (k = i)) as [<-|Hne].
      * rewrite list_lookup_alter_eq, He. cbn. by rewrite (Hg k e eq_refl eq_refl).
      * rewrite list_lookup_alter_ne by done. destruct (Hn i) as [-> ->]; [by right|]. rewrite He. destruct e. by rewrite !app_nil_r.
    + split; [done|done|]. intros i e He. destruct (Hn i) as [-> ->]; [|destruct e; by rewrite !app_nil_r].
      right. apply lookup_lt_Some in He. lia.
  - apply ret_settled; [done|intros i; apply Hn; by left..].
  - apply update_settled; [done|]. apply accounts_none; [intros i; apply Hn; by left..|done|done].
Qed.

Lemma settled_ext p m f g f' g' b : settled p m f g b -> (forall i, f i = f' i) -> (forall i, g i = g' i) -> settled p m f' g' b.
Proof.
  intros Hm E E'. eapply wp_mono; [exact Hm|]. intros [] b' (cache & H1 & H2 & [A1 A2 A3]). exists cache. do 2 (split; [done|]).
  split; [done..|]. intros i e He. rewrite <- E, <- E'. by apply A3.
Qed.

Lemma with_cache_agent p cache a : agent_inv (ssl := ssl) p a -> cache_ok (ssl := ssl) p cache -> agent_inv (ssl := ssl) p (with_cache cache a).
Proof. intros Hi Hc. by destruct (with_cache_inv p cache a Hi Hc). Qed.

Lemma settled_then p m k f g f' g' b : agent_inv (ssl := ssl) p (b_agent b) -> settled p m f g b ->
  (forall b', agent_inv (ssl := ssl) p (b_agent b') -> a_seen (b_agent b') = a_seen (b_agent b) -> settled p k f' g' b') ->
  settled p (m ;;; k) (fun i => f i ++ f' i) (fun i => g i ++ g' i) b.
Proof.
  intros Hi Hm Hk. apply wp_bind. eapply wp_mono; [exact Hm|]. intros [] b1 (c1 & H1 & H2 & A).
  eapply wp_mono; [apply Hk; rewrite H1; [by apply with_cache_agent|done]|]. intros [] b2 (c2 & G1 & G2 & B).
  exists c2. rewrite G1, H1. split; [done|]. split; [done|by eapply accounts_trans].
Qed.

(** To the request a message was seen of. *)
Definition is_for sn i : Prop := owner sn = OwnerRequest /\ requestIndex sn = i.

#[local] Instance is_for_dec sn i : Decision (is_for sn i).
Proof. unfold is_for. solve_decision. Defined.

Lemma credit_response p sn pdu b : agent_inv (ssl := ssl) p (b_agent b) ->
  settled p (credit sn (push_response pdu)) (fun i => if bool_decide (is_for sn i) then [pdu] else []) (fun _ => []) b.
Proof.
  intros Hi. apply credit_settled; [done| |].
  - intros i e Ho Hr. rewrite bool_decide_true by done. by rewrite app_nil_r.
  - intros i Hx. rewrite bool_decide_false; [done|]. intros [? ?]. by destruct Hx.
Qed.

Lemma credit_error p sn ec b : agent_inv (ssl := ssl) p (b_agent b) ->
  settled p (credit sn (push_error ec)) (fun _ => []) (fun i => if bool_decide (is_for sn i) then [ec] else []) b.
Proof.
  intros Hi. apply credit_settled; [done| |].
  - intros i e Ho Hr. rewrite bool_decide_true by done. by rewrite app_nil_r.
  - intros i Hx. rewrite bool_decide_false; [done|]. intros [? ?]. by destruct Hx.
Qed.

Lemma settleV2c_settled p d b : agent_inv (ssl := ssl) p (b_agent b) -> wire (2 ^ 26) d ->
  settled p (settleV2c d) (fun i => option_list (entitles_v2c p (a_seen (b_agent b)) i d)) (fun _ => []) b.
Proof.
  intros Hi [Ho Hl]. unfold settleV2c, entitles_v2c. apply wp_bind. eapply wp_eq; [apply decodeV2cMessage_spec; [done|lia]|].
  destruct (dec_whole p_v2c d) as [e|msg]; [by apply ret_settled|]. set (pdu := v2c_pdu msg).
  apply wp_bind. eapply wp_eq; [done|]. rewrite (ai_profile _ _ Hi). unfold seen.
  case_bool_decide as H1; cbn [negb].
  2: { apply ret_settled; [done| |done]. intros i. destruct (_ !! _); [|done]. by rewrite bool_decide_false by (by intros [? _]). }
  case_bool_decide as H2; cbn [negb].
  2: { apply ret_settled; [done| |done]. intros i. destruct (_ !! _); [|done]. by rewrite bool_decide_false by (by intros (_ & ? & _)). }
  destruct (_ !! _) as [sn|]; [|by apply ret_settled]. eapply settled_ext; [by apply credit_response| |done].
  intros i. cbn beta. unfold is_for. case_bool_decide; [by rewrite bool_decide_true by tauto|by rewrite bool_decide_false by tauto].
Qed.

(** What an opened message entitles request [i] to, and what it may fail it with. *)
Definition opened_response sn (msg : V3Message) i : list Pdu :=
  let pdu := s_pdu (scoped msg) in
  if bool_decide (pdu_type pdu = Response /\ requestId pdu = msgId (header msg) /\ u_engineId (security msg) = sn_engineId sn /\ is_for sn i)
  then [pdu] else [].

Definition opened_error sn (msg : V3Message) i : list ErrorCode :=
  let pdu := s_pdu (scoped msg) in
  if bool_decide (pdu_type pdu = Report /\ is_for sn i) then [Oracle.reportError pdu] else [].

(** What is left to do once a message was opened. *)
Lemma settle_opened_settled p sn msg verified b : agent_inv (ssl := ssl) p (b_agent b) ->
  settled p (settle_opened sn msg (bool_decide (pdu_type (s_pdu (scoped msg)) = Report)) verified) (opened_response sn msg) (opened_error sn msg) b.
Proof.
  intros Hi. unfold settle_opened, opened_response, opened_error. set (pdu := s_pdu (scoped msg)). cbn zeta. case_bool_decide as Hd.
  { assert (forall i, ~ is_for sn i) as Hown by (intros i [Hx _]; congruence).
    apply settled_ext with (f := fun _ => []) (g := fun _ => []);
      [|intros i; by rewrite bool_decide_false by (intros Hx; apply (Hown i); tauto)..].
    case_bool_decide; [case_bool_decide; [by apply push_discovery_settled|by apply ret_settled]|].
    eapply settled_ext; [eapply (settled_then _ _ _ (fun _ => []) (fun _ => []) (fun _ => []) (fun _ => [])); [done| |]|done|done].
    - destruct (_ && _); [|by apply ret_settled]. cbn zeta. destruct (negb _); [by apply push_discovery_settled|by apply ret_settled].
    - intros b' Hi' _. destruct (_ && _); [by apply push_discovery_settled|by apply ret_settled]. }
  case_bool_decide as Hr.
  { eapply settled_ext; [by apply credit_error| |]; intros i; cbn beta.
    - rewrite bool_decide_false; [done|]. intros [Hx _]. congruence.
    - case_bool_decide; [by rewrite bool_decide_true by tauto|by rewrite bool_decide_false by tauto]. }
  assert (forall i, (if bool_decide (pdu_type pdu = Report /\ is_for sn i) then [Oracle.reportError pdu] else []) = []) as Hno.
  { intros i. rewrite bool_decide_false; [done|]. tauto. }
  destruct (decide (owner sn = OwnerRequest)) as [Ho|Ho].
  2: { rewrite (bool_decide_false _ Ho). cbn [andb]. apply credit_settled; [done|by intros i e ? _|].
       intros i _. split; [|done]. rewrite bool_decide_false; [done|]. by intros (_ & _ & _ & ? & _). }
  rewrite (bool_decide_true _ Ho). cbn [andb].
  destruct (negb _ || negb _ || negb _) eqn:E.
  { apply ret_settled; [done| |done]. intros i. rewrite bool_decide_false; [done|]. intros (H1 & H2 & H3 & _).
    rewrite (bool_decide_true _ H1), (bool_decide_true _ H3), (proj2 (Z.eqb_eq _ _) H2) in E. done. }
  apply orb_false_iff in E as [[H3%negb_false_iff%bool_decide_eq_true H1%negb_false_iff%bool_decide_eq_true]%orb_false_iff
    H2%negb_false_iff%Z.eqb_eq].
  eapply settled_ext; [by apply credit_response| |]; intros i; [|done]. cbn beta.
  case_bool_decide; [by rewrite bool_decide_true by tauto|by rewrite bool_decide_false by tauto].
Qed.

Lemma unsealed_keeps p sn d raw msg : unsealed p sn d raw = Some msg -> header msg = header raw /\ security msg = security raw.
Proof.
  unfold unsealed, decrypts. destruct (isEncrypted _); [|by intros [= ->]]. destruct (checked _ _ _ _); [|done].
  destruct (decryptScopedPdu _ _ _ _ _) as [[|msg'] []| |] eqn:E; [done| |done|done]. intros [= ->].
  exact (decryptScopedPdu_keeps _ _ _ _ _ _ E).
Qed.

(** The keys come out of the cache, or go into it. *)
Lemma keysFor_zoomed p eid b : profile_ok p -> agent_inv (ssl := ssl) p (b_agent b) ->
  exists cache, zoom b_agent with_agent (keysFor ssl (pr_creds p) eid) b =
      Done (keys_at (ssl := ssl) (pr_creds p) eid) (mkBench (with_cache cache (b_agent b)) (b_ledger b)) /\ cache_ok (ssl := ssl) p cache.
Proof.
  intros Hp Hi. destruct (keysFor_run p (b_agent b) eid Hp (ai_cache _ _ Hi)) as (cache & E & Hc). exists cache.
  split; [|done]. unfold zoom. by rewrite E.
Qed.

Lemma settleV3_settled p d b : profile_ok p -> agent_inv (ssl := ssl) p (b_agent b) -> wire (2 ^ 26) d ->
  settled p (settleV3 ssl d) (fun i => option_list (entitles_v3 p (a_seen (b_agent b)) i d))
    (fun i => option_list (fails_v3 p (a_seen (b_agent b)) i d)) b.
Proof.
  intros Hp Hi Hw. pose proof Hw as [Ho Hl]. unfold settleV3, entitles_v3, fails_v3. apply wp_bind.
  eapply wp_eq; [apply decodeV3Message_run; [done|lia]|]. destruct (dec_v3 d) as [e|raw] eqn:Ed; [by apply ret_settled|].
  apply wp_bind. eapply wp_eq; [done|]. rewrite (ai_profile _ _ Hi). unfold seen.
  destruct (a_seen (b_agent b) !! msgId (header raw)) as [sn|]; [|by apply ret_settled].
  destruct (keysFor_zoomed p (sn_engineId sn) b Hp Hi) as (cache & Ek & Hc). apply wp_bind. eapply wp_eq; [exact Ek|].
  set (b1 := mkBench _ _). set (keys := keys_at _ _). assert (agent_inv (ssl := ssl) p (b_agent b1)) as Hi1 by (by apply with_cache_agent).
  assert (forall m f g, settled p m f g b1 -> wp m (fun _ b' => exists cache, b_agent b' = with_cache cache (b_agent b) /\
    cache_ok (ssl := ssl) p cache /\ accounts f g (b_ledger b) (b_ledger b')) b1) as Hlift.
  { intros m f g Hm. eapply wp_mono; [exact Hm|]. intros [] b2 (c2 & H1 & H2 & H3). by exists c2. }
  apply wp_bind. eapply (wp_eq _ _ _ (checked p sn d raw) b1).
  { unfold checked. fold keys. destruct (_ && _); [cbn [andb]; by apply verifies_run|done]. }
  apply wp_bind. eapply (wp_eq _ _ _ (unsealed p sn d raw) b1).
  { unfold unsealed. fold keys. destruct (isEncrypted _); [|done]. destruct (checked _ _ _ _); [by eapply decrypts_run|done]. }
  destruct (unsealed p sn d raw) as [msg|] eqn:Eu; [|by apply Hlift, ret_settled].
  destruct (unsealed_keeps _ _ _ _ _ Eu) as [Hh Hs]. set (pdu := s_pdu (scoped msg)). rewrite Hh.
  destruct (isAuthenticated (sn_level sn) && negb _ && negb _) eqn:Eg.
  - apply andb_true_iff in Eg as [[Ha He%negb_true_iff]%andb_true_iff Hv%negb_true_iff].
    apply Hlift, ret_settled; [done| |]; intros i; (rewrite bool_decide_false; [done|]).
    + intros (_ & _ & _ & Hx & _). by rewrite Hx in Hv.
    + intros (Ht & Hx & _). destruct (Hx Ha) as [|Hx']; [congruence|]. by rewrite (bool_decide_true _ Ht), Hx' in He.
  - assert (isAuthenticated (sn_level sn) = true -> checked p sn d raw = true \/ (pdu_type pdu = Report /\ h_level (header raw) = NoAuthNoPriv)) as Hv.
    { intros Ha. rewrite Ha in Eg. cbn [andb] in Eg. apply andb_false_iff in Eg as [Hx%negb_false_iff|Hx%negb_false_iff]; [|by left].
      right. apply andb_true_iff in Hx as [[Hx%bool_decide_eq_true _]%andb_true_iff Hy%negb_true_iff]. split; [done|]. by destruct (h_level _). }
    clear Eg. eapply Hlift, settled_ext; [by apply settle_opened_settled| |]; intros i; unfold opened_response, opened_error, is_for; fold pdu; cbn zeta;
      rewrite ?Hh, ?Hs.
    + destruct (decide (pdu_type pdu = Response)) as [Ht|Ht].
      2: { rewrite !bool_decide_false; [done| |]; by intros [? _]. }
      assert (isAuthenticated (sn_level sn) = true -> checked p sn d raw = true) as Hv'.
      { intros Ha. destruct (Hv Ha) as [?|[? _]]; [done|congruence]. }
      case_bool_decide; [by rewrite bool_decide_true by tauto|by rewrite bool_decide_false by tauto].
    + assert (isAuthenticated (sn_level sn) = true -> checked p sn d raw = true \/ h_level (header raw) = NoAuthNoPriv) as Hv' by (intros Ha; destruct (Hv Ha) as [?|[_ ?]]; auto).
      case_bool_decide; [by rewrite bool_decide_true by tauto|by rewrite bool_decide_false by tauto].
Qed.

Lemma settle_loop_settled p ds b : profile_ok p -> agent_inv (ssl := ssl) p (b_agent b) -> Forall (wire (2 ^ 26)) ds ->
  settled p (settle_loop ssl ds) (fun i => omap (entitles p (a_seen (b_agent b)) i) ds) (fun i => omap (fails p (a_seen (b_agent b)) i) ds) b.
Proof.
  intros Hp. revert b. induction ds as [|d ds IH]; intros b Hi Hw; cbn [settle_loop]; [by apply ret_settled|].
  apply list.Forall_cons in Hw as [Hd Hds]. apply wp_bind. eapply wp_eq; [done|]. rewrite (ai_profile _ _ Hi).
  eapply settled_ext; [eapply (settled_then _ _ _ (fun i => option_list (entitles p (a_seen (b_agent b)) i d))
    (fun i => option_list (fails p (a_seen (b_agent b)) i d))
    (fun i => omap (entitles p (a_seen (b_agent b)) i) ds) (fun i => omap (fails p (a_seen (b_agent b)) i) ds))| |].
  - done.
  - unfold entitles, fails. case_bool_decide; [by apply settleV2c_settled|by apply settleV3_settled].
  - intros b' Hi' E. rewrite <- E. by apply IH.
  - intros i. cbn [omap list_omap]. by destruct (entitles _ _ _ _).
  - intros i. cbn [omap list_omap]. by destruct (fails _ _ _ _).
Qed.

(** What the Ledger holds once everything was reported to it. *)
Definition recorded (datagrams : list (Octets * bool)) : list Octets := fst <$> filter (fun x => x.2 = true) datagrams.

Lemma sent_all datagrams l : let l' := fold_left (fun l x => sent x.1 x.2 l) datagrams l in
  m_sent l' = m_sent l ++ recorded datagrams /\ m_entitlements l' = m_entitlements l /\ m_unattributed l' = m_unattributed l.
Proof.
  revert l. induction datagrams as [|[d from] ds IH]; intros l; cbn [fold_left].
  { by rewrite app_nil_r. }
  cbn zeta in *. cbn [fst snd]. destruct (IH (sent d from l)) as (-> & -> & ->). unfold recorded. rewrite filter_cons. unfold sent. cbn [fst snd]. destruct from.
  - rewrite decide_True by done. cbn. by rewrite <- app_assoc.
  - by rewrite decide_False by done.
Qed.

Lemma recorded_wire datagrams : Forall (fun x => wire (2 ^ 26) x.1) datagrams -> Forall (wire (2 ^ 26)) (recorded datagrams).
Proof.
  intros Hw. apply Forall_fmap, list.Forall_forall. intros x [_ Hx]%list_elem_of_filter. by apply (proj1 (list.Forall_forall _ _) Hw).
Qed.

Lemma settle_run p a datagrams requests : profile_ok p -> agent_inv (ssl := ssl) p a -> Forall (fun x => wire (2 ^ 26) x.1) datagrams ->
  let l := fold_left (fun l x => sent x.1 x.2 l) datagrams (new requests) in
  exists b', settle ssl (mkBench a l) = Done tt b' /\ agent_inv (ssl := ssl) p (b_agent b') /\
    length (m_entitlements (b_ledger b')) = requests /\
    forall i e, m_entitlements (b_ledger b') !! i = Some e ->
      responses e = omap (entitles p (a_seen a) i) (recorded datagrams) /\ errors e = omap (fails p (a_seen a) i) (recorded datagrams).
Proof.
  intros Hp Hi Hw l. destruct (sent_all datagrams (new requests)) as (H1 & H2 & _). fold l in H1, H2. cbn in H1, H2.
  unfold settle. rewrite (bind_done _ _ (mkBench a l) (mkBench a l) (mkBench a l)) by done. cbn [b_ledger]. rewrite H1.
  destruct (proj1 (wp_done _ _ _) (settle_loop_settled p (recorded datagrams) (mkBench a l) Hp Hi (recorded_wire _ Hw)))
    as ([] & b' & E & cache & Ha & Hc & [_ Hs He]). cbn in Ha, Hs, He. rewrite H2 in Hs, He.
  exists b'. split; [exact E|]. split; [rewrite Ha; by apply with_cache_agent|]. split; [by rewrite Hs, length_replicate|].
  intros i e Hie. assert (i < requests)%nat as Hlt.
  { apply lookup_lt_Some in Hie. by rewrite Hs, length_replicate in Hie. }
  pose proof (He i (mkEntitlement [] []) ltac:(by apply lookup_replicate_2)) as Hx.
  rewrite Hie in Hx. by injection Hx as ->.
Qed.

(** C26: The Ledger entitles each request to exactly the Responses that match it.  Whatever
    the Agent sent, settling ends without undefined behaviour, and the Responses of each
    request are those of the datagrams from the target, in order, that the threat model's
    rules R6 and R8 allow to complete it: matched by identifier to what the Agent has seen
    of that request, of the right Community or Engine, and, if that request authenticated,
    with a digest that verifies under the user's key for that Engine, whatever the state of
    the key cache.  The errors it may fail with are, in order, those the Reports name that
    the same rules allow: any where the request did not authenticate, and unsigned ones or
    ones whose digest verifies where it did. *)
Theorem ledger_entitles p a datagrams requests : profile_ok p -> agent_inv (ssl := ssl) p a ->
  Forall (fun x => wire (2 ^ 26) x.1) datagrams ->
  let l := fold_left (fun l x => sent x.1 x.2 l) datagrams (new requests) in
  exists b', settle ssl (mkBench a l) = Done tt b' /\ agent_inv (ssl := ssl) p (b_agent b') /\
    length (m_entitlements (b_ledger b')) = requests /\
    forall i e, m_entitlements (b_ledger b') !! i = Some e ->
      responses e = omap (entitles p (a_seen a) i) (fst <$> filter (fun x => x.2 = true) datagrams) /\
      errors e = omap (fails p (a_seen a) i) (fst <$> filter (fun x => x.2 = true) datagrams).
Proof. apply settle_run. Qed.

(** ** Judgement *)

Section Fair.
Context {Endpoint : Type} `{Countable Endpoint} {net : Net Endpoint}.
Local Notation Target := (Target (Endpoint := Endpoint)).
Local Notation System := (System (Endpoint := Endpoint)).
Local Notation Obs := (Obs (Endpoint := Endpoint)).
Local Notation client := (Client (Endpoint := Endpoint)).
Local Notation Call := (Call (Endpoint := Endpoint)).
Implicit Types (target : Target) (s : System) (o : op) (seen : list Obs).

(** What a request's record holds once its handler was called and destroyed. *)
Definition completion (r : ErrorCode * ResponseResult) (elapsed : Z) : Outcome := mkOutcome 1 1 r.1 r.2 elapsed.

Lemma carries_itself pdu elapsed : carries (completion (toResult pdu) elapsed) pdu = true.
Proof.
  unfold carries, completion, toResult. destruct (Z.eqb_spec (errorStatus pdu) 0) as [E|E]; cbn.
  - rewrite E. change (is_error no_error) with false. cbn. by rewrite Z.eqb_refl, bool_decide_true by done.
  - unfold is_error. cbn. rewrite (proj2 (Z.eqb_neq _ _) E). cbn. by rewrite !Z.eqb_refl, bool_decide_true by done.
Qed.

Lemma judge_response {S} i pdu elapsed l e p target (t : S) : m_entitlements l !! i = Some e -> pdu ∈ responses e ->
  judge i (completion (toResult pdu) elapsed) l p target t = Done None t.
Proof.
  intros He Hin. unfold judge, entitlement. rewrite He. rewrite (bind_done _ _ t e t) by done.
  assert (negb (is_error (code (completion (toResult pdu) elapsed))) ||
    bool_decide (ec_category (code (completion (toResult pdu) elapsed)) = agentErrorCategory) = true) as ->.
  { unfold completion, toResult. destruct (errorStatus pdu =? 0); [done|]. apply orb_true_iff. by right. }
  assert (existsb (carries (completion (toResult pdu) elapsed)) (responses e) = true) as ->; [|done].
  apply existsb_exists. exists pdu. split; [by apply list_elem_of_In|apply carries_itself].
Qed.

Lemma judge_timeout {S} i elapsed l e p target (t : S) : m_entitlements l !! i = Some e ->
  timeout target * (retries target + 1) * 1000000 <= elapsed ->
  judge i (completion (refuse (make_error_code Timeout)) elapsed) l p target t = Done None t.
Proof.
  intros He Ht. unfold judge, entitlement. rewrite He. rewrite (bind_done _ _ t e t) by done. cbn.
  by rewrite (proj2 (Z.leb_le _ _) Ht).
Qed.

(** An error a request may fail with at SNMPv3, by rules R5 and R6: [Timeout] or the reason
    of a reply that was dropped, at the deadline; an error of the Ledger's; and that there is
    no DES. *)
Definition failing p target elapsed (errors : list ErrorCode) (ec : ErrorCode) : Prop :=
  (timeout target * (retries target + 1) * 1000000 <= elapsed /\ (ec = make_error_code Timeout \/ isDropReason ec = true)) \/
  (exists report, ec = Client.reportError report /\ ec ∈ errors) \/
  (ec = make_error_code LegacyProviderUnavailable /\ privProtocol (pr_creds p) = Des).

Lemma judge_error {S} i ec elapsed l e p target (t : S) : m_entitlements l !! i = Some e -> pr_mode p <> ModeV2c ->
  failing p target elapsed (errors e) ec -> judge i (completion (refuse ec) elapsed) l p target t = Done None t.
Proof.
  intros He Hm Hf. destruct (decide (ec = make_error_code Timeout)) as [->|Hn].
  { destruct Hf as [[Ht _]|[(report & E & _)|[E _]]]; [by eapply judge_timeout| |done].
    unfold Client.reportError in E. by repeat case_match. }
  unfold judge, entitlement. rewrite He. rewrite (bind_done _ _ t e t) by done. cbn [completion code refuse fst].
  assert (is_error ec = true /\ ec_category ec <> agentErrorCategory) as [-> Hc].
  { destruct Hf as [[_ [->|Hx]]|[(report & -> & _)|[-> _]]]; [done| |by unfold Client.reportError; repeat case_match|done].
    unfold isDropReason in Hx. apply orb_true_iff in Hx as [[Hx|Hx]%orb_true_iff|Hx]; apply bool_decide_eq_true in Hx as ->; done. }
  rewrite !(bool_decide_false _ Hc), (bool_decide_false _ Hn), (bool_decide_false _ Hm). cbn [negb orb andb].
  destruct (bool_decide (ec ∈ errors e) || _) eqn:Ee; [done|]. apply orb_false_iff in Ee as [Hne%bool_decide_eq_false _].
  destruct Hf as [[Ht [|Hx]]|[(report & _ & Hx)|[-> ->]]]; [done| |done|done]. rewrite Hx.
  cbn [completion Oracle.elapsed]. by rewrite (proj2 (Z.leb_le _ _) Ht).
Qed.

(** A request that came to its end by itself: the Client is not stopping, nobody cancelled
    it, and the system took what it sent. *)
Record ends s s' o (call : Call) (start : client) r seen : Prop := {
  en_reachable : reachable ssl s;
  en_step : step ssl s s';
  en_outstanding : outstanding o s = true;
  en_over : s_tasks s' !! o = Some (Finished call start (RequestResult r) seen);
  en_running : m_stopping (s_client s') = false /\ cancelled o (s_client s') = 0;
  en_sent : seen <> [];
  en_sends to d ec : Sent to d ec ∈ seen -> is_error ec = false }.

(** What the Client received from the target, the Agent sent from there. *)
Definition came_from a' (c : client) target : Prop :=
  forall d, (d, endpoint target) ∈ m_received c -> (d, true) ∈ a_sent a'.

Lemma came_recorded a c target d : came_from a c target -> (d, endpoint target) ∈ m_received c -> d ∈ recorded (rev (a_sent a)).
Proof.
  intros Hc Hd%Hc. unfold recorded. apply list_elem_of_fmap. exists (d, true). split; [done|]. apply list_elem_of_filter.
  split; [done|]. apply list_elem_of_In. rewrite <- in_rev. by apply list_elem_of_In.
Qed.

(** The Ledger at the end of the run. *)
Definition ledger_of a (requests : nat) : Ledger := fold_left (fun l x => sent x.1 x.2 l) (rev (a_sent a)) (new requests).

(** A Response that is entitled is not judged a violation. *)
Lemma entitled_judged p a requests i target d pdu elapsed : profile_ok p -> agent_inv (ssl := ssl) p a ->
  Forall (fun x => wire (2 ^ 26) x.1) (a_sent a) -> (i < requests)%nat ->
  d ∈ recorded (rev (a_sent a)) -> entitles p (a_seen a) i d = Some pdu ->
  exists b', settle ssl (mkBench a (ledger_of a requests)) = Done tt b' /\
    judge i (completion (toResult pdu) elapsed) (b_ledger b') p target b' = Done None b'.
Proof.
  intros Hp Hi Hw Hlt Hd He. assert (Forall (fun x => wire (2 ^ 26) x.1) (rev (a_sent a))) as Hw'.
  { apply Forall_rev. exact Hw. }
  destruct (settle_run p a _ requests Hp Hi Hw') as (b' & E & _ & Hlen & Hr). exists b'. split; [done|].
  rewrite <- Hlen in Hlt. destruct (lookup_lt_is_Some_2 _ _ Hlt) as [e Hie]. eapply judge_response; [exact Hie|].
  rewrite (proj1 (Hr _ _ Hie)). apply list_elem_of_omap. by exists d.
Qed.

(** Identifiers that different datagrams agree about. *)
Lemma union_list_lookup (ms : list (gmap Z Seen)) id sn : (forall m, m ∈ ms -> m !! id = None \/ m !! id = Some sn) ->
  (exists m, m ∈ ms /\ m !! id = Some sn) -> (⋃ ms) !! id = Some sn.
Proof.
  induction ms as [|m ms IH]; intros Hall (x & Hx & Hid); [by apply not_elem_of_nil in Hx|].
  cbn. rewrite lookup_union. destruct (Hall m) as [E|E]; [apply elem_of_cons; by left| |by rewrite E, union_Some_l].
  rewrite E, (left_id_L None (∪)). apply IH; [intros m' Hm; apply Hall, elem_of_cons; by right|].
  exists x. split; [|done]. apply elem_of_cons in Hx as [->|]; [congruence|done].
Qed.

Lemma seenFrom_request pdu i : requestIndexOf pdu = Some i -> seenFrom pdu = mkSeen OwnerRequest i NoAuthNoPriv [].
Proof.
  intros E. unfold seenFrom. rewrite bool_decide_false, E; [done|]. intros Hn. unfold requestIndexOf in E. by rewrite Hn in E.
Qed.

(** The Agent attributes the identifier of request [i] to it, if it read a datagram of that
    request and none of another that carries the same. *)
Lemma v2c_attributed p datagrams community i id d : pr_mode p = ModeV2c -> Forall datagram_ok datagrams ->
  d ∈ datagrams -> octets_ok community -> int32_ok id -> Z.of_nat i + 1 < 2 ^ 32 ->
  enc_v2c (mkV2cMessage community (with_requestId id (makePdu Get (toVarbinds [requestOid i])))) = Some d ->
  (forall d' msg, d' ∈ datagrams -> dec_whole p_v2c d' = inr msg -> requestId (v2c_pdu msg) = id ->
     requestIndexOf (v2c_pdu msg) = Some i) ->
  (⋃ (remembers (ssl := ssl) p <$> datagrams)) !! id = Some (mkSeen OwnerRequest i NoAuthNoPriv []).
Proof.
  intros Hm Hok Hd Hc Hid Hi He Hown. apply union_list_lookup.
  - intros m (d' & -> & Hd')%list_elem_of_fmap. unfold remembers. rewrite bool_decide_true by done. unfold remembers_v2c.
    destruct (dec_whole p_v2c d') as [|msg] eqn:Ed; [left; apply lookup_empty|].
    destruct (decide (requestId (v2c_pdu msg) = id)) as [<-|Hne]; [right|left; by apply lookup_singleton_ne].
    rewrite lookup_singleton_eq. f_equal. by eapply seenFrom_request, Hown.
  - exists (remembers (ssl := ssl) p d). split; [by apply list_elem_of_fmap_2|]. unfold remembers. rewrite bool_decide_true by done.
    unfold remembers_v2c. set (pdu := with_requestId id _) in He.
    assert (pdu_ok pdu) as Hp.
    { do 3 (split; [done|]). apply Forall_singleton. split; [|done]. by apply requestOid_ok. }
    destruct (proj1 (list.Forall_forall _ _) Hok _ Hd) as [_ Hl].
    rewrite (codec_whole _ _ _ (mkV2cMessage community pdu) _ v2c_codec (conj Hc Hp) He ltac:(lia)). cbn [v2c_pdu].
    rewrite lookup_singleton_eq. f_equal. apply seenFrom_request. by apply requestIndexOf_oid.
Qed.

(** No other request's datagram carries an identifier of request [i]'s. *)
Definition sole_owner (datagrams : list Octets) i seen : Prop :=
  forall to d ec msg d' msg', Sent to d ec ∈ seen -> dec_whole p_v2c d = inr msg -> d' ∈ datagrams -> dec_whole p_v2c d' = inr msg' ->
    requestId (v2c_pdu msg') = requestId (v2c_pdu msg) -> requestIndexOf (v2c_pdu msg') = Some i.

(** Something was sent, and is [good]. *)
Lemma talks_sent target (good : Octets -> Prop) seen : Forall (talks target good) seen -> (0 < sends seen)%nat ->
  exists to d ec, Sent to d ec ∈ seen /\ good d.
Proof.
  induction 1 as [|x seen Hx _ IH]; cbn; [lia|]. intros Hn. destruct x as [to d ec|l t|d|b st mo].
  1: { exists to, d, ec. split; [apply elem_of_cons; by left|apply Hx]. }
  all: destruct IH as (to' & d' & ec' & Hin & Hg); [lia|]; exists to', d', ec'; split; [apply elem_of_cons; by right|done].
Qed.

(** A Response that answers request [i] is entitled. *)
Lemma v2c_entitled p a datagrams i target seen response c : agent_inv (ssl := ssl) p a -> pr_mode p = ModeV2c ->
  Forall datagram_ok datagrams -> a_seen a = ⋃ (remembers (ssl := ssl) p <$> datagrams) ->
  octets_ok (value (pr_community p)) -> Z.of_nat i + 1 < 2 ^ 32 ->
  came_from a c target -> (forall to d ec, Sent to d ec ∈ seen -> d ∈ datagrams) -> sole_owner datagrams i seen ->
  backed (ssl := ssl) (m_received c) target (AuthCommunity (value (pr_community p))) response ->
  answers target (fun id d => enc_v2c (mkV2cMessage (value (pr_community p)) (with_requestId id (makePdu Get (toVarbinds [requestOid i])))) = Some d)
    seen response ->
  exists d, d ∈ recorded (rev (a_sent a)) /\ entitles p (a_seen a) i d = Some response.
Proof.
  intros Hi Hm Hok Hseen Hc Hi32 Hcame Hread Hown (eid & d & msg & Hin & [Ho Hl] & Hd & -> & Ht & Hco) (ws1 & ws2 & -> & Hx & Hn).
  exists d. split; [by eapply came_recorded|]. unfold entitles. rewrite bool_decide_true by done. unfold entitles_v2c. rewrite Hd.
  destruct (v2c_taken d msg Hd Ho) as ([[Hid _] _ _] & _ & _). destruct (talks_sent _ _ _ Hx Hn) as (to & d1 & ec & Hs & He).
  assert (Sent to d1 ec ∈ ws1 ++ ws2) as Hs1 by (apply elem_of_app; by right). pose proof (Hread _ _ _ Hs1) as Hd1.
  assert (dec_whole p_v2c d1 = inr (mkV2cMessage (value (pr_community p)) (with_requestId (requestId (v2c_pdu msg))
    (makePdu Get (toVarbinds [requestOid i]))))) as Hdec.
  { destruct (proj1 (list.Forall_forall _ _) Hok _ Hd1) as [_ Hl1]. eapply (codec_whole _ _ _ _ _ v2c_codec); [|exact He|lia].
    split; [done|]. do 3 (split; [done|]). apply Forall_singleton. split; [|done]. by apply requestOid_ok. }
  rewrite Hseen. rewrite (v2c_attributed p datagrams (value (pr_community p)) i (requestId (v2c_pdu msg)) d1); try done.
  - by rewrite bool_decide_true.
  - intros d' msg' Hd' Hdec' Hq. by eapply Hown.
Qed.

(** C13: At v2c, the oracle does not accuse the Client.  An Agent with any script has been
    given any datagrams, among them those of one request, whose identifier no other
    request's among them carries; the Client received from the target only what the Agent sent from
    there, and the request came to its end by itself.  Then settling ends without undefined
    behaviour, and judging what the request completed with, by what the datagrams entitle
    it to and the time it took, finds no rule violated: a Response that was handed out was
    entitled (R8), and a timeout was not early (R5). *)
Theorem v2c_not_accused p script cache salt datagrams requests a a' s s' o target i start r seen elapsed :
  profile_ok p -> octets_ok script -> cache_ok (ssl := ssl) p cache -> pr_mode p = ModeV2c -> Forall datagram_ok datagrams ->
  construct ssl p (Script.new script) cache salt = Done tt a -> serve ssl datagrams a = Done tt a' ->
  octets_ok (value (pr_community p)) -> (i < requests)%nat -> Z.of_nat i + 1 < 2 ^ 32 ->
  ends s s' o (asyncGet target (pr_community p) [requestOid i]) start r seen -> 0 <= timeout target ->
  came_from a' (s_client s') target -> (forall to d ec, Sent to d ec ∈ seen -> d ∈ datagrams) -> sole_owner datagrams i seen ->
  m_now (s_client s') - m_now start <= elapsed ->
  exists b', settle ssl (mkBench a' (ledger_of a' requests)) = Done tt b' /\
    judge i (completion r elapsed) (b_ledger b') p target b' = Done None b'.
Proof.
  intros Hp Hos Hca Hm Hok Ec Es Hco Hlt Hi32 [E1 E2 E3 E4 [E5 E6] E7 E8] Ht Hcame Hread Hown Hel.
  destruct (constructed_serves p script cache salt datagrams Hp Hos Hca Hok) as (a0 & a1 & Ec1 & Es1 & Hi & _ & Hw & Hse).
  { intros Hx. by rewrite Hm in Hx. }
  assert (a0 = a) as -> by congruence. assert (a1 = a') as -> by congruence.
  destruct (finishing_honoured _ _ _ _ _ _ _ E1 E2 E3 E4) as [_ _ _ _ _ _ _ _ _ Hout]. cbn in Hout.
  destruct Hout as [(response & -> & Hb & Hx)|[[_ Hx]|[[_ Hx]|[(ec & -> & Her & Hx)|[(-> & _ & Htm)|(_ & Hx & _)]]]]].
  - destruct (v2c_entitled p a' datagrams i target seen response (s_client s')) as (d & Hd & He); try done.
    by eapply entitled_judged.
  - by rewrite E6 in Hx.
  - congruence.
  - destruct Hx as [[Hx _]|(d & Hx)]; [done|]. apply E8 in Hx. congruence.
  - destruct (settle_run p a' (rev (a_sent a')) requests Hp Hi ltac:(by apply Forall_rev)) as (b' & E & _ & Hlen & _).
    exists b'. split; [done|]. rewrite <- Hlen in Hlt. destruct (lookup_lt_is_Some_2 _ _ Hlt) as [e Hie].
    eapply judge_timeout; [exact Hie|]. unfold attempts_of in Htm. nia.
  - done.
Qed.

(** ** And at SNMPv3 *)

Lemma keys_at_auth creds eid key : isAuthenticated (level creds) = true -> eid <> [] ->
  derived_auth (ssl := ssl) (authProtocol creds) (authPassword creds) eid = inr key -> k_auth (keys_at (ssl := ssl) creds eid) = key.
Proof. intros Ha He Hk. unfold keys_at. rewrite Ha, bool_decide_false by done. cbn. by rewrite Hk. Qed.

Lemma encrypted_authenticated (lv : SecurityLevel) : isEncrypted lv = true -> isAuthenticated lv = true.
Proof. by destruct lv. Qed.

Lemma keys_at_priv p eid pkey : profile_ok p -> isEncrypted (level (pr_creds p)) = true -> eid <> [] ->
  derived_priv (ssl := ssl) (authProtocol (pr_creds p)) (privPassword (pr_creds p)) (privProtocol (pr_creds p)) eid = inr pkey ->
  k_priv (keys_at (ssl := ssl) (pr_creds p) eid) = pkey.
Proof.
  intros Hp He Hne Hk. unfold keys_at. rewrite (encrypted_authenticated _ He), bool_decide_false by done. cbn.
  pose proof (po_priv _ Hp) as Hx. rewrite He in Hx. destruct (bool_decide (privProtocol (pr_creds p) = PrivNone)); [done|]. by rewrite Hk.
Qed.

Lemma decrypts_with_none {T} raw key (t : T) msg : decryptScopedPdu ssl raw PrivNone key t <> Done (inr msg) t.
Proof. unfold decryptScopedPdu, bind_sum, bind at 1. by cbn. Qed.

Lemma verified_level {T} d raw auth key (t : T) : verifyAuth ssl d raw auth key t = Done (inr tt) t ->
  isAuthenticated (h_level (header raw)) = true.
Proof. unfold verifyAuth. by destruct (isAuthenticated _). Qed.

(** A datagram of request [i] is seen as its own. *)
Lemma v3_remembered p i eid id d : profile_ok p -> datagram_ok d -> eid <> [] -> Z.of_nat i + 1 < 2 ^ 32 ->
  speaks (ssl := ssl) (pr_creds p) (makePdu Get (toVarbinds [requestOid i])) eid id d ->
  remembers_v3 (ssl := ssl) p d = {[id := mkSeen OwnerRequest i (level (pr_creds p)) eid]}.
Proof.
  intros Hp Hd Hne Hi (key & pkey & (msg & H1 & H2 & H3 & _ & H5 & H6 & _ & H8) & _ & Hk). unfold remembers_v3. rewrite H1, H3.
  destruct (opened_run p d msg tt Hd H1) as (_ & _ & _ & Hh & Hs & _).
  set (pdu := makePdu Get (toVarbinds [requestOid i])) in *.
  assert (opened (ssl := ssl) p msg = Some (request_of (ssl := ssl) p msg) /\
    scoped (request_of (ssl := ssl) p msg) = mkScopedPdu eid [] (with_requestId id pdu)) as [Ho Hsc].
  { unfold request_of, opened. rewrite H2, H5. destruct (isEncrypted (level (pr_creds p))) eqn:Ee; [|done].
    destruct (H8 eq_refl) as (msg' & E & Es). rewrite (keys_at_priv p eid pkey Hp Ee Hne (Hk eq_refl)), E. done. }
  unfold readable. rewrite Ho. unfold seen_of. rewrite Hsc, Hh, Hs, H2, H5. cbn [s_pdu].
  rewrite (seenFrom_request _ i); [done|]. by apply requestIndexOf_oid.
Qed.

(** No different message carries an identifier of the request's. *)
Definition sole_owner_v3 (datagrams : list Octets) seen : Prop :=
  forall to d ec msg d' msg', Sent to d ec ∈ seen -> dec_v3 d = inr msg -> d' ∈ datagrams -> dec_v3 d' = inr msg' ->
    msgId (header msg') = msgId (header msg) -> d' = d.

Lemma v3_attributed p datagrams i eid id to d ec seen : profile_ok p -> pr_mode p <> ModeV2c -> Forall datagram_ok datagrams ->
  Sent to d ec ∈ seen -> d ∈ datagrams -> eid <> [] -> Z.of_nat i + 1 < 2 ^ 32 ->
  speaks (ssl := ssl) (pr_creds p) (makePdu Get (toVarbinds [requestOid i])) eid id d -> sole_owner_v3 datagrams seen ->
  (⋃ (remembers (ssl := ssl) p <$> datagrams)) !! id = Some (mkSeen OwnerRequest i (level (pr_creds p)) eid).
Proof.
  intros Hp Hm Hok Hs Hd Hne Hi Hsp Hown.
  assert (forall x, remembers (ssl := ssl) p x = remembers_v3 (ssl := ssl) p x) as Hr.
  { intros x. unfold remembers. by rewrite bool_decide_false. }
  pose proof (v3_remembered p i eid id d Hp (proj1 (list.Forall_forall _ _) Hok _ Hd) Hne Hi Hsp) as Hrem.
  destruct Hsp as (key & pkey & (msg & H1 & _ & H3 & _) & _). apply union_list_lookup.
  - intros m (d' & -> & Hd')%list_elem_of_fmap. rewrite Hr. destruct (dec_v3 d') as [|msg'] eqn:Ed.
    { left. unfold remembers_v3. by rewrite Ed. }
    destruct (decide (msgId (header msg') = id)) as [E|E].
    + right. rewrite (Hown _ _ _ _ _ _ Hs H1 Hd' Ed), Hrem; [by rewrite lookup_singleton_eq|]. by rewrite E, H3.
    + left. unfold remembers_v3. rewrite Ed. by apply lookup_singleton_ne.
  - exists (remembers (ssl := ssl) p d). split; [by apply list_elem_of_fmap_2|]. by rewrite Hr, Hrem, lookup_singleton_eq.
Qed.

(** A Response that is vouched for is entitled, once the request is attributed. *)
Lemma vouched_entitled p (tbl : gmap Z Seen) i eid target response (log : list (Octets * Endpoint)) : profile_ok p -> pr_mode p <> ModeV2c ->
  tbl !! requestId response = Some (mkSeen OwnerRequest i (level (pr_creds p)) eid) ->
  vouched (ssl := ssl) log target (pr_creds p) eid response ->
  exists d, (d, endpoint target) ∈ log /\ entitles p tbl i d = Some response.
Proof.
  intros Hp Hm Hsn (d & raw & msg & Hin & [Ho Hl] & Hd & He & Hne & Hop & -> & Ht & Hq & Hau). exists d. split; [done|].
  unfold entitles. rewrite bool_decide_false by done. unfold entitles_v3. rewrite Hd, <- Hq, Hsn.
  set (sn := mkSeen _ _ _ _). assert (isAuthenticated (level (pr_creds p)) = true -> checked p sn d raw = true) as Hch.
  { intros Ha. destruct (Hau Ha) as (key & Hk & Hv). unfold checked. cbn [sn sn_level sn_engineId].
    rewrite Ha, (verified_level _ _ _ _ _ Hv), (keys_at_auth _ _ _ Ha Hne Hk). unfold verifies. by rewrite Hv. }
  assert (unsealed p sn d raw = Some msg) as ->.
  { unfold unsealed. destruct (isEncrypted (h_level (header raw))); [|by rewrite Hop]. destruct Hop as (pkey & E & Hk).
    assert (isEncrypted (level (pr_creds p)) = true) as Hen.
    { rewrite (po_priv _ Hp). case_bool_decide as Hn; [|done]. rewrite Hn in E. by apply decrypts_with_none in E. }
    rewrite Hch by (by apply encrypted_authenticated). unfold decrypts. cbn [sn sn_engineId].
    by rewrite (keys_at_priv p eid pkey Hp Hen Hne (Hk Hen)), E. }
  rewrite bool_decide_true; [done|]. by rewrite Hq.
Qed.

(** And so is the error of a Report the request failed with. *)
Lemma reported_fails p datagrams (tbl : gmap Z Seen) i target c seen ec : profile_ok p -> pr_mode p <> ModeV2c -> Forall datagram_ok datagrams ->
  tbl = ⋃ (remembers (ssl := ssl) p <$> datagrams) -> Z.of_nat i + 1 < 2 ^ 32 ->
  (forall to d ec, Sent to d ec ∈ seen -> d ∈ datagrams) -> sole_owner_v3 datagrams seen ->
  Forall (talks target (spoken (ssl := ssl) (pr_creds p) (makePdu Get (toVarbinds [requestOid i])))) seen ->
  reported (ssl := ssl) c target (pr_creds p) seen ec ->
  (exists report, ec = Client.reportError report) /\ exists d, (d, endpoint target) ∈ m_received c /\ fails p tbl i d = Some ec.
Proof.
  intros Hp Hm Hok -> Hi32 Hread Hown Htr
    (d & raw & msg & eid & (Hin & Hd & asked & amsg & aec & Hs & Had & Hid & Heid) & Hne & Hop & Ht & -> & Hau).
  split; [by eexists|]. exists d. split; [done|].
  destruct (proj1 (list.Forall_forall _ _) Htr _ Hs) as (_ & id & eid' & Hsp).
  assert (id = msgId (header raw) /\ eid' = eid) as [-> ->].
  { destruct Hsp as (key & pkey & (msg' & H1 & _ & H3 & _ & H5 & _) & _). cbn in H3. split; congruence. }
  unfold fails. rewrite bool_decide_false by done. unfold fails_v3. rewrite Hd.
  rewrite (v3_attributed p datagrams i eid _ _ asked aec seen Hp Hm Hok Hs (Hread _ _ _ Hs) Hne Hi32 Hsp Hown).
  set (sn := mkSeen _ _ _ _).
  assert (isAuthenticated (level (pr_creds p)) = true -> checked p sn d raw = true \/ h_level (header raw) = NoAuthNoPriv) as Hch.
  { intros Ha. destruct (Hau Ha) as [[Hx _]|(key & Hk & Hv)]; [by right|left]. unfold checked. cbn [sn sn_level sn_engineId].
    rewrite Ha, (verified_level _ _ _ _ _ Hv), (keys_at_auth _ _ _ Ha Hne Hk). unfold verifies. by rewrite Hv. }
  assert (unsealed p sn d raw = Some msg) as ->.
  { unfold unsealed. destruct (isEncrypted (h_level (header raw))) eqn:Er; [|by rewrite Hop]. destruct Hop as (pkey & E & Hk).
    assert (isEncrypted (level (pr_creds p)) = true) as Hen.
    { rewrite (po_priv _ Hp). case_bool_decide as Hn; [|done]. rewrite Hn in E. by apply decrypts_with_none in E. }
    destruct (Hch (encrypted_authenticated _ Hen)) as [->|Hx]; [|by rewrite Hx in Er]. unfold decrypts. cbn [sn sn_engineId].
    by rewrite (keys_at_priv p eid pkey Hp Hen Hne (Hk Hen)), E. }
  rewrite bool_decide_true by done. by rewrite reportError_agrees.
Qed.

(** Of the ways an SNMPv3 request fails, those left to one that came to its end by itself,
    after it sent something. *)
Lemma v3_fails s s' o p target i start ec seen elapsed (errors : list ErrorCode) : profile_ok p ->
  ends s s' o (asyncGet target (pr_creds p) [requestOid i]) start (refuse ec) seen -> 0 <= timeout target ->
  socket_of (is_v6 (endpoint target)) (s_client s') <> NoSocket -> Z.of_nat i + 1 < 2 ^ 32 ->
  (isAuthenticated (level (pr_creds p)) = true -> authPassword (pr_creds p) <> []) ->
  (isEncrypted (level (pr_creds p)) = true -> privPassword (pr_creds p) <> []) ->
  m_now (s_client s') - m_now start <= elapsed -> is_error ec = true ->
  v3_failed (ssl := ssl) o target (pr_creds p) (makePdu Get (toVarbinds [requestOid i])) start ec seen (s_client s') ->
  parked_out seen ec (s_client s') \/ (ec = make_error_code UnknownEngineId /\ engineAt (s_client s') (endpoint target) = None) \/
  reported (ssl := ssl) (s_client s') target (pr_creds p) seen ec \/ failing p target elapsed errors ec.
Proof.
  intros Hp [_ _ _ _ [E5 E6] _ E8] Ht Hso Hi32 Hpa Hpp Hel He [Hx|[Hx|[?|[?|[?|[_ Hx]]]]]]; [| |by auto..|].
  - do 3 right. left. destruct Hx as [[[? _]|[? _]]|[?|[(d & Hx)|[[_ Hw] Hx]]]]; [congruence|done|done|apply E8 in Hx; congruence|].
    split; [unfold attempts_of in Hw; nia|]. destruct Hx as [?|(e & _ & _ & Hx & -> & _)]; [by left|right].
    by repeat (apply elem_of_cons in Hx as [->|Hx]; [done|]); apply not_elem_of_nil in Hx.
  - destruct Hx as [[_ [[Ha Hx]|[Ha Hx]]]|(-> & _ & Hdes & _)]; [by apply Hpa in Hx|by apply Hpp in Hx|].
    do 3 right. by do 2 right.
  - destruct (oids_request_ok Get 0 0 [requestOid i]) as (_ & vs & E & _); [by apply Forall_singleton, requestOid_wire|cbn; lia|done|done|].
    unfold unencodable in Hx. cbn [varbinds makePdu] in Hx, E. congruence.
Qed.

(** C12: At SNMPv3, the oracle does not accuse the Client of what it did itself.  An Agent with
    any script has been given any datagrams, none with a time its clock cannot be compared to,
    among them those of one request, whose identifiers no different message among them
    carries; the Client received from the target only what the Agent sent from there; the
    user's passwords are not empty, and the request came to its end by itself.  Then it
    completed with what a discovery it waited for came to, or with [UnknownEngineId] because
    the Engine was forgotten since; or settling ends without undefined behaviour and judging
    its completion finds no rule violated, at every security level: what was handed out is
    entitled (R6, R8), a timeout, or the reason of a dropped reply in its place, was not
    early (R5), and any other error is one the Ledger holds against this request, or says
    that there is no DES. *)
Theorem v3_not_accused p script cache salt datagrams requests a a' s s' o target i start r seen elapsed :
  profile_ok p -> octets_ok script -> cache_ok (ssl := ssl) p cache -> pr_mode p <> ModeV2c -> Forall datagram_ok datagrams ->
  (forall d msg, d ∈ datagrams -> dec_v3 d = inr msg -> measured (ssl := ssl) p d msg) ->
  construct ssl p (Script.new script) cache salt = Done tt a -> serve ssl datagrams a = Done tt a' ->
  (i < requests)%nat -> Z.of_nat i + 1 < 2 ^ 32 ->
  (isAuthenticated (level (pr_creds p)) = true -> authPassword (pr_creds p) <> []) ->
  (isEncrypted (level (pr_creds p)) = true -> privPassword (pr_creds p) <> []) ->
  ends s s' o (asyncGet target (pr_creds p) [requestOid i]) start r seen -> 0 <= timeout target ->
  socket_of (is_v6 (endpoint target)) (s_client s') <> NoSocket ->
  came_from a' (s_client s') target -> (forall to d ec, Sent to d ec ∈ seen -> d ∈ datagrams) -> sole_owner_v3 datagrams seen ->
  m_now (s_client s') - m_now start <= elapsed ->
  (exists ec, r = refuse ec /\ (parked_out seen ec (s_client s') \/
     (ec = make_error_code UnknownEngineId /\ engineAt (s_client s') (endpoint target) = None))) \/
  (exists b', settle ssl (mkBench a' (ledger_of a' requests)) = Done tt b' /\
    judge i (completion r elapsed) (b_ledger b') p target b' = Done None b').
Proof.
  intros Hp Hos Hca Hm Hok Hms Ec Es Hlt Hi32 Hpa Hpp Hen Ht Hso Hcame Hread Hown Hel.
  destruct (constructed_serves p script cache salt datagrams Hp Hos Hca Hok) as (a0 & a1 & Ec1 & Es1 & Hi & _ & Hw & Hse); [by auto|].
  assert (a0 = a) as -> by congruence. assert (a1 = a') as -> by congruence. pose proof Hen as [E1 E2 E3 E4 _ E7 _].
  destruct (finishing_honoured _ _ _ _ _ _ _ E1 E2 E3 E4) as [_ _ _ Htr _ Hearly _ _ _ Hout]. cbn in Htr, Hout.
  destruct Hout as [(e & Hx & _)|[(ec & -> & Her & Hf)|(response & eid & -> & Hv & (ws1 & ws2 & -> & Hx & Hn))]].
  - by destruct (Hearly _ Hx).
  - destruct (settle_run p a' (rev (a_sent a')) requests Hp Hi ltac:(by apply Forall_rev)) as (b' & E & _ & Hlen & Hl).
    rewrite <- Hlen in Hlt. destruct (lookup_lt_is_Some_2 _ _ Hlt) as [ent Hie].
    assert (forall Hx : failing p target elapsed (errors ent) ec, exists b', settle ssl (mkBench a' (ledger_of a' requests)) = Done tt b' /\
      judge i (completion (refuse ec) elapsed) (b_ledger b') p target b' = Done None b') as Hjudge.
    { intros Hx. exists b'. split; [done|]. by eapply judge_error. }
    destruct (v3_fails s s' o p target i start ec seen elapsed (errors ent) Hp Hen Ht Hso Hi32 Hpa Hpp Hel Her Hf) as [?|[?|[Hx|?]]].
    + left. exists ec. auto.
    + left. exists ec. auto.
    + right. apply Hjudge. right; left.
      destruct (reported_fails p datagrams (a_seen a') i target _ seen ec Hp Hm Hok Hse Hi32 Hread Hown Htr Hx) as ([report Hr] & d & Hd & Hfd).
      exists report. split; [done|]. rewrite (proj2 (Hl _ _ Hie)). apply list_elem_of_omap. exists d. split; [by eapply came_recorded|done].
    + right. by apply Hjudge.
  - right. destruct (talks_sent _ _ _ Hx Hn) as (to & d1 & ec & Hs & Hsp).
    assert (Sent to d1 ec ∈ ws1 ++ ws2) as Hs1 by (apply elem_of_app; by right). pose proof (Hread _ _ _ Hs1) as Hd1.
    assert (eid <> []) as Hne by (by destruct Hv as (? & ? & ? & _ & _ & _ & _ & ? & _)).
    pose proof (v3_attributed p datagrams i eid _ to d1 ec _ Hp Hm Hok Hs1 Hd1 Hne Hi32 Hsp Hown) as Hat. rewrite <- Hse in Hat.
    destruct (vouched_entitled p _ i eid target response _ Hp Hm Hat Hv) as (d & Hd & He).
    eapply entitled_judged; try done. by eapply came_recorded.
Qed.

(** ** The set-up *)

Lemma pick_run n (sc : Script.Script) : octets_ok (Script.m_data sc) -> n <> 0%nat ->
  exists k pos, Script.pick n sc = Done k (Script.mkScript (Script.m_data sc) pos) /\ (k < n)%nat.
Proof.
  intros Ho Hn. destruct (byte_run sc Ho) as (b & pos & E & _). unfold Script.pick. rewrite (bind_done _ _ _ _ _ E).
  destruct (Nat.eqb_spec n 0); [done|]. eexists _, pos. split; [done|]. by apply Nat.mod_upper_bound.
Qed.

Definition literal (text : cstring) : Prop := octets_ok text /\ zlen text <= 20.

Lemma literal_ok text : forallb (fun x => (0 <=? x) && (x <? 256)) text && (zlen text <=? 20) = true -> literal text.
Proof.
  intros [H1 H2%Z.leb_le]%andb_true_iff. split; [|done]. apply Forall_forall. intros x Hb.
  pose proof (proj1 (forallb_forall _ _) H1 x Hb) as [? ?]%andb_true_iff. unfold byte_ok. lia.
Qed.

(** A profile the fuzzer may choose, and what is good about it. *)
Record chosen p : Prop := {
  ch_community : literal (value (pr_community p));
  ch_user : literal (userName (pr_creds p));
  ch_passwords : literal (authPassword (pr_creds p)) /\ literal (privPassword (pr_creds p));
  ch_auth : isAuthenticated (level (pr_creds p)) = true -> authProtocol (pr_creds p) <> AuthNone;
  ch_priv : isEncrypted (level (pr_creds p)) = negb (bool_decide (privProtocol (pr_creds p) = PrivNone)) }.

Lemma chosen_profile p : chosen p -> profile_ok p.
Proof. intros [_ [? ?] [[? _] [? _]] ? ?]. split; [split; [done|lia]|done|done|done]. Qed.

Lemma readProfile_run (sc : Script.Script) : octets_ok (Script.m_data sc) ->
  exists p pos, readProfile sc = Done p (Script.mkScript (Script.m_data sc) pos) /\ chosen p.
Proof.
  intros Ho. unfold readProfile. destruct (pick_run 4 sc Ho ltac:(done)) as (i & pos & E & Hi). rewrite (bind_done _ _ _ _ _ E).
  set (sc1 := Script.mkScript _ pos). destruct i as [|[|i]]; cbn [Mode_of].
  1-2: cbn; eexists _, pos; split; [done|]; split; [by apply literal_ok..| |discriminate|reflexivity]; split; by apply literal_ok.
  set (mode := match i with 0%nat => _ | _ => _ end). assert (mode <> ModeV2c /\ mode <> ModeNoAuthNoPriv) as [Hm1 Hm2]
    by (unfold mode; destruct i; done).
  rewrite !bool_decide_false by done. destruct (pick_run (length auths) sc1 Ho ltac:(done)) as (j & pos2 & E2 & Hj).
  rewrite (bind_done _ _ _ _ _ E2). destruct (lookup_lt_is_Some_2 auths j Hj) as [auth Ha]. rewrite Ha.
  assert (auth <> AuthNone) as Hna.
  { intros ->. destruct j as [|[|[|j]]]; cbn in Ha; [congruence..|]. cbn in Hj. lia. }
  set (sc2 := Script.mkScript _ pos2). rewrite (bind_done _ _ sc2 auth sc2) by done. case_bool_decide.
  { eexists _, pos2. split; [done|]. split; [by apply literal_ok..| |done|reflexivity]. split; by apply literal_ok. }
  destruct (pick_run (length privs) sc2 Ho ltac:(done)) as (k & pos3 & E3 & Hk). rewrite (bind_done _ _ _ _ _ E3).
  destruct (lookup_lt_is_Some_2 privs k Hk) as [priv Hp]. rewrite Hp. eexists _, pos3. split; [done|].
  split; [by apply literal_ok..| |done|]; [split; by apply literal_ok|]. cbn. rewrite bool_decide_false; [done|].
  intros ->. destruct k as [|[|[|k]]]; cbn in Hp; [congruence..|]. cbn in Hk. lia.
Qed.

(** C40: Every input of the fuzzer sets up an iteration the Client accepts: reading it ends
    without undefined behaviour, in a profile whose level its protocols can give, one to
    four requests and at most one retry; and every request is one the Client's contract is
    about, whatever the input. *)
Theorem iterations_set_up (ep : Endpoint) input : octets_ok input ->
  exists su pos, prepare ep (Script.new input) = Done su (Script.mkScript input pos) /\ profile_ok (s_profile su) /\
    (1 <= s_requests su <= 4)%nat /\ endpoint (s_target su) = ep /\ 0 <= retries (s_target su) <= 1 /\
    length (request_calls su) = s_requests su /\ Forall call_given (request_calls su).
Proof.
  intros Ho. unfold prepare. destruct (readProfile_run (Script.new input) Ho) as (p & pos & E & Hp). rewrite (bind_done _ _ _ _ _ E).
  set (sc1 := Script.mkScript _ pos). destruct (pick_run 4 sc1 Ho ltac:(done)) as (n & pos2 & E2 & Hn). rewrite (bind_done _ _ _ _ _ E2).
  set (sc2 := Script.mkScript _ pos2). destruct (pick_run 2 sc2 Ho ltac:(done)) as (k & pos3 & E3 & Hk). rewrite (bind_done _ _ _ _ _ E3).
  eexists _, pos3. split; [done|]. split; [by apply chosen_profile|]. cbn [s_requests s_target endpoint retries].
  split; [lia|]. split; [done|]. split; [lia|]. split; [unfold request_calls; by rewrite length_map, length_seq|].
  apply list.Forall_forall. intros call Hc. apply list_elem_of_In, in_map_iff in Hc as (i & <- & Hi%in_seq). cbn in Hi.
  unfold request_call. cbn [s_profile s_target]. set (target := mkTarget _ _ _).
  assert (Forall Oids.oid_ok [requestOid i]) as Hw by (apply Forall_singleton, requestOid_wire; lia).
  destruct Hp as [[C1 C2] [U1 U2] [[A1 _] [P1 _]] _ _]. case_bool_decide.
  - destruct (names_given target (pr_community p) [requestOid i]) as [Hg _]; [split; [done|lia]|cbn; lia|done|cbn; lia|exact Hg].
  - destruct (names_given target (pr_creds p) [requestOid i]) as [Hg _]; [split; [done|]; split; [lia|done]|cbn; lia|done|cbn; lia|exact Hg].
Qed.

End Fair.

End OracleTheory.

(** ** Counting completions *)

(** What can be done to the handlers there are: a handler is moved from, destroyed, or
    called. *)
Inductive Act : Type :=
| MoveFrom (i : nat)
| Destroy (i : nat)
| Invoke (i : nat) (now : Z) (ec : ErrorCode) (r : ResponseResult).

Definition act (x : Act) (hs : list Handler) (os : list Outcome) : option (Rule + list Handler * list Outcome) :=
  match x with
  | MoveFrom i => h ← hs !! i; let '(made, rest) := move_from h in Some (inr (<[i := rest]> hs ++ [made], os))
  | Destroy i => h ← hs !! i; Some (inr (delete i hs, destroy h os))
  | Invoke i now ec r =>
      h ← hs !! i; Some (match invoke now h ec r os with inl rule => inl rule | inr os' => inr (hs, os') end)
  end.

Fixpoint acts (xs : list Act) (hs : list Handler) (os : list Outcome) : option (Rule + list Handler * list Outcome) :=
  match xs with
  | [] => Some (inr (hs, os))
  | x :: xs' =>
      match act x hs os with
      | Some (inr (hs', os')) => acts xs' hs' os'
      | other => other
      end
  end.

(** The handlers that still have record [k]. *)
Definition owners (k : nat) (hs : list Handler) : nat := length (filter (fun h => m_outcome h = Some k) hs).

Lemma owners_app k hs hs' : owners k (hs ++ hs') = (owners k hs + owners k hs')%nat.
Proof. unfold owners. by rewrite list.filter_app, length_app. Qed.

Definition owns (k : nat) (h : Handler) : nat := if bool_decide (m_outcome h = Some k) then 1 else 0.

Lemma owners_cons k h hs : owners k (h :: hs) = (owns k h + owners k hs)%nat.
Proof. unfold owners, owns. rewrite filter_cons. by case_bool_decide; [rewrite decide_True|rewrite decide_False]. Qed.

(** The handler at [i], and the others. *)
Lemma owners_at k i h hs : hs !! i = Some h ->
  owners k hs = (owns k h + owners k (delete i hs))%nat /\
  forall h', owners k (<[i := h']> hs) = (owns k h' + owners k (delete i hs))%nat.
Proof.
  revert i. induction hs as [|h0 hs IH]; intros [|i] Hi; [done|done|..].
  - cbn in Hi. injection Hi as ->. cbn. split; [apply owners_cons|]. intros h'. apply owners_cons.
  - cbn in Hi. destruct (IH i Hi) as [E1 E2]. change (delete (S i) (h0 :: hs)) with (h0 :: delete i hs).
    split; [rewrite !owners_cons; lia|]. intros h'. change (<[S i := h']> (h0 :: hs)) with (h0 :: <[i := h']> hs).
    rewrite !owners_cons, E2. lia.
Qed.

(** Every record has one owner, or was destroyed with it. *)
Definition counted (hs : list Handler) (os : list Outcome) : Prop :=
  forall k o, os !! k = Some o -> destructions o + Z.of_nat (owners k hs) = 1.

Lemma act_counted x hs os hs' os' : counted hs os -> act x hs os = Some (inr (hs', os')) -> counted hs' os' /\ length os' = length os.
Proof.
  intros Hc. destruct x as [i|i|i now ec r]; cbn [act]; destruct (hs !! i) as [h|] eqn:Eh; [|done| |done| |done].
  - cbn. intros [= <- <-]. split; [|done]. intros k o Ho. specialize (Hc k o Ho). destruct (owners_at k i h hs Eh) as [E1 E2].
    rewrite owners_app, E2, owners_cons. unfold owns at 1. cbn. rewrite bool_decide_false by done. change (owners k []) with 0%nat.
    assert (owns k (mkHandler (m_outcome h) (m_started h)) = owns k h) as -> by done. lia.
  - cbn. intros [= <- <-]. unfold destroy. destruct (m_outcome h) as [j|] eqn:Ej; [|split; [|done]].
    + split; [|apply length_alter]. intros k o. destruct (owners_at k i h hs Eh) as [E1 _]. unfold owns in E1. rewrite Ej in E1.
      destruct (decide (j = k)) as [<-|Hne].
      * rewrite list_lookup_alter_eq, fmap_Some. intros (o0 & Ho & ->). specialize (Hc _ _ Ho). cbn.
        rewrite bool_decide_true in E1 by done. lia.
      * rewrite list_lookup_alter_ne by done. intros Ho. specialize (Hc _ _ Ho). rewrite bool_decide_false in E1 by congruence. lia.
    + intros k o Ho. specialize (Hc _ _ Ho). destruct (owners_at k i h hs Eh) as [E1 _]. unfold owns in E1. rewrite Ej in E1.
      rewrite bool_decide_false in E1 by done. lia.
  - cbn. unfold invoke. destruct (m_outcome h) as [j|]; [|done]. intros [= <- <-]. split; [|apply length_alter].
    intros k o. destruct (decide (j = k)) as [<-|Hne].
    + rewrite list_lookup_alter_eq, fmap_Some. intros (o0 & Ho & ->). by apply (Hc _ _ Ho).
    + rewrite list_lookup_alter_ne by done. apply Hc.
Qed.

Lemma owners_new k started m n : owners k ((fun k => mkHandler (Some k) started) <$> seq m n) = if decide (m <= k < m + n)%nat then 1%nat else 0%nat.
Proof.
  revert m. induction n as [|n IH]; intros m; [by rewrite decide_False by lia|]. cbn [seq fmap list_fmap].
  change (list_fmap _ _ ?f ?l) with (f <$> l). rewrite owners_cons, IH. unfold owns. cbn.
  destruct (decide (m = k)) as [<-|Hne].
  - rewrite bool_decide_true, decide_False, decide_True by (done || lia). done.
  - rewrite bool_decide_false by congruence. repeat case_decide; (done || lia).
Qed.

(** The bookkeeping behind rule L1 is right.  However the handlers of an iteration are
    moved, called and destroyed, when none is left every record counts exactly one
    destruction; so a count other than one means a handler that was destroyed twice or
    never. *)
Theorem handlers_counted n started xs os : acts xs ((fun k => mkHandler (Some k) started) <$> seq 0 n) (replicate n blank) = Some (inr ([], os)) ->
  length os = n /\ Forall (fun o => destructions o = 1) os.
Proof.
  set (hs := fmap _ (seq 0 n)). assert (counted hs (replicate n blank)) as Hc.
  { intros k o [-> Hk]%lookup_replicate. cbn. subst hs. rewrite owners_new, decide_True by lia. done. }
  assert (length (replicate n blank) = n) as Hl by apply length_replicate. revert Hc Hl. generalize (replicate n blank) as os0. generalize hs.
  induction xs as [|x xs IH]; intros hs0 os0 Hc Hl; cbn [acts].
  - intros [= -> ->]. split; [done|]. apply list.Forall_forall. intros o [k Hk]%list_elem_of_lookup. specialize (Hc _ _ Hk). cbn in Hc. lia.
  - destruct (act x hs0 os0) as [[rule|[hs1 os1]]|] eqn:E; [done| |done]. destruct (act_counted _ _ _ _ _ Hc E) as [Hc1 Hl1].
    apply IH; [done|congruence].
Qed.
