(* ===== verification/Dialogues.v ===== *)
(** * Dialogues: a Client and an Agent on concrete input

    The theorems of [AgentTheory], [Composition], [V3Composition] and [OracleTheory] at work
    on the toy network of [Scenarios], with an Agent whose script is empty. *)

From stdpp Require Import gmap relations.
From S2P Require Import Prelude Errors Oids Values Ber BerWriter BerReader BerRoundtrip Pdu Usm V3Message Echo Client Engines Coroutine Strand Exchange Requests Walk System Liveness Operations Runs Agent AgentTheory Composition V3Composition Scenarios Oracle OracleTheory.

#[local] Existing Instance toy_net.
#[local] Existing Instance Toy.laws.

(** ** Profiles *)

Definition no_creds : Credentials := mkCredentials [] NoAuthNoPriv AuthNone [] PrivNone [].
Definition plain : Profile := mkProfile ModeV2c public no_creds.
Definition fuzzer : Profile :=
  mkProfile ModeAuthPriv public (mkCredentials (str "fuzzer") AuthPriv Sha256 (str "maplesyrup") Aes128 (str "pancakemix")).

Lemma plain_ok : profile_ok plain.
Proof. split; [split; [apply List.Forall_nil|vm_compute; discriminate]|split; apply List.Forall_nil|discriminate|reflexivity]. Qed.

Lemma fuzzer_ok : profile_ok fuzzer.
Proof.
  split; [split; [apply (bool_decide_unpack _); vm_compute; exact I|vm_compute; discriminate]| |discriminate|reflexivity].
  split; apply (bool_decide_unpack _); vm_compute; exact I.
Qed.

(** An Agent with nothing to say but what is asked. *)
Lemma agent_at p : profile_ok p -> exists a, agent_inv (ssl := Toy.ssl) p a /\ spent a.
Proof.
  intros Hp. destruct (construct_run p (Script.new []) ∅ 1 Hp (List.Forall_nil _)) as (a & _ & Hi & Hs & _).
  { intros row keys. by rewrite lookup_empty. }
  exists a. split; [done|]. unfold spent. by rewrite Hs.
Qed.

(** ** The Agent *)

(** A GET, and noise. *)
Definition asked_v2c : Octets :=
  match encodeV2cMessage (str "public") (mkPdu Get 5 0 0 (toVarbinds [uptime])) tt with Done (inr out) _ => out | _ => [] end.

Lemma agent_answers_witness : exists a a', construct Toy.ssl plain (Script.new [1; 2; 0x83; 7; 200]) ∅ 1 = Done tt a /\
  serve Toy.ssl [asked_v2c; [1; 2; 3]] a = Done tt a' /\ (length (a_sent a') <= 6)%nat.
Proof.
  destruct (agent_answers plain [1; 2; 0x83; 7; 200] ∅ 1 [asked_v2c; [1; 2; 3]] plain_ok) as (a & a' & E & E' & _ & Hl & _).
  - apply (bool_decide_unpack _). vm_compute. exact I.
  - intros row keys. rewrite lookup_empty. discriminate.
  - apply List.Forall_cons; [|apply List.Forall_cons; [|apply List.Forall_nil]];
      (split; [apply (bool_decide_unpack _); vm_compute; exact I|vm_compute; discriminate]).
  - intros Hm. destruct Hm. reflexivity.
  - exists a, a'. split; [exact E|]. split; [exact E'|exact Hl].
Defined.

Lemma keysFor_derives_witness : exists cache, keysFor Toy.ssl no_creds [1; 2; 3]
    (mkAgent (Script.new []) plain (mkKeys [] []) ∅ [] ∅ 1 []) =
  Done (mkKeys [] []) (with_cache cache (mkAgent (Script.new []) plain (mkKeys [] []) ∅ [] ∅ 1 [])).
Proof.
  destruct (keysFor_derives plain [1; 2; 3] (mkAgent (Script.new []) plain (mkKeys [] []) ∅ [] ∅ 1 []) plain_ok) as (cache & E & _).
  - intros row keys. cbn. rewrite lookup_empty. discriminate.
  - exists cache. exact E.
Defined.

(** A signed request at the far end of time. *)
Lemma agent_overflows_witness : exists datagram a, agent_inv (ssl := Toy.ssl) fuzzer a /\ datagram_ok datagram /\ answer Toy.ssl datagram a = Undef.
Proof.
  destruct (agent_at fuzzer fuzzer_ok) as (a & Hi & _).
  set (usm := mkUsmParameters m_engineId m_boots (-2147483648) (str "fuzzer") [] []).
  set (key := k_auth (keys_at (ssl := Toy.ssl) (pr_creds fuzzer) m_engineId)).
  set (scoped := mkScopedPdu m_engineId [] (with_requestId 5 (makePdu Get (toVarbinds [uptime])))).
  destruct (encode_reads fuzzer (discoveryHeader 5 AuthNoPriv) usm scoped Sha256 key PrivNone []
    (match enc_scoped scoped with Some sc => sc | None => [] end) 1) as (datagram & _ & msg & _ & Hl & [H1 H2 H3 H4 (x & y & H5) H6 H7 H8]).
  - split; [unfold int32_ok; cbn; lia|]. split; [unfold int32_ok; cbn; unfold defaultMaxMessageSize; lia|reflexivity].
  - repeat split; try (apply (bool_decide_unpack _); vm_compute; exact I); try (cbn; unfold m_boots; lia).
  - split; [apply (bool_decide_unpack _); vm_compute; exact I|]. split; [apply List.Forall_nil|].
    repeat split; try (unfold int32_ok; cbn; lia). apply Forall_singleton. split; [apply (bool_decide_unpack _); vm_compute; exact I|exact I].
  - vm_compute. reflexivity.
  - vm_compute. reflexivity.
  - split; [intros _|intros Hx; discriminate Hx]. split; [reflexivity|]. split; [discriminate|reflexivity].
  - assert (datagram_ok datagram) as Hd by (split; [exact H1|]; etransitivity; [exact Hl|vm_compute; discriminate]).
    assert (security msg = with_params usm x y) as Hs.
    { destruct (opened_run fuzzer datagram msg tt Hd H2) as (_ & _ & _ & _ & Hs & _). rewrite <- Hs. exact H5. }
    exists datagram, a. split; [exact Hi|]. split; [exact Hd|].
    apply (agent_overflows fuzzer datagram msg a fuzzer_ok Hi); try rewrite Hs; try reflexivity;
      [discriminate|exact Hd|exact H2|exact H8|exact H7|vm_compute; discriminate].
Defined.

(** ** Served *)

Definition queued_v2c : System := play [Start 0%nat get].

Lemma v2c_request_served_witness : exists a s' a' seen, agent_inv (ssl := Toy.ssl) plain a /\
  converse (ssl := Toy.ssl) 9%nat [Do (Begin 0%nat); Talk 0%nat] (queued_v2c, a) = Some (s', a') /\
  s_tasks s' !! 0%nat = Some (Finished get (s_client queued_v2c)
    (RequestResult (no_error, mkResponse [mkVarbind uptime (ValInt32 42)] 0)) seen).
Proof.
  destruct (agent_at plain plain_ok) as (a & Hi & Hs).
  destruct (v2c_request_served 9%nat queued_v2c 0%nat agent (str "public") (makePdu Get (toVarbinds [uptime])) plain a)
    as (s' & a' & seen & E & Ef).
  - apply play_reachable; [moves ltac:(apply get_given)|vm_compute; reflexivity].
  - vm_compute. reflexivity.
  - reflexivity.
  - discriminate.
  - cbn. lia.
  - reflexivity.
  - exact Hi.
  - exact Hs.
  - reflexivity.
  - eexists. split; [vm_compute; reflexivity|vm_compute; discriminate].
  - eexists. split; [vm_compute; reflexivity|vm_compute; discriminate].
  - exists a, s', a', seen. split; [exact Hi|]. split; [exact E|exact Ef].
Defined.

Definition get_secret : Call := asyncGet agent (pr_creds fuzzer) [uptime].

Lemma get_secret_given : call_given get_secret.
Proof.
  destruct (names_given agent (pr_creds fuzzer) [uptime]) as [H _]; [|cbn; lia| |cbn; lia|exact H].
  - split; [apply (bool_decide_unpack _); vm_compute; exact I|]. split; [vm_compute; discriminate|].
    split; apply (bool_decide_unpack _); vm_compute; exact I.
  - apply Forall_singleton, uptime_wire.
Qed.

Definition queued_v3 : System := play [Start 0%nat get_secret].

Lemma v3_request_served_witness : exists a s' a' seen, agent_inv (ssl := Toy.ssl) fuzzer a /\
  converse (ssl := Toy.ssl) 9%nat
    [Do (Begin 0%nat); Do (Post 1%nat); Do (Begin 1%nat); Talk 1%nat; Talk 1%nat; Do (Resume 0%nat); Talk 0%nat] (queued_v3, a) = Some (s', a') /\
  s_tasks s' !! 0%nat = Some (Finished get_secret (s_client queued_v3)
    (RequestResult (no_error, mkResponse [mkVarbind uptime (ValInt32 42)] 0)) seen).
Proof.
  destruct (agent_at fuzzer fuzzer_ok) as (a & Hi & Hs).
  destruct (v3_request_served 9%nat queued_v3 0%nat 1%nat agent (makePdu Get (toVarbinds [uptime])) fuzzer a)
    as (s' & a' & seen & E & Ef).
  - apply play_reachable; [moves ltac:(apply get_secret_given)|vm_compute; reflexivity].
  - exact fuzzer_ok.
  - split; discriminate.
  - discriminate.
  - vm_compute. discriminate.
  - discriminate.
  - vm_compute. reflexivity.
  - vm_compute. reflexivity.
  - split; [reflexivity|reflexivity|discriminate|cbn; lia|reflexivity].
  - reflexivity.
  - reflexivity.
  - reflexivity.
  - reflexivity.
  - reflexivity.
  - split; [repeat split; try (unfold int32_ok; cbn; lia); apply Forall_singleton; split; [apply (bool_decide_unpack _); vm_compute; exact I|exact I]|].
    eexists. split; vm_compute; reflexivity.
  - split; [repeat split; try (unfold int32_ok; cbn; lia); apply Forall_singleton; split; [apply (bool_decide_unpack _); vm_compute; exact I|]|].
    + unfold value_ok, int32_ok. cbn. lia.
    + eexists. split; vm_compute; reflexivity.
  - exact Hi.
  - exact Hs.
  - exists a, s', a', seen. split; [exact Hi|]. split; [exact E|exact Ef].
Defined.

(** ** Judged *)

(** What an operation is about to send, and what the Agent says last. *)
Definition sending_now (o : op) (s : System (Endpoint := nat)) : Octets :=
  match s_tasks s !! o with Some (Suspended _ _ (CoSend _ d _) _) => d | _ => [] end.

Definition state_of {A} (x : Prelude.outcome Agent A) (a : Agent) : Agent := match x with Done _ a' => a' | _ => a end.

Definition fresh_agent (p : Profile) : Agent :=
  state_of (construct Toy.ssl p (Script.new []) ∅ 1) (mkAgent (Script.new []) p (mkKeys [] []) ∅ [] ∅ 1 []).
Definition after (p : Profile) (ds : list Octets) : Agent := state_of (serve Toy.ssl ds (fresh_agent p)) (fresh_agent p).
Definition said (p : Profile) (ds : list Octets) : Octets := match a_sent (after p ds) with (d, _) :: _ => d | [] => [] end.

Ltac datagram := split; [apply (bool_decide_unpack _); vm_compute; exact I|vm_compute; discriminate].

(** Members of a list that is known. *)
Ltac members H := repeat (apply elem_of_cons in H as [H|H]); [..|apply not_elem_of_nil in H; destruct H].

Lemma sent_inj (to to' : nat) d d' ec ec' : Sent to d ec = Sent to' d' ec' -> d = d' /\ ec = ec'.
Proof. intros E. injection E as _ -> ->. done. Qed.

Definition get0 : Call := asyncGet agent public [requestOid 0].
Definition asked0 : Octets := sending_now 0%nat (play [Start 0%nat get0; Begin 0%nat]).
Definition reply0 : Octets := said plain [asked0].
Definition asked_run : list Move := [Start 0%nat get0; Begin 0%nat; Resume 0%nat; Deliver reply0 7%nat].

Lemma get0_given : call_given get0.
Proof.
  destruct (names_given agent public [requestOid 0]) as [H _]; [apply public_given|cbn; lia| |cbn; lia|exact H].
  apply Forall_singleton, requestOid_wire. lia.
Qed.

Lemma asked_run_reachable : reachable Toy.ssl (play asked_run).
Proof. apply play_reachable; [moves ltac:(first [apply get0_given|datagram])|vm_compute; reflexivity]. Qed.

Lemma v2c_not_accused_witness : exists a' b' r, r = (no_error, mkResponse [mkVarbind (requestOid 0) (ValInt32 42)] 0) /\
  Oracle.settle Toy.ssl (Oracle.mkBench a' (ledger_of a' 1)) = Done tt b' /\
  Oracle.judge 0 (completion r 25000000) (Oracle.b_ledger b') plain agent b' = Done None b'.
Proof.
  assert (construct Toy.ssl plain (Script.new []) ∅ 1 = Done tt (fresh_agent plain)) as Ec by (vm_compute; reflexivity).
  assert (serve Toy.ssl [asked0] (fresh_agent plain) = Done tt (after plain [asked0])) as Es by (vm_compute; reflexivity).
  assert (a_sent (after plain [asked0]) = [(reply0, true)]) as Hsent by (vm_compute; reflexivity).
  assert (exists s' start r seen, move Toy.ssl fair (play asked_run) (Resume 0%nat) = Some s' /\
    s_tasks s' !! 0%nat = Some (Finished get0 start (RequestResult r) seen) /\
    r = (no_error, mkResponse [mkVarbind (requestOid 0) (ValInt32 42)] 0) /\
    seen = [Sent 7%nat asked0 no_error; Waited (0, 0)%nat 0] /\ m_received (s_client s') = [(reply0, 7%nat)] /\
    m_stopping (s_client s') = false /\ cancelled 0%nat (s_client s') = 0 /\ m_now (s_client s') - m_now start = 0)
    as (s' & start & r & seen & M & Eo & Er & -> & Hrec & Hst & Hca & Hnow)
    by (eexists _, _, _, _; split_and!; (vm_compute; reflexivity)).
  destruct (v2c_not_accused plain [] ∅ 1 [asked0] 1 (fresh_agent plain) (after plain [asked0]) (play asked_run) s' 0%nat agent 0 start r
    [Sent 7%nat asked0 no_error; Waited (0, 0)%nat 0] 25000000) as (b' & H1 & H2).
  - exact plain_ok.
  - apply List.Forall_nil.
  - intros row keys. rewrite lookup_empty. discriminate.
  - reflexivity.
  - apply Forall_singleton. datagram.
  - exact Ec.
  - exact Es.
  - apply (bool_decide_unpack _). vm_compute. exact I.
  - lia.
  - lia.
  - split; [exact asked_run_reachable|apply (move_step Toy.ssl fair _ (Resume 0%nat)); [exact I|exact M]|vm_compute; reflexivity
           |exact Eo|split; [exact Hst|exact Hca]|discriminate|].
    intros to d ec Hin. members Hin; [apply sent_inj in Hin as [_ ->]; reflexivity|discriminate Hin].
  - cbn. lia.
  - intros d Hin. rewrite Hrec in Hin. members Hin. apply (f_equal fst) in Hin. unfold fst in Hin. rewrite Hin, Hsent. apply elem_of_cons. left. reflexivity.
  - intros to d ec Hin. members Hin; [apply sent_inj in Hin as [-> _]; apply elem_of_cons; left; reflexivity|discriminate Hin].
  - intros to d ec msg d' msg' _ _ Hin Hd _. members Hin. subst d'.
    assert (match dec_whole p_v2c asked0 with inr m => requestIndexOf (v2c_pdu m) = Some 0%nat | inl _ => False end) as Hx
      by (vm_compute; reflexivity).
    rewrite Hd in Hx. exact Hx.
  - lia.
  - exists (after plain [asked0]), b', r. split; [exact Er|]. split; [exact H1|exact H2].
Defined.

(** At SNMPv3, with an Engine to be discovered first. *)
Definition guest : Profile := mkProfile ModeNoAuthNoPriv public (mkCredentials (str "fuzzer") NoAuthNoPriv AuthNone [] PrivNone []).

Lemma guest_ok : profile_ok guest.
Proof.
  split; [split; [apply (bool_decide_unpack _); vm_compute; exact I|vm_compute; discriminate]|split; apply List.Forall_nil|discriminate|reflexivity].
Qed.

Definition get1 : Call := asyncGet agent (pr_creds guest) [requestOid 0].

Lemma get1_given : call_given get1.
Proof.
  destruct (names_given agent (pr_creds guest) [requestOid 0]) as [H _]; [|cbn; lia| |cbn; lia|exact H].
  - split; [apply (bool_decide_unpack _); vm_compute; exact I|]. split; [vm_compute; discriminate|]. split; apply List.Forall_nil.
  - apply Forall_singleton, requestOid_wire. lia.
Qed.

Definition who_run : list Move := [Start 0%nat get1; Begin 0%nat; Post 1%nat; Begin 1%nat].
Definition who : Octets := sending_now 1%nat (play who_run).
Definition found_run : list Move := who_run ++ [Resume 1%nat; Deliver (said guest [who]) 7%nat; Resume 1%nat; Resume 0%nat].
Definition asked1 : Octets := sending_now 0%nat (play found_run).
Definition reply1 : Octets := said guest [who; asked1].
Definition told_run : list Move := found_run ++ [Resume 0%nat; Deliver reply1 7%nat].

Lemma told_reachable : reachable Toy.ssl (play told_run).
Proof.
  apply play_reachable; [|vm_compute; reflexivity]. repeat (apply Forall_app; split); moves ltac:(first [apply get1_given|datagram]).
Qed.

(** Nothing of it is authenticated. *)
Definition unsigned (d : Octets) : bool :=
  match dec_v3 d with inr msg => negb (isAuthenticated (h_level (header msg))) | inl _ => true end.

Lemma unsigned_measured p d msg : datagram_ok d -> unsigned d = true -> dec_v3 d = inr msg -> measured (ssl := Toy.ssl) p d msg.
Proof.
  unfold unsigned. intros Hd Hu E. rewrite E in Hu. apply negb_true_iff in Hu. intros _ _ Ha.
  destruct (opened_run p d msg tt Hd E) as (_ & _ & _ & Hh & _). rewrite Hh in Ha. congruence.
Qed.

Lemma v3_not_accused_witness : exists a' b' r, r = (no_error, mkResponse [mkVarbind (requestOid 0) (ValInt32 42)] 0) /\
  Oracle.settle Toy.ssl (Oracle.mkBench a' (ledger_of a' 1)) = Done tt b' /\
  Oracle.judge 0 (completion r 25000000) (Oracle.b_ledger b') guest agent b' = Done None b'.
Proof.
  assert (construct Toy.ssl guest (Script.new []) ∅ 1 = Done tt (fresh_agent guest)) as Ec by (vm_compute; reflexivity).
  assert (serve Toy.ssl [who; asked1] (fresh_agent guest) = Done tt (after guest [who; asked1])) as Es by (vm_compute; reflexivity).
  assert (a_sent (after guest [who; asked1]) = [(reply1, true); (said guest [who], true)]) as Hsent by (vm_compute; reflexivity).
  assert (exists s' start r seen, move Toy.ssl fair (play told_run) (Resume 0%nat) = Some s' /\
    s_tasks s' !! 0%nat = Some (Finished get1 start (RequestResult r) seen) /\
    r = (no_error, mkResponse [mkVarbind (requestOid 0) (ValInt32 42)] 0) /\
    seen = [Parked (0, 0)%nat; Sent 7%nat asked1 no_error; Waited (0, 1)%nat 0] /\
    m_received (s_client s') = [(reply1, 7%nat); (said guest [who], 7%nat)] /\
    m_stopping (s_client s') = false /\ cancelled 0%nat (s_client s') = 0 /\ m_now (s_client s') - m_now start = 0 /\
    socket_of (is_v6 (endpoint agent)) (s_client s') = SocketOpen)
    as (s' & start & r & seen & M & Eo & Er & Hseen & Hrec & Hst & Hca & Hnow & Hso) by (eexists _, _, _, _; split_and!; (vm_compute; reflexivity)).
  assert (Forall datagram_ok [who; asked1]) as Hds by (apply List.Forall_cons; [datagram|apply Forall_singleton; datagram]).
  destruct (v3_not_accused guest [] ∅ 1 [who; asked1] 1 (fresh_agent guest) (after guest [who; asked1]) (play told_run) s' 0%nat agent 0
    start r seen 25000000) as [(ec & Hx & _)|(b' & H1 & H2)].
  - exact guest_ok.
  - apply List.Forall_nil.
  - intros row keys. rewrite lookup_empty. discriminate.
  - discriminate.
  - exact Hds.
  - intros d msg Hin. apply unsigned_measured; [exact (proj1 (list.Forall_forall _ _) Hds d Hin)|].
    members Hin; rewrite Hin; vm_compute; reflexivity.
  - exact Ec.
  - exact Es.
  - lia.
  - lia.
  - discriminate.
  - discriminate.
  - split; [exact told_reachable|apply (move_step Toy.ssl fair _ (Resume 0%nat)); [exact I|exact M]|vm_compute; reflexivity
           |exact Eo|split; [exact Hst|exact Hca]|rewrite Hseen; discriminate|].
    intros to d ec Hin. rewrite Hseen in Hin. members Hin; [discriminate Hin|apply sent_inj in Hin as [_ ->]; reflexivity|discriminate Hin].
  - cbn. lia.
  - rewrite Hso. discriminate.
  - intros d Hin. rewrite Hrec in Hin. rewrite Hsent. members Hin; apply (f_equal fst) in Hin; unfold fst in Hin; rewrite Hin;
      [apply elem_of_cons; left; reflexivity|apply elem_of_cons; right; apply elem_of_cons; left; reflexivity].
  - intros to d ec Hin. rewrite Hseen in Hin. members Hin; [discriminate Hin| |discriminate Hin].
    apply sent_inj in Hin as [-> _]. apply elem_of_cons. right. apply elem_of_cons. left. reflexivity.
  - intros to d ec msg d' msg' Hin Hd Hin' Hd' Hid. rewrite Hseen in Hin. members Hin; [discriminate Hin| |discriminate Hin].
    apply sent_inj in Hin as [-> _]. members Hin'; [|exact Hin']. exfalso. subst d'.
    assert (match dec_v3 who, dec_v3 asked1 with inr m, inr m' => negb (msgId (header m) =? msgId (header m')) | _, _ => false end = true)
      as Hx by (vm_compute; reflexivity).
    rewrite Hd, Hd', Hid, Z.eqb_refl in Hx. discriminate Hx.
  - lia.
  - rewrite Er in Hx. apply (f_equal snd) in Hx. discriminate Hx.
  - exists (after guest [who; asked1]), b', r. split; [exact Er|]. split; [exact H1|exact H2].
Defined.

Lemma ledger_entitles_witness : exists b', Oracle.settle Toy.ssl (Oracle.mkBench (fresh_agent plain)
    (fold_left (fun l x => Oracle.sent x.1 x.2 l) [(reply0, true); ([1; 2; 3], false)] (Oracle.new 2))) = Done tt b' /\
  length (Oracle.m_entitlements (Oracle.b_ledger b')) = 2%nat.
Proof.
  destruct (construct_run plain (Script.new []) ∅ 1 plain_ok (List.Forall_nil _)) as (a & E & Hi & _).
  { intros row keys. by rewrite lookup_empty. }
  assert (construct Toy.ssl plain (Script.new []) ∅ 1 = Done tt (fresh_agent plain)) as Ec by (vm_compute; reflexivity).
  assert (a = fresh_agent plain) as -> by (rewrite E in Ec; injection Ec; auto).
  destruct (ledger_entitles plain (fresh_agent plain) [(reply0, true); ([1; 2; 3], false)] 2 plain_ok Hi) as (b' & H1 & _ & H3 & _).
  - apply List.Forall_cons; [|apply Forall_singleton]; (split; [apply (bool_decide_unpack _); vm_compute; exact I|vm_compute; reflexivity]).
  - exists b'. split; [exact H1|exact H3].
Defined.

Lemma iterations_set_up_witness : exists su pos, Oracle.prepare 7%nat (Script.new [3; 2; 1; 1; 1]) = Done su (Script.mkScript [3; 2; 1; 1; 1] pos) /\
  profile_ok (Oracle.s_profile su) /\ Forall call_given (Oracle.request_calls su).
Proof.
  destruct (iterations_set_up 7%nat [3; 2; 1; 1; 1]) as (su & pos & E & Hp & _ & _ & _ & _ & Hg).
  - apply (bool_decide_unpack _). vm_compute. exact I.
  - exists su, pos. split; [exact E|]. split; [exact Hp|exact Hg].
Defined.

(** Moved twice, called, and all three destroyed. *)
Lemma handlers_counted_witness : exists os,
  acts [MoveFrom 0; MoveFrom 1; Invoke 2 5 no_error empty_response; Destroy 2; Destroy 1; Destroy 0]
    ((fun k => Oracle.mkHandler (Some k) 0) <$> seq 0 1) (replicate 1 Oracle.blank) = Some (inr ([], os)) /\
  Forall (fun o => Oracle.destructions o = 1) os.
Proof.
  set (os := [Oracle.mkOutcome 1 1 no_error empty_response 5]).
  assert (acts [MoveFrom 0; MoveFrom 1; Invoke 2 5 no_error empty_response; Destroy 2; Destroy 1; Destroy 0]
    ((fun k => Oracle.mkHandler (Some k) 0) <$> seq 0 1) (replicate 1 Oracle.blank) = Some (inr ([], os))) as E by (vm_compute; reflexivity).
  exists os. split; [exact E|]. destruct (handlers_counted 1 0 _ os E) as [_ H]. exact H.
Defined.
